(** * Export types of the slang RenderScript front end

    A shallow embedding of [slang_rs_export_type.cpp]: the exportability
    check over host (clang) types, the canonical naming of types, the
    interning factory [RSExportType::Create] with the per-compilation
    registry, and the [keep] / [equals] operations of the export-type
    hierarchy. *)

From Stdlib Require Import ZArith NArith Lia Ascii String.
From stdpp Require Import base option list gmap strings fin_maps pretty.

Open Scope string_scope.

(** ** Outcomes of a call

    A call either returns, stops at a failed [assert], reads an array
    outside its bounds, follows a pointer to an object that is not (or no
    longer) allocated, or (in the model only) exhausts the recursion budget
    given to it. *)

Inductive Outcome (A : Type) : Type :=
| Done (a : A)
| AssertFailed (what : string)
| OutOfBoundsRead (index : Z)
| DanglingPointer (address : nat)
| OutOfFuel.
Arguments Done {A} a.
Arguments AssertFailed {A} what.
Arguments OutOfBoundsRead {A} index.
Arguments DanglingPointer {A} address.
Arguments OutOfFuel {A}.

(** State-and-abort monad: the state is the visited set plus emitted
    diagnostics for the checker, the compilation context for the factory. *)
Definition M (S A : Type) : Type := S → Outcome (A * S).

Definition ret {S A} (a : A) : M S A := λ s, Done (a, s).
Definition bind {S A B} (c : M S A) (k : A → M S B) : M S B :=
  λ s, match c s with
       | Done (a, s') => k a s'
       | AssertFailed w => AssertFailed w
       | OutOfBoundsRead i => OutOfBoundsRead i
       | DanglingPointer a => DanglingPointer a
       | OutOfFuel => OutOfFuel
       end.
Definition assert_false {S A} (what : string) : M S A := λ _, AssertFailed what.
Definition out_of_bounds {S A} (index : Z) : M S A := λ _, OutOfBoundsRead index.
Definition out_of_fuel {S A} : M S A := λ _, OutOfFuel.
Definition get {S} : M S S := λ s, Done (s, s).
Definition modify {S} (f : S → S) : M S unit := λ s, Done (tt, f s).

Notation "x <-- c ;; k" := (bind c (λ x, k))
  (at level 100, c at next level, right associativity).
Notation "c ;;; k" := (bind c (λ _, k))
  (at level 100, right associativity).

(** ** Host types (the part of the clang AST the code reads) *)

Module BuiltinType.

(** [clang::BuiltinType::Kind]. *)
Inductive Kind :=
| Void | Bool | Char_U | UChar | WChar_U | Char16 | Char32
| UShort | UInt | ULong | ULongLong | UInt128
| Char_S | SChar | WChar_S | Short | Int | Long | LongLong | Int128
| Float | Double | LongDouble.

#[global] Instance Kind_eq_dec : EqDecision Kind.
Proof. solve_decision. Defined.

End BuiltinType.

(** Tag of a record declaration: [struct], [union] or (C++) [class]. *)
Inductive TagKind := TTK_Struct | TTK_Union | TTK_Class.

#[global] Instance TagKind_eq_dec : EqDecision TagKind.
Proof. solve_decision. Defined.

(** A [clang::RecordDecl] as far as it is read without its definition:
    its own name, the typedef that names an anonymous declaration, and the
    names found on its redeclaration chain. *)
Record RecordDecl := mkRecordDecl {
  declName : string;
  declLocation : nat;
  typedefForAnonDecl : option string;
  redeclNames : list string;
  tagKind : TagKind
}.

(** Canonical [clang::Type]: typedefs are resolved, so the pointee and
    element types below are what GET_POINTEE_TYPE,
    GET_EXT_VECTOR_ELEMENT_TYPE and GET_CONSTANT_ARRAY_ELEMENT_TYPE return.
    Canonical types are unique in clang, hence pointer equality of
    [clang::Type*] is equality of these terms. A record type names its
    declaration, a [clang::RecordDecl*], by a number. *)
Inductive Ty :=
| BuiltinTy (k : BuiltinType.Kind)
| RecordTy (RD : nat)
| PointerTy (pointee : Ty)
| ExtVectorTy (elem : Ty) (numElements : N)
| ConstantArrayTy (elem : Ty) (size : N)
| IncompleteArrayTy (elem : Ty)
| EnumTy (name : string)
| FunctionNoProtoTy (result : Ty).

#[global] Instance Ty_eq_dec : EqDecision Ty.
Proof. solve_decision. Defined.

(** [clang::Type::TypeClass]; [TC_Typedef] is the class of a type written
    through a typedef name before it is made canonical. *)
Inductive TypeClass :=
| TC_Builtin | TC_Record | TC_Pointer | TC_ExtVector | TC_ConstantArray
| TC_IncompleteArray | TC_Enum | TC_FunctionNoProto | TC_Typedef.

#[global] Instance TypeClass_eq_dec : EqDecision TypeClass.
Proof. solve_decision. Defined.

Definition getTypeClass (T : Ty) : TypeClass :=
  match T with
  | BuiltinTy _ => TC_Builtin
  | RecordTy _ => TC_Record
  | PointerTy _ => TC_Pointer
  | ExtVectorTy _ _ => TC_ExtVector
  | ConstantArrayTy _ _ => TC_ConstantArray
  | IncompleteArrayTy _ => TC_IncompleteArray
  | EnumTy _ => TC_Enum
  | FunctionNoProtoTy _ => TC_FunctionNoProto
  end.

Definition isArrayType (T : Ty) : bool :=
  match T with
  | ConstantArrayTy _ _ | IncompleteArrayTy _ => true
  | _ => false
  end.

(** A type as written in a declaration: the typedef names it goes through
    (outermost first, empty when written directly) and its canonical
    form. *)
Record QualType := mkQualType {
  typedefChain : list string;
  canonicalType : Ty
}.

Definition writtenTypeClass (Q : QualType) : TypeClass :=
  match typedefChain Q with
  | [] => getTypeClass (canonicalType Q)
  | _ :: _ => TC_Typedef
  end.

(** GET_CANONICAL_TYPE on a non-null written type. *)
Definition GET_CANONICAL_TYPE (Q : QualType) : Ty := canonicalType Q.

Record FieldDecl := mkFieldDecl {
  fieldName : string;
  fieldLocation : nat;
  fieldQualType : QualType;
  isBitField : bool
}.

Record VarDecl := mkVarDecl {
  varName : string;
  varLocation : nat;
  varQualType : QualType
}.

(** What a record's definition adds: fields in declaration order, the two
    flags of the fast check, the packed attribute and the layout clang
    computed (sizes and offsets in bits). *)
Record RecordDef := mkRecordDef {
  fields : list FieldDecl;
  hasFlexibleArrayMember : bool;
  hasObjectMember : bool;
  hasPackedAttr : bool;
  layoutSize : N;
  layoutFieldOffsets : list N
}.

(** [RSExportType::GetTypeOfDecl] for a field. *)
Definition GetTypeOfDecl (FD : FieldDecl) : QualType := fieldQualType FD.

(** ** Data types of primitives

    The members of [RSExportPrimitiveType::DataType] that the source
    names; the object (handle) tags between [FirstRSObjectType] and
    [LastRSObjectType] are not named there and are numbered here. *)
Inductive DataType :=
| DataTypeUnknown
| DataTypeFloat32 | DataTypeFloat64
| DataTypeSigned8 | DataTypeSigned16 | DataTypeSigned32 | DataTypeSigned64
| DataTypeUnsigned8 | DataTypeUnsigned16 | DataTypeUnsigned32
| DataTypeUnsigned64
| DataTypeBoolean
| DataTypeUnsigned565 | DataTypeUnsigned5551 | DataTypeUnsigned4444
| DataTypeRSMatrix2x2 | DataTypeRSMatrix3x3 | DataTypeRSMatrix4x4
| DataTypeRSObject (tag : nat).

#[global] Instance DataType_eq_dec : EqDecision DataType.
Proof. solve_decision. Defined.

(** ** Diagnostics *)

Record Diagnostic := mkDiagnostic {
  diagLocation : option nat;
  diagMessage : string;
  diagArgs : list string
}.

#[global] Instance Diagnostic_eq_dec : EqDecision Diagnostic.
Proof. solve_decision. Defined.

(** State of one exportability check: the set [SPS] of types being or
    already checked, and the diagnostics reported so far (oldest first). *)
Record CheckState := mkCheckState {
  SPS : list Ty;
  reported : list Diagnostic
}.

Definition Report (d : Diagnostic) : M CheckState unit :=
  modify (λ st, mkCheckState (SPS st) (reported st ++ [d])).

Definition SPS_count (T : Ty) : M CheckState bool :=
  λ st, Done (bool_decide (T ∈ SPS st), st).

Definition SPS_insert (T : Ty) : M CheckState unit :=
  modify (λ st, mkCheckState (if bool_decide (T ∈ SPS st) then SPS st
                              else T :: SPS st) (reported st)).

(** ** Names and the exportability check *)

Section Slang.

(** RSClangBuiltinEnums.inc is not part of the sources at hand: its rows
    ENUM_SUPPORT_BUILTIN_TYPE(builtin_type, type, cname) are taken as a
    table from builtin kind to data type and C name. *)
Variable SupportedBuiltin : BuiltinType.Kind → option (DataType * string).

(** RSMatrixTypeEnums.inc and RSObjectTypeEnums.inc are not part of the
    sources either: the map [RSSpecificTypeMap] they fill is taken as
    given. *)
Variable RSSpecificTypeMap : gmap string DataType.

(** The record declarations of the translation unit, and
    [RecordDecl::getDefinition()]: the definitions present in the module. *)
Variable decls : nat → RecordDecl.
Variable definitions : gmap nat RecordDef.

Definition getDefinition (RD : nat) : option RecordDef := definitions !! RD.

Definition isUnionType (T : Ty) : bool :=
  match T with
  | RecordTy RD => bool_decide (tagKind (decls RD) = TTK_Union)
  | _ => false
  end.

Definition isStructureType (T : Ty) : bool :=
  match T with
  | RecordTy RD => bool_decide (tagKind (decls RD) = TTK_Struct)
  | _ => false
  end.

Definition isEmptyName (s : string) : bool := bool_decide (s = "").

(** The loop of [RSExportType::GetTypeName] over the redeclarations: the
    name ends as the first non-empty one, or empty. *)
Fixpoint firstNonEmpty (names : list string) : string :=
  match names with
  | [] => ""
  | n :: rest => if isEmptyName n then firstNonEmpty rest else n
  end.

(** The [Record] case of [RSExportType::GetTypeName]. *)
Definition GetRecordTypeName (RD : RecordDecl) : string :=
  if bool_decide (tagKind RD = TTK_Struct) then
    let Name := declName RD in
    if isEmptyName Name then
      let Name := match typedefForAnonDecl RD with
                  | Some n => n
                  | None => Name
                  end in
      if isEmptyName Name then firstNonEmpty (redeclNames RD) else Name
    else Name
  else "".

(** [RSExportPrimitiveType::GetRSSpecificType], the overload on names. *)
Definition GetRSSpecificTypeOfName (TypeName : string) : DataType :=
  if isEmptyName TypeName then DataTypeUnknown
  else match RSSpecificTypeMap !! TypeName with
       | None => DataTypeUnknown
       | Some dt => dt
       end.

(** [RSExportPrimitiveType::GetRSSpecificType], the overload on types. *)
Definition GetRSSpecificType (T : Ty) : DataType :=
  match T with
  | RecordTy RD => GetRSSpecificTypeOfName (GetRecordTypeName (decls RD))
  | _ => DataTypeUnknown
  end.

(** [RSExportPrimitiveType::IsPrimitiveType]. *)
Definition IsPrimitiveType (T : Ty) : bool :=
  bool_decide (getTypeClass T = TC_Builtin).

(** [ReportTypeError]: [Diags] and [SM] say whether the two pointers are
    non-null. *)
Definition ReportTypeError (Diags SM : bool) (VD : option VarDecl)
    (TopLevelRecord : option nat) (Message : string)
  : M CheckState unit :=
  if negb Diags || negb SM then ret tt
  else match TopLevelRecord with
       | Some TLR =>
           Report (mkDiagnostic (Some (declLocation (decls TLR))) Message
                     [declName (decls TLR)])
       | None =>
           match VD with
           | Some vd =>
               Report (mkDiagnostic (Some (varLocation vd)) Message [varName vd])
           | None => assert_false "Variables should be validated before exporting"
           end
       end.

(** [ConstantArrayTypeExportableHelper]; [Helper] is
    [TypeExportableHelper] at the same arguments [SPS], [Diags], [SM],
    [VD] and [TopLevelRecord]. *)
Definition ConstantArrayTypeExportableHelper
    (Helper : Ty → M CheckState (option Ty))
    (CAT ElementType : Ty) (Size : N)
    (Diags SM : bool) (VD : option VarDecl)
    (TopLevelRecord : option nat) : M CheckState (option Ty) :=
  let recurse :=
    r <-- Helper ElementType ;;
    match r with
    | None => ret None
    | Some _ => ret (Some CAT)
    end in
  if isArrayType ElementType then
    ReportTypeError Diags SM VD TopLevelRecord
      "multidimensional arrays cannot be exported: '%0'" ;;;
    ret None
  else
    match ElementType with
    | ExtVectorTy BaseElementType numElements =>
        if negb (IsPrimitiveType BaseElementType) then
          ReportTypeError Diags SM VD TopLevelRecord
            "vectors of non-primitive types cannot be exported: '%0'" ;;;
          ret None
        else if bool_decide (numElements = 3%N)
                && negb (bool_decide (Size = 1%N)) then
          ReportTypeError Diags SM VD TopLevelRecord
            "arrays of width 3 vector types cannot be exported: '%0'" ;;;
          ret None
        else recurse
    | _ => recurse
    end.

(** The loop of [TypeExportableHelper] over the fields of [RD]; the result
    says whether the loop ran to its end. *)
Fixpoint checkFields (Helper : Ty → M CheckState (option Ty))
    (Diags SM : bool) (RD : nat) (FDs : list FieldDecl)
  : M CheckState bool :=
  match FDs with
  | [] => ret true
  | FD :: rest =>
      let FT := GET_CANONICAL_TYPE (GetTypeOfDecl FD) in
      r <-- Helper FT ;;
      match r with
      | None => ret false
      | Some _ =>
          if isBitField FD then
            (if Diags && SM then
               Report (mkDiagnostic (Some (fieldLocation FD))
                         "bit fields are not able to be exported: '%0.%1'"
                         [declName (decls RD); fieldName FD])
             else ret tt) ;;;
            ret false
          else checkFields Helper Diags SM RD rest
      end
  end.

(** [TypeExportableHelper]. The argument is canonical already. [fuel]
    bounds how many records deep the check may go; it is spent where the
    code descends into the fields of a record. *)
Fixpoint TypeExportableHelper (fuel : nat) (Diags SM : bool)
    (VD : option VarDecl) (TopLevelRecord : option nat) (T : Ty)
    {struct fuel} : M CheckState (option Ty) :=
  (fix go (T : Ty) {struct T} : M CheckState (option Ty) :=
     seen <-- SPS_count T ;;
     if (seen : bool) then ret (Some T) else
     match T with
     | BuiltinTy k =>
         match SupportedBuiltin k with
         | Some _ => ret (Some T)
         | None => ret None
         end
     | RecordTy RD0 =>
         if negb (bool_decide (GetRSSpecificType T = DataTypeUnknown)) then
           ret (Some T)
         else if isUnionType T then
           ReportTypeError Diags SM None (Some RD0)
             "unions cannot be exported: '%0'" ;;;
           ret None
         else if negb (isStructureType T) then
           assert_false "Unknown type cannot be exported"
         else
           match getDefinition RD0 with
           | None =>
               ReportTypeError Diags SM None (Some RD0)
                 "struct is not defined in this module" ;;;
               ret None
           | Some Def =>
               (* from here on [RD] is the definition; it is the same
                  declaration number *)
               let RD := RD0 in
               let TopLevelRecord' :=
                 match TopLevelRecord with
                 | None => Some RD
                 | Some _ => TopLevelRecord
                 end in
               if isEmptyName (declName (decls RD)) then
                 ReportTypeError Diags SM None (Some RD)
                   "anonymous structures cannot be exported" ;;;
                 ret None
               else if hasFlexibleArrayMember Def || hasObjectMember Def then
                 ret None
               else
                 SPS_insert T ;;;
                 match fuel with
                 | O => out_of_fuel
                 | S fuel' =>
                     ok <-- checkFields
                              (TypeExportableHelper fuel' Diags SM VD
                                 TopLevelRecord')
                              Diags SM RD (fields Def) ;;
                     if (ok : bool) then ret (Some T) else ret None
                 end
           end
     | PointerTy PointeeType =>
         match TopLevelRecord with
         | Some TLR =>
             ReportTypeError Diags SM None (Some TLR)
               "structures containing pointers cannot be exported: '%0'" ;;;
             ret None
         | None =>
             if bool_decide (getTypeClass PointeeType = TC_Pointer) then
               ret (Some T)
             else if isArrayType PointeeType then ret None
             else
               r <-- go PointeeType ;;
               match r with
               | None => ret None
               | Some _ => ret (Some T)
               end
         end
     | ExtVectorTy ElementType numElements =>
         if (numElements <? 2)%N || (4 <? numElements)%N then ret None
         else if negb (bool_decide (getTypeClass ElementType = TC_Builtin))
         then ret None
         else
           r <-- go ElementType ;;
           match r with
           | None => ret None
           | Some _ => ret (Some T)
           end
     | ConstantArrayTy ElementType Size =>
         ConstantArrayTypeExportableHelper go T ElementType Size
           Diags SM VD TopLevelRecord
     | _ => ret None
     end) T.

(** [TypeExportable]: a fresh empty [SPS]. Every descent into a record
    puts a defined record into [SPS] that was not there, so no check goes
    deeper than the number of definitions (see [TypeExportable_returns]). *)
Definition TypeExportable (T : Ty) (Diags SM : bool) (VD : option VarDecl)
  : M (list Diagnostic) (option Ty) :=
  λ ds,
    match TypeExportableHelper (size definitions) Diags SM VD None T
            (mkCheckState [] ds) with
    | Done (r, st) => Done (r, reported st)
    | AssertFailed w => AssertFailed w
    | OutOfBoundsRead i => OutOfBoundsRead i
    | DanglingPointer a => DanglingPointer a
    | OutOfFuel => OutOfFuel
    end.

(** [RSExportVectorType::GetTypeName]. [numElements] is [unsigned], so the
    index [numElements - 2] is taken modulo 2^32; the local table [Name]
    has the three entries cname"2", cname"3", cname"4". *)
Definition RSExportVectorType_GetTypeName {S} (ElementType : Ty)
    (numElements : N) : M S string :=
  match ElementType with
  | BuiltinTy k =>
      if (numElements <? 1)%N || (4 <? numElements)%N then ret ""
      else
        match SupportedBuiltin k with
        | Some (_, cname) =>
            let Name := [cname ++ "2"; cname ++ "3"; cname ++ "4"] in
            let index := ((Z.of_N numElements - 2) mod 2 ^ 32)%Z in
            match Name !! Z.to_nat index with
            | Some n => ret n
            | None => out_of_bounds index
            end
        | None => ret ""
        end
  | _ => ret ""
  end.

Definition DUMMY_RS_TYPE_NAME_PREFIX : string := "<".
Definition DUMMY_RS_TYPE_NAME_POSTFIX : string := ">".
Definition DUMMY_TYPE_NAME_FOR_RS_CONSTANT_ARRAY_TYPE : string :=
  DUMMY_RS_TYPE_NAME_PREFIX ++ "ConstantArray" ++ DUMMY_RS_TYPE_NAME_POSTFIX.

(** [RSExportType::GetTypeName], with the [NormalizeType] it calls on a
    pointee (always without a diagnostic sink) written out. *)
Fixpoint GetTypeName (T : Ty) : M (list Diagnostic) string :=
  match T with
  | BuiltinTy k =>
      match SupportedBuiltin k with
      | Some (_, cname) => ret cname
      | None => assert_false "Unknown data type of the builtin"
      end
  | RecordTy RD => ret (GetRecordTypeName (decls RD))
  | PointerTy PT =>
      e <-- TypeExportable PT false false None ;;
      match e with
      | None => ret ""
      | Some _ =>
          PointeeName <-- GetTypeName PT ;;
          if isEmptyName PointeeName then ret ""
          else ret ("*" ++ PointeeName)
      end
  | ExtVectorTy ElementType numElements =>
      RSExportVectorType_GetTypeName ElementType numElements
  | ConstantArrayTy _ _ => ret DUMMY_TYPE_NAME_FOR_RS_CONSTANT_ARRAY_TYPE
  | _ => ret ""
  end.

(** [RSExportType::NormalizeType]: the canonical exportable type and its
    name, or [None] where the code returns [false]. *)
Definition NormalizeType (T : Ty) (Diags SM : bool) (VD : option VarDecl)
  : M (list Diagnostic) (option (Ty * string)) :=
  e <-- TypeExportable T Diags SM VD ;;
  match e with
  | None => ret None
  | Some T' =>
      TypeName <-- GetTypeName T' ;;
      if isEmptyName TypeName then
        (if Diags && SM then
           modify (λ ds : list Diagnostic,
                     (ds ++ [mkDiagnostic (varLocation <$> VD)
                               "anonymous types cannot be exported" []])%list)
         else ret tt) ;;;
        ret None
      else ret (Some (T', TypeName))
  end.

(** ** Export types, the context and its registry *)

Inductive ExportClass :=
| ExportClassPrimitive | ExportClassPointer | ExportClassVector
| ExportClassMatrix | ExportClassConstantArray | ExportClassRecord.

#[global] Instance ExportClass_eq_dec : EqDecision ExportClass.
Proof. solve_decision. Defined.

(** [RSExportRecordType::Field]; types are referred to by address. *)
Record Field := mkField {
  fType : nat;
  fName : string;
  fOffsetInParent : N
}.

(** The members each class adds to [RSExportType]. [DataKind] values are
    kept as numbers; 0 is [DataKindUser]. *)
Inductive Members :=
| PrimitiveMembers (mType : DataType) (mKind : nat) (mNormalized : bool)
| PointerMembers (mPointeeType : nat)
| VectorMembers (mType : DataType) (mKind : nat) (mNormalized : bool)
    (mNumElement : N)
| MatrixMembers (mDim : N)
| ConstantArrayMembers (mElementType : nat) (mSize : N)
| RecordMembers (mIsPacked mIsArtificial : bool) (mAllocSize : N)
    (mFields : list Field).

(** An [RSExportType] object: [mKeep] is the state of the [RSExportable]
    base, [mLLVMType] the cached converted type (a token) if any. *)
Record ExportTypeObj := mkExportTypeObj {
  mKeep : bool;
  mName : string;
  mLLVMType : option nat;
  members : Members
}.

Definition getClass (o : ExportTypeObj) : ExportClass :=
  match members o with
  | PrimitiveMembers _ _ _ => ExportClassPrimitive
  | PointerMembers _ => ExportClassPointer
  | VectorMembers _ _ _ _ => ExportClassVector
  | MatrixMembers _ => ExportClassMatrix
  | ConstantArrayMembers _ _ => ExportClassConstantArray
  | RecordMembers _ _ _ _ => ExportClassRecord
  end.

(** [RSContext]: the registry [export_types] from names to export types,
    the objects allocated and not deleted, the next fresh address, and the
    diagnostics of [getDiagnostics()]. *)
Record RSContext := mkRSContext {
  export_types : gmap string nat;
  objects : gmap nat ExportTypeObj;
  nextAddress : nat;
  diagnostics : list Diagnostic
}.

(** Modelled from the spec: [RSContext::findExportType] is declared in
    slang_rs_context.h, which is not at hand; it looks the name up in the
    registry. *)
Definition findExportType (TypeName : string) : M RSContext (option nat) :=
  λ ctx, Done (export_types ctx !! TypeName, ctx).

(** Modelled from the spec: [RSContext::insertExportType] is declared in
    slang_rs_context.h, which is not at hand. The registry holds one export
    type per name and entries are never replaced or removed: an insertion
    under a name that is present fails (the case the TODO in the
    constructor speaks of) and leaves the entry as it is. *)
Definition insertExportType (TypeName : string) (ET : nat)
  : M RSContext bool :=
  λ ctx,
    match export_types ctx !! TypeName with
    | Some _ => Done (false, ctx)
    | None =>
        Done (true, mkRSContext (<[TypeName := ET]> (export_types ctx))
                      (objects ctx) (nextAddress ctx) (diagnostics ctx))
    end.

Definition ReportCtx (d : Diagnostic) : M RSContext unit :=
  modify (λ ctx, mkRSContext (export_types ctx) (objects ctx)
                   (nextAddress ctx) (diagnostics ctx ++ [d])).

(** Run a check that reports to a diagnostic list against the context. *)
Definition withDiagnostics {A} (c : M (list Diagnostic) A) : M RSContext A :=
  λ ctx,
    match c (diagnostics ctx) with
    | Done (a, ds) =>
        Done (a, mkRSContext (export_types ctx) (objects ctx)
                   (nextAddress ctx) ds)
    | AssertFailed w => AssertFailed w
    | OutOfBoundsRead i => OutOfBoundsRead i
    | DanglingPointer a => DanglingPointer a
    | OutOfFuel => OutOfFuel
    end.

(** [new] of an export type followed by the constructor
    [RSExportType::RSExportType]: the object is registered under its name
    unless the name starts with DUMMY_RS_TYPE_NAME_PREFIX. *)
Definition new_RSExportType (Name : string) (m : Members) : M RSContext nat :=
  this <-- (λ ctx, Done (nextAddress ctx,
                     mkRSContext (export_types ctx)
                       (<[nextAddress ctx := mkExportTypeObj false Name None m]>
                          (objects ctx))
                       (S (nextAddress ctx)) (diagnostics ctx))) ;;
  (if negb (String.prefix DUMMY_RS_TYPE_NAME_PREFIX Name) then
     insertExportType Name this ;;; ret tt
   else ret tt) ;;;
  ret this.

(** [delete] of an export type: the destructors at hand release the object
    and what it owns, and do not touch the registry. *)
Definition delete_RSExportType (this : nat) : M RSContext unit :=
  modify (λ ctx, mkRSContext (export_types ctx) (delete this (objects ctx))
                   (nextAddress ctx) (diagnostics ctx)).

Definition getTypeClassName (T : Ty) : string :=
  match T with
  | BuiltinTy _ => "Builtin"
  | RecordTy _ => "Record"
  | PointerTy _ => "Pointer"
  | ExtVectorTy _ _ => "ExtVector"
  | ConstantArrayTy _ _ => "ConstantArray"
  | IncompleteArrayTy _ => "IncompleteArray"
  | EnumTy _ => "Enum"
  | FunctionNoProtoTy _ => "FunctionNoProto"
  end.

(** [RSExportPrimitiveType::GetDataType] on a non-null type. *)
Definition GetDataType (T : Ty) : M RSContext DataType :=
  match T with
  | BuiltinTy k =>
      match SupportedBuiltin k with
      | Some (dt, _) => ret dt
      | None =>
          ReportCtx (mkDiagnostic None
                       "built-in type cannot be exported: '%0'"
                       [getTypeClassName T]) ;;;
          ret DataTypeUnknown
      end
  | RecordTy _ => ret (GetRSSpecificType T)
  | _ =>
      ReportCtx (mkDiagnostic None
                   "primitive type cannot be exported: '%0'"
                   [getTypeClassName T]) ;;;
      ret DataTypeUnknown
  end.

Definition DataKindUser : nat := 0.

(** [RSExportPrimitiveType::Create] with a type name. *)
Definition RSExportPrimitiveType_Create (T : Ty) (TypeName : string)
  : M RSContext (option nat) :=
  DT <-- GetDataType T ;;
  if bool_decide (DT = DataTypeUnknown) || isEmptyName TypeName then ret None
  else
    this <-- new_RSExportType TypeName (PrimitiveMembers DT DataKindUser false) ;;
    ret (Some this).

(** [RSExportPrimitiveType::Create] without a name: it normalizes the type
    itself and does not consult the registry. *)
Definition RSExportPrimitiveType_CreateNormalized (T : Ty)
  : M RSContext (option nat) :=
  n <-- withDiagnostics (NormalizeType T false false None) ;;
  match n with
  | Some (T', TypeName) =>
      if IsPrimitiveType T' then RSExportPrimitiveType_Create T' TypeName
      else ret None
  | None => ret None
  end.

(** [RSExportPointerType::Create]; [Create] is [RSExportType::Create] and
    [IntTy] the builtin [int]. *)
Definition RSExportPointerType_Create (Create : Ty → M RSContext (option nat))
    (PointeeType : Ty) (TypeName : string) : M RSContext (option nat) :=
  PointeeET <--
    (if negb (bool_decide (getTypeClass PointeeType = TC_Pointer)) then
       Create PointeeType
     else
       RSExportPrimitiveType_CreateNormalized (BuiltinTy BuiltinType.Int)) ;;
  match PointeeET with
  | None => ret None
  | Some p =>
      this <-- new_RSExportType TypeName (PointerMembers p) ;;
      ret (Some this)
  end.

(** [RSExportVectorType::Create]. *)
Definition RSExportVectorType_Create (ElementType : Ty) (numElements : N)
    (TypeName : string) : M RSContext (option nat) :=
  DT <-- GetDataType ElementType ;;
  if negb (bool_decide (DT = DataTypeUnknown)) then
    this <-- new_RSExportType TypeName
               (VectorMembers DT DataKindUser false numElements) ;;
    ret (Some this)
  else ret None.

(** [Dim * Dim] on [unsigned]. *)
Definition mul_unsigned (a b : N) : N := ((a * b) mod 2 ^ 32)%N.

(** [RSExportMatrixType::Create]. The first field's type is examined as
    [GetTypeOfDecl] returns it, that is, as written. *)
Definition RSExportMatrixType_Create (RD : nat) (TypeName : string) (Dim : N)
  : M RSContext (option nat) :=
  let construct :=
    this <-- new_RSExportType TypeName (MatrixMembers Dim) ;;
    ret (Some this) in
  let here := Some (declLocation (decls RD)) in
  let name := declName (decls RD) in
  if negb (1 <? Dim)%N then assert_false "Invalid dimension of matrix" else
  match getDefinition RD with
  | None => construct
  | Some Def =>
      match fields Def with
      | [] =>
          ReportCtx (mkDiagnostic here
            "invalid matrix struct: must have 1 field for saving values: '%0'"
            [name]) ;;;
          ret None
      | FD :: more =>
          let FT := GetTypeOfDecl FD in
          match writtenTypeClass FT, canonicalType FT with
          | TC_ConstantArray, ConstantArrayTy ElementType Size =>
              if negb (bool_decide (ElementType = BuiltinTy BuiltinType.Float))
              then
                ReportCtx (mkDiagnostic here
                  "invalid matrix struct: first field should be a float array: '%0'"
                  [name]) ;;;
                ret None
              else if negb (bool_decide (Size = mul_unsigned Dim Dim)) then
                ReportCtx (mkDiagnostic here
                  "invalid matrix struct: first field should be an array with size %0: '%1'"
                  [pretty (mul_unsigned Dim Dim); name]) ;;;
                ret None
              else
                match more with
                | _ :: _ =>
                    ReportCtx (mkDiagnostic here
                      "invalid matrix struct: must have exactly 1 field: '%0'"
                      [name]) ;;;
                    ret None
                | [] => construct
                end
          | _, _ =>
              ReportCtx (mkDiagnostic here
                "invalid matrix struct: first field should be an array with constant size: '%0'"
                [name]) ;;;
              ret None
          end
      end
  end.

(** [RSExportConstantArrayType::Create]; the constructor is given the
    dummy name of constant arrays. *)
Definition RSExportConstantArrayType_Create
    (Create : Ty → M RSContext (option nat))
    (ElementType : Ty) (Size : N) : M RSContext (option nat) :=
  if negb (Size <? 2 ^ 31)%N then assert_false "array too large"
  else if negb (0 <? Size)%N then
    assert_false "Constant array should have size greater than 0"
  else
    ElementET <-- Create ElementType ;;
    match ElementET with
    | None => ret None
    | Some e =>
        this <-- new_RSExportType DUMMY_TYPE_NAME_FOR_RS_CONSTANT_ARRAY_TYPE
                   (ConstantArrayMembers e Size) ;;
        ret (Some this)
    end.

(** Modelled from the spec: [RSExportElement::CreateFromDecl] lives in
    slang_rs_export_element.cpp, which is not at hand; each field's type is
    resolved through the same registry entry point, [RSExportType::Create]
    on the type of the declaration. *)
Definition RSExportElement_CreateFromDecl
    (Create : Ty → M RSContext (option nat)) (FD : FieldDecl)
  : M RSContext (option nat) :=
  Create (GET_CANONICAL_TYPE (GetTypeOfDecl FD)).

(** [ERT->mFields.push_back(F)]. *)
Definition push_back_field (ERT : nat) (F : Field) : M RSContext unit :=
  modify (λ ctx,
    mkRSContext (export_types ctx)
      (alter (λ o, match members o with
                   | RecordMembers p a sz fs =>
                       mkExportTypeObj (mKeep o) (mName o) (mLLVMType o)
                         (RecordMembers p a sz (fs ++ [F]))
                   | _ => o
                   end) ERT (objects ctx))
      (nextAddress ctx) (diagnostics ctx)).

(** The loop of [RSExportRecordType::Create] over the fields, from field
    number [Index] on; the result says whether the record is complete. *)
Fixpoint createFields (Create : Ty → M RSContext (option nat))
    (RD : nat) (Def : RecordDef) (ERT : nat) (FDs : list FieldDecl)
    (Index : nat) : M RSContext bool :=
  match FDs with
  | [] => ret true
  | FD :: rest =>
      if isBitField FD then
        delete_RSExportType ERT ;;; ret false
      else
        ET <-- RSExportElement_CreateFromDecl Create FD ;;
        match ET with
        | Some et =>
            match layoutFieldOffsets Def !! Index with
            | Some off =>
                push_back_field ERT
                  (mkField et (fieldName FD) (N.shiftr off 3)) ;;;
                createFields Create RD Def ERT rest (S Index)
            | None => out_of_bounds (Z.of_nat Index)
            end
        | None =>
            ReportCtx (mkDiagnostic (Some (declLocation (decls RD)))
                         "field type cannot be exported: '%0.%1'"
                         [declName (decls RD); fieldName FD]) ;;;
            delete_RSExportType ERT ;;;
            ret false
        end
  end.

(** [RSExportRecordType::Create], with [mIsArtificial] at its default. *)
Definition RSExportRecordType_Create (Create : Ty → M RSContext (option nat))
    (RD : nat) (TypeName : string) : M RSContext (option nat) :=
  if negb (bool_decide (tagKind (decls RD) = TTK_Struct)) then
    assert_false "RD->isStruct()"
  else
    match getDefinition RD with
    | None => assert_false "struct is not defined in this module"
    | Some Def =>
        ERT <-- new_RSExportType TypeName
                  (RecordMembers (hasPackedAttr Def) false
                     (N.shiftr (layoutSize Def) 3) []) ;;
        ok <-- createFields Create RD Def ERT (fields Def) 0 ;;
        if (ok : bool) then ret (Some ERT) else ret None
    end.

(** [RSExportType::Create] with a type name: the registry is searched
    first; [CreateRecord] and [Create] are the two ways the construction
    recurses. *)
Definition RSExportType_CreateWithName
    (CreateRecord : nat → string → M RSContext (option nat))
    (Create : Ty → M RSContext (option nat))
    (T : Ty) (TypeName : string) : M RSContext (option nat) :=
  ETI <-- findExportType TypeName ;;
  match ETI with
  | Some ET => ret (Some ET)
  | None =>
      match T with
      | RecordTy RD =>
          match GetRSSpecificTypeOfName TypeName with
          | DataTypeUnknown => CreateRecord RD TypeName
          | DataTypeRSMatrix2x2 => RSExportMatrixType_Create RD TypeName 2
          | DataTypeRSMatrix3x3 => RSExportMatrixType_Create RD TypeName 3
          | DataTypeRSMatrix4x4 => RSExportMatrixType_Create RD TypeName 4
          | _ => RSExportPrimitiveType_Create T TypeName
          end
      | BuiltinTy _ => RSExportPrimitiveType_Create T TypeName
      | PointerTy PointeeType =>
          RSExportPointerType_Create Create PointeeType TypeName
      | ExtVectorTy ElementType numElements =>
          RSExportVectorType_Create ElementType numElements TypeName
      | ConstantArrayTy ElementType Size =>
          RSExportConstantArrayType_Create Create ElementType Size
      | _ =>
          ReportCtx (mkDiagnostic None "unknown type cannot be exported: '%0'"
                       [getTypeClassName T]) ;;;
          ret None
      end
  end.

(** [RSExportType::Create] on a type. [fuel] bounds how many records deep
    the construction may go; it is spent where [RSExportRecordType::Create]
    is entered. *)
Fixpoint RSExportType_Create (fuel : nat) (T : Ty) {struct fuel}
  : M RSContext (option nat) :=
  (fix go (T : Ty) {struct T} : M RSContext (option nat) :=
     n <-- withDiagnostics (NormalizeType T false false None) ;;
     match n with
     | None => ret None
     | Some (_, TypeName) =>
         RSExportType_CreateWithName
           (λ RD TypeName,
              match fuel with
              | O => out_of_fuel
              | S fuel' =>
                  RSExportRecordType_Create (RSExportType_Create fuel')
                    RD TypeName
              end)
           go T TypeName
     end) T.

End Slang.

(** ** keep and equals

    Both walk the export types through the pointers they hold, so they are
    stated over the allocated objects alone. *)

(** Modelled from the spec: [RSExportable::keep] is defined in
    slang_rs_exportable.cpp, which is not at hand. Keeping marks the
    object as reachable; the call says [true] when the object was not marked
    before and [false], changing nothing, when it was. *)
Definition RSExportable_keep (this : nat) : M (gmap nat ExportTypeObj) bool :=
  λ h, match h !! this with
       | None => DanglingPointer this
       | Some o =>
           if mKeep o then Done (false, h)
           else Done (true, <[this := mkExportTypeObj true (mName o)
                                        (mLLVMType o) (members o)]> h)
       end.

(** [RSExportType::keep]. *)
Definition RSExportType_keep (this : nat) : M (gmap nat ExportTypeObj) bool :=
  b <-- RSExportable_keep this ;;
  if negb b then ret false
  else
    modify (alter (λ o, mkExportTypeObj (mKeep o) (mName o) None (members o))
              this) ;;;
    ret true.

(** The loop of [RSExportRecordType::keep]. *)
Fixpoint keepFields (keep : nat → M (gmap nat ExportTypeObj) bool)
    (Fs : list Field) : M (gmap nat ExportTypeObj) unit :=
  match Fs with
  | [] => ret tt
  | F :: rest => keep (fType F) ;;; keepFields keep rest
  end.

(** The virtual [keep]: [RSExportPointerType::keep],
    [RSExportConstantArrayType::keep] and [RSExportRecordType::keep] for
    their classes, [RSExportType::keep] for the others. One unit of [fuel]
    is spent per call. *)
Fixpoint keep (fuel : nat) (this : nat) {struct fuel}
  : M (gmap nat ExportTypeObj) bool :=
  match fuel with
  | O => out_of_fuel
  | S fuel' =>
      b <-- RSExportType_keep this ;;
      if negb b then ret false
      else
        h <-- get ;;
        match members <$> h !! this with
        | Some (PointerMembers mPointeeType) =>
            keep fuel' mPointeeType ;;; ret true
        | Some (ConstantArrayMembers mElementType _) =>
            keep fuel' mElementType ;;; ret true
        | Some (RecordMembers _ _ _ mFields) =>
            keepFields (keep fuel') mFields ;;; ret true
        | _ => ret true
        end
  end.

(** The loop of [RSExportRecordType::equals] over two field lists of the
    same length. *)
Fixpoint equalsFields (equals : nat → nat → Outcome bool)
    (As Bs : list Field) : Outcome bool :=
  match As, Bs with
  | A :: As', B :: Bs' =>
      match equals (fType A) (fType B) with
      | Done true => equalsFields equals As' Bs'
      | r => r
      end
  | _, _ => Done true
  end.

(** The virtual [equals], [this->equals(E)], for two export types. The
    check of the [RSExportable] base (not at hand) holds between any two
    export types; [RSExportType::equals] then compares the classes, and
    the class of [this] selects what follows. *)
Fixpoint equals (fuel : nat) (h : gmap nat ExportTypeObj) (this E : nat)
    {struct fuel} : Outcome bool :=
  match fuel with
  | O => OutOfFuel
  | S fuel' =>
      match h !! this, h !! E with
      | None, _ => DanglingPointer this
      | _, None => DanglingPointer E
      | Some o, Some e =>
          if negb (bool_decide (getClass e = getClass o)) then Done false
          else
            match members o, members e with
            | PrimitiveMembers t _ _, PrimitiveMembers t' _ _ =>
                Done (bool_decide (t' = t))
            | PointerMembers p, PointerMembers p' => equals fuel' h p' p
            | VectorMembers t _ _ n, VectorMembers t' _ _ n' =>
                if negb (bool_decide (t' = t)) then Done false
                else Done (bool_decide (n' = n))
            | MatrixMembers d, MatrixMembers d' => Done (bool_decide (d' = d))
            | ConstantArrayMembers el sz, ConstantArrayMembers el' sz' =>
                if bool_decide (sz = sz') then equals fuel' h el el'
                else Done false
            | RecordMembers _ _ _ fs, RecordMembers _ _ _ fs' =>
                if negb (bool_decide (length fs' = length fs)) then Done false
                else equalsFields (equals fuel' h) fs fs'
            | _, _ => Done false
            end
      end
  end.

(** ** Structures that hold RenderScript objects *)

(** The loop [while (T && T->isArrayType()) T =
    T->getArrayElementTypeNoTypeQual();]. *)
Fixpoint stripArrays (T : Ty) : Ty :=
  match T with
  | ConstantArrayTy E _ | IncompleteArrayTy E => stripArrays E
  | _ => T
  end.

(** Modelled from the spec: the bounds FirstRSObjectType and
    LastRSObjectType that [RSExportPrimitiveType::IsRSObjectType] compares
    with are enumerators of slang_rs_export_type.h, which is not at hand;
    the object (handle) tags form a range of their own, apart from the
    scalars and the matrices. *)
Definition IsRSObjectType (DT : DataType) : bool :=
  match DT with
  | DataTypeRSObject _ => true
  | _ => false
  end.

Section ObjectSearch.

Variable RSSpecificTypeMap : gmap string DataType.
Variable decls : nat → RecordDecl.
Variable definitions : gmap nat RecordDef.

(** The loop of [IsStructureTypeWithRSObject] over the fields, with the
    flag [RSObjectTypeSeen] it accumulates; [recurse] is the function
    itself. *)
Fixpoint fieldsWithRSObject (recurse : Ty → Outcome bool)
    (FDs : list FieldDecl) (RSObjectTypeSeen : bool) : Outcome bool :=
  match FDs with
  | [] => Done RSObjectTypeSeen
  | FD :: rest =>
      let FT := stripArrays (GET_CANONICAL_TYPE (GetTypeOfDecl FD)) in
      let DT := GetRSSpecificType RSSpecificTypeMap decls FT in
      if IsRSObjectType DT then fieldsWithRSObject recurse rest true
      else
        let RSObjectTypeSeen :=
          match DT with
          | DataTypeRSMatrix2x2 | DataTypeRSMatrix3x3 | DataTypeRSMatrix4x4 =>
              true
          | _ => RSObjectTypeSeen
          end in
        if isStructureType decls FT then
          match recurse FT with
          | Done b => fieldsWithRSObject recurse rest (RSObjectTypeSeen || b)
          | r => r
          end
        else fieldsWithRSObject recurse rest RSObjectTypeSeen
  end.

(** [RSExportPrimitiveType::IsStructureTypeWithRSObject] on a non-null
    type. The function reads the fields of the definition without asking
    whether there is one: on a structure that is only declared it follows
    the null pointer [getDefinition()] returns. [fuel] bounds how many
    structures deep the search may go. *)
Fixpoint IsStructureTypeWithRSObject (fuel : nat) (T : Ty) : Outcome bool :=
  match stripArrays T with
  | RecordTy RD =>
      if negb (isStructureType decls (RecordTy RD)) then Done false
      else
        match getDefinition definitions RD with
        | None => DanglingPointer 0
        | Some Def =>
            match fuel with
            | O => OutOfFuel
            | S fuel' =>
                fieldsWithRSObject (IsStructureTypeWithRSObject fuel')
                  (fields Def) false
            end
        end
  | _ => Done false
  end.

End ObjectSearch.

(** ** The pragma recorder (slang_pragma_recorder.cpp)

    [PragmaRecorder] keeps the name/value pairs of the pragmas of a
    script. It reads tokens from the preprocessor of clang, which is seen
    here as the queue of the tokens still to come, such as the lexer
    delivers them: [LookAhead(0)] is its head, [Lex] and
    [LexUnexpandedToken] take the head off, and past the end of the input
    the lexer keeps answering with the end-of-file token. *)

Module PragmaRecorder.

(** [clang::Token] as far as the recorder reads it: a literal with its
    spelling, an identifier with its name, the two parentheses, the end of
    the file, or a token of any other kind. *)
Inductive Token :=
| Literal (data : string)
| Identifier (name : string)
| l_paren
| r_paren
| eof
| Other (kind : nat).

#[global] Instance Token_eq_dec : EqDecision Token.
Proof. solve_decision. Defined.

(** The preprocessor and the list [mPragmas] the recorder appends to. *)
Record State := mkState {
  PP : list Token;
  mPragmas : list (string * string)
}.

Definition LookAhead0 (st : State) : Token := hd eof (PP st).

(** [PP.Lex(Result)] and [PP.LexUnexpandedToken(Result)]: the token
    taken, and the state after. *)
Definition Lex (st : State) : Token * State :=
  (hd eof (PP st), mkState (tl (PP st)) (mPragmas st)).

(** [GetPragmaNameFromToken]: the name assigned, or [None] where the
    function returns [false]. *)
Definition GetPragmaNameFromToken (T : Token) : option string :=
  match T with
  | Literal data => Some data
  | Identifier name => Some name
  | _ => None
  end.

(** [GetPragmaValueFromToken]. *)
Definition GetPragmaValueFromToken (T : Token) : option string :=
  match T with
  | r_paren => Some ""
  | _ => GetPragmaNameFromToken T
  end.

Definition push_back (p : string * string) (st : State) : State :=
  mkState (PP st) (mPragmas st ++ [p]).

(** [HandlePragma]: the state after, and the token left in [FirstToken],
    which [CurrentToken] is another name of. [NextToken] points to the
    token [LookAhead(0)] has shown; the test [NextToken->is(r_paren)]
    after [PP.Lex] still reads that token, the value. *)
Definition HandlePragma (FirstToken : Token) (st : State) : Token * State :=
  (* the label end_parsing_pragma_value *)
  let end_parsing_pragma_value (st : State) := Lex st in
  match GetPragmaNameFromToken FirstToken with
  | Some PragmaName =>
      if bool_decide (LookAhead0 st = l_paren) then
        let st := (Lex st).2 in
        let NextToken := LookAhead0 st in
        match GetPragmaValueFromToken NextToken with
        | Some PragmaValue =>
            let st := (Lex st).2 in
            if negb (bool_decide (NextToken = r_paren)) then
              if bool_decide (LookAhead0 st = r_paren) then
                let st := (Lex st).2 in
                end_parsing_pragma_value
                  (push_back (PragmaName, PragmaValue) st)
              else end_parsing_pragma_value st
            else
              end_parsing_pragma_value
                (push_back (PragmaName, PragmaValue) st)
        | None => end_parsing_pragma_value st
        end
      else end_parsing_pragma_value st
  | None => end_parsing_pragma_value st
  end.

(** The pragmas the recorder takes down: a name alone in parentheses
    gives the empty value, a name and a value in parentheses give the
    pair. *)
Inductive Recorded : Token → list Token → string → string → Prop :=
| Recorded_empty First name rest :
    GetPragmaNameFromToken First = Some name →
    Recorded First (l_paren :: r_paren :: rest) name ""
| Recorded_value First name V value rest :
    GetPragmaNameFromToken First = Some name →
    GetPragmaNameFromToken V = Some value →
    Recorded First (l_paren :: V :: r_paren :: rest) name value.

End PragmaRecorder.

(** ** Sample tables and declarations

    A table of supported builtins and a map of RenderScript names, used
    where a statement is shown on a concrete input. *)

Definition sampleBuiltins (k : BuiltinType.Kind) : option (DataType * string) :=
  match k with
  | BuiltinType.Bool => Some (DataTypeBoolean, "bool")
  | BuiltinType.Char_U | BuiltinType.UChar => Some (DataTypeUnsigned8, "uchar")
  | BuiltinType.Char_S | BuiltinType.SChar => Some (DataTypeSigned8, "char")
  | BuiltinType.Char16 | BuiltinType.Short => Some (DataTypeSigned16, "short")
  | BuiltinType.Char32 | BuiltinType.Int => Some (DataTypeSigned32, "int")
  | BuiltinType.UShort => Some (DataTypeUnsigned16, "ushort")
  | BuiltinType.UInt | BuiltinType.ULong => Some (DataTypeUnsigned32, "uint")
  | BuiltinType.ULongLong => Some (DataTypeUnsigned64, "ulong")
  | BuiltinType.Long | BuiltinType.LongLong => Some (DataTypeSigned64, "long")
  | BuiltinType.Float => Some (DataTypeFloat32, "float")
  | BuiltinType.Double => Some (DataTypeFloat64, "double")
  | _ => None
  end.

Definition sampleRSTypes : gmap string DataType :=
  list_to_map [("rs_matrix2x2", DataTypeRSMatrix2x2);
               ("rs_matrix3x3", DataTypeRSMatrix3x3);
               ("rs_matrix4x4", DataTypeRSMatrix4x4);
               ("rs_element", DataTypeRSObject 0);
               ("rs_allocation", DataTypeRSObject 2)].

Definition IntTy : Ty := BuiltinTy BuiltinType.Int.
Definition FloatTy : Ty := BuiltinTy BuiltinType.Float.
Definition written (T : Ty) : QualType := mkQualType [] T.
Definition emptyContext : RSContext := mkRSContext ∅ ∅ 0 [].

(** Sample declarations:
    - 0: [struct S { rs_matrix2x2 m; }];
    - 1: [struct rs_matrix2x2 { int x; }], a matrix name on the wrong shape;
    - 2: [union U];
    - 3: [struct L { struct L *next; int v; }];
    - 4: [struct P { float x; float y; }];
    - 5: [struct rs_matrix3x3 { arr9 m; }] after [typedef float arr9[9]];
    - 6: [struct rs_matrix4x4 { float m[16]; }];
    - 7: [typedef struct { int *p; } rs_allocation]. *)
Definition sampleDecls (RD : nat) : RecordDecl :=
  match RD with
  | 0 => mkRecordDecl "S" 10 None [] TTK_Struct
  | 1 => mkRecordDecl "rs_matrix2x2" 20 None [] TTK_Struct
  | 2 => mkRecordDecl "U" 30 None [] TTK_Union
  | 3 => mkRecordDecl "L" 40 None [] TTK_Struct
  | 4 => mkRecordDecl "P" 50 None [] TTK_Struct
  | 5 => mkRecordDecl "rs_matrix3x3" 60 None [] TTK_Struct
  | 6 => mkRecordDecl "rs_matrix4x4" 70 None [] TTK_Struct
  | 7 => mkRecordDecl "" 80 (Some "rs_allocation") [] TTK_Struct
  | _ => mkRecordDecl "" 0 None [] TTK_Struct
  end.

Definition sampleDefinitions : gmap nat RecordDef :=
  list_to_map
    [(0, mkRecordDef [mkFieldDecl "m" 11 (written (RecordTy 1)) false]
           false false false 32 [0%N]);
     (1, mkRecordDef [mkFieldDecl "x" 21 (written IntTy) false]
           false false false 32 [0%N]);
     (3, mkRecordDef [mkFieldDecl "next" 41 (written (PointerTy (RecordTy 3)))
                        false;
                      mkFieldDecl "v" 42 (written IntTy) false]
           false false false 64 [0%N; 32%N]);
     (4, mkRecordDef [mkFieldDecl "x" 51 (written FloatTy) false;
                      mkFieldDecl "y" 52 (written FloatTy) false]
           false false false 64 [0%N; 32%N]);
     (5, mkRecordDef [mkFieldDecl "m" 61
                        (mkQualType ["arr9"] (ConstantArrayTy FloatTy 9)) false]
           false false false 288 [0%N]);
     (6, mkRecordDef [mkFieldDecl "m" 71 (written (ConstantArrayTy FloatTy 16))
                        false]
           false false false 512 [0%N]);
     (7, mkRecordDef [mkFieldDecl "p" 81 (written (PointerTy IntTy)) false]
           false false false 32 [0%N])].

(** Sample export types: [float] at 0, two records of two floats with
    different field names, offsets and packing at 1 and 2, and a pointer
    to the first record at 3. *)
Definition sampleObjects : gmap nat ExportTypeObj :=
  list_to_map
    [(0, mkExportTypeObj false "float" None
           (PrimitiveMembers DataTypeFloat32 0 false));
     (1, mkExportTypeObj false "A" None
           (RecordMembers false false 8 [mkField 0 "x" 0; mkField 0 "y" 4]));
     (2, mkExportTypeObj false "B" None
           (RecordMembers true false 16 [mkField 0 "u" 0; mkField 0 "v" 8]));
     (3, mkExportTypeObj false "*A" None (PointerMembers 1))].

(** The sample export types after [keep] on the pointer. *)
Definition sampleObjectsKept : gmap nat ExportTypeObj :=
  match keep 3 3 sampleObjects with
  | Done (_, h) => h
  | _ => ∅
  end.

(** The context after creating the export type of [struct P *]. *)
Definition sampleContext : RSContext :=
  match RSExportType_Create sampleBuiltins sampleRSTypes sampleDecls
          sampleDefinitions 1 (PointerTy (RecordTy 4)) emptyContext with
  | Done (_, ctx) => ctx
  | _ => emptyContext
  end.

(** A rank for the sample declarations: [struct S] holds
    [struct rs_matrix2x2] by value, no other sample record holds a
    record. *)
Definition sampleRank (RD : nat) : nat :=
  match RD with
  | 0 => 1
  | _ => 0
  end.

(** [struct S { int a; int flag : 3; int c; }], in a module of its own. *)
Definition sampleBitFields : gmap nat RecordDef :=
  {[ 0 := mkRecordDef [mkFieldDecl "a" 11 (written IntTy) false;
                       mkFieldDecl "flag" 12 (written IntTy) true;
                       mkFieldDecl "c" 13 (written IntTy) false]
            false false false 96 [0%N; 32%N; 35%N] ]}.

(** The context after [RSExportRecordType::Create] on [struct P]. *)
Definition sampleRecordContext : RSContext :=
  match RSExportRecordType_Create sampleDecls sampleDefinitions
          (RSExportType_Create sampleBuiltins sampleRSTypes sampleDecls
             sampleDefinitions 0) 4 "P" emptyContext with
  | Done (_, ctx) => ctx
  | _ => emptyContext
  end.

(** The sample context after the export type of [float2] has been
    created in it as well. *)
Definition sampleContextWithVector : RSContext :=
  match RSExportType_Create sampleBuiltins sampleRSTypes sampleDecls
          sampleDefinitions 0 (ExtVectorTy FloatTy 2) sampleContext with
  | Done (_, ctx) => ctx
  | _ => emptyContext
  end.

(** [struct S { rs_allocation a; }] with
    [typedef struct { int *p; } rs_allocation], in a module of its own. *)
Definition sampleHandles : gmap nat RecordDef :=
  {[ 0 := mkRecordDef [mkFieldDecl "a" 11 (written (RecordTy 7)) false]
            false false false 32 [0%N];
     7 := mkRecordDef [mkFieldDecl "p" 81 (written (PointerTy IntTy)) false]
            false false false 32 [0%N] ]}.






(** * The vocabulary of the statements *)

(** Only record types are ever put into [SPS]; this is what a visited set
    reached from [TypeExportable] looks like. *)
Definition recordsOnly (s : list Ty) : Prop :=
  ∀ T, T ∈ s → getTypeClass T = TC_Record.

(** The state after one more report, of [msg] about [who] at [loc]. *)
Definition withReport (st : CheckState) (loc : nat) (msg who : string)
  : CheckState :=
  mkCheckState (SPS st) (reported st ++ [mkDiagnostic (Some loc) msg [who]]).

(** From [st] to [st'] the visited set has lost nothing, and gained only
    record types. *)
Definition grows (st st' : CheckState) : Prop :=
  (∀ x, x ∈ SPS st → x ∈ SPS st')
  ∧ (∀ x, x ∈ SPS st' → x ∈ SPS st ∨ getTypeClass x = TC_Record).

(** A type that may sit in a field: not a pointer, and if an array then
    not of pointers. *)
Definition pointerFree (T : Ty) : Prop :=
  getTypeClass T ≠ TC_Pointer
  ∧ ∀ E n, T = ConstantArrayTy E n → getTypeClass E ≠ TC_Pointer.

(** An outcome over the visited set alone, put next to the diagnostics
    [ds]. *)
Definition putReported {A} (ds : list Diagnostic)
    (out : Outcome (A * list Ty)) : Outcome (A * CheckState) :=
  match out with
  | Done (a, sps) => Done (a, mkCheckState sps ds)
  | AssertFailed w => AssertFailed w
  | OutOfBoundsRead i => OutOfBoundsRead i
  | DanglingPointer a => DanglingPointer a
  | OutOfFuel => OutOfFuel
  end.

(** A computation of the checker that neither reads nor writes the
    diagnostics. *)
Definition silent {A} (c : M CheckState A) : Prop :=
  ∀ sps, ∃ out, ∀ ds, c (mkCheckState sps ds) = putReported ds out.

(** A computation over the diagnostics alone that leaves them as they are
    and does not depend on them. *)
Definition detached {A} (c : M (list Diagnostic) A) : Prop :=
  ∃ out : Outcome A, ∀ ds,
    c ds = match out with
           | Done a => Done (a, ds)
           | AssertFailed w => AssertFailed w
           | OutOfBoundsRead i => OutOfBoundsRead i
           | DanglingPointer a => DanglingPointer a
           | OutOfFuel => OutOfFuel
           end.

(** What is wrong with a definition asked to be a matrix of dimension
    [Dim], in the order the code looks: the message and its arguments, or
    [None] when nothing is. The first field counts as a constant-size
    array only when it is written as one. *)
Definition matrixDefect (name : string) (Def : RecordDef) (Dim : N)
  : option (string * list string) :=
  match fields Def with
  | [] =>
      Some ("invalid matrix struct: must have 1 field for saving values: '%0'",
            [name])
  | FD :: more =>
      match typedefChain (fieldQualType FD), canonicalType (fieldQualType FD)
      with
      | [], ConstantArrayTy ElementType Size =>
          if negb (bool_decide (ElementType = BuiltinTy BuiltinType.Float))
          then
            Some ("invalid matrix struct: first field should be a float array: '%0'",
                  [name])
          else if negb (bool_decide (Size = mul_unsigned Dim Dim)) then
            Some ("invalid matrix struct: first field should be an array with size %0: '%1'",
                  [pretty (mul_unsigned Dim Dim); name])
          else
            match more with
            | _ :: _ =>
                Some ("invalid matrix struct: must have exactly 1 field: '%0'",
                      [name])
            | [] => None
            end
      | _, _ =>
          Some ("invalid matrix struct: first field should be an array with constant size: '%0'",
                [name])
      end
  end.

(** From [ctx] to [ctx'] the registry keeps its entries, and the names
    added do not begin with a star. *)
Definition registryAdds (ctx ctx' : RSContext) : Prop :=
  ∀ nm, export_types ctx' !! nm = export_types ctx !! nm
        ∨ (export_types ctx !! nm = None ∧ String.prefix "*" nm = false).

(** From [ctx] to [ctx'] no entry of the registry is removed or
    replaced. *)
Definition registryKeeps (ctx ctx' : RSContext) : Prop :=
  ∀ nm v, export_types ctx !! nm = Some v → export_types ctx' !! nm = Some v.

(** The export types an object points to. *)
Definition referenced (o : ExportTypeObj) : list nat :=
  match members o with
  | PointerMembers p => [p]
  | ConstantArrayMembers e _ => [e]
  | RecordMembers _ _ _ fs => fType <$> fs
  | _ => []
  end.

(** [nested h n a]: the export type at [a] is allocated, and so is all it
    refers to, down to fewer than [n] levels: a finite type description
    without dangling references. *)
Inductive nested (h : gmap nat ExportTypeObj) : nat → nat → Prop :=
| nested_intro n a o :
    h !! a = Some o →
    (∀ c, c ∈ referenced o → nested h n c) →
    nested h (S n) a.


(** The export type at [a] is allocated and marked as kept. *)
Definition kept (h : gmap nat ExportTypeObj) (a : nat) : Prop :=
  ∃ o, h !! a = Some o ∧ mKeep o = true.

(** The allocated export types not marked yet. *)
Definition unkept (h : gmap nat ExportTypeObj) : gset nat := dom (filter (λ p, mKeep p.2 = false) h).


(** [marks h h']: [h'] has the objects of [h], with the same members and
    names; marks are only ever added. *)
Definition marks (h h' : gmap nat ExportTypeObj) : Prop :=
  ∀ x, match h !! x, h' !! x with
       | Some o, Some o' =>
           members o' = members o ∧ mName o' = mName o
           ∧ (mKeep o = true → mKeep o' = true)
       | None, None => True
       | _, _ => False
       end.

(** Every reference held by an allocated export type leads to an
    allocated export type. *)
Definition closed (h : gmap nat ExportTypeObj) : Prop :=
  ∀ a o c, h !! a = Some o → c ∈ referenced o → is_Some (h !! c).

Section Vocabulary.

Variable SupportedBuiltin : BuiltinType.Kind → option (DataType * string).
Variable RSSpecificTypeMap : gmap string DataType.
Variable decls : nat → RecordDecl.
Variable definitions : gmap nat RecordDef.

(** The declaration a type error is reported against: the top-level record
    when there is one, else the variable. *)
Definition reportTarget (VD : option VarDecl) (TopLevelRecord : option nat)
  : option (string * nat) :=
  match TopLevelRecord with
  | Some TLR => Some (declName (decls TLR), declLocation (decls TLR))
  | None => (λ vd, (varName vd, varLocation vd)) <$> VD
  end.

(** A scalar the check accepts as the base of a vector: a builtin of the
    supported table. *)
Definition exportableScalar (B : Ty) : bool :=
  match B with
  | BuiltinTy k => bool_decide (is_Some (SupportedBuiltin k))
  | _ => false
  end.

(** The defined records the check has not descended into yet. *)
Definition undescended (sps : list Ty) : gset nat :=
  filter (λ RD, RecordTy RD ∉ sps) (dom definitions).

(** The names of builtins and of records are identifiers: none begins
    with the star that starts the name of a pointer. *)
Definition plainNames : Prop :=
  (∀ k dt cname, SupportedBuiltin k = Some (dt, cname) →
     ∃ c rest, cname = String c rest ∧ c ≠ "*"%char)
  ∧ (∀ RD, String.prefix "*" (GetRecordTypeName (decls RD)) = false).

(** The canonical name of a type: what [NormalizeType] gives without a
    sink. *)
Definition canonicalName (T : Ty) : option string :=
  match NormalizeType SupportedBuiltin RSSpecificTypeMap decls definitions
          T false false None [] with
  | Done (Some (_, TypeName), _) => Some TypeName
  | _ => None
  end.

(** The defined records under whose name nothing is registered yet. *)
Definition unregistered (reg : gmap string nat) : gset nat :=
  filter (λ RD, reg !! GetRecordTypeName (decls RD) = None) (dom definitions).

End Vocabulary.

(** ** The rules of exportability *)

(** The record a type holds by value: itself, or the element of an
    array. *)
Definition byValueRecord (T : Ty) : option nat :=
  match stripArrays T with
  | RecordTy RD => Some RD
  | _ => None
  end.

(** Whether a check is below a record: [TopLevelRecord] is set. *)
Definition inRecord (TopLevelRecord : option nat) : bool :=
  match TopLevelRecord with
  | Some _ => true
  | None => false
  end.

Section Rules.

Variable SupportedBuiltin : BuiltinType.Kind → option (DataType * string).
Variable RSSpecificTypeMap : gmap string DataType.
Variable decls : nat → RecordDecl.
Variable definitions : gmap nat RecordDef.

(** The exportable types as a system of rules; the flag says whether the
    type is met below a record, where pointers are not allowed. *)
Inductive exportable : bool → Ty → Prop :=
| exportable_builtin b k :
    is_Some (SupportedBuiltin k) → exportable b (BuiltinTy k)
| exportable_rs_specific b RD :
    GetRSSpecificType RSSpecificTypeMap decls (RecordTy RD) ≠ DataTypeUnknown →
    exportable b (RecordTy RD)
| exportable_struct b RD Def :
    tagKind (decls RD) = TTK_Struct →
    definitions !! RD = Some Def →
    declName (decls RD) ≠ "" →
    hasFlexibleArrayMember Def = false → hasObjectMember Def = false →
    (∀ FD, FD ∈ fields Def → isBitField FD = false) →
    (∀ FD, FD ∈ fields Def → exportable true (canonicalType (fieldQualType FD))) →
    exportable b (RecordTy RD)
| exportable_pointer_to_pointer P :
    getTypeClass P = TC_Pointer → exportable false (PointerTy P)
| exportable_pointer P :
    isArrayType P = false → exportable false P → exportable false (PointerTy P)
| exportable_vector b k n :
    (2 ≤ n ≤ 4)%N → is_Some (SupportedBuiltin k) →
    exportable b (ExtVectorTy (BuiltinTy k) n)
| exportable_array b E n :
    isArrayType E = false →
    (∀ B w, E = ExtVectorTy B w →
       getTypeClass B = TC_Builtin ∧ (w = 3%N → n = 1%N)) →
    exportable b E → exportable b (ConstantArrayTy E n).

(** Records hold each other by value without a cycle: [rank] goes down
    from a record to the records among its fields. *)
Definition nestsWithoutCycle (rank : nat → nat) : Prop :=
  ∀ RD Def FD RD',
    definitions !! RD = Some Def → FD ∈ fields Def →
    byValueRecord (canonicalType (fieldQualType FD)) = Some RD' →
    rank RD' < rank RD.

(** Every record of the visited set ranked below [bound] is exportable. *)
Definition visitedExportable (rank : nat → nat) (bound : nat)
    (st : CheckState) : Prop :=
  ∀ RD, RecordTy RD ∈ SPS st → rank RD < bound → exportable true (RecordTy RD).

(** What the visited set has gained from [st] to [st'] is exportable. *)
Definition addedExportable (st st' : CheckState) : Prop :=
  ∀ X, X ∈ SPS st' → X ∈ SPS st ∨ exportable true X.

End Rules.

Section Names.

Variable SupportedBuiltin : BuiltinType.Kind → option (DataType * string).
Variable RSSpecificTypeMap : gmap string DataType.
Variable decls : nat → RecordDecl.
Variable definitions : gmap nat RecordDef.

(** The name of a type, written as a function of the type alone: the C
    name of a builtin, the name of a record, a star before the name of the
    pointee, the C name of the scalar followed by the element count for a
    vector, and the placeholder for a constant array. *)
Fixpoint typeName (T : Ty) : string :=
  match T with
  | BuiltinTy k =>
      match SupportedBuiltin k with
      | Some (_, cname) => cname
      | None => ""
      end
  | RecordTy RD => GetRecordTypeName (decls RD)
  | PointerTy P => "*" ++ typeName P
  | ExtVectorTy (BuiltinTy k) n =>
      match SupportedBuiltin k with
      | Some (_, cname) => cname ++ pretty n
      | None => ""
      end
  | ConstantArrayTy _ _ => DUMMY_TYPE_NAME_FOR_RS_CONSTANT_ARRAY_TYPE
  | _ => ""
  end.

(** A type that is exportable, and whose pointee, if it is a pointer, is
    so in turn, level after level. *)
Fixpoint exportableAtEveryLevel (T : Ty) : Prop :=
  exportable SupportedBuiltin RSSpecificTypeMap decls definitions false T
  ∧ match T with
    | PointerTy P => exportableAtEveryLevel P
    | _ => True
    end.

(** No supported builtin has the empty C name. *)
Definition namedBuiltins : Prop :=
  ∀ k dt cname, SupportedBuiltin k = Some (dt, cname) → cname ≠ "".

End Names.

(** ** What a check reports *)

(** From [st] to [st'] either nothing was reported, or the check said no
    with a sink present and reported exactly once. *)
Definition reportsOnce (Diags SM : bool) (r : option Ty)
    (st st' : CheckState) : Prop :=
  reported st' = reported st
  ∨ (r = None ∧ Diags && SM = true
     ∧ ∃ d, reported st' = (reported st ++ [d])%list).
(** [c'] does what [c] does, but keeps its hands off the diagnostics:
    whenever [c] returns, [c'] returns the same value and the same visited
    set from any diagnostics, which it leaves as they are. *)
Definition unsunk {A} (c c' : M CheckState A) : Prop :=
  ∀ st a st', c st = Done (a, st') →
    ∀ ds, c' (mkCheckState (SPS st) ds) = Done (a, mkCheckState (SPS st') ds).

(** A computation of the checker that never reads where it must not:
    as long as the budget lasts it returns, or, where [mayAssert] allows
    it, stops at a failed assertion. *)
Definition contained {A} (mayAssert : bool) (c : M CheckState A) : Prop :=
  ∀ st, match c st with
        | Done _ | OutOfFuel => True
        | AssertFailed _ => mayAssert = true
        | _ => False
        end.

(** ** What the factory changes *)

(** From [ctx] to [ctx'] nothing but the diagnostics has changed. *)
Definition onlyDiagnostics (ctx ctx' : RSContext) : Prop :=
  export_types ctx' = export_types ctx
  ∧ objects ctx' = objects ctx
  ∧ nextAddress ctx' = nextAddress ctx.

(** What a creator without parts does: it fails and changes nothing but
    the diagnostics, or it allocates the one object of name [Name] and
    members [m] at the next address. *)
Definition createdOne (Name : string) (m : Members)
    (ctx : RSContext) (r : option nat) (ctx' : RSContext) : Prop :=
  (r = None ∧ onlyDiagnostics ctx ctx')
  ∨ ∃ ctx0, r = Some (nextAddress ctx)
            ∧ onlyDiagnostics ctx ctx0
            ∧ new_RSExportType Name m ctx0 = Done (nextAddress ctx, ctx').

(** From [ctx] to [ctx'] no address was given back, and the objects below
    address [b] are as they were. *)
Definition untouched (b : nat) (ctx ctx' : RSContext) : Prop :=
  (nextAddress ctx ≤ nextAddress ctx')%nat
  ∧ ∀ a, (a < b)%nat → objects ctx' !! a = objects ctx !! a.

(** A context in which every pointer leads to an object: the allocated
    objects lie below the next address, every entry of the registry is
    allocated, and so is all that an allocated object refers to. *)
Definition wellFormed (ctx : RSContext) : Prop :=
  (∀ a, is_Some (objects ctx !! a) → (a < nextAddress ctx)%nat)
  ∧ (∀ nm a, export_types ctx !! nm = Some a → is_Some (objects ctx !! a))
  ∧ closed (objects ctx).

(** A creator that works in one step: when it returns it has either
    failed and touched nothing but the diagnostics, or allocated at the
    next address one object of the name [Name], not kept, and left every
    other object as it was. *)
Definition inOneStep (Name : string) (c : M RSContext (option nat)) : Prop :=
  ∀ ctx r ctx', c ctx = Done (r, ctx') →
    match r with
    | None => onlyDiagnostics ctx ctx'
    | Some this =>
        this = nextAddress ctx ∧ nextAddress ctx' = S this
        ∧ ∃ m, objects ctx'
               = <[this := mkExportTypeObj false Name None m]> (objects ctx)
    end.

(** ** What keep changes *)

(** An export type after [RSExportType::keep] has marked it: kept, and
    without its cached LLVM type. *)
Definition marked (o : ExportTypeObj) : ExportTypeObj :=
  mkExportTypeObj true (mName o) None (members o).

(** [h'] has the objects of [h]; each is as it was, or was not kept and
    is now [marked]. *)
Definition onlyMarks (h h' : gmap nat ExportTypeObj) : Prop :=
  ∀ x, match h !! x, h' !! x with
       | Some o, Some o' => o' = o ∨ (mKeep o = false ∧ o' = marked o)
       | None, None => True
       | _, _ => False
       end.

(** Every kept export type outside [pending] refers to kept export types
    only. *)
Definition keptClosedExcept (pending : nat → Prop)
    (h : gmap nat ExportTypeObj) : Prop :=
  ∀ a o c, h !! a = Some o → mKeep o = true → ¬ pending a →
           c ∈ referenced o → kept h c.

(** The kept export types refer to kept export types only. *)
Definition keptClosed (h : gmap nat ExportTypeObj) : Prop :=
  keptClosedExcept (λ _, False) h.

(** [reachable h a c]: from the export type at [a] the one at [c] is
    reached through pointees, element types and field types. *)
Inductive reachable (h : gmap nat ExportTypeObj) : nat → nat → Prop :=
| reachable_here a : reachable h a a
| reachable_step a o c d :
    h !! a = Some o → c ∈ referenced o → reachable h c d → reachable h a d.

(** ** Structures that hold RenderScript objects *)

Section ObjectVocabulary.

Variable RSSpecificTypeMap : gmap string DataType.
Variable decls : nat → RecordDecl.
Variable definitions : gmap nat RecordDef.

(** A data type that marks a field as one to be zero-initialized: an
    object, or one of the three matrices. *)
Definition objectOrMatrix (DT : DataType) : bool :=
  IsRSObjectType DT
  || match DT with
     | DataTypeRSMatrix2x2 | DataTypeRSMatrix3x3 | DataTypeRSMatrix4x4 => true
     | _ => false
     end.

(** [holdsRSObject T]: [T] is a structure, or an array of structures, with
    a definition in which some field is, or is an array of, an object or a
    matrix, or a structure for which this holds in turn. *)
Inductive holdsRSObject : Ty → Prop :=
| holdsRSObject_field T RD Def FD :
    stripArrays T = RecordTy RD → tagKind (decls RD) = TTK_Struct →
    definitions !! RD = Some Def → FD ∈ fields Def →
    objectOrMatrix
      (GetRSSpecificType RSSpecificTypeMap decls
         (stripArrays (canonicalType (fieldQualType FD)))) = true →
    holdsRSObject T
| holdsRSObject_below T RD Def FD :
    stripArrays T = RecordTy RD → tagKind (decls RD) = TTK_Struct →
    definitions !! RD = Some Def → FD ∈ fields Def →
    holdsRSObject (stripArrays (canonicalType (fieldQualType FD))) →
    holdsRSObject T.

(** Every structure held by value in a definition has a definition. *)
Definition definedBelow : Prop :=
  ∀ RD Def FD RD',
    definitions !! RD = Some Def → FD ∈ fields Def →
    byValueRecord (canonicalType (fieldQualType FD)) = Some RD' →
    tagKind (decls RD') = TTK_Struct →
    is_Some (definitions !! RD').

End ObjectVocabulary.

(** ** Pointers inside structures *)

Section PointersInside.

Variable RSSpecificTypeMap : gmap string DataType.
Variable decls : nat → RecordDecl.
Variable definitions : gmap nat RecordDef.

(** [holdsPointer inside T]: the check of [T] comes upon a pointer while
    a top-level record is set. [inside] says whether [T] itself is met
    below a record. The way to the pointer leads through the fields of
    defined records, the elements of constant arrays and the pointee of
    a pointer at top level, and through no record that bears a
    RenderScript name. *)
Inductive holdsPointer : bool → Ty → Prop :=
| holdsPointer_here P : holdsPointer true (PointerTy P)
| holdsPointer_element inside E n :
    holdsPointer inside E → holdsPointer inside (ConstantArrayTy E n)
| holdsPointer_field inside RD Def FD :
    GetRSSpecificType RSSpecificTypeMap decls (RecordTy RD) = DataTypeUnknown →
    definitions !! RD = Some Def → FD ∈ fields Def →
    holdsPointer true (canonicalType (fieldQualType FD)) →
    holdsPointer inside (RecordTy RD)
| holdsPointer_pointee P :
    getTypeClass P ≠ TC_Pointer → holdsPointer false P →
    holdsPointer false (PointerTy P).

(** What an accepted type looks like from the visited set [seen]: no
    pointer below a record, and every record on the way bears a
    RenderScript name or has been visited. *)
Fixpoint clearOfPointers (inside : bool) (seen : list Ty) (T : Ty) : Prop :=
  match T with
  | PointerTy P =>
      inside = false
      ∧ (getTypeClass P = TC_Pointer ∨ clearOfPointers false seen P)
  | ConstantArrayTy E _ => clearOfPointers inside seen E
  | RecordTy RD =>
      GetRSSpecificType RSSpecificTypeMap decls (RecordTy RD) ≠ DataTypeUnknown
      ∨ RecordTy RD ∈ seen
  | _ => True
  end.

(** Every visited record, those of [pending] apart (the ones whose fields
    are still being checked), has fields that are [clearOfPointers]. *)
Definition fieldsClear (pending : nat → Prop) (seen : list Ty) : Prop :=
  ∀ RD Def FD,
    RecordTy RD ∈ seen → ¬ pending RD →
    definitions !! RD = Some Def → FD ∈ fields Def →
    clearOfPointers true seen (canonicalType (fieldQualType FD)).

End PointersInside.

(** ** Later in the compilation *)

Section Compilation.

Variable SupportedBuiltin : BuiltinType.Kind → option (DataType * string).
Variable RSSpecificTypeMap : gmap string DataType.
Variable decls : nat → RecordDecl.
Variable definitions : gmap nat RecordDef.

(** [afterCreates ctx ctx']: later in the compilation. The context [ctx']
    is what [ctx] has become after any number of calls of
    [RSExportType::Create], on any types, successful or not. *)
Inductive afterCreates : RSContext → RSContext → Prop :=
| afterCreates_now ctx : afterCreates ctx ctx
| afterCreates_call fuel T ctx r ctx1 ctx2 :
    RSExportType_Create SupportedBuiltin RSSpecificTypeMap decls definitions
      fuel T ctx
    = Done (r, ctx1) →
    afterCreates ctx1 ctx2 → afterCreates ctx ctx2.

End Compilation.

(** * Properties *)

(** ** The exportability check, case by case *)

Section Checker.

Variable SupportedBuiltin : BuiltinType.Kind → option (DataType * string).
Variable RSSpecificTypeMap : gmap string DataType.
Variable decls : nat → RecordDecl.
Variable definitions : gmap nat RecordDef.

Abbreviation Helper :=
  (TypeExportableHelper SupportedBuiltin RSSpecificTypeMap decls definitions).
Abbreviation Reject := (ReportTypeError decls).

Lemma recordsOnly_nil : recordsOnly [].
Proof. intros T HT. inversion HT. Qed.

Lemma recordsOnly_not_in s T :
  recordsOnly s → getTypeClass T ≠ TC_Record → bool_decide (T ∈ s) = false.
Proof.
  intros Hs HT. apply bool_decide_eq_false_2. intros Hin. auto.
Qed.

(** [ReportTypeError] followed by [return NULL]. *)
Lemma Reject_silent Diags SM VD TLR msg (st : CheckState) :
  Diags && SM = false →
  (Reject Diags SM VD TLR msg ;;; ret (@None Ty)) st = Done (None, st).
Proof.
  intros H. unfold ReportTypeError, bind, ret.
  destruct Diags, SM; simpl in *; congruence.
Qed.

Lemma Reject_reported Diags SM VD TLR msg who loc (st : CheckState) :
  Diags && SM = true → reportTarget decls VD TLR = Some (who, loc) →
  (Reject Diags SM VD TLR msg ;;; ret (@None Ty)) st
  = Done (None, withReport st loc msg who).
Proof.
  intros H Ht. unfold ReportTypeError, bind, ret, Report, modify, withReport.
  destruct Diags, SM; simpl in *; try congruence.
  destruct TLR as [r|]; simpl in *.
  - by inversion Ht.
  - destruct VD as [vd|]; simpl in *; [by inversion Ht | discriminate].
Qed.

Lemma Reject_never_accepts Diags SM VD TLR msg (st st' : CheckState) T :
  (Reject Diags SM VD TLR msg ;;; ret (@None Ty)) st ≠ Done (Some T, st').
Proof.
  unfold ReportTypeError, bind, ret, Report, modify, assert_false.
  destruct (negb Diags || negb SM); simpl; [congruence|].
  destruct TLR; simpl; [congruence|]. destruct VD; simpl; congruence.
Qed.

(** The cases of [TypeExportableHelper], with the recursive calls folded
    back. *)
Lemma Helper_PointerTy fuel Diags SM VD TLR P :
  Helper fuel Diags SM VD TLR (PointerTy P) =
  (seen <-- SPS_count (PointerTy P) ;;
   if (seen : bool) then ret (Some (PointerTy P)) else
   match TLR with
   | Some r =>
       Reject Diags SM None (Some r)
         "structures containing pointers cannot be exported: '%0'" ;;;
       ret None
   | None =>
       if bool_decide (getTypeClass P = TC_Pointer) then ret (Some (PointerTy P))
       else if isArrayType P then ret None
       else
         r <-- Helper fuel Diags SM VD None P ;;
         match r with
         | None => ret None
         | Some _ => ret (Some (PointerTy P))
         end
   end).
Proof. destruct fuel, TLR; reflexivity. Qed.

Lemma Helper_ConstantArrayTy fuel Diags SM VD TLR E n :
  Helper fuel Diags SM VD TLR (ConstantArrayTy E n) =
  (seen <-- SPS_count (ConstantArrayTy E n) ;;
   if (seen : bool) then ret (Some (ConstantArrayTy E n)) else
   ConstantArrayTypeExportableHelper decls (Helper fuel Diags SM VD TLR)
     (ConstantArrayTy E n) E n Diags SM VD TLR).
Proof. destruct fuel; reflexivity. Qed.

Lemma Helper_ExtVectorTy fuel Diags SM VD TLR E n :
  Helper fuel Diags SM VD TLR (ExtVectorTy E n) =
  (seen <-- SPS_count (ExtVectorTy E n) ;;
   if (seen : bool) then ret (Some (ExtVectorTy E n)) else
   if (n <? 2)%N || (4 <? n)%N then ret None
   else if negb (bool_decide (getTypeClass E = TC_Builtin)) then ret None
   else
     r <-- Helper fuel Diags SM VD TLR E ;;
     match r with
     | None => ret None
     | Some _ => ret (Some (ExtVectorTy E n))
     end).
Proof. destruct fuel; reflexivity. Qed.

Lemma Helper_BuiltinTy fuel Diags SM VD TLR k :
  Helper fuel Diags SM VD TLR (BuiltinTy k) =
  (seen <-- SPS_count (BuiltinTy k) ;;
   if (seen : bool) then ret (Some (BuiltinTy k)) else
   match SupportedBuiltin k with
   | Some _ => ret (Some (BuiltinTy k))
   | None => ret None
   end).
Proof. destruct fuel; reflexivity. Qed.

Lemma Helper_RecordTy fuel Diags SM VD TLR RD :
  Helper fuel Diags SM VD TLR (RecordTy RD) =
  (seen <-- SPS_count (RecordTy RD) ;;
   if (seen : bool) then ret (Some (RecordTy RD)) else
   if negb (bool_decide (GetRSSpecificType RSSpecificTypeMap decls (RecordTy RD)
                         = DataTypeUnknown))
   then ret (Some (RecordTy RD))
   else if isUnionType decls (RecordTy RD) then
     Reject Diags SM None (Some RD) "unions cannot be exported: '%0'" ;;;
     ret None
   else if negb (isStructureType decls (RecordTy RD)) then
     assert_false "Unknown type cannot be exported"
   else
     match getDefinition definitions RD with
     | None =>
         Reject Diags SM None (Some RD) "struct is not defined in this module" ;;;
         ret None
     | Some Def =>
         if isEmptyName (declName (decls RD)) then
           Reject Diags SM None (Some RD)
             "anonymous structures cannot be exported" ;;;
           ret None
         else if hasFlexibleArrayMember Def || hasObjectMember Def then ret None
         else
           SPS_insert (RecordTy RD) ;;;
           match fuel with
           | O => out_of_fuel
           | S fuel' =>
               ok <-- checkFields decls
                        (Helper fuel' Diags SM VD
                           (match TLR with None => Some RD | Some _ => TLR end))
                        Diags SM RD (fields Def) ;;
               if (ok : bool) then ret (Some (RecordTy RD)) else ret None
           end
     end).
Proof. destruct fuel; reflexivity. Qed.

Lemma Helper_other fuel Diags SM VD TLR T st :
  match getTypeClass T with
  | TC_IncompleteArray | TC_Enum | TC_FunctionNoProto => True
  | _ => False
  end →
  recordsOnly (SPS st) →
  Helper fuel Diags SM VD TLR T st = Done (None, st).
Proof.
  intros HT Hs.
  assert (Hn : bool_decide (T ∈ SPS st) = false).
  { apply recordsOnly_not_in; [done|]. destruct T; simpl in *; done. }
  destruct fuel, T; simpl in HT; try done;
    cbn; unfold bind, SPS_count; rewrite Hn; reflexivity.
Qed.

(** A pointer met under a top-level record. *)
Lemma Helper_pointer_under_record fuel Diags SM VD TLR P (st : CheckState) :
  recordsOnly (SPS st) →
  Helper fuel Diags SM VD (Some TLR) (PointerTy P) st
  = Done (None,
          if Diags && SM then
            withReport st (declLocation (decls TLR))
              "structures containing pointers cannot be exported: '%0'"
              (declName (decls TLR))
          else st).
Proof.
  intros Hs. rewrite Helper_PointerTy.
  unfold bind at 1. unfold SPS_count.
  rewrite (recordsOnly_not_in _ (PointerTy P) Hs) by done.
  destruct (Diags && SM) eqn:Hsink.
  - by apply Reject_reported.
  - by apply Reject_silent.
Qed.

(** A constant array of arrays. *)
Lemma Helper_array_of_arrays fuel Diags SM VD TLR E n (st : CheckState) :
  recordsOnly (SPS st) → isArrayType E = true →
  Helper fuel Diags SM VD TLR (ConstantArrayTy E n) st
  = (Reject Diags SM VD TLR
       "multidimensional arrays cannot be exported: '%0'" ;;;
     ret None) st.
Proof.
  intros Hs HE. rewrite Helper_ConstantArrayTy. unfold bind at 1.
  unfold SPS_count.
  rewrite (recordsOnly_not_in _ (ConstantArrayTy E n) Hs) by done.
  unfold ConstantArrayTypeExportableHelper. by rewrite HE.
Qed.

(** C9. A record whose name [GetTypeName] resolves to a RenderScript
    matrix or object type is accepted at once: whatever the visited set,
    the sink, the variable and the top-level record (so also nested in a
    record under validation), and with no budget at all, the check returns
    the type and leaves the visited set and the diagnostics as they were.
    Nothing of the declaration beyond its name is read: neither the tag,
    nor the definition, nor its own name being empty, nor any field. *)
Theorem rs_specific_record_accepted_immediately
    fuel Diags SM VD TLR RD (st : CheckState) :
  GetRSSpecificType RSSpecificTypeMap decls (RecordTy RD) ≠ DataTypeUnknown →
  Helper fuel Diags SM VD TLR (RecordTy RD) st = Done (Some (RecordTy RD), st).
Proof.
  intros Hrs. rewrite Helper_RecordTy. unfold bind, SPS_count.
  destruct (bool_decide (RecordTy RD ∈ SPS st)); [reflexivity|].
  rewrite (bool_decide_eq_false_2 _ Hrs). reflexivity.
Qed.

(** C5. A constant-size array whose element type is an array is never
    accepted. Without a sink the check returns the rejection and changes
    nothing; with a sink and a declaration to report against (the
    top-level record, else the variable) it returns the rejection after
    reporting exactly "multidimensional arrays cannot be exported" for that
    declaration. *)
Theorem multidimensional_array_rejected
    fuel Diags SM VD TLR E n (st : CheckState) :
  recordsOnly (SPS st) → isArrayType E = true →
  (∀ T st', Helper fuel Diags SM VD TLR (ConstantArrayTy E n) st
            ≠ Done (Some T, st'))
  ∧ (Diags && SM = false →
     Helper fuel Diags SM VD TLR (ConstantArrayTy E n) st = Done (None, st))
  ∧ (∀ who loc, Diags && SM = true → reportTarget decls VD TLR = Some (who, loc) →
     Helper fuel Diags SM VD TLR (ConstantArrayTy E n) st
     = Done (None,
             withReport st loc
               "multidimensional arrays cannot be exported: '%0'" who)).
Proof.
  intros Hs HE. rewrite Helper_array_of_arrays by done. repeat split.
  - intros T st'. apply Reject_never_accepts.
  - apply Reject_silent.
  - intros who loc. apply Reject_reported.
Qed.

Lemma exportableScalar_builtin B :
  exportableScalar SupportedBuiltin B = true →
  ∃ k, B = BuiltinTy k ∧ is_Some (SupportedBuiltin k).
Proof.
  destruct B; simpl; try discriminate.
  intros H. apply bool_decide_eq_true_1 in H. eauto.
Qed.

(** The check on a vector of 2 to 4 elements. *)
Lemma Helper_vector fuel Diags SM VD TLR B w (st : CheckState) :
  recordsOnly (SPS st) → (2 ≤ w ≤ 4)%N →
  Helper fuel Diags SM VD TLR (ExtVectorTy B w) st
  = Done (if exportableScalar SupportedBuiltin B then Some (ExtVectorTy B w) else None, st).
Proof.
  intros Hs Hw. rewrite Helper_ExtVectorTy. unfold bind at 1. unfold SPS_count.
  rewrite (recordsOnly_not_in _ (ExtVectorTy B w) Hs) by done.
  replace ((w <? 2)%N || (4 <? w)%N) with false
    by (symmetry; apply orb_false_intro; apply N.ltb_ge; lia).
  destruct (decide (getTypeClass B = TC_Builtin)) as [HB|HB].
  - rewrite (bool_decide_eq_true_2 _ HB). simpl.
    destruct B; simpl in HB; try discriminate.
    rewrite Helper_BuiltinTy. unfold bind, SPS_count.
    rewrite (recordsOnly_not_in _ (BuiltinTy k) Hs) by done. simpl.
    destruct (SupportedBuiltin k) as [e|] eqn:Hk.
    + rewrite bool_decide_eq_true_2 by eauto. reflexivity.
    + rewrite bool_decide_eq_false_2 by (intros [? ?]; discriminate).
      reflexivity.
  - rewrite (bool_decide_eq_false_2 _ HB). simpl.
    destruct B; simpl in *; try reflexivity. congruence.
Qed.

(** C6. For a constant-size array of [n] vectors of width [w] over [B],
    with only records in the visited set: (1) if [w] is 3 and [n] is not 1
    the array is never accepted, and over a builtin [B] the rejection is
    returned silently without a sink and, with a sink and a declaration to
    report against, after reporting "arrays of width 3 vector types cannot
    be exported"; (2) if [w] is 2 or 4, or [w] is 3 and [n] is 1, then
    whatever the length the array is accepted when the base scalar is
    exportable, and rejected when it is not. *)
Theorem vector_array_rules fuel Diags SM VD TLR B w n (st : CheckState) :
  recordsOnly (SPS st) →
  let A := ConstantArrayTy (ExtVectorTy B w) n in
  (w = 3%N → n ≠ 1%N →
     (∀ T st', Helper fuel Diags SM VD TLR A st ≠ Done (Some T, st'))
     ∧ (getTypeClass B = TC_Builtin → Diags && SM = false →
        Helper fuel Diags SM VD TLR A st = Done (None, st))
     ∧ (∀ who loc, getTypeClass B = TC_Builtin → Diags && SM = true →
        reportTarget decls VD TLR = Some (who, loc) →
        Helper fuel Diags SM VD TLR A st
        = Done (None,
                withReport st loc
                  "arrays of width 3 vector types cannot be exported: '%0'"
                  who)))
  ∧ (w = 2%N ∨ w = 4%N ∨ (w = 3%N ∧ n = 1%N) →
     (exportableScalar SupportedBuiltin B = true →
      Helper fuel Diags SM VD TLR A st = Done (Some A, st))
     ∧ (exportableScalar SupportedBuiltin B = false →
        ∀ T st', Helper fuel Diags SM VD TLR A st ≠ Done (Some T, st'))).
Proof.
  intros Hs A.
  assert (Hn : bool_decide (A ∈ SPS st) = false)
    by (by apply recordsOnly_not_in).
  assert (Hunf : Helper fuel Diags SM VD TLR A st
                 = ConstantArrayTypeExportableHelper decls
                     (Helper fuel Diags SM VD TLR) A (ExtVectorTy B w) n
                     Diags SM VD TLR st).
  { unfold A. rewrite Helper_ConstantArrayTy. unfold bind, SPS_count.
    fold A. by rewrite Hn. }
  rewrite Hunf. clear Hunf.
  change (ConstantArrayTypeExportableHelper decls
            (Helper fuel Diags SM VD TLR) A (ExtVectorTy B w) n
            Diags SM VD TLR)
    with (if negb (IsPrimitiveType B) then
            Reject Diags SM VD TLR
              "vectors of non-primitive types cannot be exported: '%0'" ;;;
            ret None
          else if bool_decide (w = 3%N) && negb (bool_decide (n = 1%N)) then
            Reject Diags SM VD TLR
              "arrays of width 3 vector types cannot be exported: '%0'" ;;;
            ret None
          else
            r <-- Helper fuel Diags SM VD TLR (ExtVectorTy B w) ;;
            match r with
            | None => ret None
            | Some _ => ret (Some A)
            end).
  unfold IsPrimitiveType.
  destruct (decide (getTypeClass B = TC_Builtin)) as [HB|HB];
    [rewrite (bool_decide_eq_true_2 _ HB)
    |rewrite (bool_decide_eq_false_2 _ HB)]; cbn [negb].
  - split.
    + intros -> Hlen.
      rewrite (bool_decide_eq_true_2 (3%N = 3%N)) by done.
      rewrite (bool_decide_eq_false_2 _ Hlen). cbn [negb andb].
      repeat split.
      * intros T st'. apply Reject_never_accepts.
      * intros _. apply Reject_silent.
      * intros who loc _. apply Reject_reported.
    + intros Hw.
      assert (Hrange : (2 ≤ w ≤ 4)%N)
        by (destruct Hw as [->|[->| [-> _]]]; lia).
      replace (bool_decide (w = 3%N) && negb (bool_decide (n = 1%N)))
        with false by (by destruct Hw as [->|[->| [-> ->]]]).
      unfold bind. rewrite Helper_vector by done.
      split; intros HBs; rewrite HBs;
        [reflexivity | intros T st'; unfold ret; congruence].
  - split.
    + intros _ _. repeat split; try (intros; congruence).
      intros T st'. apply Reject_never_accepts.
    + intros _. split.
      * intros HBs. destruct (exportableScalar_builtin _ HBs) as (k & -> & _).
        simpl in HB. congruence.
      * intros _ T st'. apply Reject_never_accepts.
Qed.

(** *** The visited set only grows, and only by records *)

Lemma grows_refl st : grows st st.
Proof. split; auto. Qed.

Lemma grows_trans st1 st2 st3 : grows st1 st2 → grows st2 st3 → grows st1 st3.
Proof.
  intros [H1 H1'] [H2 H2']. split; [auto|].
  intros x Hx. destruct (H2' x Hx) as [Hx2|]; auto.
Qed.

Lemma grows_recordsOnly st st' :
  grows st st' → recordsOnly (SPS st) → recordsOnly (SPS st').
Proof. intros [_ H] Hs x Hx. destruct (H x Hx); auto. Qed.

Lemma grows_same_SPS st st' : SPS st' = SPS st → grows st st'.
Proof. intros E. unfold grows. rewrite E. auto. Qed.

Lemma Reject_SPS Diags SM VD TLR msg (st st' : CheckState) (r : option Ty) :
  (Reject Diags SM VD TLR msg ;;; ret None) st = Done (r, st') →
  r = None ∧ SPS st' = SPS st.
Proof.
  unfold ReportTypeError, bind, ret, Report, modify, assert_false.
  destruct (negb Diags || negb SM); simpl; [by intros [= <- <-]|].
  destruct TLR; simpl; [by intros [= <- <-]|].
  destruct VD; simpl; [by intros [= <- <-] | discriminate].
Qed.

Lemma SPS_insert_grows T (st : CheckState) :
  getTypeClass T = TC_Record →
  ∃ st1, SPS_insert T st = Done (tt, st1) ∧ grows st st1 ∧ T ∈ SPS st1
         ∧ reported st1 = reported st.
Proof.
  intros HT. unfold SPS_insert, modify. eexists. split; [reflexivity|].
  simpl. destruct (decide (T ∈ SPS st)) as [Hin|Hin].
  - rewrite (bool_decide_eq_true_2 _ Hin). split; [by apply grows_same_SPS|done].
  - rewrite (bool_decide_eq_false_2 _ Hin). split; [|split; [left|done]].
    split; simpl; [intros x Hx; by right|].
    intros x Hx. apply elem_of_cons in Hx as [->|Hx]; auto.
Qed.

Lemma checkFields_grows (H : Ty → M CheckState (option Ty)) Diags SM RD FDs
    (st st' : CheckState) (b : bool) :
  (∀ T st r st', H T st = Done (r, st') → grows st st') →
  checkFields decls H Diags SM RD FDs st = Done (b, st') → grows st st'.
Proof.
  intros HH. revert st. induction FDs as [|FD FDs IH]; intros st; simpl.
  - intros [= <- <-]. apply grows_refl.
  - unfold bind at 1.
    destruct (H (GET_CANONICAL_TYPE (GetTypeOfDecl FD)) st)
      as [[[T'|] st1]| | | |] eqn:E; try discriminate.
    + pose proof (HH _ _ _ _ E) as Hg1.
      destruct (isBitField FD).
      * unfold bind, ret, Report, modify.
        destruct (Diags && SM); simpl; intros [= <- <-];
          (eapply grows_trans; [exact Hg1 | by apply grows_same_SPS]).
      * intros Hrest. eapply grows_trans; [exact Hg1 | by apply IH].
    + intros [= <- <-]. by eapply HH.
Qed.

Lemma Helper_grows fuel Diags SM VD TLR T (st st' : CheckState) r :
  Helper fuel Diags SM VD TLR T st = Done (r, st') → grows st st'.
Proof.
  revert TLR T st st' r.
  induction fuel as [fuel IHfuel] using lt_wf_ind.
  intros TLR T. induction T as [k|RD|P IHP|E IHE n|E IHE n|E IHE|nm|R IHR];
    intros st st' r.
  - rewrite Helper_BuiltinTy. unfold bind, SPS_count, ret.
    destruct (bool_decide _); [by intros [= <- <-]; apply grows_refl|].
    destruct (SupportedBuiltin k); intros [= <- <-]; apply grows_refl.
  - rewrite Helper_RecordTy. unfold bind at 1. unfold SPS_count.
    destruct (bool_decide (RecordTy RD ∈ SPS st));
      [by intros [= <- <-]; apply grows_refl|].
    destruct (negb (bool_decide _));
      [by intros [= <- <-]; apply grows_refl|].
    destruct (isUnionType decls (RecordTy RD)).
    { intros Hr. apply Reject_SPS in Hr as [_ Hr]. by apply grows_same_SPS. }
    destruct (negb (isStructureType decls (RecordTy RD))); [discriminate|].
    destruct (getDefinition definitions RD) as [Def|].
    2:{ intros Hr. apply Reject_SPS in Hr as [_ Hr]. by apply grows_same_SPS. }
    destruct (isEmptyName (declName (decls RD))).
    { intros Hr. apply Reject_SPS in Hr as [_ Hr]. by apply grows_same_SPS. }
    destruct (hasFlexibleArrayMember Def || hasObjectMember Def);
      [by intros [= <- <-]; apply grows_refl|].
    unfold bind at 1.
    destruct (SPS_insert_grows (RecordTy RD) st eq_refl)
      as (st1 & -> & Hg1 & _).
    destruct fuel as [|fuel']; [discriminate|].
    unfold bind at 1.
    destruct (checkFields _ _ _ _ _ _ st1) as [[ok st2]| | | |] eqn:E;
      try discriminate.
    intros Hr.
    assert (st' = st2) as -> by (destruct ok; by inversion Hr).
    eapply grows_trans; [exact Hg1|].
    eapply checkFields_grows; [|exact E].
    intros T0 st0 r0 st0'. apply IHfuel. lia.
  - rewrite Helper_PointerTy. unfold bind at 1. unfold SPS_count.
    destruct (bool_decide _); [by intros [= <- <-]; apply grows_refl|].
    destruct TLR as [tlr|].
    { intros Hr. apply Reject_SPS in Hr as [_ Hr]. by apply grows_same_SPS. }
    destruct (bool_decide _); [by intros [= <- <-]; apply grows_refl|].
    destruct (isArrayType P); [by intros [= <- <-]; apply grows_refl|].
    unfold bind.
    destruct (Helper fuel Diags SM VD None P st) as [[[T'|] st1]| | | |] eqn:E;
      try discriminate; intros [= <- <-]; by eapply IHP.
  - rewrite Helper_ExtVectorTy. unfold bind at 1. unfold SPS_count.
    destruct (bool_decide _); [by intros [= <- <-]; apply grows_refl|].
    destruct (_ || _); [by intros [= <- <-]; apply grows_refl|].
    destruct (negb _); [by intros [= <- <-]; apply grows_refl|].
    unfold bind.
    destruct (Helper fuel Diags SM VD TLR E st) as [[[T'|] st1]| | | |] eqn:E1;
      try discriminate; intros [= <- <-]; by eapply IHE.
  - rewrite Helper_ConstantArrayTy. unfold bind at 1. unfold SPS_count.
    destruct (bool_decide _); [by intros [= <- <-]; apply grows_refl|].
    unfold ConstantArrayTypeExportableHelper.
    assert (Hrec : ∀ (A : Ty) (r : option Ty) st',
              (r <-- Helper fuel Diags SM VD TLR E ;;
               match r with
               | None => ret None
               | Some _ => ret (Some A)
               end) st = Done (r, st') → grows st st').
    { intros A r0 st0. unfold bind.
      destruct (Helper fuel Diags SM VD TLR E st)
        as [[[T'|] st1]| | | |] eqn:E1;
        try discriminate; intros [= <- <-]; by eapply IHE. }
    destruct (isArrayType E).
    { intros Hr. apply Reject_SPS in Hr as [_ Hr]. by apply grows_same_SPS. }
    destruct E; try apply Hrec.
    destruct (negb _).
    { intros Hr. apply Reject_SPS in Hr as [_ Hr]. by apply grows_same_SPS. }
    destruct (_ && _); [|apply Hrec].
    intros Hr. apply Reject_SPS in Hr as [_ Hr]. by apply grows_same_SPS.
  - destruct fuel; cbn; unfold bind, SPS_count, ret;
      destruct (bool_decide _); intros [= <- <-]; apply grows_refl.
  - destruct fuel; cbn; unfold bind, SPS_count, ret;
      destruct (bool_decide _); intros [= <- <-]; apply grows_refl.
  - destruct fuel; cbn; unfold bind, SPS_count, ret;
      destruct (bool_decide _); intros [= <- <-]; apply grows_refl.
Qed.

(** *** The check returns *)

Lemma grows_undescended st st' :
  grows st st' → undescended definitions (SPS st') ⊆ undescended definitions (SPS st).
Proof.
  intros [Hg _] RD. unfold undescended. rewrite !elem_of_filter.
  intros [Hn Hd]. split; [|done]. intros Hin. apply Hn, Hg, Hin.
Qed.

Lemma bind_OutOfFuel {S A B} (c : M S A) (k : A → M S B) (s : S) :
  c s ≠ OutOfFuel → (∀ a s', c s = Done (a, s') → k a s' ≠ OutOfFuel) →
  bind c k s ≠ OutOfFuel.
Proof.
  intros Hc Hk. unfold bind. destruct (c s) as [[a s']| | | |]; try done.
  by apply Hk.
Qed.

Lemma Reject_not_OutOfFuel Diags SM VD TLR msg (st : CheckState) :
  (Reject Diags SM VD TLR msg ;;; ret (@None Ty)) st ≠ OutOfFuel.
Proof.
  unfold ReportTypeError, bind, ret, Report, modify, assert_false.
  destruct (negb Diags || negb SM); simpl; [done|].
  destruct TLR; simpl; [done|]. by destruct VD.
Qed.

Lemma checkFields_not_OutOfFuel (H : Ty → M CheckState (option Ty))
    Diags SM RD FDs (fuel : nat) (st : CheckState) :
  (∀ T st r st', H T st = Done (r, st') → grows st st') →
  (∀ T st, (size (undescended definitions (SPS st)) ≤ fuel)%nat → H T st ≠ OutOfFuel) →
  (size (undescended definitions (SPS st)) ≤ fuel)%nat →
  checkFields decls H Diags SM RD FDs st ≠ OutOfFuel.
Proof.
  intros Hg HH. revert st. induction FDs as [|FD FDs IH]; intros st Hsz; simpl;
    [done|].
  apply bind_OutOfFuel; [by apply HH|].
  intros [T'|] st1 E; [|done].
  pose proof (subseteq_size _ _ (grows_undescended _ _ (Hg _ _ _ _ E))).
  destruct (isBitField FD).
  - unfold bind, ret, Report, modify. by destruct (Diags && SM).
  - apply IH. lia.
Qed.

(** A budget of as many units as there are defined records outside the
    visited set is never exhausted. *)
Lemma Helper_not_OutOfFuel (fuel : nat) Diags SM VD TLR T (st : CheckState) :
  (size (undescended definitions (SPS st)) ≤ fuel)%nat →
  Helper fuel Diags SM VD TLR T st ≠ OutOfFuel.
Proof.
  revert TLR T st.
  induction fuel as [fuel IHfuel] using lt_wf_ind.
  intros TLR T. induction T as [k|RD|P IHP|E IHE n|E IHE n|E IHE|nm|R IHR];
    intros st Hsz.
  - rewrite Helper_BuiltinTy. unfold bind, SPS_count, ret.
    destruct (bool_decide _); [done|]. by destruct (SupportedBuiltin k).
  - rewrite Helper_RecordTy. unfold bind at 1. unfold SPS_count.
    destruct (bool_decide (RecordTy RD ∈ SPS st)) eqn:Hseen; [done|].
    apply bool_decide_eq_false_1 in Hseen.
    destruct (negb (bool_decide _)); [done|].
    destruct (isUnionType decls (RecordTy RD));
      [apply Reject_not_OutOfFuel|].
    destruct (negb (isStructureType decls (RecordTy RD))); [done|].
    destruct (getDefinition definitions RD) as [Def|] eqn:HDef;
      [|apply Reject_not_OutOfFuel].
    destruct (isEmptyName (declName (decls RD)));
      [apply Reject_not_OutOfFuel|].
    destruct (hasFlexibleArrayMember Def || hasObjectMember Def); [done|].
    unfold bind at 1.
    destruct (SPS_insert_grows (RecordTy RD) st eq_refl)
      as (st1 & -> & Hg1 & Hin1 & _).
    assert (Hsub : undescended definitions (SPS st1) ⊂ undescended definitions (SPS st)).
    { split; [by apply grows_undescended|]. intros Hsub.
      assert (RD ∈ undescended definitions (SPS st)) as HRD.
      { unfold undescended. apply elem_of_filter. split; [done|].
        apply elem_of_dom. by exists Def. }
      apply Hsub in HRD. unfold undescended in HRD.
      apply elem_of_filter in HRD as [HRD _]. done. }
    apply subset_size in Hsub.
    destruct fuel as [|fuel']; [lia|].
    apply bind_OutOfFuel; [|by intros [] ? _].
    apply checkFields_not_OutOfFuel with (fuel := fuel').
    + intros T0 st0 r0 st0'. apply Helper_grows.
    + intros T0 st0 Hsz0. apply IHfuel; [lia | done].
    + lia.
  - rewrite Helper_PointerTy. unfold bind at 1. unfold SPS_count.
    destruct (bool_decide _); [done|].
    destruct TLR as [tlr|]; [apply Reject_not_OutOfFuel|].
    destruct (bool_decide _); [done|]. destruct (isArrayType P); [done|].
    apply bind_OutOfFuel; [by apply IHP | by intros []].
  - rewrite Helper_ExtVectorTy. unfold bind at 1. unfold SPS_count.
    destruct (bool_decide _); [done|]. destruct (_ || _); [done|].
    destruct (negb _); [done|].
    apply bind_OutOfFuel; [by apply IHE | by intros []].
  - rewrite Helper_ConstantArrayTy. unfold bind at 1. unfold SPS_count.
    destruct (bool_decide _); [done|].
    unfold ConstantArrayTypeExportableHelper.
    assert (Hrec : ∀ (A : Ty),
              (r <-- Helper fuel Diags SM VD TLR E ;;
               match r with
               | None => ret None
               | Some _ => ret (Some A)
               end) st ≠ OutOfFuel).
    { intros A. apply bind_OutOfFuel; [by apply IHE | by intros []]. }
    destruct (isArrayType E); [apply Reject_not_OutOfFuel|].
    destruct E; try apply Hrec.
    destruct (negb _); [apply Reject_not_OutOfFuel|].
    destruct (_ && _); [apply Reject_not_OutOfFuel | apply Hrec].
  - destruct fuel; cbn; unfold bind, SPS_count, ret; by destruct (bool_decide _).
  - destruct fuel; cbn; unfold bind, SPS_count, ret; by destruct (bool_decide _).
  - destruct fuel; cbn; unfold bind, SPS_count, ret; by destruct (bool_decide _).
Qed.

(** [TypeExportable] never runs out of budget: the check of the code
    always comes to an end. *)
Lemma TypeExportable_returns T Diags SM VD (ds : list Diagnostic) :
  TypeExportable SupportedBuiltin RSSpecificTypeMap decls definitions
    T Diags SM VD ds ≠ OutOfFuel.
Proof.
  unfold TypeExportable.
  pose proof (Helper_not_OutOfFuel (size definitions) Diags SM VD None T
                (mkCheckState [] ds)) as H.
  destruct (Helper _ _ _ _ _ _ _) as [[r st]| | | |]; try done.
  exfalso. apply H; [|done]. simpl. rewrite <- size_dom.
  apply subseteq_size. unfold undescended. intros x Hx.
  by apply elem_of_filter in Hx as [_ Hx].
Qed.

(** *** Without a sink the diagnostics play no part *)

Lemma silent_ret {A} (a : A) : silent (ret a).
Proof. intros sps. by exists (Done (a, sps)). Qed.

Lemma silent_bind {A B} (c : M CheckState A) (k : A → M CheckState B) :
  silent c → (∀ a, silent (k a)) → silent (bind c k).
Proof.
  intros Hc Hk sps. destruct (Hc sps) as [[[a sps1]| | | |] Hout].
  - destruct (Hk a sps1) as [out2 Hout2]. exists out2. intros ds.
    unfold bind. rewrite Hout. simpl. apply Hout2.
  - exists (AssertFailed what). intros ds. unfold bind. by rewrite Hout.
  - exists (OutOfBoundsRead index). intros ds. unfold bind. by rewrite Hout.
  - exists (DanglingPointer address). intros ds. unfold bind. by rewrite Hout.
  - exists OutOfFuel. intros ds. unfold bind. by rewrite Hout.
Qed.

Lemma silent_assert_false {A} w : silent (@assert_false CheckState A w).
Proof. intros sps. by exists (AssertFailed w). Qed.

Lemma silent_out_of_fuel {A} : silent (@out_of_fuel CheckState A).
Proof. intros sps. by exists OutOfFuel. Qed.

Lemma silent_SPS_count T : silent (SPS_count T).
Proof. intros sps. by exists (Done (bool_decide (T ∈ sps), sps)). Qed.

Lemma silent_SPS_insert T : silent (SPS_insert T).
Proof.
  intros sps.
  by exists (Done (tt, if bool_decide (T ∈ sps) then sps else T :: sps)).
Qed.

Lemma silent_Reject VD TLR msg :
  silent (Reject false false VD TLR msg ;;; ret (@None Ty)).
Proof. intros sps. by exists (Done (None, sps)). Qed.

Lemma silent_checkFields (H : Ty → M CheckState (option Ty)) RD FDs :
  (∀ T, silent (H T)) → silent (checkFields decls H false false RD FDs).
Proof.
  intros HH. induction FDs as [|FD FDs IH]; simpl; [apply silent_ret|].
  apply silent_bind; [apply HH|]. intros [T'|]; [|apply silent_ret].
  destruct (isBitField FD); [|apply IH].
  apply silent_bind; [apply silent_ret | intros; apply silent_ret].
Qed.

Lemma silent_Helper fuel VD TLR T : silent (Helper fuel false false VD TLR T).
Proof.
  revert TLR T.
  induction fuel as [fuel IHfuel] using lt_wf_ind.
  intros TLR T. induction T as [k|RD|P IHP|E IHE n|E IHE n|E IHE|nm|R IHR].
  - rewrite Helper_BuiltinTy. apply silent_bind; [apply silent_SPS_count|].
    intros []; [apply silent_ret|].
    destruct (SupportedBuiltin k); apply silent_ret.
  - rewrite Helper_RecordTy. apply silent_bind; [apply silent_SPS_count|].
    intros []; [apply silent_ret|].
    destruct (negb (bool_decide _)); [apply silent_ret|].
    destruct (isUnionType decls (RecordTy RD)); [apply silent_Reject|].
    destruct (negb (isStructureType decls (RecordTy RD)));
      [apply silent_assert_false|].
    destruct (getDefinition definitions RD) as [Def|]; [|apply silent_Reject].
    destruct (isEmptyName (declName (decls RD))); [apply silent_Reject|].
    destruct (hasFlexibleArrayMember Def || hasObjectMember Def);
      [apply silent_ret|].
    apply silent_bind; [apply silent_SPS_insert|]. intros _.
    destruct fuel as [|fuel']; [apply silent_out_of_fuel|].
    apply silent_bind.
    + apply silent_checkFields. intros T0. apply IHfuel. lia.
    + intros []; apply silent_ret.
  - rewrite Helper_PointerTy. apply silent_bind; [apply silent_SPS_count|].
    intros []; [apply silent_ret|].
    destruct TLR; [apply silent_Reject|].
    destruct (bool_decide _); [apply silent_ret|].
    destruct (isArrayType P); [apply silent_ret|].
    apply silent_bind; [apply IHP|]. intros []; apply silent_ret.
  - rewrite Helper_ExtVectorTy. apply silent_bind; [apply silent_SPS_count|].
    intros []; [apply silent_ret|].
    destruct (_ || _); [apply silent_ret|].
    destruct (negb _); [apply silent_ret|].
    apply silent_bind; [apply IHE|]. intros []; apply silent_ret.
  - rewrite Helper_ConstantArrayTy.
    apply silent_bind; [apply silent_SPS_count|].
    intros []; [apply silent_ret|].
    unfold ConstantArrayTypeExportableHelper.
    assert (Hrec : ∀ (A : Ty),
              silent (r <-- Helper fuel false false VD TLR E ;;
                      match r with
                      | None => ret None
                      | Some _ => ret (Some A)
                      end)).
    { intros A. apply silent_bind; [apply IHE|]. intros []; apply silent_ret. }
    destruct (isArrayType E); [apply silent_Reject|].
    destruct E; try apply Hrec.
    destruct (negb _); [apply silent_Reject|].
    destruct (_ && _); [apply silent_Reject | apply Hrec].
  - destruct fuel; cbn; (apply silent_bind; [apply silent_SPS_count|]);
      intros []; apply silent_ret.
  - destruct fuel; cbn; (apply silent_bind; [apply silent_SPS_count|]);
      intros []; apply silent_ret.
  - destruct fuel; cbn; (apply silent_bind; [apply silent_SPS_count|]);
      intros []; apply silent_ret.
Qed.

Lemma detached_ret {A} (a : A) : detached (ret a).
Proof. by exists (Done a). Qed.

Lemma detached_bind {A B} (c : M (list Diagnostic) A)
    (k : A → M (list Diagnostic) B) :
  detached c → (∀ a, detached (k a)) → detached (bind c k).
Proof.
  intros [[a| | | |] Hout] Hk.
  - destruct (Hk a) as [out2 Hout2]. exists out2. intros ds.
    unfold bind. rewrite Hout. apply Hout2.
  - exists (AssertFailed what). intros ds. unfold bind. by rewrite Hout.
  - exists (OutOfBoundsRead index). intros ds. unfold bind. by rewrite Hout.
  - exists (DanglingPointer address). intros ds. unfold bind. by rewrite Hout.
  - exists OutOfFuel. intros ds. unfold bind. by rewrite Hout.
Qed.

Lemma detached_Done {A} (c : M (list Diagnostic) A) ds a ds' :
  detached c → c ds = Done (a, ds') →
  ds' = ds ∧ ∀ ds2, c ds2 = Done (a, ds2).
Proof.
  intros [out Hout] Hc. rewrite Hout in Hc.
  destruct out; try discriminate. inversion Hc; subst.
  split; [done | apply Hout].
Qed.

Abbreviation TypeExportable' :=
  (TypeExportable SupportedBuiltin RSSpecificTypeMap decls definitions).
Abbreviation GetTypeName' :=
  (GetTypeName SupportedBuiltin RSSpecificTypeMap decls definitions).
Abbreviation NormalizeType' :=
  (NormalizeType SupportedBuiltin RSSpecificTypeMap decls definitions).

Lemma detached_TypeExportable T VD :
  detached (TypeExportable' T false false VD).
Proof.
  unfold TypeExportable.
  destruct (silent_Helper (size definitions) VD None T [])
    as [[[r sps]| | | |] Hout].
  - exists (Done r). intros ds. by rewrite Hout.
  - exists (AssertFailed what). intros ds. by rewrite Hout.
  - exists (OutOfBoundsRead index). intros ds. by rewrite Hout.
  - exists (DanglingPointer address). intros ds. by rewrite Hout.
  - exists OutOfFuel. intros ds. by rewrite Hout.
Qed.

Lemma detached_vector_name E n :
  detached (RSExportVectorType_GetTypeName SupportedBuiltin E n).
Proof.
  unfold RSExportVectorType_GetTypeName.
  destruct E; try apply detached_ret.
  destruct (_ || _); [apply detached_ret|].
  destruct (SupportedBuiltin k) as [[dt cname]|]; [|apply detached_ret].
  simpl. destruct (_ !! _); [apply detached_ret|].
  by exists (OutOfBoundsRead ((Z.of_N n - 2) mod 2 ^ 32)).
Qed.

Lemma detached_GetTypeName T : detached (GetTypeName' T).
Proof.
  induction T as [k|RD|P IHP|E IHE n|E IHE n|E IHE|nm|R IHR]; simpl;
    try apply detached_ret.
  - destruct (SupportedBuiltin k) as [[dt cname]|]; [apply detached_ret|].
    by exists (AssertFailed "Unknown data type of the builtin").
  - apply detached_bind; [apply detached_TypeExportable|].
    intros [T'|]; [|apply detached_ret].
    apply detached_bind; [apply IHP|]. intros nm.
    destruct (isEmptyName nm); apply detached_ret.
  - apply detached_vector_name.
Qed.

Lemma detached_NormalizeType T VD :
  detached (NormalizeType' T false false VD).
Proof.
  unfold NormalizeType.
  apply detached_bind; [apply detached_TypeExportable|].
  intros [T'|]; [|apply detached_ret].
  apply detached_bind; [apply detached_GetTypeName|]. intros nm.
  destruct (isEmptyName nm); [|apply detached_ret].
  apply detached_bind; [apply detached_ret | intros; apply detached_ret].
Qed.

(** *** What an accepted type looks like *)

Lemma Helper_accepts_same fuel Diags SM VD TLR T (st st' : CheckState) T' :
  Helper fuel Diags SM VD TLR T st = Done (Some T', st') → T' = T.
Proof.
  destruct T as [k|RD|P|E n|E n|E|nm|R].
  - rewrite Helper_BuiltinTy. unfold bind, SPS_count, ret.
    destruct (bool_decide _); [by intros [= <- <-]|].
    destruct (SupportedBuiltin k); by intros [= <- <-].
  - rewrite Helper_RecordTy. unfold bind at 1. unfold SPS_count.
    destruct (bool_decide _); [by intros [= <- <-]|].
    destruct (negb (bool_decide _)); [by intros [= <- <-]|].
    destruct (isUnionType decls (RecordTy RD)).
    { intros Hr. by apply Reject_SPS in Hr as [? _]. }
    destruct (negb (isStructureType decls (RecordTy RD))); [discriminate|].
    destruct (getDefinition definitions RD) as [Def|].
    2:{ intros Hr. by apply Reject_SPS in Hr as [? _]. }
    destruct (isEmptyName (declName (decls RD))).
    { intros Hr. by apply Reject_SPS in Hr as [? _]. }
    destruct (hasFlexibleArrayMember Def || hasObjectMember Def);
      [by intros [= <- <-]|].
    unfold bind at 1. unfold SPS_insert, modify.
    destruct fuel as [|fuel']; [discriminate|].
    unfold bind, ret.
    destruct (checkFields _ _ _ _ _ _ _) as [[[] st2]| | | |];
      try discriminate; by intros [= <- <-].
  - rewrite Helper_PointerTy. unfold bind at 1. unfold SPS_count.
    destruct (bool_decide _); [by intros [= <- <-]|].
    destruct TLR as [tlr|].
    { intros Hr. by apply Reject_SPS in Hr as [? _]. }
    destruct (bool_decide _); [by intros [= <- <-]|].
    destruct (isArrayType P); [by intros [= <- <-]|].
    unfold bind, ret.
    destruct (Helper fuel Diags SM VD None P st) as [[[T0|] st1]| | | |];
      try discriminate; by intros [= <- <-].
  - rewrite Helper_ExtVectorTy. unfold bind at 1. unfold SPS_count.
    destruct (bool_decide _); [by intros [= <- <-]|].
    destruct (_ || _); [by intros [= <- <-]|].
    destruct (negb _); [by intros [= <- <-]|].
    unfold bind, ret.
    destruct (Helper fuel Diags SM VD TLR E st) as [[[T0|] st1]| | | |];
      try discriminate; by intros [= <- <-].
  - rewrite Helper_ConstantArrayTy. unfold bind at 1. unfold SPS_count.
    destruct (bool_decide _); [by intros [= <- <-]|].
    unfold ConstantArrayTypeExportableHelper.
    assert (Hrec : (r <-- Helper fuel Diags SM VD TLR E ;;
                    match r with
                    | None => ret None
                    | Some _ => ret (Some (ConstantArrayTy E n))
                    end) st = Done (Some T', st') → T' = ConstantArrayTy E n).
    { unfold bind, ret.
      destruct (Helper fuel Diags SM VD TLR E st) as [[[T0|] st1]| | | |];
        try discriminate; by intros [= <- <-]. }
    destruct (isArrayType E).
    { intros Hr. by apply Reject_SPS in Hr as [? _]. }
    destruct E; try apply Hrec.
    destruct (negb _).
    { intros Hr. by apply Reject_SPS in Hr as [? _]. }
    destruct (_ && _); [|apply Hrec].
    intros Hr. by apply Reject_SPS in Hr as [? _].
  - destruct fuel; cbn; unfold bind, SPS_count, ret;
      destruct (bool_decide _); by intros [= <- <-].
  - destruct fuel; cbn; unfold bind, SPS_count, ret;
      destruct (bool_decide _); by intros [= <- <-].
  - destruct fuel; cbn; unfold bind, SPS_count, ret;
      destruct (bool_decide _); by intros [= <- <-].
Qed.

(** An accepted constant array has neither arrays nor, under a top-level
    record, pointers as elements. *)
Lemma Helper_accepts_array fuel Diags SM VD TLR E n (st st' : CheckState) T' :
  recordsOnly (SPS st) →
  Helper fuel Diags SM VD TLR (ConstantArrayTy E n) st = Done (Some T', st') →
  isArrayType E = false
  ∧ (is_Some TLR → getTypeClass E ≠ TC_Pointer).
Proof.
  intros Hs Hacc. split.
  - destruct (isArrayType E) eqn:HE; [|done].
    rewrite Helper_array_of_arrays in Hacc by done.
    by apply Reject_never_accepts in Hacc.
  - intros [tlr ->] HE.
    destruct E as [| |P| | | | |]; try discriminate.
    rewrite Helper_ConstantArrayTy in Hacc. unfold bind at 1 in Hacc.
    unfold SPS_count in Hacc.
    rewrite (recordsOnly_not_in _ (ConstantArrayTy (PointerTy P) n) Hs)
      in Hacc by done.
    unfold ConstantArrayTypeExportableHelper in Hacc. simpl in Hacc.
    unfold bind at 1 in Hacc.
    rewrite Helper_pointer_under_record in Hacc by done. discriminate.
Qed.

Lemma Helper_accepts_pointerFree fuel Diags SM VD tlr T (st st' : CheckState) T' :
  recordsOnly (SPS st) →
  Helper fuel Diags SM VD (Some tlr) T st = Done (Some T', st') →
  pointerFree T.
Proof.
  intros Hs Hacc. split.
  - intros HT. destruct T as [| |P| | | | |]; try discriminate.
    rewrite Helper_pointer_under_record in Hacc by done. discriminate.
  - intros E n ->.
    by destruct (Helper_accepts_array _ _ _ _ _ _ _ _ _ _ Hs Hacc) as [_ H];
      apply H.
Qed.

Lemma checkFields_accepts (H : Ty → M CheckState (option Ty)) Diags SM RD FDs
    (st st' : CheckState) (Q : Ty → Prop) :
  (∀ T st r st', H T st = Done (r, st') → grows st st') →
  (∀ T st T' st', recordsOnly (SPS st) → H T st = Done (Some T', st') → Q T) →
  recordsOnly (SPS st) →
  checkFields decls H Diags SM RD FDs st = Done (true, st') →
  ∀ FD, FD ∈ FDs → Q (canonicalType (fieldQualType FD)) ∧ isBitField FD = false.
Proof.
  intros Hg HQ. revert st. induction FDs as [|FD FDs IH]; intros st Hs; simpl.
  - intros _ FD HFD. inversion HFD.
  - unfold bind at 1.
    destruct (H (GET_CANONICAL_TYPE (GetTypeOfDecl FD)) st)
      as [[[T'|] st1]| | | |] eqn:E; try discriminate.
    destruct (isBitField FD) eqn:Hbf.
    { unfold bind, ret, Report, modify. destruct (Diags && SM); discriminate. }
    intros Hrest FD' HFD'. apply elem_of_cons in HFD' as [->|HFD'].
    + split; [|done]. eapply HQ; [exact Hs | exact E].
    + eapply IH; [|exact Hrest|exact HFD'].
      eapply grows_recordsOnly; [|exact Hs]. by eapply Hg.
Qed.

(** An accepted record that does not bear a RenderScript name is a
    defined, named structure all of whose fields are [pointerFree] and
    none a bit field. *)
Lemma Helper_accepts_record fuel Diags SM VD TLR RD (st st' : CheckState) T' :
  recordsOnly (SPS st) → RecordTy RD ∉ SPS st →
  GetRSSpecificType RSSpecificTypeMap decls (RecordTy RD) = DataTypeUnknown →
  Helper fuel Diags SM VD TLR (RecordTy RD) st = Done (Some T', st') →
  tagKind (decls RD) = TTK_Struct
  ∧ ∃ Def, getDefinition definitions RD = Some Def
           ∧ ∀ FD, FD ∈ fields Def →
               pointerFree (canonicalType (fieldQualType FD))
               ∧ isBitField FD = false.
Proof.
  intros Hs Hnin Hrs. rewrite Helper_RecordTy. unfold bind at 1.
  unfold SPS_count. rewrite (bool_decide_eq_false_2 _ Hnin).
  rewrite (bool_decide_eq_true_2 _ Hrs). cbn [negb].
  destruct (isUnionType decls (RecordTy RD)).
  { intros Hr. by apply Reject_SPS in Hr as [? _]. }
  destruct (isStructureType decls (RecordTy RD)) eqn:Hstruct;
    cbn [negb]; [|discriminate].
  apply bool_decide_eq_true_1 in Hstruct.
  destruct (getDefinition definitions RD) as [Def|].
  2:{ intros Hr. by apply Reject_SPS in Hr as [? _]. }
  destruct (isEmptyName (declName (decls RD))).
  { intros Hr. by apply Reject_SPS in Hr as [? _]. }
  destruct (hasFlexibleArrayMember Def || hasObjectMember Def);
    [discriminate|].
  unfold bind at 1.
  destruct (SPS_insert_grows (RecordTy RD) st eq_refl) as (st1 & -> & Hg1 & _).
  destruct fuel as [|fuel']; [discriminate|].
  unfold bind at 1.
  destruct (checkFields _ _ _ _ _ _ st1) as [[[] st2]| | | |] eqn:E;
    try discriminate.
  intros _. split; [done|]. exists Def. split; [done|].
  eapply checkFields_accepts; [| |by eapply grows_recordsOnly|exact E].
  - intros T0 st0 r0 st0'. apply Helper_grows.
  - intros T0 st0 T0' st0' Hs0 H0.
    destruct TLR as [tlr|]; by eapply Helper_accepts_pointerFree.
Qed.

(** A structure with a pointer field, or a field that is an array of
    pointers, or a bit field, is never accepted (unless it bears a
    RenderScript name, in which case its fields are not looked at). *)
Lemma record_with_pointer_or_bit_field_rejected
    fuel Diags SM VD TLR RD Def FD (st : CheckState) :
  recordsOnly (SPS st) → RecordTy RD ∉ SPS st →
  GetRSSpecificType RSSpecificTypeMap decls (RecordTy RD) = DataTypeUnknown →
  getDefinition definitions RD = Some Def → FD ∈ fields Def →
  ¬ pointerFree (canonicalType (fieldQualType FD)) ∨ isBitField FD = true →
  ∀ T' st', Helper fuel Diags SM VD TLR (RecordTy RD) st ≠ Done (Some T', st').
Proof.
  intros Hs Hnin Hrs HDef HFD Hbad T' st' Hacc.
  eapply Helper_accepts_record in Hacc as (_ & Def' & HDef' & Hall);
    [|done|done|done].
  assert (Def' = Def) as -> by congruence.
  destruct (Hall FD HFD) as [Hpf Hbf].
  destruct Hbad as [Hbad|Hbad]; [by apply Hbad | congruence].
Qed.

End Checker.

(** ** Vector names *)

Section VectorNames.

Variable SupportedBuiltin : BuiltinType.Kind → option (DataType * string).

(** What [RSExportVectorType::GetTypeName] does for each element count
    over a supported builtin: the empty name for 0 and above 4, the table
    entry for 2, 3 and 4, and for 1 a read of the three-entry table at
    index 2^32 - 1. *)
Lemma RSExportVectorType_GetTypeName_cases {S} k dt cname n (st : S) :
  SupportedBuiltin k = Some (dt, cname) →
  RSExportVectorType_GetTypeName SupportedBuiltin (BuiltinTy k) n st
  = if bool_decide (n = 0%N ∨ (4 < n)%N) then Done ("", st)
    else if bool_decide (n = 1%N) then OutOfBoundsRead (2 ^ 32 - 1)
    else Done (cname ++ pretty n, st).
Proof.
  intros Hk. unfold RSExportVectorType_GetTypeName. rewrite Hk.
  destruct (decide (n = 0%N ∨ (4 < n)%N)) as [Hn|Hn].
  - rewrite (bool_decide_eq_true_2 _ Hn).
    replace ((n <? 1)%N || (4 <? n)%N) with true; [reflexivity|].
    symmetry. apply orb_true_iff.
    destruct Hn as [->|Hn]; [by left | right; by apply N.ltb_lt].
  - rewrite (bool_decide_eq_false_2 _ Hn).
    replace ((n <? 1)%N || (4 <? n)%N) with false
      by (symmetry; apply orb_false_intro; apply N.ltb_ge; lia).
    assert (Hc : n = 1%N ∨ n = 2%N ∨ n = 3%N ∨ n = 4%N) by lia.
    destruct Hc as [-> | [-> | [-> | ->]]]; reflexivity.
Qed.

End VectorNames.

(** C10 (the code departs from it). On a vector of one supported scalar the
    guard of [RSExportVectorType::GetTypeName] lets the lookup through, and
    the table of three names is read at index 1 - 2 taken as [unsigned],
    that is 4294967295. *)
Theorem vector_name_of_one_element_reads_out_of_bounds (st : list Diagnostic) :
  RSExportVectorType_GetTypeName sampleBuiltins IntTy 1 st
  = OutOfBoundsRead 4294967295.
Proof. reflexivity. Qed.

(** ** Matrix structures *)

Section Matrix.

Variable decls : nat → RecordDecl.
Variable definitions : gmap nat RecordDef.

(** [RSExportMatrixType::Create] on a defined structure: one report of
    the defect and failure, or the construction when there is none. *)
Lemma RSExportMatrixType_Create_defect RD TypeName Dim Def ctx :
  (1 < Dim)%N → definitions !! RD = Some Def →
  RSExportMatrixType_Create decls definitions RD TypeName Dim ctx
  = match matrixDefect (declName (decls RD)) Def Dim with
    | Some (msg, args) =>
        Done (None,
              mkRSContext (export_types ctx) (objects ctx) (nextAddress ctx)
                (diagnostics ctx
                 ++ [mkDiagnostic (Some (declLocation (decls RD))) msg args]))
    | None =>
        (this <-- new_RSExportType TypeName (MatrixMembers Dim) ;;
         ret (Some this)) ctx
    end.
Proof.
  intros HDim HDef. unfold RSExportMatrixType_Create, matrixDefect.
  replace (1 <? Dim)%N with true by (symmetry; by apply N.ltb_lt).
  cbn [negb]. unfold getDefinition. rewrite HDef.
  destruct (fields Def) as [|FD more]; [reflexivity|].
  unfold GetTypeOfDecl, writtenTypeClass.
  destruct (typedefChain (fieldQualType FD)) as [|td tds]; [|reflexivity].
  destruct (canonicalType (fieldQualType FD)) as [| | | |E n| | |];
    try reflexivity.
  cbn [getTypeClass].
  destruct (negb (bool_decide (E = BuiltinTy BuiltinType.Float)));
    [reflexivity|].
  destruct (negb (bool_decide (n = mul_unsigned Dim Dim))); [reflexivity|].
  destruct more; reflexivity.
Qed.

(** A defined structure is accepted as a matrix of dimension [Dim]
    exactly when it has one field and that field is written as a
    constant-size array of [Dim * Dim] floats; a field whose array type
    is reached through a typedef is not accepted. *)
Lemma matrix_struct_accepted_iff RD TypeName Dim Def ctx :
  (1 < Dim)%N → definitions !! RD = Some Def →
  (∃ this ctx',
     RSExportMatrixType_Create decls definitions RD TypeName Dim ctx
     = Done (Some this, ctx'))
  ↔ ∃ FD, fields Def = [FD]
          ∧ fieldQualType FD
            = mkQualType []
                (ConstantArrayTy (BuiltinTy BuiltinType.Float)
                   (mul_unsigned Dim Dim)).
Proof.
  intros HDim HDef.
  rewrite (RSExportMatrixType_Create_defect RD TypeName Dim Def ctx HDim HDef).
  unfold matrixDefect.
  destruct (fields Def) as [|FD more].
  { split; [intros (? & ? & ?); discriminate | intros (? & ? & ?); discriminate]. }
  destruct (fieldQualType FD) as [chain canon] eqn:HQ. simpl.
  destruct chain as [|td tds].
  2:{ split; [intros (? & ? & ?); discriminate|].
      intros (FD' & [= -> ->] & HQ'). rewrite HQ in HQ'. discriminate. }
  destruct canon as [| | | |E n| | |];
    try (split; [intros (? & ? & ?); discriminate|];
         intros (FD' & [= -> ->] & HQ'); rewrite HQ in HQ'; discriminate).
  destruct (decide (E = BuiltinTy BuiltinType.Float)) as [->|HE].
  2:{ rewrite (bool_decide_eq_false_2 _ HE). cbn [negb].
      split; [intros (? & ? & ?); discriminate|].
      intros (FD' & [= -> ->] & HQ'). rewrite HQ in HQ'. congruence. }
  rewrite bool_decide_eq_true_2 by done. cbn [negb].
  destruct (decide (n = mul_unsigned Dim Dim)) as [->|Hn].
  2:{ rewrite (bool_decide_eq_false_2 _ Hn). cbn [negb].
      split; [intros (? & ? & ?); discriminate|].
      intros (FD' & [= -> ->] & HQ'). rewrite HQ in HQ'. congruence. }
  rewrite bool_decide_eq_true_2 by done. cbn [negb].
  destruct more as [|FD2 more].
  - split.
    + intros _. exists FD. done.
    + intros _. unfold new_RSExportType, bind, ret, insertExportType.
      destruct (String.prefix _ _); simpl; [by eauto|].
      destruct (export_types ctx !! TypeName); by eauto.
  - split; [intros (? & ? & ?); discriminate|].
    intros (FD' & [=] & _).
Qed.

End Matrix.

(** C4 (the code departs from it). [struct rs_matrix3x3 { arr9 m; }] with
    [typedef float arr9[9]] has exactly one field, a constant-size array
    of nine floats, yet [RSExportMatrixType::Create] with dimension 3
    rejects it: the field's type is examined as written, where its class
    is that of a typedef. *)
Theorem matrix_with_typedef_array_field_rejected :
  RSExportMatrixType_Create sampleDecls sampleDefinitions 5 "rs_matrix3x3" 3
    emptyContext
  = Done (None,
          mkRSContext ∅ ∅ 0
            [mkDiagnostic (Some 60)
               "invalid matrix struct: first field should be an array with constant size: '%0'"
               ["rs_matrix3x3"]]).
Proof.
  rewrite (RSExportMatrixType_Create_defect sampleDecls sampleDefinitions
             5 "rs_matrix3x3" 3
             (mkRecordDef
                [mkFieldDecl "m" 61
                   (mkQualType ["arr9"] (ConstantArrayTy FloatTy 9)) false]
                false false false 288 [0%N]));
    [reflexivity | reflexivity | reflexivity].
Qed.

(** ** The registry *)

Abbreviation sampleCreate :=
  (RSExportType_Create sampleBuiltins sampleRSTypes sampleDecls
     sampleDefinitions).

(** C2 (the code departs from it). Creating the export type of
    [struct S { rs_matrix2x2 m; }], where [rs_matrix2x2] does not have the
    shape of a matrix, fails; yet afterwards the registry holds an entry
    for "S", and it points to the record object that the failed
    construction has deleted. A second request for the same type finds the
    entry and returns that pointer. *)
Theorem failed_record_stays_registered :
  ∃ ctx',
    sampleCreate 1 (RecordTy 0) emptyContext = Done (None, ctx')
    ∧ export_types ctx' !! "S" = Some 0
    ∧ objects ctx' !! 0 = None
    ∧ sampleCreate 1 (RecordTy 0) ctx' = Done (Some 0, ctx').
Proof.
  eexists. split; [vm_compute; reflexivity|].
  split; [vm_compute; reflexivity|].
  split; vm_compute; reflexivity.
Qed.

(** The claim C1 fails on constant arrays. Creating the export type of
    [int[3]] twice gives two different objects: the first call leaves no
    entry for the array in the registry, so the second call constructs
    anew. *)
Lemma constant_array_created_twice_differs :
  ∃ ctx1 ctx2,
    sampleCreate 0 (ConstantArrayTy IntTy 3) emptyContext = Done (Some 1, ctx1)
    ∧ sampleCreate 0 (ConstantArrayTy IntTy 3) ctx1 = Done (Some 2, ctx2)
    ∧ export_types ctx1 !! DUMMY_TYPE_NAME_FOR_RS_CONSTANT_ARRAY_TYPE = None.
Proof.
  do 2 eexists. split; [vm_compute; reflexivity|].
  split; vm_compute; reflexivity.
Qed.

(** ** equals *)

Section Equals.

Implicit Types (h : gmap nat ExportTypeObj) (fs : list Field).


Lemma equalsFields_sym (eq : nat → nat → Outcome bool) fs fs' r :
  (∀ a b r, eq a b = Done r → eq b a = Done r) →
  length fs = length fs' →
  equalsFields eq fs fs' = Done r → equalsFields eq fs' fs = Done r.
Proof.
  intros Hsym. revert fs'.
  induction fs as [|f fs IH]; intros [|f' fs'] Hlen; simpl in *;
    try discriminate; try done.
  destruct (eq (fType f) (fType f')) as [[]| | | |] eqn:E; try discriminate.
  - rewrite (Hsym _ _ _ E). apply IH. congruence.
  - intros Hr. by rewrite (Hsym _ _ _ E).
Qed.

Lemma equals_sym fuel h a b r :
  equals fuel h a b = Done r → equals fuel h b a = Done r.
Proof.
  revert a b r. induction fuel as [|fuel IH]; intros a b r; [discriminate|].
  simpl. destruct (h !! a) as [o|], (h !! b) as [e|]; try discriminate.
  destruct (decide (getClass e = getClass o)) as [Hc|Hc].
  - rewrite (bool_decide_eq_true_2 _ Hc).
    rewrite (bool_decide_eq_true_2 (getClass o = getClass e)) by done.
    cbn [negb]. unfold getClass in Hc.
    destruct (members o) as [t ? ?|p|t ? ? n|d|el sz|? ? ? fs],
             (members e) as [t' ? ?|p'|t' ? ? n'|d'|el' sz'|? ? ? fs'];
      try discriminate.
    + intros [= <-]. f_equal. apply bool_decide_ext. split; congruence.
    + apply IH.
    + destruct (decide (t' = t)) as [->|Ht].
      * rewrite !bool_decide_eq_true_2 by done. cbn [negb].
        intros [= <-]. f_equal. apply bool_decide_ext. split; congruence.
      * rewrite (bool_decide_eq_false_2 _ Ht).
        rewrite (bool_decide_eq_false_2 (t = t')) by congruence. done.
    + intros [= <-]. f_equal. apply bool_decide_ext. split; congruence.
    + destruct (decide (sz = sz')) as [->|Hs].
      * rewrite !bool_decide_eq_true_2 by done. apply IH.
      * rewrite (bool_decide_eq_false_2 _ Hs).
        rewrite (bool_decide_eq_false_2 (sz' = sz)) by congruence. done.
    + destruct (decide (length fs' = length fs)) as [Hl|Hl].
      * rewrite (bool_decide_eq_true_2 _ Hl).
        rewrite (bool_decide_eq_true_2 (length fs = length fs')) by done.
        cbn [negb]. apply equalsFields_sym; [apply IH | done].
      * rewrite (bool_decide_eq_false_2 _ Hl).
        rewrite (bool_decide_eq_false_2 (length fs = length fs'))
          by congruence. done.
  - rewrite (bool_decide_eq_false_2 _ Hc).
    rewrite (bool_decide_eq_false_2 (getClass o = getClass e)) by congruence.
    done.
Qed.




(** [equals] returns on finite type descriptions. *)
Lemma equals_returns n h a b :
  nested h n a → nested h n b → ∃ r, equals n h a b = Done r.
Proof.
  revert a b. induction n as [|n IH]; intros a b Ha Hb;
    inversion Ha as [? ? o Ho Hco]; inversion Hb as [? ? e He Hce]; subst.
  simpl. rewrite Ho, He.
  destruct (negb (bool_decide (getClass e = getClass o))); [by eauto|].
  unfold referenced in Hco, Hce.
  destruct (members o) as [t ? ?|p|t ? ? m|d|el sz|? ? ? fs],
           (members e) as [t' ? ?|p'|t' ? ? m'|d'|el' sz'|? ? ? fs'];
    try (by eauto).
  - apply IH; [apply Hce | apply Hco]; apply list_elem_of_here.
  - destruct (negb _); by eauto.
  - destruct (bool_decide _); [|by eauto].
    apply IH; [apply Hco | apply Hce]; apply list_elem_of_here.
  - destruct (negb _); [by eauto|].
    assert (Hfs : ∀ f, f ∈ fs → nested h n (fType f)).
    { intros f Hf. apply Hco. apply list_elem_of_fmap. eauto. }
    assert (Hfs' : ∀ f, f ∈ fs' → nested h n (fType f)).
    { intros f Hf. apply Hce. apply list_elem_of_fmap. eauto. }
    clear Hco Hce Ho He Ha Hb. revert fs' Hfs'.
    induction fs as [|f fs IHfs]; intros [|f' fs'] Hfs'; simpl;
      try (by eauto).
    destruct (IH (fType f) (fType f')) as [[] Hr];
      [apply Hfs; apply list_elem_of_here
      |apply Hfs'; apply list_elem_of_here| |];
      rewrite Hr; [|by eauto].
    apply IHfs.
    + intros f0 Hf0. apply Hfs. by apply list_elem_of_further.
    + intros f0 Hf0. apply Hfs'. by apply list_elem_of_further.
Qed.


End Equals.

(** ** keep *)

Section Keep.

Implicit Types (h : gmap nat ExportTypeObj) (fs : list Field).

Lemma marks_refl h : marks h h.
Proof. intros x. by destruct (h !! x). Qed.

Lemma marks_trans h1 h2 h3 : marks h1 h2 → marks h2 h3 → marks h1 h3.
Proof.
  intros H12 H23 x. specialize (H12 x). specialize (H23 x).
  destruct (h1 !! x), (h2 !! x), (h3 !! x); try done.
  destruct H12 as (? & ? & ?), H23 as (? & ? & ?).
  repeat split; try congruence. auto.
Qed.

Lemma marks_kept h h' a : marks h h' → kept h a → kept h' a.
Proof.
  intros Hm (o & Ho & Hk). specialize (Hm a). rewrite Ho in Hm.
  destruct (h' !! a) as [o'|] eqn:Ho'; [|done].
  exists o'. split; [done|]. by apply Hm.
Qed.

Lemma elem_of_unkept h x :
  x ∈ unkept h ↔ ∃ o, h !! x = Some o ∧ mKeep o = false.
Proof.
  unfold unkept. rewrite elem_of_dom. split.
  - intros [o Ho]. apply map_lookup_filter_Some in Ho as [Ho Hk]. eauto.
  - intros (o & Ho & Hk). exists o. by apply map_lookup_filter_Some.
Qed.

Lemma marks_unkept h h' : marks h h' → unkept h' ⊆ unkept h.
Proof.
  intros Hm x. rewrite !elem_of_unkept. intros (o' & Ho' & Hk).
  specialize (Hm x). rewrite Ho' in Hm.
  destruct (h !! x) as [o|]; [|done]. exists o. split; [done|].
  destruct (mKeep o) eqn:E; [|done]. destruct Hm as (_ & _ & Hm).
  rewrite Hm in Hk; done.
Qed.

(** [RSExportType::keep] in one step. *)
Lemma RSExportType_keep_eq this h :
  RSExportType_keep this h
  = match h !! this with
    | None => DanglingPointer this
    | Some o =>
        if mKeep o then Done (false, h)
        else Done (true, <[this := mkExportTypeObj true (mName o) None
                                      (members o)]> h)
    end.
Proof.
  unfold RSExportType_keep, RSExportable_keep, bind, modify, ret.
  destruct (h !! this) as [o|]; [|reflexivity].
  destruct (mKeep o); [reflexivity|]. cbn [negb].
  by rewrite alter_insert_eq.
Qed.

Lemma RSExportType_keep_marks this h b h' :
  RSExportType_keep this h = Done (b, h') →
  marks h h' ∧ kept h' this ∧ (b = true → this ∈ unkept h ∧ this ∉ unkept h').
Proof.
  rewrite RSExportType_keep_eq. destruct (h !! this) as [o|] eqn:Ho; [|done].
  destruct (mKeep o) eqn:Hk; intros [= <- <-].
  - split; [apply marks_refl|]. split; [by exists o | done].
  - split; [|split].
    + intros x. destruct (decide (x = this)) as [->|Hx].
      * rewrite Ho, lookup_insert_eq. simpl. by rewrite Hk.
      * rewrite lookup_insert_ne by done. by destruct (h !! x).
    + eexists. rewrite lookup_insert_eq. done.
    + intros _. rewrite !elem_of_unkept. split; [by exists o|].
      intros (o' & Ho' & Hk'). rewrite lookup_insert_eq in Ho'.
      by inversion Ho'; subst.
Qed.

Lemma keepFields_marks (k : nat → M (gmap nat ExportTypeObj) bool) fs h h' :
  (∀ a h b h', k a h = Done (b, h') → marks h h' ∧ kept h' a) →
  keepFields k fs h = Done (tt, h') →
  marks h h' ∧ ∀ f, f ∈ fs → kept h' (fType f).
Proof.
  intros Hk. revert h. induction fs as [|f fs IH]; intros h; simpl.
  - intros [= <-]. split; [apply marks_refl | intros f Hf; inversion Hf].
  - unfold bind. destruct (k (fType f) h) as [[b h1]| | | |] eqn:E;
      try discriminate.
    intros Hrest. destruct (Hk _ _ _ _ E) as [Hm1 Hk1].
    destruct (IH _ Hrest) as [Hm2 Hk2].
    split; [by eapply marks_trans|].
    intros f' Hf'. apply elem_of_cons in Hf' as [->|Hf'].
    + by eapply marks_kept.
    + by apply Hk2.
Qed.

(** A call of [keep] that returns only adds marks, and leaves its type
    marked together with, if it was not marked before, all the types it
    refers to. *)
Lemma keep_marks fuel this h b h' :
  keep fuel this h = Done (b, h') →
  marks h h' ∧ kept h' this
  ∧ (b = true → ∀ o, h !! this = Some o →
       mKeep o = false ∧ ∀ c, c ∈ referenced o → kept h' c).
Proof.
  revert this h b h'. induction fuel as [|fuel IH]; intros this h b h';
    [discriminate|].
  simpl. unfold bind at 1.
  destruct (RSExportType_keep this h) as [[b1 h1]| | | |] eqn:E1;
    try discriminate.
  pose proof (RSExportType_keep_marks _ _ _ _ E1) as (Hm1 & Hk1 & Hu1).
  destruct b1; cbn [negb].
  2:{ intros [= <- <-]. repeat split; try done. }
  destruct (Hu1 eq_refl) as [Hin _]. apply elem_of_unkept in Hin
    as (o & Ho & Hko).
  assert (Hmem : members <$> h1 !! this = Some (members o)).
  { specialize (Hm1 this). rewrite Ho in Hm1.
    destruct (h1 !! this) as [o1|]; [|done]. simpl. f_equal. apply Hm1. }
  unfold bind, get. rewrite Hmem.
  assert (Hret : ∀ (hf : gmap nat ExportTypeObj),
            marks h1 hf → (∀ c, c ∈ referenced o → kept hf c) →
            marks h hf ∧ kept hf this
            ∧ (true = true → ∀ o0, h !! this = Some o0 →
                 mKeep o0 = false ∧ ∀ c, c ∈ referenced o0 → kept hf c)).
  { intros hf Hmf Hcf. split; [by eapply marks_trans|].
    split; [by eapply marks_kept|].
    intros _ o0 Ho0. assert (o0 = o) as -> by congruence. done. }
  unfold referenced in Hret.
  destruct (members o) as [t ? ?|p|t ? ? n|d|el sz|? ? ? fs].
  - intros [= <- <-]. apply Hret; [apply marks_refl | intros c Hc; inversion Hc].
  - destruct (keep fuel p h1) as [[b2 h2]| | | |] eqn:E2; try discriminate.
    intros [= <- <-]. destruct (IH _ _ _ _ E2) as (Hm2 & Hk2 & _).
    apply Hret; [done|]. intros c Hc. apply list_elem_of_singleton in Hc as ->.
    done.
  - intros [= <- <-]. apply Hret; [apply marks_refl | intros c Hc; inversion Hc].
  - intros [= <- <-]. apply Hret; [apply marks_refl | intros c Hc; inversion Hc].
  - destruct (keep fuel el h1) as [[b2 h2]| | | |] eqn:E2; try discriminate.
    intros [= <- <-]. destruct (IH _ _ _ _ E2) as (Hm2 & Hk2 & _).
    apply Hret; [done|]. intros c Hc. apply list_elem_of_singleton in Hc as ->.
    done.
  - destruct (keepFields (keep fuel) fs h1) as [[[] h2]| | | |] eqn:E2;
      try discriminate.
    intros [= <- <-].
    destruct (keepFields_marks (keep fuel) fs h1 h2) as [Hm2 Hk2]; [|done|].
    { intros a0 h0 b0 h0' E0. destruct (IH _ _ _ _ E0) as (? & ? & _). done. }
    apply Hret; [done|]. intros c Hc.
    apply list_elem_of_fmap in Hc as (f & -> & Hf). by apply Hk2.
Qed.


Lemma marks_closed h h' : marks h h' → closed h → closed h'.
Proof.
  intros Hm Hc a o' c Ho' Hin. pose proof (Hm a) as Ha. rewrite Ho' in Ha.
  destruct (h !! a) as [o|] eqn:Ho; [|done].
  assert (is_Some (h !! c)) as [oc Hoc].
  { apply (Hc a o c Ho). unfold referenced in *.
    destruct Ha as (Hmem & _). by rewrite Hmem in Hin. }
  specialize (Hm c). rewrite Hoc in Hm. destruct (h' !! c); [eauto | done].
Qed.

Lemma marks_allocated h h' a : marks h h' → is_Some (h !! a) → is_Some (h' !! a).
Proof.
  intros Hm [o Ho]. specialize (Hm a). rewrite Ho in Hm.
  destruct (h' !! a); [eauto | done].
Qed.

(** [keep] returns: on closed objects, a budget above the number of types
    not marked yet is never exhausted, since every call that goes on marks
    one more of them. *)
Lemma keep_returns fuel this h :
  closed h → is_Some (h !! this) → size (unkept h) < fuel →
  ∃ b h', keep fuel this h = Done (b, h').
Proof.
  revert this h. induction fuel as [|fuel IH]; intros this h Hcl [o Ho] Hsz;
    [lia|].
  simpl. unfold bind at 1.
  destruct (RSExportType_keep this h) as [[b1 h1]| | | |] eqn:E1;
    try (rewrite RSExportType_keep_eq, Ho in E1; destruct (mKeep o);
         discriminate).
  pose proof (RSExportType_keep_marks _ _ _ _ E1) as (Hm1 & Hk1 & Hu1).
  destruct b1; cbn [negb]; [|by eauto].
  destruct (Hu1 eq_refl) as [Hin Hnin].
  assert (Hlt : size (unkept h1) < fuel).
  { assert (unkept h1 ⊂ unkept h) as Hsub.
    { split; [by apply marks_unkept|]. intros Hsub. apply Hnin, Hsub, Hin. }
    apply subset_size in Hsub. lia. }
  assert (Hcl1 : closed h1) by (by eapply marks_closed).
  assert (Hmem : members <$> h1 !! this = Some (members o)).
  { specialize (Hm1 this). rewrite Ho in Hm1.
    destruct (h1 !! this) as [o1|]; [|done]. simpl. f_equal. apply Hm1. }
  assert (Href : ∀ c, c ∈ referenced o → is_Some (h1 !! c)).
  { intros c Hc. eapply marks_allocated; [done|]. by eapply Hcl. }
  unfold bind, get. rewrite Hmem. unfold referenced in Href.
  destruct (members o) as [t ? ?|p|t ? ? n|d|el sz|? ? ? fs];
    try (by eauto).
  - destruct (IH p h1 Hcl1) as (b2 & h2 & ->); [apply Href; apply list_elem_of_here|done|].
    eauto.
  - destruct (IH el h1 Hcl1) as (b2 & h2 & ->); [apply Href; apply list_elem_of_here|done|].
    eauto.
  - assert (∃ h2, keepFields (keep fuel) fs h1 = Done (tt, h2)) as [h2 ->];
      [|by eauto].
    clear Hmem E1 Hk1 Hu1 Hin Hnin.
    assert (Hall : ∀ f, f ∈ fs → is_Some (h1 !! fType f)).
    { intros f Hf. apply Href. apply list_elem_of_fmap. eauto. }
    clear Href Hm1. revert h1 Hlt Hcl1 Hall.
    induction fs as [|f fs IHfs]; intros h1 Hlt Hcl1 Hall; simpl; [by eauto|].
    unfold bind.
    destruct (IH (fType f) h1 Hcl1) as (b2 & h2 & E2);
      [apply Hall; apply list_elem_of_here | done |].
    rewrite E2. destruct (keep_marks _ _ _ _ _ E2) as (Hm2 & _ & _).
    apply IHfs.
    + pose proof (subseteq_size _ _ (marks_unkept _ _ Hm2)). lia.
    + by eapply marks_closed.
    + intros f' Hf'. eapply marks_allocated; [done|]. apply Hall.
      by apply list_elem_of_further.
Qed.

End Keep.

(** ** The factory and the registry *)

Section Factory.

Variable SupportedBuiltin : BuiltinType.Kind → option (DataType * string).
Variable RSSpecificTypeMap : gmap string DataType.
Variable decls : nat → RecordDecl.
Variable definitions : gmap nat RecordDef.

Abbreviation Helper :=
  (TypeExportableHelper SupportedBuiltin RSSpecificTypeMap decls definitions).
Abbreviation NormalizeType' :=
  (NormalizeType SupportedBuiltin RSSpecificTypeMap decls definitions).
Abbreviation GetTypeName' :=
  (GetTypeName SupportedBuiltin RSSpecificTypeMap decls definitions).
Abbreviation Create :=
  (RSExportType_Create SupportedBuiltin RSSpecificTypeMap decls definitions).

Lemma registryAdds_refl ctx : registryAdds ctx ctx.
Proof. intros nm. by left. Qed.

Lemma registryAdds_same ctx ctx' :
  export_types ctx' = export_types ctx → registryAdds ctx ctx'.
Proof. intros E nm. left. by rewrite E. Qed.

Lemma registryAdds_trans c1 c2 c3 :
  registryAdds c1 c2 → registryAdds c2 c3 → registryAdds c1 c3.
Proof.
  intros H12 H23 nm. destruct (H23 nm) as [E|[E Hp]], (H12 nm) as [E'|[E' Hp']].
  - left. congruence.
  - right. done.
  - right. split; [congruence | done].
  - right. done.
Qed.

Lemma registryAdds_keeps c1 c2 nm v :
  registryAdds c1 c2 → export_types c1 !! nm = Some v →
  export_types c2 !! nm = Some v.
Proof. intros H E. destruct (H nm) as [->|[E' _]]; congruence. Qed.

Lemma registryAdds_star c1 c2 nm :
  registryAdds c1 c2 → String.prefix "*" nm = true →
  export_types c2 !! nm = export_types c1 !! nm.
Proof. intros H Hp. destruct (H nm) as [->|[_ E']]; congruence. Qed.

Lemma ReportCtx_registry d ctx :
  ∃ ctx', ReportCtx d ctx = Done (tt, ctx')
          ∧ export_types ctx' = export_types ctx.
Proof. eexists. split; reflexivity. Qed.

(** What [new] and the constructor do to the registry. *)
Lemma new_RSExportType_registry Name m ctx :
  ∃ ctx', new_RSExportType Name m ctx = Done (nextAddress ctx, ctx')
          ∧ export_types ctx'
            = if String.prefix DUMMY_RS_TYPE_NAME_PREFIX Name
              then export_types ctx
              else match export_types ctx !! Name with
                   | Some _ => export_types ctx
                   | None => <[Name := nextAddress ctx]> (export_types ctx)
                   end.
Proof.
  unfold new_RSExportType, bind, ret, insertExportType.
  destruct (String.prefix DUMMY_RS_TYPE_NAME_PREFIX Name); simpl.
  - eexists. split; reflexivity.
  - destruct (export_types ctx !! Name); eexists; split; reflexivity.
Qed.

Lemma new_RSExportType_adds Name m ctx this ctx' :
  String.prefix "*" Name = false →
  new_RSExportType Name m ctx = Done (this, ctx') → registryAdds ctx ctx'.
Proof.
  intros Hp. destruct (new_RSExportType_registry Name m ctx) as (c & -> & E).
  intros [= <- <-]. intros nm. rewrite E.
  destruct (String.prefix DUMMY_RS_TYPE_NAME_PREFIX Name); [by left|].
  destruct (export_types ctx !! Name) eqn:EN; [by left|].
  destruct (decide (nm = Name)) as [->|Hne].
  - right. done.
  - left. by rewrite lookup_insert_ne.
Qed.

Lemma new_RSExportType_registered Name m ctx this ctx' :
  String.prefix DUMMY_RS_TYPE_NAME_PREFIX Name = false →
  export_types ctx !! Name = None →
  new_RSExportType Name m ctx = Done (this, ctx') →
  export_types ctx' !! Name = Some this.
Proof.
  intros Hp Hn. destruct (new_RSExportType_registry Name m ctx) as (c & -> & E).
  intros [= <- <-]. rewrite E, Hp, Hn. apply lookup_insert_eq.
Qed.

Lemma Create_unfold fuel T :
  Create fuel T =
  (n <-- withDiagnostics (NormalizeType' T false false None) ;;
   match n with
   | None => ret None
   | Some (_, TypeName) =>
       RSExportType_CreateWithName SupportedBuiltin RSSpecificTypeMap decls
         definitions
         (λ RD TypeName,
            match fuel with
            | O => out_of_fuel
            | S fuel' =>
                RSExportRecordType_Create decls definitions (Create fuel')
                  RD TypeName
            end)
         (Create fuel) T TypeName
   end).
Proof. destruct fuel, T; reflexivity. Qed.

(** A successful [NormalizeType] without a sink: the context is as before,
    the check accepted the type, and the name is what [GetTypeName] gives,
    not empty. *)
Lemma NormalizeType_Some T ctx T' TypeName ctx0 :
  withDiagnostics (NormalizeType' T false false None) ctx
  = Done (Some (T', TypeName), ctx0) →
  ctx0 = ctx ∧ T' = T
  ∧ (∃ st', Helper (size definitions) false false None None T
              (mkCheckState [] (diagnostics ctx)) = Done (Some T, st'))
  ∧ GetTypeName' T (diagnostics ctx) = Done (TypeName, diagnostics ctx)
  ∧ TypeName ≠ ""
  ∧ ∀ ctx2, withDiagnostics (NormalizeType' T false false None) ctx2
            = Done (Some (T, TypeName), ctx2).
Proof.
  unfold withDiagnostics.
  destruct (NormalizeType' T false false None (diagnostics ctx))
    as [[n ds]| | | |] eqn:EN; try discriminate.
  intros [= -> <-].
  destruct (detached_Done _ _ _ _
              (detached_NormalizeType SupportedBuiltin RSSpecificTypeMap
                 decls definitions T None) EN) as [-> Hall].
  assert (Hctx : ∀ c, mkRSContext (export_types c) (objects c) (nextAddress c)
                        (diagnostics c) = c) by (by intros []).
  split; [apply Hctx|].
  unfold NormalizeType in EN. unfold bind at 1 in EN.
  destruct (TypeExportable _ _ _ _ T false false None (diagnostics ctx))
    as [[[T0|] ds0]| | | |] eqn:ET; try discriminate.
  destruct (detached_Done _ _ _ _
              (detached_TypeExportable SupportedBuiltin RSSpecificTypeMap
                 decls definitions T None) ET) as [-> _].
  assert (HH : ∃ st', Helper (size definitions) false false None None T
                        (mkCheckState [] (diagnostics ctx))
                      = Done (Some T0, st')).
  { unfold TypeExportable in ET.
    destruct (Helper (size definitions) false false None None T _)
      as [[r st']| | | |]; try discriminate.
    inversion ET; subst. by eexists. }
  destruct HH as [st' EH].
  pose proof (Helper_accepts_same _ _ _ _ _ _ _ _ _ _ _ _ _ EH) as ->.
  unfold bind at 1 in EN.
  destruct (GetTypeName' T (diagnostics ctx)) as [[nm ds1]| | | |] eqn:EG;
    try discriminate.
  destruct (detached_Done _ _ _ _
              (detached_GetTypeName SupportedBuiltin RSSpecificTypeMap
                 decls definitions T) EG) as [-> HallG].
  destruct (isEmptyName nm) eqn:Hnm.
  { unfold bind, ret in EN. simpl in EN. discriminate. }
  unfold ret in EN. inversion EN; subst.
  split; [done|]. split; [by eexists|].
  split; [done|].
  split; [by apply bool_decide_eq_false_1 in Hnm|].
  intros ctx2. rewrite Hall. f_equal. f_equal. apply Hctx.
Qed.

Lemma prefix_star_cons c rest :
  c ≠ "*"%char → String.prefix "*" (String c rest) = false.
Proof.
  intros Hc.
  change (String.prefix "*" (String c rest))
    with (if ascii_dec "*" c then String.prefix "" rest else false).
  destruct (ascii_dec "*" c) as [<-|]; done.
Qed.

(** The name of anything but a pointer does not begin with a star. *)
Lemma GetTypeName_plain T (ds ds' : list Diagnostic) nm :
  plainNames SupportedBuiltin decls → getTypeClass T ≠ TC_Pointer →
  GetTypeName' T ds = Done (nm, ds') → String.prefix "*" nm = false.
Proof.
  intros [Hb Hr] HT. destruct T as [k|RD|P|E n|E n|E|nm'|R]; simpl;
    unfold ret; try done; try (by intros [= <- <-]).
  - destruct (SupportedBuiltin k) as [[dt cname]|] eqn:Hk; [|discriminate].
    intros [= <- <-]. destruct (Hb _ _ _ Hk) as (c & rest & -> & Hc).
    by apply prefix_star_cons.
  - unfold RSExportVectorType_GetTypeName, ret.
    destruct E as [k| | | | | | |]; try (by intros [= <- <-]).
    destruct (_ || _); [by intros [= <- <-]|].
    destruct (SupportedBuiltin k) as [[dt cname]|] eqn:Hk;
      [|by intros [= <- <-]].
    destruct (Hb _ _ _ Hk) as (c & rest & -> & Hc).
    cbv zeta.
    destruct (_ !! _) as [x|] eqn:Hx; [|discriminate].
    intros [= <- <-].
    apply list_elem_of_lookup_2 in Hx.
    repeat (apply elem_of_cons in Hx as [->|Hx]);
      try (by apply prefix_star_cons).
    inversion Hx.
Qed.

(** The name of an exportable pointer begins with a star. *)
Lemma GetTypeName_pointer P (ds ds' : list Diagnostic) nm :
  GetTypeName' (PointerTy P) ds = Done (nm, ds') → nm ≠ "" →
  String.prefix "*" nm = true
  ∧ String.prefix DUMMY_RS_TYPE_NAME_PREFIX nm = false.
Proof.
  simpl. unfold bind at 1.
  destruct (TypeExportable _ _ _ _ P false false None ds)
    as [[[T'|] ds1]| | | |]; try discriminate.
  - unfold bind.
    destruct (GetTypeName' P ds1) as [[pn ds2]| | | |]; try discriminate.
    destruct (isEmptyName pn); intros [= <- <-] Hne; [done|].
    split.
    + change (String.prefix "*" ("*" ++ pn))
        with (if ascii_dec "*" "*" then String.prefix "" pn else false).
      destruct (ascii_dec "*" "*"); [by destruct pn | done].
    + change (String.prefix DUMMY_RS_TYPE_NAME_PREFIX ("*" ++ pn))
        with (if ascii_dec "<" "*" then String.prefix "" pn else false).
      destruct (ascii_dec "<" "*"); [discriminate | reflexivity].
  - intros [= <- <-] Hne. done.
Qed.

Lemma GetDataType_registry T ctx :
  ∃ dt ctx', GetDataType SupportedBuiltin RSSpecificTypeMap decls T ctx
             = Done (dt, ctx')
             ∧ export_types ctx' = export_types ctx.
Proof.
  destruct T as [k| | | | | | |]; simpl;
    try (do 2 eexists; split; reflexivity).
  destruct (SupportedBuiltin k) as [[dt cname]|];
    do 2 eexists; split; reflexivity.
Qed.

Lemma Primitive_Create_adds T TypeName ctx r ctx' :
  String.prefix "*" TypeName = false →
  RSExportPrimitiveType_Create SupportedBuiltin RSSpecificTypeMap decls
    T TypeName ctx = Done (r, ctx') →
  registryAdds ctx ctx'.
Proof.
  intros Hp. unfold RSExportPrimitiveType_Create. unfold bind at 1.
  destruct (GetDataType_registry T ctx) as (dt & ctx1 & -> & E1).
  destruct (_ || _); [intros [= <- <-]; by apply registryAdds_same|].
  unfold bind, ret.
  destruct (new_RSExportType _ _ ctx1) as [[this c2]| | | |] eqn:E2;
    try discriminate.
  intros [= <- <-].
  eapply registryAdds_trans; [by apply registryAdds_same|].
  by eapply new_RSExportType_adds.
Qed.

Lemma Primitive_Create_registered T TypeName ctx this ctx' :
  String.prefix DUMMY_RS_TYPE_NAME_PREFIX TypeName = false →
  export_types ctx !! TypeName = None →
  RSExportPrimitiveType_Create SupportedBuiltin RSSpecificTypeMap decls
    T TypeName ctx = Done (Some this, ctx') →
  export_types ctx' !! TypeName = Some this.
Proof.
  intros Hp Hn. unfold RSExportPrimitiveType_Create. unfold bind at 1.
  destruct (GetDataType_registry T ctx) as (dt & ctx1 & -> & E1).
  destruct (_ || _); [discriminate|].
  unfold bind, ret.
  destruct (new_RSExportType _ _ ctx1) as [[this1 c2]| | | |] eqn:E2;
    try discriminate.
  intros [= <- <-].
  eapply new_RSExportType_registered; [done| |exact E2]. by rewrite E1.
Qed.

Lemma Vector_Create_adds E n TypeName ctx r ctx' :
  String.prefix "*" TypeName = false →
  RSExportVectorType_Create SupportedBuiltin RSSpecificTypeMap decls
    E n TypeName ctx = Done (r, ctx') →
  registryAdds ctx ctx'.
Proof.
  intros Hp. unfold RSExportVectorType_Create. unfold bind at 1.
  destruct (GetDataType_registry E ctx) as (dt & ctx1 & -> & E1).
  destruct (negb _); [|intros [= <- <-]; by apply registryAdds_same].
  unfold bind, ret.
  destruct (new_RSExportType _ _ ctx1) as [[this c2]| | | |] eqn:E2;
    try discriminate.
  intros [= <- <-].
  eapply registryAdds_trans; [by apply registryAdds_same|].
  by eapply new_RSExportType_adds.
Qed.

Lemma Vector_Create_registered E n TypeName ctx this ctx' :
  String.prefix DUMMY_RS_TYPE_NAME_PREFIX TypeName = false →
  export_types ctx !! TypeName = None →
  RSExportVectorType_Create SupportedBuiltin RSSpecificTypeMap decls
    E n TypeName ctx = Done (Some this, ctx') →
  export_types ctx' !! TypeName = Some this.
Proof.
  intros Hp Hn. unfold RSExportVectorType_Create. unfold bind at 1.
  destruct (GetDataType_registry E ctx) as (dt & ctx1 & -> & E1).
  destruct (negb _); [|discriminate].
  unfold bind, ret.
  destruct (new_RSExportType _ _ ctx1) as [[this1 c2]| | | |] eqn:E2;
    try discriminate.
  intros [= <- <-].
  eapply new_RSExportType_registered; [done| |exact E2]. by rewrite E1.
Qed.

(** [RSExportMatrixType::Create] either reports and fails, leaving the
    registry alone, or constructs the matrix in the given context. *)
Lemma Matrix_Create_cases RD TypeName Dim ctx r ctx' :
  RSExportMatrixType_Create decls definitions RD TypeName Dim ctx
  = Done (r, ctx') →
  (r = None ∧ export_types ctx' = export_types ctx)
  ∨ (∃ this, r = Some this
             ∧ new_RSExportType TypeName (MatrixMembers Dim) ctx
               = Done (this, ctx')).
Proof.
  unfold RSExportMatrixType_Create.
  assert (Hnew : ∀ r ctx',
            (this <-- new_RSExportType TypeName (MatrixMembers Dim) ;;
             ret (Some this)) ctx = Done (r, ctx') →
            (r = None ∧ export_types ctx' = export_types ctx)
            ∨ (∃ this, r = Some this
                       ∧ new_RSExportType TypeName (MatrixMembers Dim) ctx
                         = Done (this, ctx'))).
  { intros r0 c0. unfold bind, ret.
    destruct (new_RSExportType _ _ ctx) as [[this c2]| | | |];
      try discriminate.
    intros [= <- <-]. right. eauto. }
  assert (Hrep : ∀ d (r : option nat) ctx',
            (ReportCtx d ;;; ret None) ctx = Done (r, ctx') →
            (r = None ∧ export_types ctx' = export_types ctx)
            ∨ (∃ this, r = Some this
                       ∧ new_RSExportType TypeName (MatrixMembers Dim) ctx
                         = Done (this, ctx'))).
  { intros d r0 c0. intros [= <- <-]. by left. }
  destruct (negb _); [discriminate|].
  destruct (getDefinition definitions RD) as [Def|]; [|apply Hnew].
  destruct (fields Def) as [|FD more]; [apply Hrep|].
  destruct (writtenTypeClass (GetTypeOfDecl FD)); try apply Hrep.
  destruct (canonicalType (GetTypeOfDecl FD)); try apply Hrep.
  destruct (negb _); [apply Hrep|].
  destruct (negb _); [apply Hrep|].
  destruct more; [apply Hnew | apply Hrep].
Qed.

Lemma withDiagnostics_registry {A} (c : M (list Diagnostic) A) ctx a ctx' :
  withDiagnostics c ctx = Done (a, ctx') →
  export_types ctx' = export_types ctx.
Proof.
  unfold withDiagnostics. destruct (c (diagnostics ctx)) as [[a0 ds]| | | |];
    try discriminate. by intros [= <- <-].
Qed.

Lemma createFields_adds (Cr : Ty → M RSContext (option nat)) RD Def ERT FDs
    idx ctx ok ctx' :
  (∀ T ctx r ctx', pointerFree T → Cr T ctx = Done (r, ctx') →
     registryAdds ctx ctx') →
  (∀ FD, FD ∈ FDs → pointerFree (canonicalType (fieldQualType FD))) →
  createFields decls Cr RD Def ERT FDs idx ctx = Done (ok, ctx') →
  registryAdds ctx ctx'.
Proof.
  intros HCr. revert idx ctx ok ctx'.
  induction FDs as [|FD FDs IH]; intros idx ctx ok ctx' Hall; simpl.
  - intros [= <- <-]. apply registryAdds_refl.
  - destruct (isBitField FD).
    { intros [= <- <-]. by apply registryAdds_same. }
    unfold bind at 1. unfold RSExportElement_CreateFromDecl.
    destruct (Cr (GET_CANONICAL_TYPE (GetTypeOfDecl FD)) ctx)
      as [[[et|] ctx1]| | | |] eqn:E1; try discriminate.
    + assert (registryAdds ctx ctx1) as H1.
      { eapply HCr; [|exact E1]. apply Hall. left. }
      destruct (layoutFieldOffsets Def !! idx); [|discriminate].
      unfold bind at 1. unfold push_back_field, modify.
      intros Hrest. eapply registryAdds_trans; [exact H1|].
      eapply registryAdds_trans; [|eapply IH; [|exact Hrest]].
      * by apply registryAdds_same.
      * intros FD' HFD'. apply Hall. by right.
    + intros [= <- <-].
      apply (registryAdds_trans _ ctx1); [|by apply registryAdds_same].
      eapply HCr; [|exact E1]. apply Hall. left.
Qed.

(** [RSExportRecordType::Create]: the record is registered when it is
    allocated, before any field is looked at, and stays so. *)
Lemma Record_Create_registry (Cr : Ty → M RSContext (option nat)) RD TypeName
    ctx r ctx' :
  String.prefix "*" TypeName = false →
  (∀ T ctx r ctx', pointerFree T → Cr T ctx = Done (r, ctx') →
     registryAdds ctx ctx') →
  (∀ Def FD, getDefinition definitions RD = Some Def → FD ∈ fields Def →
     pointerFree (canonicalType (fieldQualType FD))) →
  RSExportRecordType_Create decls definitions Cr RD TypeName ctx
  = Done (r, ctx') →
  registryAdds ctx ctx'
  ∧ (∀ this, r = Some this →
       String.prefix DUMMY_RS_TYPE_NAME_PREFIX TypeName = false →
       export_types ctx !! TypeName = None →
       export_types ctx' !! TypeName = Some this).
Proof.
  intros Hp HCr Hfields. unfold RSExportRecordType_Create.
  destruct (negb _); [discriminate|].
  destruct (getDefinition definitions RD) as [Def|] eqn:HDef; [|discriminate].
  unfold bind at 1.
  destruct (new_RSExportType TypeName _ ctx) as [[ERT ctx1]| | | |] eqn:E1;
    try discriminate.
  unfold bind at 1.
  destruct (createFields _ _ _ _ _ _ _ ctx1) as [[ok ctx2]| | | |] eqn:E2;
    try discriminate.
  assert (registryAdds ctx ctx1) as H1 by (by eapply new_RSExportType_adds).
  assert (registryAdds ctx1 ctx2) as H2.
  { eapply createFields_adds; [exact HCr| |exact E2]. intros FD. by apply Hfields. }
  intros Hr.
  assert (ctx' = ctx2) as -> by (destruct ok; by inversion Hr).
  split; [by eapply registryAdds_trans|].
  intros this -> Hlt Hnone. destruct ok; [|discriminate].
  inversion Hr; subst.
  eapply registryAdds_keeps; [exact H2|].
  by eapply new_RSExportType_registered.
Qed.

Lemma createFields_false_deleted (Cr : Ty → M RSContext (option nat)) RD Def
    ERT FDs idx ctx ctx' :
  createFields decls Cr RD Def ERT FDs idx ctx = Done (false, ctx') →
  objects ctx' !! ERT = None.
Proof.
  revert idx ctx. induction FDs as [|FD FDs IH]; intros idx ctx; simpl;
    [discriminate|].
  destruct (isBitField FD).
  { intros [= <-]. simpl. apply lookup_delete_eq. }
  unfold bind at 1. unfold RSExportElement_CreateFromDecl.
  destruct (Cr (GET_CANONICAL_TYPE (GetTypeOfDecl FD)) ctx)
    as [[[et|] ctx1]| | | |]; try discriminate.
  - destruct (layoutFieldOffsets Def !! idx); [|discriminate].
    unfold bind at 1. unfold push_back_field, modify. apply IH.
  - intros [= <-]. simpl. apply lookup_delete_eq.
Qed.

(** Whenever [RSExportRecordType::Create] fails on a name that was free,
    the registry is left with an entry for that name, and the entry
    points to the record object that has been deleted. *)
Lemma Record_Create_failure_dangles (Cr : Ty → M RSContext (option nat)) RD
    TypeName ctx ctx' :
  String.prefix "*" TypeName = false →
  String.prefix DUMMY_RS_TYPE_NAME_PREFIX TypeName = false →
  export_types ctx !! TypeName = None →
  (∀ T ctx r ctx', pointerFree T → Cr T ctx = Done (r, ctx') →
     registryAdds ctx ctx') →
  (∀ Def FD, getDefinition definitions RD = Some Def → FD ∈ fields Def →
     pointerFree (canonicalType (fieldQualType FD))) →
  RSExportRecordType_Create decls definitions Cr RD TypeName ctx
  = Done (None, ctx') →
  export_types ctx' !! TypeName = Some (nextAddress ctx)
  ∧ objects ctx' !! nextAddress ctx = None.
Proof.
  intros Hp Hlt Hnone HCr Hfields. unfold RSExportRecordType_Create.
  destruct (negb _); [discriminate|].
  destruct (getDefinition definitions RD) as [Def|] eqn:HDef; [|discriminate].
  unfold bind at 1.
  destruct (new_RSExportType_registry TypeName
              (RecordMembers (hasPackedAttr Def) false
                 (N.shiftr (layoutSize Def) 3) []) ctx) as (ctx1 & E1 & _).
  rewrite E1. unfold bind at 1.
  destruct (createFields _ _ _ _ _ _ _ ctx1) as [[[] ctx2]| | | |] eqn:E2;
    try discriminate.
  intros [= <-]. split.
  - eapply registryAdds_keeps.
    + eapply createFields_adds; [exact HCr| |exact E2].
      intros FD. by apply Hfields.
    + by eapply new_RSExportType_registered.
  - by eapply createFields_false_deleted.
Qed.

(** Creating the export type of a [pointerFree] type adds no name that
    begins with a star, and keeps every entry of the registry. *)
Lemma Create_adds fuel T ctx r ctx' :
  plainNames SupportedBuiltin decls → pointerFree T →
  Create fuel T ctx = Done (r, ctx') → registryAdds ctx ctx'.
Proof.
  intros Hplain. revert T ctx r ctx'.
  induction fuel as [fuel IHfuel] using lt_wf_ind.
  assert (Hrep : ∀ d ctx (r : option nat) ctx',
            (ReportCtx d ;;; ret None) ctx = Done (r, ctx') →
            registryAdds ctx ctx').
  { intros d c r0 c0 [= <- <-]. by apply registryAdds_same. }
  assert (Hflat : ∀ T ctx r ctx',
            getTypeClass T ≠ TC_Pointer → isArrayType T = false →
            Create fuel T ctx = Done (r, ctx') → registryAdds ctx ctx').
  { intros T ctx r ctx' HnP HnA. rewrite Create_unfold. unfold bind at 1.
    destruct (withDiagnostics _ ctx) as [[[[T' TypeName]|] ctx0]| | | |] eqn:EN;
      try discriminate.
    2:{ intros [= <- <-]. apply registryAdds_same.
        by eapply withDiagnostics_registry. }
    apply NormalizeType_Some in EN as (-> & -> & [st' EH] & EG & Hne & _).
    pose proof (GetTypeName_plain _ _ _ _ Hplain HnP EG) as Hp.
    unfold RSExportType_CreateWithName. unfold bind at 1. unfold findExportType.
    destruct (export_types ctx !! TypeName) as [ET|] eqn:Hlook.
    { intros [= <- <-]. apply registryAdds_refl. }
    destruct T as [k|RD|P|E n|E n|E|nm'|R]; try done.
    - by apply Primitive_Create_adds.
    - assert (Hname : TypeName = GetRecordTypeName (decls RD)).
      { simpl in EG. by inversion EG. }
      destruct (GetRSSpecificTypeOfName RSSpecificTypeMap TypeName) eqn:Hdt;
        try (by apply Primitive_Create_adds).
      + destruct fuel as [|fuel']; [discriminate|].
        intros HC. eapply Record_Create_registry; [exact Hp| | |exact HC].
        * intros T0 c0 r0 c0' HT0. apply IHfuel; [lia | done].
        * intros Def FD HDef HFD. pose proof EH as EH'.
          eapply Helper_accepts_record in EH' as (_ & Def' & HDef' & Hall);
            [|apply recordsOnly_nil|apply not_elem_of_nil
             |simpl; by rewrite <- Hname].
          assert (Def' = Def) as -> by congruence.
          by apply Hall.
      + intros HC. apply Matrix_Create_cases in HC as [[_ E]|(this & _ & E)];
          [by apply registryAdds_same | by eapply new_RSExportType_adds].
      + intros HC. apply Matrix_Create_cases in HC as [[_ E]|(this & _ & E)];
          [by apply registryAdds_same | by eapply new_RSExportType_adds].
      + intros HC. apply Matrix_Create_cases in HC as [[_ E]|(this & _ & E)];
          [by apply registryAdds_same | by eapply new_RSExportType_adds].
    - by apply Vector_Create_adds.
    - apply Hrep.
    - apply Hrep. }
  intros T ctx r ctx' [HnP HnA].
  destruct (isArrayType T) eqn:HA; [|by apply Hflat].
  rewrite Create_unfold. unfold bind at 1.
  destruct (withDiagnostics _ ctx) as [[[[T' TypeName]|] ctx0]| | | |] eqn:EN;
    try discriminate.
  2:{ intros [= <- <-]. apply registryAdds_same.
      by eapply withDiagnostics_registry. }
  apply NormalizeType_Some in EN as (-> & -> & [st' EH] & EG & Hne & _).
  unfold RSExportType_CreateWithName. unfold bind at 1. unfold findExportType.
  destruct (export_types ctx !! TypeName) as [ET|] eqn:Hlook.
  { intros [= <- <-]. apply registryAdds_refl. }
  destruct T as [k|RD|P|E n|E n|E|nm'|R]; try discriminate; [|apply Hrep].
  unfold RSExportConstantArrayType_Create.
  destruct (negb _); [discriminate|]. destruct (negb _); [discriminate|].
  eapply Helper_accepts_array in EH as [HEA _]; [|apply recordsOnly_nil].
  unfold bind at 1.
  destruct (Create fuel E ctx) as [[[e|] ctx1]| | | |] eqn:EE; try discriminate.
  - assert (registryAdds ctx ctx1) as H1.
    { eapply Hflat; [by eapply HnA|done|exact EE]. }
    unfold bind, ret.
    destruct (new_RSExportType _ _ ctx1) as [[this ctx2]| | | |] eqn:E2;
      try discriminate.
    intros [= <- <-]. eapply registryAdds_trans; [exact H1|].
    eapply new_RSExportType_adds; [|exact E2]. reflexivity.
  - intros [= <- <-]. eapply Hflat; [by eapply HnA|done|exact EE].
Qed.

(** *** Entries of the registry are never removed *)

Lemma registryKeeps_refl ctx : registryKeeps ctx ctx.
Proof. by intros nm v. Qed.

Lemma registryKeeps_same ctx ctx' :
  export_types ctx' = export_types ctx → registryKeeps ctx ctx'.
Proof. intros E nm v. by rewrite E. Qed.

Lemma registryKeeps_trans c1 c2 c3 :
  registryKeeps c1 c2 → registryKeeps c2 c3 → registryKeeps c1 c3.
Proof. intros H12 H23 nm v H. by apply H23, H12. Qed.

Lemma new_RSExportType_keeps Name m ctx this ctx' :
  new_RSExportType Name m ctx = Done (this, ctx') → registryKeeps ctx ctx'.
Proof.
  destruct (new_RSExportType_registry Name m ctx) as (c & -> & E).
  intros [= <- <-]. intros nm v Hnm. rewrite E.
  destruct (String.prefix DUMMY_RS_TYPE_NAME_PREFIX Name); [done|].
  destruct (export_types ctx !! Name) eqn:EN; [done|].
  rewrite lookup_insert_ne; [done | congruence].
Qed.

Lemma Primitive_Create_keeps T TypeName ctx r ctx' :
  RSExportPrimitiveType_Create SupportedBuiltin RSSpecificTypeMap decls
    T TypeName ctx = Done (r, ctx') →
  registryKeeps ctx ctx'.
Proof.
  unfold RSExportPrimitiveType_Create. unfold bind at 1.
  destruct (GetDataType_registry T ctx) as (dt & ctx1 & -> & E1).
  destruct (_ || _); [intros [= <- <-]; by apply registryKeeps_same|].
  unfold bind, ret.
  destruct (new_RSExportType _ _ ctx1) as [[this c2]| | | |] eqn:E2;
    try discriminate.
  intros [= <- <-].
  eapply registryKeeps_trans; [by apply registryKeeps_same|].
  by eapply new_RSExportType_keeps.
Qed.

Lemma createFields_keeps (Cr : Ty → M RSContext (option nat)) RD Def ERT FDs
    idx ctx ok ctx' :
  (∀ T ctx r ctx', Cr T ctx = Done (r, ctx') → registryKeeps ctx ctx') →
  createFields decls Cr RD Def ERT FDs idx ctx = Done (ok, ctx') →
  registryKeeps ctx ctx'.
Proof.
  intros HCr. revert idx ctx ok ctx'.
  induction FDs as [|FD FDs IH]; intros idx ctx ok ctx'; simpl.
  - intros [= <- <-]. apply registryKeeps_refl.
  - destruct (isBitField FD).
    { intros [= <- <-]. by apply registryKeeps_same. }
    unfold bind at 1. unfold RSExportElement_CreateFromDecl.
    destruct (Cr (GET_CANONICAL_TYPE (GetTypeOfDecl FD)) ctx)
      as [[[et|] ctx1]| | | |] eqn:E1; try discriminate.
    + destruct (layoutFieldOffsets Def !! idx); [|discriminate].
      unfold bind at 1. unfold push_back_field, modify.
      intros Hrest. apply (registryKeeps_trans _ ctx1); [by eapply HCr|].
      eapply registryKeeps_trans; [|eapply IH; exact Hrest].
      by apply registryKeeps_same.
    + intros [= <- <-].
      apply (registryKeeps_trans _ ctx1); [by eapply HCr|].
      by apply registryKeeps_same.
Qed.

(** Whatever [RSExportType::Create] does, and whether it succeeds or not,
    every export type registered before is registered after, under the
    same name: types interned earlier in a pass stay interned. *)
Lemma Create_keeps fuel T ctx r ctx' :
  Create fuel T ctx = Done (r, ctx') → registryKeeps ctx ctx'.
Proof.
  revert T ctx r ctx'.
  induction fuel as [fuel IHfuel] using lt_wf_ind.
  assert (Hrep : ∀ d ctx (r : option nat) ctx',
            (ReportCtx d ;;; ret None) ctx = Done (r, ctx') →
            registryKeeps ctx ctx').
  { intros d c r0 c0 [= <- <-]. by apply registryKeeps_same. }
  assert (Hmat : ∀ RD TypeName Dim ctx r ctx',
            RSExportMatrixType_Create decls definitions RD TypeName Dim ctx
            = Done (r, ctx') → registryKeeps ctx ctx').
  { intros RD nm Dim c r0 c0 HC.
    apply Matrix_Create_cases in HC as [[_ E]|(this & _ & E)];
      [by apply registryKeeps_same | by eapply new_RSExportType_keeps]. }
  intros T. induction T as [k|RD|P IHP|E IHE n|E IHE n|E IHE|nm'|R IHR];
    intros ctx r ctx'; rewrite Create_unfold; unfold bind at 1;
    (destruct (withDiagnostics _ ctx)
       as [[[[T' TypeName]|] ctx0]| | | |] eqn:EN; try discriminate;
     [|intros [= <- <-]; apply registryKeeps_same;
       by eapply withDiagnostics_registry]);
    apply withDiagnostics_registry in EN;
    unfold RSExportType_CreateWithName; unfold bind at 1;
    unfold findExportType;
    (destruct (export_types ctx0 !! TypeName) as [ET|];
     [intros [= <- <-]; by apply registryKeeps_same|]);
    intros HC; apply (registryKeeps_trans _ ctx0);
    try (by apply registryKeeps_same).
  - by eapply Primitive_Create_keeps.
  - destruct (GetRSSpecificTypeOfName RSSpecificTypeMap TypeName);
      try (by eapply Primitive_Create_keeps); try (by eapply Hmat).
    destruct fuel as [|fuel']; [discriminate|].
    revert HC. unfold RSExportRecordType_Create.
    destruct (negb _); [discriminate|].
    destruct (getDefinition definitions RD) as [Def|]; [|discriminate].
    unfold bind at 1.
    destruct (new_RSExportType TypeName _ ctx0) as [[ERT ctx1]| | | |] eqn:E1;
      try discriminate.
    unfold bind at 1.
    destruct (createFields _ _ _ _ _ _ _ ctx1) as [[ok ctx2]| | | |] eqn:E2;
      try discriminate.
    intros Hr. assert (ctx' = ctx2) as -> by (destruct ok; by inversion Hr).
    apply (registryKeeps_trans _ ctx1); [by eapply new_RSExportType_keeps|].
    eapply createFields_keeps; [|exact E2].
    intros T0 c0 r0 c0'. apply IHfuel. lia.
  - revert HC. unfold RSExportPointerType_Create.
    set (pointee := if negb (bool_decide (getTypeClass P = TC_Pointer))
                    then Create fuel P
                    else RSExportPrimitiveType_CreateNormalized
                           SupportedBuiltin RSSpecificTypeMap decls
                           definitions (BuiltinTy BuiltinType.Int)).
    assert (Hpointee : ∀ pe ctx1,
              pointee ctx0 = Done (pe, ctx1) → registryKeeps ctx0 ctx1).
    { intros pe ctx1. unfold pointee. destruct (negb _); [apply IHP|].
      unfold RSExportPrimitiveType_CreateNormalized. unfold bind at 1.
      destruct (withDiagnostics _ ctx0)
        as [[[[T1 nm1]|] c1]| | | |] eqn:EN1; try discriminate.
      - apply withDiagnostics_registry in EN1.
        destruct (IsPrimitiveType T1).
        + intros HC1. apply (registryKeeps_trans _ c1);
            [by apply registryKeeps_same | by eapply Primitive_Create_keeps].
        + intros [= <- <-]. by apply registryKeeps_same.
      - apply withDiagnostics_registry in EN1.
        intros [= <- <-]. by apply registryKeeps_same. }
    unfold bind at 1.
    destruct (pointee ctx0) as [[[p|] ctx1]| | | |]; try discriminate.
    + pose proof (Hpointee _ _ eq_refl) as EP. unfold bind, ret.
      destruct (new_RSExportType _ _ ctx1) as [[this ctx2]| | | |] eqn:E2;
        try discriminate.
      intros [= <- <-]. apply (registryKeeps_trans _ ctx1);
        [done | by eapply new_RSExportType_keeps].
    + intros [= <- <-]. by eapply Hpointee.
  - revert HC. unfold RSExportVectorType_Create. unfold bind at 1.
    destruct (GetDataType_registry E ctx0) as (dt & ctx1 & -> & E1).
    destruct (negb _); [|intros [= <- <-]; by apply registryKeeps_same].
    unfold bind, ret.
    destruct (new_RSExportType _ _ ctx1) as [[this c2]| | | |] eqn:E2;
      try discriminate.
    intros [= <- <-].
    eapply registryKeeps_trans; [by apply registryKeeps_same|].
    by eapply new_RSExportType_keeps.
  - revert HC. unfold RSExportConstantArrayType_Create.
    destruct (negb _); [discriminate|]. destruct (negb _); [discriminate|].
    unfold bind at 1.
    destruct (Create fuel E ctx0) as [[[e|] ctx1]| | | |] eqn:EE;
      try discriminate.
    + unfold bind, ret.
      destruct (new_RSExportType _ _ ctx1) as [[this ctx2]| | | |] eqn:E2;
        try discriminate.
      intros [= <- <-]. apply (registryKeeps_trans _ ctx1);
        [by eapply IHE | by eapply new_RSExportType_keeps].
    + intros [= <- <-]. by eapply IHE.
  - by eapply Hrep.
  - by eapply Hrep.
  - by eapply Hrep.
Qed.

(** *** The factory returns *)

Lemma GetTypeName_not_OutOfFuel T (ds : list Diagnostic) :
  GetTypeName' T ds ≠ OutOfFuel.
Proof.
  revert ds. induction T as [k|RD|P IHP|E IHE n|E IHE n|E IHE|nm'|R IHR];
    intros ds; simpl; try done.
  - by destruct (SupportedBuiltin k) as [[dt cname]|].
  - apply bind_OutOfFuel; [apply TypeExportable_returns|].
    intros [T'|] ds1 _; [|done].
    apply bind_OutOfFuel; [apply IHP|].
    intros pn ds2 _. by destruct (isEmptyName pn).
  - unfold RSExportVectorType_GetTypeName.
    destruct E; try done. destruct (_ || _); [done|].
    destruct (SupportedBuiltin k) as [[dt cname]|]; [|done].
    cbv zeta. by destruct (_ !! _).
Qed.

Lemma NormalizeType_not_OutOfFuel T ctx :
  withDiagnostics (NormalizeType' T false false None) ctx ≠ OutOfFuel.
Proof.
  unfold withDiagnostics.
  destruct (NormalizeType' T false false None (diagnostics ctx))
    as [[n ds]| | | |] eqn:EN; try done.
  exfalso. revert EN. unfold NormalizeType.
  apply bind_OutOfFuel; [apply TypeExportable_returns|].
  intros [T'|] ds1 _; [|done].
  apply bind_OutOfFuel; [apply GetTypeName_not_OutOfFuel|].
  intros nm ds2 _. by destruct (isEmptyName nm).
Qed.

Lemma Primitive_Create_not_OutOfFuel T TypeName ctx :
  RSExportPrimitiveType_Create SupportedBuiltin RSSpecificTypeMap decls
    T TypeName ctx ≠ OutOfFuel.
Proof.
  unfold RSExportPrimitiveType_Create. unfold bind at 1.
  destruct (GetDataType_registry T ctx) as (dt & ctx1 & -> & _).
  destruct (_ || _); [done|]. unfold bind, ret.
  by destruct (new_RSExportType_registry TypeName
                 (PrimitiveMembers dt DataKindUser false) ctx1)
    as (c & -> & _).
Qed.

Lemma Matrix_Create_not_OutOfFuel RD TypeName Dim ctx :
  RSExportMatrixType_Create decls definitions RD TypeName Dim ctx ≠ OutOfFuel.
Proof.
  unfold RSExportMatrixType_Create.
  assert (Hnew : (this <-- new_RSExportType TypeName (MatrixMembers Dim) ;;
                  ret (Some this)) ctx ≠ OutOfFuel).
  { unfold bind, ret.
    by destruct (new_RSExportType_registry TypeName (MatrixMembers Dim) ctx)
      as (c & -> & _). }
  destruct (negb _); [done|].
  destruct (getDefinition definitions RD) as [Def|]; [|apply Hnew].
  destruct (fields Def) as [|FD more]; [done|].
  destruct (writtenTypeClass (GetTypeOfDecl FD)); try done.
  destruct (canonicalType (GetTypeOfDecl FD)); try done.
  destruct (negb _); [done|]. destruct (negb _); [done|].
  destruct more; [apply Hnew | done].
Qed.

Lemma registryKeeps_unregistered c1 c2 :
  registryKeeps c1 c2 →
  unregistered decls definitions (export_types c2)
  ⊆ unregistered decls definitions (export_types c1).
Proof.
  intros Hk RD. unfold unregistered. rewrite !elem_of_filter.
  intros [Hn Hd]. split; [|done].
  destruct (export_types c1 !! _) as [v|] eqn:E; [|done].
  apply Hk in E. congruence.
Qed.

Lemma createFields_not_OutOfFuel (Cr : Ty → M RSContext (option nat)) RD Def
    ERT FDs idx (fuel : nat) ctx :
  (∀ T ctx r ctx', Cr T ctx = Done (r, ctx') → registryKeeps ctx ctx') →
  (∀ T ctx,
     (size (unregistered decls definitions (export_types ctx)) ≤ fuel)%nat →
     Cr T ctx ≠ OutOfFuel) →
  (size (unregistered decls definitions (export_types ctx)) ≤ fuel)%nat →
  createFields decls Cr RD Def ERT FDs idx ctx ≠ OutOfFuel.
Proof.
  intros Hk HCr. revert idx ctx.
  induction FDs as [|FD FDs IH]; intros idx ctx Hsz; simpl; [done|].
  destruct (isBitField FD); [done|].
  apply bind_OutOfFuel; [by apply HCr|].
  intros [et|] ctx1 E1; [|done].
  destruct (layoutFieldOffsets Def !! idx); [|done].
  apply bind_OutOfFuel; [done|]. intros [] ctx2 [= <-].
  apply IH. simpl.
  pose proof (subseteq_size _ _ (registryKeeps_unregistered _ _
                                   (Hk _ _ _ _ E1))). lia.
Qed.

(** [RSExportType::Create] returns: if record names do not begin with the
    dummy prefix, a budget of as many units as there are defined records
    without a registered name is never exhausted, for every record that
    is entered gets its name registered first. *)
Lemma Create_not_OutOfFuel (fuel : nat) T ctx :
  (∀ RD, String.prefix DUMMY_RS_TYPE_NAME_PREFIX
           (GetRecordTypeName (decls RD)) = false) →
  (size (unregistered decls definitions (export_types ctx)) ≤ fuel)%nat →
  Create fuel T ctx ≠ OutOfFuel.
Proof.
  intros Hnames. revert T ctx.
  induction fuel as [fuel IHfuel] using lt_wf_ind.
  intros T. induction T as [k|RD|P IHP|E IHE n|E IHE n|E IHE|nm'|R IHR];
    intros ctx Hsz; rewrite Create_unfold;
    (apply bind_OutOfFuel; [apply NormalizeType_not_OutOfFuel|]);
    intros [[T' TypeName]|] ctx0 EN; try done;
    apply NormalizeType_Some in EN as (-> & -> & [st' EH] & EG & Hne & _);
    unfold RSExportType_CreateWithName;
    (apply bind_OutOfFuel; [done|]);
    intros [ET|] ctx1 [= Hlook <-]; try done.
  - apply Primitive_Create_not_OutOfFuel.
  - assert (HTN : TypeName = GetRecordTypeName (decls RD)).
    { simpl in EG. by inversion EG. }
    destruct (GetRSSpecificTypeOfName RSSpecificTypeMap TypeName) eqn:Hdt;
      try apply Primitive_Create_not_OutOfFuel;
      try apply Matrix_Create_not_OutOfFuel.
    eapply Helper_accepts_record in EH as (Hstruct & Def & HDef & _);
      [|apply recordsOnly_nil|apply not_elem_of_nil|simpl; by rewrite <- HTN].
    assert (HRD : RD ∈ unregistered decls definitions (export_types ctx)).
    { unfold unregistered. apply elem_of_filter. split.
      - by rewrite <- HTN.
      - apply elem_of_dom. by exists Def. }
    destruct fuel as [|fuel'].
    { exfalso.
      assert (Hz : size (unregistered decls definitions (export_types ctx))
                   = 0) by lia.
      apply size_empty_iff in Hz. apply Hz in HRD.
      by apply not_elem_of_empty in HRD. }
    unfold RSExportRecordType_Create.
    rewrite (bool_decide_eq_true_2 _ Hstruct). cbn [negb]. rewrite HDef.
    apply bind_OutOfFuel.
    { by destruct (new_RSExportType_registry TypeName
                     (RecordMembers (hasPackedAttr Def) false
                        (N.shiftr (layoutSize Def) 3) []) ctx)
        as (c & -> & _). }
    intros ERT ctx1 E1.
    apply bind_OutOfFuel; [|by intros [] ? _].
    apply createFields_not_OutOfFuel with (fuel := fuel').
    + intros T0 c0 r0 c0'. apply Create_keeps.
    + intros T0 c0 Hsz0. apply IHfuel; [lia | done].
    + assert (Hsub : unregistered decls definitions (export_types ctx1)
                     ⊂ unregistered decls definitions (export_types ctx)).
      { split.
        - apply registryKeeps_unregistered. by eapply new_RSExportType_keeps.
        - intros Hsub. apply Hsub in HRD. unfold unregistered in HRD.
          apply elem_of_filter in HRD as [HRD _].
          rewrite <- HTN in HRD.
          assert (Hlt : String.prefix DUMMY_RS_TYPE_NAME_PREFIX TypeName
                        = false) by (rewrite HTN; apply Hnames).
          pose proof (new_RSExportType_registered _ _ _ _ _ Hlt Hlook E1).
          congruence. }
      apply subset_size in Hsub. lia.
  - unfold RSExportPointerType_Create.
    apply bind_OutOfFuel.
    { destruct (negb _); [by apply IHP|].
      unfold RSExportPrimitiveType_CreateNormalized.
      apply bind_OutOfFuel; [apply NormalizeType_not_OutOfFuel|].
      intros [[T1 nm1]|] c1 _; [|done].
      destruct (IsPrimitiveType T1); [|done].
      apply Primitive_Create_not_OutOfFuel. }
    intros [p|] ctx1 _; [|done]. unfold bind, ret.
    by destruct (new_RSExportType_registry TypeName (PointerMembers p) ctx1)
      as (c & -> & _).
  - unfold RSExportVectorType_Create. unfold bind at 1.
    destruct (GetDataType_registry E ctx) as (dt & ctx1 & -> & _).
    destruct (negb _); [|done]. unfold bind, ret.
    by destruct (new_RSExportType_registry TypeName
                   (VectorMembers dt DataKindUser false n) ctx1)
      as (c & -> & _).
  - unfold RSExportConstantArrayType_Create.
    destruct (negb _); [done|]. destruct (negb _); [done|].
    apply bind_OutOfFuel; [by apply IHE|].
    intros [e|] ctx1 _; [|done]. unfold bind, ret.
    by destruct (new_RSExportType_registry
                   DUMMY_TYPE_NAME_FOR_RS_CONSTANT_ARRAY_TYPE
                   (ConstantArrayMembers e n) ctx1)
      as (c & -> & _).
Qed.

Lemma unregistered_size reg :
  (size (unregistered decls definitions reg) ≤ size definitions)%nat.
Proof.
  rewrite <- (size_dom definitions). apply subseteq_size.
  unfold unregistered. intros x Hx. by apply elem_of_filter in Hx as [_ Hx].
Qed.

(** With a budget of the number of definitions the factory never runs
    out. *)
Lemma Create_returns T ctx :
  (∀ RD, String.prefix DUMMY_RS_TYPE_NAME_PREFIX
           (GetRecordTypeName (decls RD)) = false) →
  Create (size definitions) T ctx ≠ OutOfFuel.
Proof.
  intros Hnames. apply Create_not_OutOfFuel; [done|].
  apply unregistered_size.
Qed.

(** An accepted top-level pointer points to a pointer or to no array. *)
Lemma Helper_accepts_pointer fuel Diags SM VD P (st st' : CheckState) T' :
  recordsOnly (SPS st) →
  Helper fuel Diags SM VD None (PointerTy P) st = Done (Some T', st') →
  getTypeClass P = TC_Pointer ∨ isArrayType P = false.
Proof.
  intros Hs. rewrite Helper_PointerTy. unfold bind at 1. unfold SPS_count.
  rewrite (recordsOnly_not_in _ (PointerTy P) Hs) by done.
  destruct (decide (getTypeClass P = TC_Pointer)) as [HP|HP]; [by left|].
  rewrite (bool_decide_eq_false_2 _ HP).
  destruct (isArrayType P); [discriminate | by right].
Qed.

Lemma Primitive_CreateNormalized_adds T ctx r ctx' :
  plainNames SupportedBuiltin decls → getTypeClass T ≠ TC_Pointer →
  RSExportPrimitiveType_CreateNormalized SupportedBuiltin RSSpecificTypeMap
    decls definitions T ctx = Done (r, ctx') →
  registryAdds ctx ctx'.
Proof.
  intros Hplain HT. unfold RSExportPrimitiveType_CreateNormalized.
  unfold bind at 1.
  destruct (withDiagnostics _ ctx) as [[[[T' TypeName]|] ctx0]| | | |] eqn:EN;
    try discriminate.
  2:{ intros [= <- <-]. apply registryAdds_same.
      by eapply withDiagnostics_registry. }
  apply NormalizeType_Some in EN as (-> & -> & _ & EG & _ & _).
  destruct (IsPrimitiveType T);
    [|intros [= <- <-]; apply registryAdds_refl].
  apply Primitive_Create_adds. by eapply GetTypeName_plain.
Qed.

Lemma canonicalName_Some T TypeName ctx :
  canonicalName SupportedBuiltin RSSpecificTypeMap decls definitions T
  = Some TypeName →
  withDiagnostics (NormalizeType' T false false None) ctx
  = Done (Some (T, TypeName), ctx).
Proof.
  unfold canonicalName.
  destruct (NormalizeType' T false false None [])
    as [[[[T' nm]|] ds]| | | |] eqn:EN; try discriminate.
  intros [= ->].
  assert (E0 : withDiagnostics (NormalizeType' T false false None)
                 (mkRSContext ∅ ∅ 0 [])
               = Done (Some (T', TypeName), mkRSContext ∅ ∅ 0 ds)).
  { unfold withDiagnostics. simpl. by rewrite EN. }
  apply NormalizeType_Some in E0 as (_ & _ & _ & _ & _ & Hall). apply Hall.
Qed.

(** A type created under a name that the constructor registers is found
    under that name afterwards. *)
Lemma Create_registered fuel T TypeName ctx this ctx' :
  plainNames SupportedBuiltin decls → canonicalName SupportedBuiltin RSSpecificTypeMap decls definitions T
  = Some TypeName →
  String.prefix DUMMY_RS_TYPE_NAME_PREFIX TypeName = false →
  Create fuel T ctx = Done (Some this, ctx') →
  export_types ctx' !! TypeName = Some this.
Proof.
  intros Hplain Hname Hlt. rewrite Create_unfold. unfold bind at 1.
  pose proof (canonicalName_Some _ _ ctx Hname) as EN. rewrite EN.
  apply NormalizeType_Some in EN as (_ & _ & [st' EH] & EG & Hne & _).
  unfold RSExportType_CreateWithName. unfold bind at 1. unfold findExportType.
  destruct (export_types ctx !! TypeName) as [ET|] eqn:Hlook.
  { by intros [= <- <-]. }
  destruct T as [k|RD|P|E n|E n|E|nm'|R]; try discriminate.
  - by apply Primitive_Create_registered.
  - assert (HTN : TypeName = GetRecordTypeName (decls RD)).
    { simpl in EG. by inversion EG. }
    assert (Hp : String.prefix "*" TypeName = false).
    { eapply GetTypeName_plain; [done| |exact EG]. done. }
    assert (Hmat : ∀ Dim,
              RSExportMatrixType_Create decls definitions RD TypeName Dim ctx
              = Done (Some this, ctx') →
              export_types ctx' !! TypeName = Some this).
    { intros Dim HC.
      apply Matrix_Create_cases in HC as [[? _]|(this' & [= <-] & E)];
        [done|]. by eapply new_RSExportType_registered. }
    destruct (GetRSSpecificTypeOfName RSSpecificTypeMap TypeName) eqn:Hdt;
      try (by apply Primitive_Create_registered); try apply Hmat.
    destruct fuel as [|fuel']; [discriminate|].
    intros HC.
    eapply Record_Create_registry in HC as [_ Hreg]; [by apply Hreg|done| |].
    + intros T0 c0 r0 c0' HT0. by apply Create_adds.
    + intros Def FD HDef HFD. pose proof EH as EH'.
      eapply Helper_accepts_record in EH' as (_ & Def' & HDef' & Hall);
        [|apply recordsOnly_nil|apply not_elem_of_nil
         |simpl; by rewrite <- HTN].
      assert (Def' = Def) as -> by congruence.
      by apply Hall.
  - destruct (GetTypeName_pointer _ _ _ _ EG Hne) as [Hstar _].
    unfold RSExportPointerType_Create.
    set (pointee := if negb (bool_decide (getTypeClass P = TC_Pointer))
                    then Create fuel P
                    else RSExportPrimitiveType_CreateNormalized
                           SupportedBuiltin RSSpecificTypeMap decls
                           definitions (BuiltinTy BuiltinType.Int)).
    assert (Hpointee : ∀ pe ctx1,
              pointee ctx = Done (pe, ctx1) → registryAdds ctx ctx1).
    { intros pe ctx1. unfold pointee.
      destruct (decide (getTypeClass P = TC_Pointer)) as [HP|HP].
      - rewrite (bool_decide_eq_true_2 _ HP). cbn [negb].
        by apply Primitive_CreateNormalized_adds.
      - rewrite (bool_decide_eq_false_2 _ HP). cbn [negb].
        apply Create_adds; [done|]. split; [done|].
        intros E n ->.
        eapply Helper_accepts_pointer in EH as [?|?];
          [done|done|apply recordsOnly_nil]. }
    unfold bind at 1.
    destruct (pointee ctx) as [[[p|] ctx1]| | | |]; try discriminate.
    pose proof (Hpointee _ _ eq_refl) as EP.
    unfold bind, ret.
    destruct (new_RSExportType _ _ ctx1) as [[this1 ctx2]| | | |] eqn:E2;
      try discriminate.
    intros [= <- <-].
    eapply new_RSExportType_registered; [done| |exact E2].
    rewrite (registryAdds_star _ _ _ EP Hstar). done.
  - by apply Vector_Create_registered.
  - simpl in EG. inversion EG; subst. discriminate.
Qed.

End Factory.

(** ** The statements on the sample declarations *)

Abbreviation sampleHelper :=
  (TypeExportableHelper sampleBuiltins sampleRSTypes sampleDecls
     sampleDefinitions).

(** [typedef struct { int *p; } rs_allocation], met as the type of a field
    of [struct S]: accepted with no budget, no diagnostic, and no look at
    its pointer field or its missing own name. *)
Lemma rs_specific_record_accepted_immediately_witness :
  GetRSSpecificType sampleRSTypes sampleDecls (RecordTy 7) ≠ DataTypeUnknown
  ∧ sampleHelper 0 true true None (Some 0) (RecordTy 7) (mkCheckState [] [])
    = Done (Some (RecordTy 7), mkCheckState [] []).
Proof.
  assert (H : GetRSSpecificType sampleRSTypes sampleDecls (RecordTy 7)
              ≠ DataTypeUnknown) by (vm_compute; discriminate).
  split; [exact H|].
  exact (rs_specific_record_accepted_immediately sampleBuiltins sampleRSTypes
           sampleDecls sampleDefinitions 0 true true None (Some 0) 7
           (mkCheckState [] []) H).
Defined.

(** [int vec[2][3]]. *)
Lemma multidimensional_array_rejected_witness :
  recordsOnly [] ∧ isArrayType (ConstantArrayTy IntTy 3) = true
  ∧ sampleHelper 0 true true (Some (mkVarDecl "vec" 5 (written IntTy))) None
      (ConstantArrayTy (ConstantArrayTy IntTy 3) 2) (mkCheckState [] [])
    = Done (None,
            mkCheckState []
              [mkDiagnostic (Some 5)
                 "multidimensional arrays cannot be exported: '%0'" ["vec"]]).
Proof.
  split; [exact recordsOnly_nil|]. split; [reflexivity|].
  exact (proj2 (proj2 (multidimensional_array_rejected sampleBuiltins
                         sampleRSTypes sampleDecls sampleDefinitions 0 true
                         true (Some (mkVarDecl "vec" 5 (written IntTy))) None
                         (ConstantArrayTy IntTy 3) 2 (mkCheckState [] [])
                         recordsOnly_nil eq_refl))
           "vec" 5 eq_refl eq_refl).
Defined.

(** [float3 a[4]] is rejected, [float4 a[4]] accepted. *)
Lemma vector_array_rules_witness :
  recordsOnly []
  ∧ sampleHelper 0 false false None None
      (ConstantArrayTy (ExtVectorTy FloatTy 3) 4) (mkCheckState [] [])
    = Done (None, mkCheckState [] [])
  ∧ sampleHelper 0 false false None None
      (ConstantArrayTy (ExtVectorTy FloatTy 4) 4) (mkCheckState [] [])
    = Done (Some (ConstantArrayTy (ExtVectorTy FloatTy 4) 4),
            mkCheckState [] []).
Proof.
  split; [exact recordsOnly_nil|]. split.
  - exact (proj1 (proj2 (proj1 (vector_array_rules sampleBuiltins
                                  sampleRSTypes sampleDecls sampleDefinitions
                                  0 false false None None FloatTy 3 4
                                  (mkCheckState [] []) recordsOnly_nil)
                           eq_refl ltac:(discriminate)))
             eq_refl eq_refl).
  - exact (proj1 (proj2 (vector_array_rules sampleBuiltins
                           sampleRSTypes sampleDecls sampleDefinitions
                           0 false false None None FloatTy 4 4
                           (mkCheckState [] []) recordsOnly_nil)
                    (or_intror (or_introl eq_refl)))
             eq_refl).
Defined.

Lemma sample_plainNames : plainNames sampleBuiltins sampleDecls.
Proof.
  split.
  - intros k dt cname Hk.
    destruct k; simpl in Hk; inversion Hk; subst;
      do 2 eexists; (split; [reflexivity | discriminate]).
  - intros RD. do 8 (destruct RD as [|RD]; [reflexivity|]). reflexivity.
Qed.

(** ** The scenarios of the specification on the sample declarations *)

Abbreviation sampleTypeExportable :=
  (TypeExportable sampleBuiltins sampleRSTypes sampleDecls sampleDefinitions).

(** [int] is exportable under the name "int", as a signed 32-bit
    primitive. *)
Example scenario_int :
  NormalizeType sampleBuiltins sampleRSTypes sampleDecls sampleDefinitions
    IntTy false false None [] = Done (Some (IntTy, "int"), [])
  ∧ ∃ ctx, sampleCreate 0 IntTy emptyContext = Done (Some 0, ctx)
           ∧ members <$> objects ctx !! 0
             = Some (PrimitiveMembers DataTypeSigned32 DataKindUser false).
Proof.
  split; [vm_compute; reflexivity|].
  eexists. split; vm_compute; reflexivity.
Qed.

(** [struct L { struct L *next; int v; }] is rejected for the pointer it
    contains. *)
Example scenario_self_referential_pointer :
  sampleTypeExportable (RecordTy 3) true true None []
  = Done (None,
          [mkDiagnostic (Some 40)
             "structures containing pointers cannot be exported: '%0'" ["L"]]).
Proof. vm_compute. reflexivity. Qed.

(** [struct { float m[3]; }] asked to be a 2 x 2 matrix is rejected and
    told the size it should have. *)
Example scenario_matrix_of_wrong_size :
  matrixDefect "rs_matrix2x2"
    (mkRecordDef [mkFieldDecl "m" 0 (written (ConstantArrayTy FloatTy 3)) false]
       false false false 96 [0%N]) 2
  = Some ("invalid matrix struct: first field should be an array with size %0: '%1'",
          ["4"; "rs_matrix2x2"]).
Proof. vm_compute. reflexivity. Qed.

(** [struct rs_matrix4x4 { float m[16]; }] is created as a matrix of
    dimension 4. *)
Example scenario_matrix :
  ∃ ctx, sampleCreate 0 (RecordTy 6) emptyContext = Done (Some 0, ctx)
         ∧ members <$> objects ctx !! 0 = Some (MatrixMembers 4).
Proof. eexists. split; vm_compute; reflexivity. Qed.

(** * Further properties *)

(** ** The exportability check as a whole *)

Section CheckerRules.

Variable SupportedBuiltin : BuiltinType.Kind → option (DataType * string).
Variable RSSpecificTypeMap : gmap string DataType.
Variable decls : nat → RecordDecl.
Variable definitions : gmap nat RecordDef.

Abbreviation Helper :=
  (TypeExportableHelper SupportedBuiltin RSSpecificTypeMap decls definitions).
Abbreviation Reject := (ReportTypeError decls).
Abbreviation TypeExportable' :=
  (TypeExportable SupportedBuiltin RSSpecificTypeMap decls definitions).
Abbreviation GetTypeName' :=
  (GetTypeName SupportedBuiltin RSSpecificTypeMap decls definitions).
Abbreviation NormalizeType' :=
  (NormalizeType SupportedBuiltin RSSpecificTypeMap decls definitions).
Abbreviation exportable' :=
  (exportable SupportedBuiltin RSSpecificTypeMap decls definitions).
Abbreviation added := (addedExportable SupportedBuiltin RSSpecificTypeMap decls definitions).

(** *** A check reports at most once, and only when it rejects *)

Lemma reportsOnce_same Diags SM (r : option Ty) st st' :
  reported st' = reported st → reportsOnce Diags SM r st st'.
Proof. by left. Qed.

Lemma Reject_reportsOnce Diags SM VD TLR msg (st st' : CheckState)
    (r : option Ty) :
  (Reject Diags SM VD TLR msg ;;; ret None) st = Done (r, st') →
  reportsOnce Diags SM r st st'.
Proof.
  unfold ReportTypeError, bind, ret, Report, modify, assert_false.
  destruct Diags, SM; simpl; try (by intros [= <- <-]; left).
  destruct TLR; simpl.
  - intros [= <- <-]. right. simpl. eauto.
  - destruct VD; simpl; [|discriminate].
    intros [= <- <-]. right. simpl. eauto.
Qed.

Lemma checkFields_reportsOnce (H : Ty → M CheckState (option Ty)) Diags SM RD
    FDs (st st' : CheckState) (b : bool) :
  (∀ T st r st', H T st = Done (r, st') → reportsOnce Diags SM r st st') →
  checkFields decls H Diags SM RD FDs st = Done (b, st') →
  reportsOnce Diags SM (if b then Some (RecordTy RD) else None) st st'.
Proof.
  intros HH. revert st. induction FDs as [|FD FDs IH]; intros st; simpl.
  - intros [= <- <-]. by left.
  - unfold bind at 1.
    destruct (H (GET_CANONICAL_TYPE (GetTypeOfDecl FD)) st)
      as [[[T'|] st1]| | | |] eqn:E; try discriminate.
    + destruct (HH _ _ _ _ E) as [Hsame|[[=] _]].
      destruct (isBitField FD).
      * unfold bind, ret, Report, modify.
        destruct (Diags && SM) eqn:Hsink; simpl; intros [= <- <-].
        -- right. simpl. rewrite Hsame. eauto.
        -- left. done.
      * intros Hrest. apply IH in Hrest.
        destruct Hrest as [Hs|(Hb & Hsink & d & Hd)].
        -- left. congruence.
        -- right. rewrite <- Hsame. eauto.
    + intros [= <- <-]. destruct (HH _ _ _ _ E) as [?|(_ & ? & ?)].
      * by left.
      * right. eauto.
Qed.

Lemma Helper_reportsOnce fuel Diags SM VD TLR T (st st' : CheckState) r :
  Helper fuel Diags SM VD TLR T st = Done (r, st') →
  reportsOnce Diags SM r st st'.
Proof.
  revert TLR T st st' r.
  induction fuel as [fuel IHfuel] using lt_wf_ind.
  intros TLR T. induction T as [k|RD|P IHP|E IHE n|E IHE n|E IHE|nm|R IHR];
    intros st st' r.
  - rewrite Helper_BuiltinTy. unfold bind, SPS_count, ret.
    destruct (bool_decide _); [by intros [= <- <-]; left|].
    destruct (SupportedBuiltin k); intros [= <- <-]; by left.
  - rewrite Helper_RecordTy. unfold bind at 1. unfold SPS_count.
    destruct (bool_decide (RecordTy RD ∈ SPS st));
      [by intros [= <- <-]; left|].
    destruct (negb (bool_decide _));
      [by intros [= <- <-]; left|].
    destruct (isUnionType decls (RecordTy RD)); [apply Reject_reportsOnce|].
    destruct (negb (isStructureType decls (RecordTy RD))); [discriminate|].
    destruct (getDefinition definitions RD) as [Def|];
      [|apply Reject_reportsOnce].
    destruct (isEmptyName (declName (decls RD))); [apply Reject_reportsOnce|].
    destruct (hasFlexibleArrayMember Def || hasObjectMember Def);
      [by intros [= <- <-]; left|].
    unfold bind at 1.
    destruct (SPS_insert_grows (RecordTy RD) st eq_refl)
      as (st1 & -> & _ & _ & Hrep1).
    destruct fuel as [|fuel']; [discriminate|].
    unfold bind at 1.
    destruct (checkFields _ _ _ _ _ _ st1) as [[ok st2]| | | |] eqn:E;
      try discriminate.
    intros Hr.
    apply checkFields_reportsOnce in E.
    2:{ intros T0 st0 r0 st0'. apply IHfuel. lia. }
    unfold reportsOnce in *. rewrite Hrep1 in E.
    destruct ok; inversion Hr; subst; exact E.
  - rewrite Helper_PointerTy. unfold bind at 1. unfold SPS_count.
    destruct (bool_decide _); [by intros [= <- <-]; left|].
    destruct TLR as [tlr|]; [apply Reject_reportsOnce|].
    destruct (bool_decide _); [by intros [= <- <-]; left|].
    destruct (isArrayType P); [by intros [= <- <-]; left|].
    unfold bind.
    destruct (Helper fuel Diags SM VD None P st) as [[[T'|] st1]| | | |] eqn:E;
      try discriminate; intros [= <- <-]; apply IHP in E.
    + destruct E as [?|[[=] _]]. by left.
    + exact E.
  - rewrite Helper_ExtVectorTy. unfold bind at 1. unfold SPS_count.
    destruct (bool_decide _); [by intros [= <- <-]; left|].
    destruct (_ || _); [by intros [= <- <-]; left|].
    destruct (negb _); [by intros [= <- <-]; left|].
    unfold bind.
    destruct (Helper fuel Diags SM VD TLR E st) as [[[T'|] st1]| | | |] eqn:E1;
      try discriminate; intros [= <- <-]; apply IHE in E1.
    + destruct E1 as [?|[[=] _]]. by left.
    + exact E1.
  - rewrite Helper_ConstantArrayTy. unfold bind at 1. unfold SPS_count.
    destruct (bool_decide _); [by intros [= <- <-]; left|].
    unfold ConstantArrayTypeExportableHelper.
    assert (Hrec : ∀ (A : Ty) (r : option Ty) st',
              (r <-- Helper fuel Diags SM VD TLR E ;;
               match r with
               | None => ret None
               | Some _ => ret (Some A)
               end) st = Done (r, st') → reportsOnce Diags SM r st st').
    { intros A r0 st0. unfold bind.
      destruct (Helper fuel Diags SM VD TLR E st)
        as [[[T'|] st1]| | | |] eqn:E1;
        try discriminate; intros [= <- <-]; apply IHE in E1.
      - destruct E1 as [?|[[=] _]]. by left.
      - exact E1. }
    destruct (isArrayType E); [apply Reject_reportsOnce|].
    destruct E; try apply Hrec.
    destruct (negb _); [apply Reject_reportsOnce|].
    destruct (_ && _); [apply Reject_reportsOnce | apply Hrec].
  - destruct fuel; cbn; unfold bind, SPS_count, ret;
      destruct (bool_decide _); intros [= <- <-]; by left.
  - destruct fuel; cbn; unfold bind, SPS_count, ret;
      destruct (bool_decide _); intros [= <- <-]; by left.
  - destruct fuel; cbn; unfold bind, SPS_count, ret;
      destruct (bool_decide _); intros [= <- <-]; by left.
Qed.

(** *** The verdict does not depend on the sink *)

Lemma unsunk_ret {A} (a : A) : unsunk (ret a) (ret a).
Proof. by intros st a' st' [= <- <-] ds. Qed.

Lemma unsunk_bind {A B} (c c' : M CheckState A) (k k' : A → M CheckState B) :
  unsunk c c' → (∀ a, unsunk (k a) (k' a)) → unsunk (bind c k) (bind c' k').
Proof.
  intros Hc Hk st b st'. unfold bind.
  destruct (c st) as [[a st1]| | | |] eqn:E; try discriminate.
  intros Hb ds. rewrite (Hc _ _ _ E ds). by apply Hk.
Qed.

Lemma unsunk_assert_false {A} w :
  unsunk (@assert_false CheckState A w) (assert_false w).
Proof. by intros st a st'. Qed.

Lemma unsunk_out_of_fuel {A} : unsunk (@out_of_fuel CheckState A) out_of_fuel.
Proof. by intros st a st'. Qed.

Lemma unsunk_SPS_count T : unsunk (SPS_count T) (SPS_count T).
Proof. by intros st a st' [= <- <-] ds. Qed.

Lemma unsunk_SPS_insert T : unsunk (SPS_insert T) (SPS_insert T).
Proof. by intros st a st' [= <- <-] ds. Qed.

Lemma unsunk_Reject Diags SM VD VD' TLR msg :
  unsunk (Reject Diags SM VD TLR msg ;;; ret (@None Ty))
         (Reject false false VD' TLR msg ;;; ret None).
Proof.
  intros st r st' Hr ds. apply Reject_SPS in Hr as [-> ->]. reflexivity.
Qed.

Lemma unsunk_checkFields (H H' : Ty → M CheckState (option Ty)) Diags SM RD
    FDs :
  (∀ T, unsunk (H T) (H' T)) →
  unsunk (checkFields decls H Diags SM RD FDs)
         (checkFields decls H' false false RD FDs).
Proof.
  intros HH. induction FDs as [|FD FDs IH]; simpl; [apply unsunk_ret|].
  apply unsunk_bind; [apply HH|]. intros [T'|]; [|apply unsunk_ret].
  destruct (isBitField FD); [|apply IH].
  apply unsunk_bind; [|intros; apply unsunk_ret].
  simpl. destruct (Diags && SM); [|apply unsunk_ret].
  by intros st a st' [= <- <-] ds.
Qed.

Lemma unsunk_Helper fuel Diags SM VD VD' TLR T :
  unsunk (Helper fuel Diags SM VD TLR T) (Helper fuel false false VD' TLR T).
Proof.
  revert TLR T.
  induction fuel as [fuel IHfuel] using lt_wf_ind.
  intros TLR T. induction T as [k|RD|P IHP|E IHE n|E IHE n|E IHE|nm|R IHR].
  - rewrite !Helper_BuiltinTy. apply unsunk_bind; [apply unsunk_SPS_count|].
    intros []; [apply unsunk_ret|].
    destruct (SupportedBuiltin k); apply unsunk_ret.
  - rewrite !Helper_RecordTy. apply unsunk_bind; [apply unsunk_SPS_count|].
    intros []; [apply unsunk_ret|].
    destruct (negb (bool_decide _)); [apply unsunk_ret|].
    destruct (isUnionType decls (RecordTy RD)); [apply unsunk_Reject|].
    destruct (negb (isStructureType decls (RecordTy RD)));
      [apply unsunk_assert_false|].
    destruct (getDefinition definitions RD) as [Def|]; [|apply unsunk_Reject].
    destruct (isEmptyName (declName (decls RD))); [apply unsunk_Reject|].
    destruct (hasFlexibleArrayMember Def || hasObjectMember Def);
      [apply unsunk_ret|].
    apply unsunk_bind; [apply unsunk_SPS_insert|]. intros _.
    destruct fuel as [|fuel']; [apply unsunk_out_of_fuel|].
    apply unsunk_bind.
    + apply unsunk_checkFields. intros T0. apply IHfuel. lia.
    + intros []; apply unsunk_ret.
  - rewrite !Helper_PointerTy. apply unsunk_bind; [apply unsunk_SPS_count|].
    intros []; [apply unsunk_ret|].
    destruct TLR; [apply unsunk_Reject|].
    destruct (bool_decide _); [apply unsunk_ret|].
    destruct (isArrayType P); [apply unsunk_ret|].
    apply unsunk_bind; [apply IHP|]. intros []; apply unsunk_ret.
  - rewrite !Helper_ExtVectorTy. apply unsunk_bind; [apply unsunk_SPS_count|].
    intros []; [apply unsunk_ret|].
    destruct (_ || _); [apply unsunk_ret|].
    destruct (negb _); [apply unsunk_ret|].
    apply unsunk_bind; [apply IHE|]. intros []; apply unsunk_ret.
  - rewrite !Helper_ConstantArrayTy.
    apply unsunk_bind; [apply unsunk_SPS_count|].
    intros []; [apply unsunk_ret|].
    unfold ConstantArrayTypeExportableHelper.
    assert (Hrec : ∀ (A : Ty),
              unsunk (r <-- Helper fuel Diags SM VD TLR E ;;
                      match r with
                      | None => ret None
                      | Some _ => ret (Some A)
                      end)
                     (r <-- Helper fuel false false VD' TLR E ;;
                      match r with
                      | None => ret None
                      | Some _ => ret (Some A)
                      end)).
    { intros A. apply unsunk_bind; [apply IHE|]. intros []; apply unsunk_ret. }
    destruct (isArrayType E); [apply unsunk_Reject|].
    destruct E; try apply Hrec.
    destruct (negb _); [apply unsunk_Reject|].
    destruct (_ && _); [apply unsunk_Reject | apply Hrec].
  - destruct fuel; cbn; (apply unsunk_bind; [apply unsunk_SPS_count|]);
      intros []; apply unsunk_ret.
  - destruct fuel; cbn; (apply unsunk_bind; [apply unsunk_SPS_count|]);
      intros []; apply unsunk_ret.
  - destruct fuel; cbn; (apply unsunk_bind; [apply unsunk_SPS_count|]);
      intros []; apply unsunk_ret.
Qed.

Lemma TypeExportable_unsunk T Diags SM VD VD' ds r ds' ds0 :
  TypeExportable' T Diags SM VD ds = Done (r, ds') →
  TypeExportable' T false false VD' ds0 = Done (r, ds0).
Proof.
  unfold TypeExportable.
  destruct (Helper _ Diags SM VD None T _) as [[r1 st1]| | | |] eqn:E;
    try discriminate.
  intros [= <- <-].
  pose proof (unsunk_Helper _ _ _ _ VD' _ _ _ _ _ E ds0) as E'. simpl in E'.
  by rewrite E'.
Qed.

Lemma NormalizeType_unsunk T Diags SM VD VD' ds r ds' ds0 :
  NormalizeType' T Diags SM VD ds = Done (r, ds') →
  NormalizeType' T false false VD' ds0 = Done (r, ds0).
Proof.
  unfold NormalizeType, bind.
  destruct (TypeExportable' T Diags SM VD ds) as [[[T'|] ds1]| | | |] eqn:E;
    try discriminate.
  - rewrite (TypeExportable_unsunk _ _ _ _ VD' _ _ _ ds0 E).
    destruct (GetTypeName' T' ds1) as [[nm ds2]| | | |] eqn:En;
      try discriminate.
    destruct (detached_Done _ _ _ _ (detached_GetTypeName _ _ _ _ T') En)
      as [-> Hn].
    rewrite Hn. destruct (isEmptyName nm).
    + unfold ret, modify. simpl. destruct (Diags && SM); by intros [= <- <-].
    + by intros [= <- <-].
  - rewrite (TypeExportable_unsunk _ _ _ _ VD' _ _ _ ds0 E).
    by intros [= <- <-].
Qed.

(** *** The check against the rules *)

Lemma exportable_record b b' RD :
  exportable' b (RecordTy RD) → exportable' b' (RecordTy RD).
Proof.
  intros H. inversion H; subst.
  - by apply exportable_rs_specific.
  - by eapply exportable_struct.
Qed.

Lemma added_refl st : added st st.
Proof. intros X HX. by left. Qed.

Lemma added_trans st1 st2 st3 : added st1 st2 → added st2 st3 → added st1 st3.
Proof.
  intros H12 H23 X HX. destruct (H23 X HX) as [H2|]; [|by right].
  by apply H12.
Qed.

Lemma added_same st st' : SPS st' = SPS st → added st st'.
Proof. intros E X HX. left. by rewrite <- E. Qed.

Section Sound.

Variable rank : nat → nat.
Hypothesis Hrank : nestsWithoutCycle definitions rank.

Abbreviation visited := (visitedExportable SupportedBuiltin RSSpecificTypeMap decls definitions rank).

Lemma visited_added bound st st' :
  visited bound st → added st st' → recordsOnly (SPS st') → visited bound st'.
Proof.
  intros Hv Ha Hr RD HRD Hb. destruct (Ha _ HRD) as [Hin|He]; [by apply Hv | done].
Qed.

Lemma checkFields_sound (H : Ty → M CheckState (option Ty)) Diags SM RD FDs
    (st st' : CheckState) (P : Ty → Prop) bound :
  (∀ T st r st', H T st = Done (r, st') → grows st st') →
  (∀ T st T' st', P T → recordsOnly (SPS st) → visited bound st →
     H T st = Done (Some T', st') → exportable' true T ∧ added st st') →
  recordsOnly (SPS st) → visited bound st →
  (∀ FD, FD ∈ FDs → P (canonicalType (fieldQualType FD))) →
  checkFields decls H Diags SM RD FDs st = Done (true, st') →
  (∀ FD, FD ∈ FDs →
     isBitField FD = false ∧ exportable' true (canonicalType (fieldQualType FD)))
  ∧ added st st'.
Proof.
  intros Hg HH. revert st.
  induction FDs as [|FD FDs IH]; intros st Hr Hv HP; simpl.
  - intros [= <-]. split; [|apply added_refl]. intros FD HFD. inversion HFD.
  - unfold bind at 1.
    destruct (H (GET_CANONICAL_TYPE (GetTypeOfDecl FD)) st)
      as [[[T'|] st1]| | | |] eqn:E; try discriminate.
    destruct (isBitField FD) eqn:Hbit.
    { unfold bind, ret, Report, modify. by destruct (Diags && SM). }
    intros Hrest.
    destruct (HH _ _ _ _ (HP FD (list_elem_of_here _ _)) Hr Hv E) as [He Ha].
    pose proof (grows_recordsOnly _ _ (Hg _ _ _ _ E) Hr) as Hr1.
    destruct (IH st1 Hr1 (visited_added _ _ _ Hv Ha Hr1)
                (λ FD' HFD', HP FD' (list_elem_of_further _ _ _ HFD')) Hrest)
      as [Hall Ha'].
    split; [|by eapply added_trans].
    intros FD' HFD'. apply elem_of_cons in HFD' as [->|HFD']; [done | by apply Hall].
Qed.

Lemma byValueRecord_array E n RD :
  byValueRecord E = Some RD → byValueRecord (ConstantArrayTy E n) = Some RD.
Proof. done. Qed.

Lemma Helper_sound fuel Diags SM VD TLR T (st st' : CheckState) T' bound :
  Helper fuel Diags SM VD TLR T st = Done (Some T', st') →
  recordsOnly (SPS st) →
  match TLR with
  | None => SPS st = []
  | Some _ =>
      visited bound st ∧ ∀ RD, byValueRecord T = Some RD → rank RD < bound
  end →
  exportable' (inRecord TLR) T ∧ added st st'.
Proof.
  revert TLR T st st' T' bound.
  induction fuel as [fuel IHfuel] using lt_wf_ind.
  intros TLR T. induction T as [k|RD|P IHP|E IHE n|E IHE n|E IHE|nm|R IHR];
    intros st st' T' bound HH Hr HT.
  - rewrite Helper_BuiltinTy in HH. unfold bind, SPS_count, ret in HH.
    rewrite recordsOnly_not_in in HH by done.
    destruct (SupportedBuiltin k) eqn:Hk; inversion HH; subst.
    split; [|apply added_refl]. apply exportable_builtin. by rewrite Hk.
  - rewrite Helper_RecordTy in HH. unfold bind at 1 in HH.
    unfold SPS_count in HH.
    destruct (bool_decide (RecordTy RD ∈ SPS st)) eqn:Hseen.
    { inversion HH; subst. split; [|apply added_refl].
      apply bool_decide_eq_true_1 in Hseen.
      destruct TLR as [tlr|].
      - destruct HT as [Hv Hb]. apply Hv; [done|]. by apply Hb.
      - rewrite HT in Hseen. inversion Hseen. }
    apply bool_decide_eq_false_1 in Hseen.
    destruct (bool_decide (_ = DataTypeUnknown)) eqn:Hrs; cbn [negb] in HH.
    2:{ inversion HH; subst. split; [|apply added_refl].
        apply exportable_rs_specific. by apply bool_decide_eq_false_1 in Hrs. }
    destruct (isUnionType decls (RecordTy RD));
      [by apply Reject_never_accepts in HH|].
    destruct (isStructureType decls (RecordTy RD)) eqn:Hstruct;
      cbn [negb] in HH; [|discriminate].
    apply bool_decide_eq_true_1 in Hstruct.
    destruct (getDefinition definitions RD) as [Def|] eqn:HDef;
      [|by apply Reject_never_accepts in HH].
    destruct (isEmptyName (declName (decls RD))) eqn:Hname;
      [by apply Reject_never_accepts in HH|].
    apply bool_decide_eq_false_1 in Hname.
    destruct (hasFlexibleArrayMember Def) eqn:Hflex; cbn [orb] in HH;
      [discriminate|].
    destruct (hasObjectMember Def) eqn:Hobj; [discriminate|].
    unfold bind at 1 in HH.
    destruct (SPS_insert_grows (RecordTy RD) st eq_refl)
      as (st1 & Hins & Hg1 & Hin1 & _).
    rewrite Hins in HH.
    assert (Hst1 : ∀ X, X ∈ SPS st1 → X = RecordTy RD ∨ X ∈ SPS st).
    { clear -Hins. unfold SPS_insert, modify in Hins. inversion Hins; subst.
      simpl. intros X. destruct (bool_decide _); [by right|].
      rewrite elem_of_cons. tauto. }
    destruct fuel as [|fuel']; [discriminate|].
    unfold bind at 1 in HH.
    destruct (checkFields _ _ _ _ _ _ st1) as [[[] st2]| | | |] eqn:E;
      try discriminate.
    inversion HH; subst. clear HH.
    pose proof (grows_recordsOnly _ _ Hg1 Hr) as Hr1.
    eapply (checkFields_sound _ _ _ _ _ _ _
              (λ T, ∀ RD', byValueRecord T = Some RD' → rank RD' < rank RD)
              (rank RD)) in E.
    + destruct E as [Hall Ha].
      assert (He : ∀ b, exportable' b (RecordTy RD)).
      { intros b. eapply exportable_struct; try done.
        - intros FD HFD. by apply Hall.
        - intros FD HFD. by apply Hall. }
      split; [apply He|].
      intros X HX. destruct (Ha X HX) as [HX1|]; [|by right].
      destruct (Hst1 X HX1) as [->|]; [right; apply He | by left].
    + intros T0 st0 r0 st0'. apply Helper_grows.
    + intros T0 st0 T0' st0' HP0 Hr0 Hv0 H0.
      assert (fuel' < S fuel') as Hlt by lia.
      pose proof (IHfuel fuel' Hlt
                    (match TLR with Some _ => TLR | None => Some RD end)
                    T0 st0 st0' T0' (rank RD) H0 Hr0) as IH0.
      destruct TLR as [tlr|]; simpl in IH0; by apply IH0.
    + done.
    + intros RD' HRD' Hlt. destruct (Hst1 _ HRD') as [[= ->]|Hin]; [lia|].
      destruct TLR as [tlr|].
      * destruct HT as [Hv Hb]. apply Hv; [done|].
        specialize (Hb RD eq_refl). lia.
      * rewrite HT in Hin. inversion Hin.
    + intros FD HFD RD' HRD'. by eapply Hrank.
  - rewrite Helper_PointerTy in HH. unfold bind at 1 in HH.
    unfold SPS_count in HH. rewrite recordsOnly_not_in in HH by done.
    destruct TLR as [tlr|]; [by apply Reject_never_accepts in HH|].
    destruct (bool_decide (getTypeClass P = TC_Pointer)) eqn:Hpp.
    { inversion HH; subst. split; [|apply added_refl].
      apply exportable_pointer_to_pointer. by apply bool_decide_eq_true_1 in Hpp. }
    destruct (isArrayType P) eqn:Harr; [discriminate|].
    unfold bind in HH.
    destruct (Helper fuel Diags SM VD None P st) as [[[P'|] st1]| | | |] eqn:E;
      try discriminate.
    inversion HH; subst.
    destruct (IHP _ _ _ 0 E Hr HT) as [He Ha].
    split; [|done]. by apply exportable_pointer.
  - rewrite Helper_ExtVectorTy in HH. unfold bind at 1 in HH.
    unfold SPS_count in HH. rewrite recordsOnly_not_in in HH by done.
    destruct ((n <? 2)%N || (4 <? n)%N) eqn:Hn; [discriminate|].
    apply orb_false_iff in Hn as [Hn2 Hn4].
    apply N.ltb_ge in Hn2, Hn4.
    destruct E; simpl in HH; try discriminate.
    unfold bind in HH.
    destruct (Helper fuel Diags SM VD TLR (BuiltinTy k) st)
      as [[[T0|] st1]| | | |] eqn:E1; try discriminate.
    inversion HH; subst.
    rewrite Helper_BuiltinTy in E1. unfold bind, SPS_count, ret in E1.
    rewrite recordsOnly_not_in in E1 by done.
    destruct (SupportedBuiltin k) eqn:Hk; inversion E1; subst.
    split; [|apply added_refl].
    apply exportable_vector; [lia | by rewrite Hk].
  - rewrite Helper_ConstantArrayTy in HH. unfold bind at 1 in HH.
    unfold SPS_count in HH. rewrite recordsOnly_not_in in HH by done.
    unfold ConstantArrayTypeExportableHelper in HH.
    destruct (isArrayType E) eqn:Harr;
      [by apply Reject_never_accepts in HH|].
    assert (HTE : match TLR with
                  | None => SPS st = []
                  | Some _ =>
                      visited bound st
                      ∧ ∀ RD, byValueRecord E = Some RD → rank RD < bound
                  end).
    { destruct TLR; [|done]. destruct HT as [Hv Hb]. split; [done|].
      intros RD HRD. apply Hb. by apply byValueRecord_array. }
    assert (Hrec : ∀ A : Ty,
              (r <-- Helper fuel Diags SM VD TLR E ;;
               match r with
               | None => ret None
               | Some _ => ret (Some A)
               end) st = Done (Some T', st') →
              exportable' (inRecord TLR) E ∧ added st st').
    { intros A. unfold bind.
      destruct (Helper fuel Diags SM VD TLR E st)
        as [[[E'|] st1]| | | |] eqn:E1; try discriminate.
      intros [= <- <-]. by eapply IHE. }
    assert (Hfin : ∀ B w, E = ExtVectorTy B w →
              getTypeClass B = TC_Builtin ∧ (w = 3%N → n = 1%N) →
              exportable' (inRecord TLR) E ∧ added st st' →
              exportable' (inRecord TLR) (ConstantArrayTy E n) ∧ added st st').
    { intros B w -> Hbw [He Ha]. split; [|done].
      apply exportable_array; [done| |done].
      by intros B' w' [= <- <-]. }
    destruct E as [k|RD|P|B w|E0 n0|E0|nm|R];
      try (destruct (Hrec _ HH) as [He Ha]; split; [|done];
           apply exportable_array; [done | by intros B' w' [=] | done]).
    destruct (bool_decide (getTypeClass B = TC_Builtin)) eqn:HB;
      unfold IsPrimitiveType in HH; rewrite HB in HH; cbn [negb] in HH;
      [|by apply Reject_never_accepts in HH].
    apply bool_decide_eq_true_1 in HB.
    destruct (bool_decide (w = 3%N) && negb (bool_decide (n = 1%N))) eqn:H3;
      [by apply Reject_never_accepts in HH|].
    apply (Hfin B w eq_refl); [|by apply Hrec with (A := ConstantArrayTy (ExtVectorTy B w) n)].
    split; [done|]. intros ->.
    rewrite bool_decide_eq_true_2 in H3 by done. simpl in H3.
    apply negb_false_iff in H3. by apply bool_decide_eq_true_1 in H3.
  - by rewrite Helper_other in HH.
  - by rewrite Helper_other in HH.
  - by rewrite Helper_other in HH.
Qed.

End Sound.

Lemma checkFields_complete (H : Ty → M CheckState (option Ty)) Diags SM RD FDs
    (st : CheckState) :
  (∀ T st r st', H T st = Done (r, st') → grows st st') →
  (∀ FD, FD ∈ FDs → isBitField FD = false) →
  (∀ FD, FD ∈ FDs → ∀ st, recordsOnly (SPS st) →
     match H (canonicalType (fieldQualType FD)) st with
     | OutOfFuel | Done (Some _, _) => True
     | _ => False
     end) →
  recordsOnly (SPS st) →
  match checkFields decls H Diags SM RD FDs st with
  | OutOfFuel | Done (true, _) => True
  | _ => False
  end.
Proof.
  intros Hg. revert st.
  induction FDs as [|FD FDs IH]; intros st Hbit HH Hr; simpl; [done|].
  unfold bind at 1. unfold GET_CANONICAL_TYPE, GetTypeOfDecl.
  pose proof (HH FD (list_elem_of_here _ _) st Hr) as H1.
  destruct (H (canonicalType (fieldQualType FD)) st)
    as [[[T'|] st1]| | | |] eqn:E; try done.
  rewrite (Hbit FD (list_elem_of_here _ _)).
  apply IH.
  - intros FD' HFD'. apply Hbit. by apply list_elem_of_further.
  - intros FD' HFD'. apply HH. by apply list_elem_of_further.
  - eapply grows_recordsOnly; [by eapply Hg | done].
Qed.

Lemma Helper_complete b T :
  exportable' b T →
  ∀ fuel Diags SM VD TLR (st : CheckState),
    b = inRecord TLR → recordsOnly (SPS st) →
    match Helper fuel Diags SM VD TLR T st with
    | OutOfFuel => True
    | Done (Some T', _) => T' = T
    | _ => False
    end.
Proof.
  induction 1 as [b k Hk|b RD Hrs|b RD Def Hstruct HDef Hname Hflex Hobj Hbit
                  Hfields IH|P HP|P Harr HP IH|b k n Hn Hk|b E n Harr Hvec HE IH];
    intros fuel Diags SM VD TLR st Hb Hr.
  - rewrite Helper_BuiltinTy. unfold bind, SPS_count, ret.
    rewrite recordsOnly_not_in by done. by destruct Hk as [? ->].
  - rewrite Helper_RecordTy. unfold bind at 1. unfold SPS_count.
    destruct (bool_decide (RecordTy RD ∈ SPS st)); [done|].
    by rewrite bool_decide_eq_false_2.
  - rewrite Helper_RecordTy. unfold bind at 1. unfold SPS_count.
    destruct (bool_decide (RecordTy RD ∈ SPS st)); [done|].
    destruct (negb (bool_decide _)); [done|].
    unfold isUnionType, isStructureType, getDefinition. rewrite Hstruct, HDef.
    rewrite (bool_decide_eq_false_2 (TTK_Struct = TTK_Union)) by done.
    rewrite (bool_decide_eq_true_2 (TTK_Struct = TTK_Struct)) by done.
    cbn [negb]. unfold isEmptyName. rewrite bool_decide_eq_false_2 by done.
    rewrite Hflex, Hobj. cbn [orb].
    unfold bind at 1.
    destruct (SPS_insert_grows (RecordTy RD) st eq_refl)
      as (st1 & -> & Hg1 & _ & _).
    destruct fuel as [|fuel']; [done|].
    unfold bind at 1.
    assert (Hc : match checkFields decls
                         (Helper fuel' Diags SM VD
                            (match TLR with Some _ => TLR | None => Some RD end))
                         Diags SM RD (fields Def) st1 with
                 | OutOfFuel | Done (true, _) => True
                 | _ => False
                 end).
    { apply checkFields_complete.
      - intros T0 st0 r0 st0'. apply Helper_grows.
      - done.
      - intros FD HFD st0 Hr0.
        pose proof (IH FD HFD fuel' Diags SM VD
                      (match TLR with Some _ => TLR | None => Some RD end) st0)
          as IH0.
        destruct (Helper fuel' _ _ _ _ _ st0) as [[[T1|] st3]| | | |];
          try done; apply IH0; try done; by destruct TLR.
      - by eapply grows_recordsOnly. }
    by destruct (checkFields _ _ _ _ _ _ st1) as [[[] st2]| | | |].
  - destruct TLR; [discriminate|].
    rewrite Helper_PointerTy. unfold bind, SPS_count, ret.
    rewrite recordsOnly_not_in by done.
    by rewrite bool_decide_eq_true_2.
  - destruct TLR; [discriminate|].
    rewrite Helper_PointerTy. unfold bind at 1. unfold SPS_count.
    rewrite recordsOnly_not_in by done.
    destruct (bool_decide (getTypeClass P = TC_Pointer)); [done|].
    rewrite Harr. unfold bind.
    pose proof (IH fuel Diags SM VD None st eq_refl Hr) as IH0.
    by destruct (Helper fuel Diags SM VD None P st) as [[[T1|] st3]| | | |].
  - rewrite Helper_ExtVectorTy. unfold bind at 1. unfold SPS_count.
    rewrite recordsOnly_not_in by done.
    replace ((n <? 2)%N || (4 <? n)%N) with false.
    2:{ symmetry. apply orb_false_iff. split; apply N.ltb_ge; lia. }
    rewrite bool_decide_eq_true_2 by done. cbn [negb].
    rewrite Helper_BuiltinTy. unfold bind, SPS_count, ret.
    rewrite recordsOnly_not_in by done. by destruct Hk as [? ->].
  - rewrite Helper_ConstantArrayTy. unfold bind at 1. unfold SPS_count.
    rewrite recordsOnly_not_in by done.
    unfold ConstantArrayTypeExportableHelper. rewrite Harr.
    assert (Hrec :
              match (r <-- Helper fuel Diags SM VD TLR E ;;
                     match r with
                     | None => ret None
                     | Some _ => ret (Some (ConstantArrayTy E n))
                     end) st with
              | OutOfFuel => True
              | Done (Some T', _) => T' = ConstantArrayTy E n
              | _ => False
              end).
    { unfold bind.
      pose proof (IH fuel Diags SM VD TLR st Hb Hr) as IH0.
      by destruct (Helper fuel Diags SM VD TLR E st) as [[[T1|] st3]| | | |]. }
    destruct E as [k|RD|P|B w|E0 n0|E0|nm|R]; try exact Hrec.
    destruct (Hvec B w eq_refl) as [HB H3].
    unfold IsPrimitiveType. rewrite bool_decide_eq_true_2 by done. cbn [negb].
    replace (bool_decide (w = 3%N) && negb (bool_decide (n = 1%N))) with false;
      [exact Hrec|].
    symmetry. destruct (decide (w = 3%N)) as [Hw|Hw].
    + rewrite (bool_decide_eq_true_2 (n = 1%N)) by auto. apply andb_false_r.
    + by rewrite bool_decide_eq_false_2.
Qed.

Lemma TypeExportable_Done T Diags SM VD (ds ds' : list Diagnostic) r :
  TypeExportable' T Diags SM VD ds = Done (r, ds') →
  ∃ st', Helper (size definitions) Diags SM VD None T (mkCheckState [] ds)
         = Done (r, st') ∧ reported st' = ds'.
Proof.
  unfold TypeExportable.
  destruct (Helper _ _ _ _ _ _ _) as [[r1 st1]| | | |]; try discriminate.
  intros [= <- <-]. by eexists.
Qed.

(** *** The check does not abort *)

Lemma contained_ret {A} may (a : A) : contained may (ret a).
Proof. by intros st. Qed.

Lemma contained_bind {A B} may (c : M CheckState A) (k : A → M CheckState B) :
  contained may c → (∀ a, contained may (k a)) → contained may (bind c k).
Proof.
  intros Hc Hk st. unfold bind. specialize (Hc st).
  destruct (c st) as [[a st1]| | | |]; try done. apply Hk.
Qed.

Lemma contained_out_of_fuel {A} may : contained may (@out_of_fuel CheckState A).
Proof. by intros st. Qed.

Lemma contained_SPS_count may T : contained may (SPS_count T).
Proof. by intros st. Qed.

Lemma contained_SPS_insert may T : contained may (SPS_insert T).
Proof. by intros st. Qed.

Lemma contained_Reject may Diags SM VD TLR msg :
  may = true ∨ Diags && SM = false ∨ is_Some VD ∨ is_Some TLR →
  contained may (Reject Diags SM VD TLR msg ;;; ret (@None Ty)).
Proof.
  intros H st. unfold ReportTypeError, bind, ret, Report, modify, assert_false.
  destruct Diags, SM; simpl; try done.
  destruct TLR; simpl; [done|]. destruct VD; simpl; [done|].
  destruct H as [H|[H|[[? H]|[? H]]]]; done.
Qed.

Lemma contained_checkFields may (H : Ty → M CheckState (option Ty)) Diags SM
    RD FDs :
  (∀ T, contained may (H T)) →
  contained may (checkFields decls H Diags SM RD FDs).
Proof.
  intros HH. induction FDs as [|FD FDs IH]; simpl; [apply contained_ret|].
  apply contained_bind; [apply HH|]. intros [T'|]; [|apply contained_ret].
  destruct (isBitField FD); [|apply IH].
  apply contained_bind; [|intros; apply contained_ret].
  destruct (Diags && SM); [|apply contained_ret]. by intros st.
Qed.

Lemma contained_Helper may fuel Diags SM VD TLR T :
  may = true ∨ (∀ RD, tagKind (decls RD) ≠ TTK_Class) →
  may = true ∨ Diags && SM = false ∨ is_Some VD ∨ is_Some TLR →
  contained may (Helper fuel Diags SM VD TLR T).
Proof.
  intros Hclass. revert TLR T.
  induction fuel as [fuel IHfuel] using lt_wf_ind.
  intros TLR T. induction T as [k|RD|P IHP|E IHE n|E IHE n|E IHE|nm|R IHR];
    intros Htarget.
  - rewrite Helper_BuiltinTy. apply contained_bind; [apply contained_SPS_count|].
    intros []; [apply contained_ret|].
    destruct (SupportedBuiltin k); apply contained_ret.
  - rewrite Helper_RecordTy. apply contained_bind; [apply contained_SPS_count|].
    intros []; [apply contained_ret|].
    destruct (negb (bool_decide _)); [apply contained_ret|].
    unfold isUnionType, isStructureType.
    destruct (bool_decide (tagKind (decls RD) = TTK_Union)) eqn:Hu.
    { apply contained_Reject. right. right. right. by eexists. }
    destruct (bool_decide (tagKind (decls RD) = TTK_Struct)) eqn:Hs; cbn [negb].
    2:{ intros st. unfold assert_false. destruct Hclass as [->|Hclass]; [done|].
        exfalso. apply bool_decide_eq_false_1 in Hu, Hs.
        specialize (Hclass RD). by destruct (tagKind (decls RD)). }
    destruct (getDefinition definitions RD) as [Def|].
    2:{ apply contained_Reject. right. right. right. by eexists. }
    destruct (isEmptyName (declName (decls RD))).
    { apply contained_Reject. right. right. right. by eexists. }
    destruct (hasFlexibleArrayMember Def || hasObjectMember Def);
      [apply contained_ret|].
    apply contained_bind; [apply contained_SPS_insert|]. intros _.
    destruct fuel as [|fuel']; [apply contained_out_of_fuel|].
    apply contained_bind.
    + apply contained_checkFields. intros T0. apply IHfuel; [lia|].
      right. right. right. destruct TLR; by eexists.
    + intros []; apply contained_ret.
  - rewrite Helper_PointerTy. apply contained_bind; [apply contained_SPS_count|].
    intros []; [apply contained_ret|].
    destruct TLR.
    { apply contained_Reject. right. right. right. by eexists. }
    destruct (bool_decide _); [apply contained_ret|].
    destruct (isArrayType P); [apply contained_ret|].
    apply contained_bind; [by apply IHP|]. intros []; apply contained_ret.
  - rewrite Helper_ExtVectorTy. apply contained_bind; [apply contained_SPS_count|].
    intros []; [apply contained_ret|].
    destruct (_ || _)%bool; [apply contained_ret|].
    destruct (negb _); [apply contained_ret|].
    apply contained_bind; [by apply IHE|]. intros []; apply contained_ret.
  - rewrite Helper_ConstantArrayTy.
    apply contained_bind; [apply contained_SPS_count|].
    intros []; [apply contained_ret|].
    unfold ConstantArrayTypeExportableHelper.
    assert (Hrec : ∀ (A : Ty),
              contained may (r <-- Helper fuel Diags SM VD TLR E ;;
                             match r with
                             | None => ret None
                             | Some _ => ret (Some A)
                             end)).
    { intros A. apply contained_bind; [by apply IHE|].
      intros []; apply contained_ret. }
    destruct (isArrayType E); [by apply contained_Reject|].
    destruct E; try apply Hrec.
    destruct (negb _); [by apply contained_Reject|].
    destruct (bool_decide _ && _); [by apply contained_Reject | apply Hrec].
  - destruct fuel; cbn; (apply contained_bind; [apply contained_SPS_count|]);
      intros []; apply contained_ret.
  - destruct fuel; cbn; (apply contained_bind; [apply contained_SPS_count|]);
      intros []; apply contained_ret.
  - destruct fuel; cbn; (apply contained_bind; [apply contained_SPS_count|]);
      intros []; apply contained_ret.
Qed.

Lemma TypeExportable_contained T Diags SM VD (ds : list Diagnostic) :
  match TypeExportable' T Diags SM VD ds with
  | OutOfBoundsRead _ | DanglingPointer _ | OutOfFuel => False
  | _ => True
  end.
Proof.
  pose proof (TypeExportable_returns SupportedBuiltin RSSpecificTypeMap decls
                definitions T Diags SM VD ds) as Hret.
  pose proof (contained_Helper true (size definitions) Diags SM VD None T
                (or_introl eq_refl) (or_introl eq_refl)
                (mkCheckState [] ds)) as Hc.
  unfold TypeExportable in *.
  by destruct (Helper _ _ _ _ _ _ _) as [[r st']| | | |].
Qed.

(** X1. [TypeExportable] adds at most one diagnostic to those reported
    before, and none at all when it accepts the type or when the sink is
    missing. *)
Theorem TypeExportable_reports_at_most_once T Diags SM VD
    (ds ds' : list Diagnostic) r :
  TypeExportable' T Diags SM VD ds = Done (r, ds') →
  ds' = ds
  ∨ (r = None ∧ Diags && SM = true ∧ ∃ d, ds' = (ds ++ [d])%list).
Proof.
  intros H. apply TypeExportable_Done in H as (st' & H & <-).
  apply Helper_reportsOnce in H. exact H.
Qed.

(** X2. What [NormalizeType] answers does not depend on the sink: if it
    returns with [Diags] and [SM] given, then without them (as the factory
    and [GetTypeName] call it) it returns the same type and name, or the
    same refusal, and leaves any diagnostics as they are. *)
Theorem NormalizeType_answer_without_sink T Diags SM VD (ds ds' : list Diagnostic) r :
  NormalizeType' T Diags SM VD ds = Done (r, ds') →
  ∀ VD' ds0, NormalizeType' T false false VD' ds0 = Done (r, ds0).
Proof. intros H VD' ds0. by eapply NormalizeType_unsunk. Qed.

(** X3. [TypeExportable] accepts only what the rules of [exportable]
    derive, in any module whose records do not hold each other by value in
    a cycle. *)
Theorem TypeExportable_accepts_only_exportable rank T Diags SM VD
    (ds ds' : list Diagnostic) T' :
  nestsWithoutCycle definitions rank →
  TypeExportable' T Diags SM VD ds = Done (Some T', ds') →
  exportable' false T.
Proof.
  intros Hrank H. apply TypeExportable_Done in H as (st' & H & _).
  by destruct (Helper_sound rank Hrank _ _ _ _ _ _ _ _ _ 0 H recordsOnly_nil
                 eq_refl).
Qed.

Lemma TypeExportable_complete T Diags SM VD (ds : list Diagnostic) :
  exportable' false T →
  TypeExportable' T Diags SM VD ds = Done (Some T, ds).
Proof.
  intros He.
  pose proof (TypeExportable_returns SupportedBuiltin RSSpecificTypeMap decls
                definitions T Diags SM VD ds) as Hret.
  pose proof (Helper_complete _ _ He (size definitions) Diags SM VD None
                (mkCheckState [] ds) eq_refl recordsOnly_nil) as Hc.
  unfold TypeExportable in *.
  destruct (Helper _ _ _ _ _ _ _) as [[[T'|] st']| | | |] eqn:E; try done.
  subst T'. apply Helper_reportsOnce in E as [E|[[=] _]].
  simpl in E. by rewrite E.
Qed.

(** X4. [TypeExportable] accepts every type the rules of [exportable]
    derive: it returns the type itself, reports nothing, and does so
    whatever the sink. *)
Theorem TypeExportable_accepts_every_exportable T Diags SM VD
    (ds : list Diagnostic) :
  exportable' false T →
  TypeExportable' T Diags SM VD ds = Done (Some T, ds).
Proof. apply TypeExportable_complete. Qed.

(** X5. [TypeExportable] comes to an end on every type, in every module
    (also one whose records refer to each other in a cycle), and what it
    returns is NULL or the type it was given. *)
Theorem TypeExportable_ends_with_its_argument T Diags SM VD
    (ds : list Diagnostic) :
  TypeExportable' T Diags SM VD ds ≠ OutOfFuel
  ∧ ∀ T' ds', TypeExportable' T Diags SM VD ds = Done (Some T', ds') → T' = T.
Proof.
  split; [apply TypeExportable_returns|].
  intros T' ds' H. apply TypeExportable_Done in H as (st' & H & _).
  by eapply Helper_accepts_same.
Qed.

(** X6. In a C module (no record is a C++ class) [TypeExportable] returns
    without a failed assertion whenever the sink is missing or the
    variable that is being checked is given. *)
Theorem TypeExportable_returns_without_assertion T Diags SM VD
    (ds : list Diagnostic) :
  (∀ RD, tagKind (decls RD) ≠ TTK_Class) →
  Diags && SM = false ∨ is_Some VD →
  ∃ r ds', TypeExportable' T Diags SM VD ds = Done (r, ds').
Proof.
  intros Hclass Htarget.
  pose proof (TypeExportable_returns SupportedBuiltin RSSpecificTypeMap decls
                definitions T Diags SM VD ds) as Hret.
  assert (Hna : contained false (Helper (size definitions) Diags SM VD None T)).
  { apply contained_Helper; [by right|]. right. destruct Htarget; auto. }
  specialize (Hna (mkCheckState [] ds)).
  unfold TypeExportable in *.
  destruct (Helper _ _ _ _ _ _ _) as [[r st']| | | |]; try done.
  by eexists _, _.
Qed.

(** *** Rejections *)

(** X7. A record that is not a RenderScript type is turned away before any
    of its fields is looked at when it is a union, a structure without a
    definition in the module, or a structure without a name of its own;
    the diagnostic then names the record itself, also when it is met
    below another record. A structure with a flexible array member or an
    object member is turned away with no diagnostic at all. *)
Theorem record_rejected_before_its_fields fuel Diags SM VD TLR RD
    (st : CheckState) :
  RecordTy RD ∉ SPS st →
  GetRSSpecificType RSSpecificTypeMap decls (RecordTy RD) = DataTypeUnknown →
  let reject msg :=
    Done (@None Ty,
          if Diags && SM then
            withReport st (declLocation (decls RD)) msg (declName (decls RD))
          else st) in
  (tagKind (decls RD) = TTK_Union →
   Helper fuel Diags SM VD TLR (RecordTy RD) st
   = reject "unions cannot be exported: '%0'")
  ∧ (tagKind (decls RD) = TTK_Struct → definitions !! RD = None →
     Helper fuel Diags SM VD TLR (RecordTy RD) st
     = reject "struct is not defined in this module")
  ∧ (tagKind (decls RD) = TTK_Struct → is_Some (definitions !! RD) →
     declName (decls RD) = "" →
     Helper fuel Diags SM VD TLR (RecordTy RD) st
     = reject "anonymous structures cannot be exported")
  ∧ (∀ Def, tagKind (decls RD) = TTK_Struct → definitions !! RD = Some Def →
       declName (decls RD) ≠ "" →
       hasFlexibleArrayMember Def || hasObjectMember Def = true →
       Helper fuel Diags SM VD TLR (RecordTy RD) st = Done (None, st)).
Proof.
  intros Hseen Hrs reject.
  assert (Hrej : ∀ msg,
            (Reject Diags SM None (Some RD) msg ;;; ret (@None Ty)) st
            = reject msg).
  { intros msg. unfold reject. destruct (Diags && SM) eqn:Hsink.
    - by apply Reject_reported.
    - by apply Reject_silent. }
  assert (Hstart : ∀ k : M CheckState (option Ty),
            (seen <-- SPS_count (RecordTy RD) ;;
             if (seen : bool) then ret (Some (RecordTy RD)) else
             if negb (bool_decide
                        (GetRSSpecificType RSSpecificTypeMap decls (RecordTy RD)
                         = DataTypeUnknown))
             then ret (Some (RecordTy RD)) else k) st = k st).
  { intros k. unfold bind, SPS_count.
    rewrite bool_decide_eq_false_2 by done.
    by rewrite bool_decide_eq_true_2. }
  rewrite Helper_RecordTy, Hstart.
  unfold isUnionType, isStructureType, getDefinition.
  repeat split.
  - intros ->. rewrite bool_decide_eq_true_2 by done. apply Hrej.
  - intros -> ->. rewrite bool_decide_eq_false_2 by done.
    rewrite bool_decide_eq_true_2 by done. apply Hrej.
  - intros -> [Def ->] Hn. rewrite bool_decide_eq_false_2 by done.
    rewrite bool_decide_eq_true_2 by done. cbn [negb].
    unfold isEmptyName. rewrite bool_decide_eq_true_2 by done. apply Hrej.
  - intros Def -> -> Hn Hflags. rewrite bool_decide_eq_false_2 by done.
    rewrite bool_decide_eq_true_2 by done. cbn [negb].
    unfold isEmptyName. rewrite bool_decide_eq_false_2 by done.
    by rewrite Hflags.
Qed.

Lemma checkFields_bit_field (H : Ty → M CheckState (option Ty)) Diags SM RD
    pre FD post (st : CheckState) :
  (∀ T st r st', H T st = Done (r, st') → grows st st') →
  (∀ T st r st', H T st = Done (r, st') → reportsOnce Diags SM r st st') →
  (∀ F, F ∈ pre → isBitField F = false) →
  (∀ F, F ∈ (pre ++ [FD])%list → ∀ st, recordsOnly (SPS st) →
     match H (canonicalType (fieldQualType F)) st with
     | OutOfFuel | Done (Some _, _) => True
     | _ => False
     end) →
  isBitField FD = true →
  recordsOnly (SPS st) →
  match checkFields decls H Diags SM RD (pre ++ FD :: post)%list st with
  | OutOfFuel => True
  | Done (false, st') =>
      reported st'
      = (reported st
         ++ if Diags && SM then
              [mkDiagnostic (Some (fieldLocation FD))
                 "bit fields are not able to be exported: '%0.%1'"
                 [declName (decls RD); fieldName FD]]
            else [])%list
  | _ => False
  end.
Proof.
  intros Hg Hrep. revert st.
  induction pre as [|F pre IH]; intros st Hpre HH Hbit Hr; simpl.
  - unfold bind at 1. unfold GET_CANONICAL_TYPE, GetTypeOfDecl.
    pose proof (HH FD (list_elem_of_here _ _) st Hr) as H1.
    destruct (H (canonicalType (fieldQualType FD)) st)
      as [[[T'|] st1]| | | |] eqn:E; try done.
    destruct (Hrep _ _ _ _ E) as [Hsame|[[=] _]].
    rewrite Hbit. unfold bind, ret, Report, modify.
    destruct (Diags && SM); simpl; rewrite Hsame; [done|].
    by rewrite app_nil_r.
  - unfold bind at 1. unfold GET_CANONICAL_TYPE, GetTypeOfDecl.
    pose proof (HH F (list_elem_of_here _ _) st Hr) as H1.
    destruct (H (canonicalType (fieldQualType F)) st)
      as [[[T'|] st1]| | | |] eqn:E; try done.
    destruct (Hrep _ _ _ _ E) as [Hsame|[[=] _]].
    rewrite (Hpre F (list_elem_of_here _ _)).
    rewrite <- Hsame. apply IH; try done.
    + intros F' HF'. apply Hpre. by apply list_elem_of_further.
    + intros F' HF'. apply HH. by apply list_elem_of_further.
    + eapply grows_recordsOnly; [by eapply Hg | done].
Qed.

(** X8. A bit field is found when the loop over the fields reaches it,
    and after its type has passed the check: in a structure whose fields
    before the first bit field are exportable, and the type of that bit
    field too, [TypeExportable] fails, and with a sink it reports the bit
    field, at the place of the field and under the names of the structure
    and the field, and nothing else. *)
Theorem bit_field_is_reported_at_the_field RD Def pre FD post Diags SM VD
    (ds : list Diagnostic) :
  GetRSSpecificType RSSpecificTypeMap decls (RecordTy RD) = DataTypeUnknown →
  tagKind (decls RD) = TTK_Struct → definitions !! RD = Some Def →
  declName (decls RD) ≠ "" →
  hasFlexibleArrayMember Def = false → hasObjectMember Def = false →
  fields Def = (pre ++ FD :: post)%list →
  (∀ F, F ∈ pre → isBitField F = false) →
  (∀ F, F ∈ (pre ++ [FD])%list →
     exportable' true (canonicalType (fieldQualType F))) →
  isBitField FD = true →
  TypeExportable' (RecordTy RD) Diags SM VD ds
  = Done (None,
          (ds ++ if Diags && SM then
                   [mkDiagnostic (Some (fieldLocation FD))
                      "bit fields are not able to be exported: '%0.%1'"
                      [declName (decls RD); fieldName FD]]
                 else [])%list).
Proof.
  intros Hrs Hstruct HDef Hname Hflex Hobj Hfields Hpre Hexp Hbit.
  pose proof (TypeExportable_returns SupportedBuiltin RSSpecificTypeMap decls
                definitions (RecordTy RD) Diags SM VD ds) as Hret.
  unfold TypeExportable in *.
  assert (size definitions ≠ 0) as Hsz.
  { intros H0. apply map_size_empty_iff in H0. by rewrite H0 in HDef. }
  destruct (size definitions) as [|fuel'] eqn:Hfuel; [done|].
  rewrite Helper_RecordTy in *. unfold bind at 1 in Hret. unfold bind at 1.
  unfold SPS_count in *. cbn [SPS] in *.
  rewrite bool_decide_eq_false_2 in * by (by intros ?%elem_of_nil).
  rewrite (bool_decide_eq_true_2 _ Hrs) in *. cbn [negb] in *.
  unfold isUnionType, isStructureType, getDefinition in *.
  rewrite Hstruct, HDef in *.
  rewrite (bool_decide_eq_false_2 (TTK_Struct = TTK_Union)) in * by done.
  rewrite (bool_decide_eq_true_2 (TTK_Struct = TTK_Struct)) in * by done.
  cbn [negb] in *. unfold isEmptyName in *.
  rewrite (bool_decide_eq_false_2 _ Hname) in *.
  rewrite Hflex, Hobj in *. cbn [orb] in *.
  unfold bind at 1 in Hret. unfold bind at 1.
  unfold SPS_insert, modify in *. cbn [SPS reported] in *.
  rewrite bool_decide_eq_false_2 in * by (by intros ?%elem_of_nil).
  unfold bind at 1 in Hret. unfold bind at 1.
  rewrite Hfields in *.
  assert (Hc : match checkFields decls (Helper fuel' Diags SM VD (Some RD))
                       Diags SM RD (pre ++ FD :: post)%list
                       (mkCheckState [RecordTy RD] ds) with
               | OutOfFuel => True
               | Done (false, st') =>
                   reported st'
                   = (ds ++ if Diags && SM then
                              [mkDiagnostic (Some (fieldLocation FD))
                                 "bit fields are not able to be exported: '%0.%1'"
                                 [declName (decls RD); fieldName FD]]
                            else [])%list
               | _ => False
               end).
  { apply (checkFields_bit_field (Helper fuel' Diags SM VD (Some RD))).
    - intros T0 st0 r0 st0'. apply Helper_grows.
    - intros T0 st0 r0 st0'. apply Helper_reportsOnce.
    - done.
    - intros F HF st0 Hr0.
      pose proof (Helper_complete _ _ (Hexp F HF) fuel' Diags SM VD (Some RD)
                    st0 eq_refl Hr0) as Hok.
      by destruct (Helper fuel' _ _ _ _ _ st0) as [[[T1|] st3]| | | |].
    - done.
    - intros T0 [->|HT0]%elem_of_cons; [done|by apply elem_of_nil in HT0]. }
  destruct (checkFields _ _ _ _ _ _ _) as [[[] st2]| | | |]; try done.
  unfold ret. by rewrite Hc.
Qed.

(** X9. Some types are turned away in silence: when [TypeExportable]
    rejects a scalar, a vector, an enumeration, a function or an array of
    unknown size as the type of a variable, it reports nothing, with or
    without a sink. *)
Theorem scalars_and_vectors_are_rejected_in_silence T Diags SM VD
    (ds ds' : list Diagnostic) :
  match getTypeClass T with
  | TC_Builtin | TC_ExtVector | TC_IncompleteArray | TC_Enum
  | TC_FunctionNoProto => True
  | _ => False
  end →
  TypeExportable' T Diags SM VD ds = Done (None, ds') → ds' = ds.
Proof.
  intros HT H. apply TypeExportable_Done in H as (st' & H & <-).
  destruct T as [k|RD|P|E n|E n|E|nm|R]; try done.
  - rewrite Helper_BuiltinTy in H. unfold bind, SPS_count, ret in H.
    simpl in H. by destruct (SupportedBuiltin k); inversion H.
  - rewrite Helper_ExtVectorTy in H. unfold bind at 1 in H.
    unfold SPS_count in H. simpl in H.
    destruct (_ || _)%bool; [by inversion H|].
    destruct E as [k| | | | | | |]; simpl in H; try by inversion H.
    rewrite Helper_BuiltinTy in H. unfold bind, SPS_count, ret in H.
    simpl in H. by destruct (SupportedBuiltin k); inversion H.
  - rewrite Helper_other in H by (done || apply recordsOnly_nil).
    by inversion H.
  - rewrite Helper_other in H by (done || apply recordsOnly_nil).
    by inversion H.
  - rewrite Helper_other in H by (done || apply recordsOnly_nil).
    by inversion H.
Qed.

End CheckerRules.

(** ** Names *)

Section NamesMore.

Variable SupportedBuiltin : BuiltinType.Kind → option (DataType * string).
Variable RSSpecificTypeMap : gmap string DataType.
Variable decls : nat → RecordDecl.
Variable definitions : gmap nat RecordDef.

Abbreviation TypeExportable' :=
  (TypeExportable SupportedBuiltin RSSpecificTypeMap decls definitions).
Abbreviation GetTypeName' :=
  (GetTypeName SupportedBuiltin RSSpecificTypeMap decls definitions).
Abbreviation NormalizeType' :=
  (NormalizeType SupportedBuiltin RSSpecificTypeMap decls definitions).
Abbreviation exportable' :=
  (exportable SupportedBuiltin RSSpecificTypeMap decls definitions).
Abbreviation typeName' := (typeName SupportedBuiltin decls).
Abbreviation everyLevel :=
  (exportableAtEveryLevel SupportedBuiltin RSSpecificTypeMap decls definitions).

(** *** Names of exportable types *)

Lemma append_nonempty_l (a b : string) : a ≠ "" → a ++ b ≠ "".
Proof. by destruct a. Qed.

Lemma append_last_inj (a b : string) (x y : ascii) :
  a ++ String x "" = b ++ String y "" → a = b ∧ x = y.
Proof.
  revert b. induction a as [|c a IH]; intros [|d b]; simpl.
  - by intros [= ->].
  - intros [= -> H]. by destruct b.
  - intros [= -> H]. by destruct a.
  - intros [= -> H]. destruct (IH _ H) as [-> ->]. done.
Qed.

Lemma exportable_record_named RD b :
  exportable' b (RecordTy RD) → GetRecordTypeName (decls RD) ≠ "".
Proof.
  intros H. inversion H as [| ? ? Hrs | ? ? Def Hs HDef Hn | | | |]; subst.
  - intros E. apply Hrs. unfold GetRSSpecificType, GetRSSpecificTypeOfName.
    by rewrite E.
  - unfold GetRecordTypeName. rewrite bool_decide_eq_true_2 by done.
    unfold isEmptyName. by rewrite bool_decide_eq_false_2.
Qed.

Lemma GetTypeName_exportable T (ds : list Diagnostic) :
  namedBuiltins SupportedBuiltin → everyLevel T →
  GetTypeName' T ds = Done (typeName' T, ds) ∧ typeName' T ≠ "".
Proof.
  intros Hnamed. revert ds.
  induction T as [k|RD|P IHP|E IHE n|E IHE n|E IHE|nm|R IHR];
    intros ds [He Hlevel]; simpl.
  - inversion He as [? ? [[dt c] Hk]| | | | | |]; subst. rewrite Hk.
    split; [done|]. by eapply Hnamed.
  - split; [done|]. by eapply exportable_record_named.
  - unfold bind at 1.
    assert (HeP : exportable' false P).
    { by destruct P; destruct Hlevel. }
    rewrite (TypeExportable_complete _ _ _ _ _ _ _ _ _ HeP).
    destruct (IHP ds Hlevel) as [Hn Hne].
    unfold bind. rewrite Hn. unfold isEmptyName.
    rewrite bool_decide_eq_false_2 by done. done.
  - inversion He as [| | | | |? ? ? Hn [[dt c] Hk]|]; subst.
    rewrite (RSExportVectorType_GetTypeName_cases _ _ _ _ n ds Hk), Hk.
    rewrite bool_decide_eq_false_2 by lia.
    rewrite bool_decide_eq_false_2 by lia.
    split; [done|]. apply append_nonempty_l. by eapply Hnamed.
  - done.
  - inversion He.
  - inversion He.
  - inversion He.
Qed.

Lemma NormalizeType_exportable T Diags SM VD (ds : list Diagnostic) :
  namedBuiltins SupportedBuiltin → everyLevel T →
  typeName' T ≠ ""
  ∧ NormalizeType' T Diags SM VD ds = Done (Some (T, typeName' T), ds).
Proof.
  intros Hnamed Hlevel.
  destruct (GetTypeName_exportable T ds Hnamed Hlevel) as [Hn Hne].
  split; [done|].
  assert (He : exportable' false T) by (by destruct T; destruct Hlevel).
  unfold NormalizeType, bind.
  rewrite (TypeExportable_complete _ _ _ _ _ _ _ _ _ He), Hn.
  unfold isEmptyName. by rewrite bool_decide_eq_false_2.
Qed.

(** X10. Every type that is exportable at every level of pointers is
    normalized to itself under the name [typeName] gives, a name that is
    not empty; nothing is reported, whatever the sink. *)
Theorem NormalizeType_names_every_exportable T Diags SM VD
    (ds : list Diagnostic) :
  namedBuiltins SupportedBuiltin →
  exportableAtEveryLevel SupportedBuiltin RSSpecificTypeMap decls definitions T →
  typeName' T ≠ ""
  ∧ NormalizeType' T Diags SM VD ds = Done (Some (T, typeName' T), ds).
Proof. apply NormalizeType_exportable. Qed.

(** X11. A pointer to a pointer passes the check whatever it points to;
    when the inner pointer is not exportable the type then has no name,
    and [NormalizeType] refuses it as anonymous. *)
Theorem pointer_to_unexportable_pointer_is_anonymous X Diags SM VD
    (ds : list Diagnostic) :
  TypeExportable' (PointerTy X) false false None ds = Done (None, ds) →
  TypeExportable' (PointerTy (PointerTy X)) Diags SM VD ds
  = Done (Some (PointerTy (PointerTy X)), ds)
  ∧ NormalizeType' (PointerTy (PointerTy X)) Diags SM VD ds
    = Done (None,
            if Diags && SM then
              (ds ++ [mkDiagnostic (varLocation <$> VD)
                        "anonymous types cannot be exported" []])%list
            else ds).
Proof.
  intros Hinner.
  assert (Hacc : TypeExportable' (PointerTy (PointerTy X)) Diags SM VD ds
                 = Done (Some (PointerTy (PointerTy X)), ds)).
  { apply TypeExportable_complete. by apply exportable_pointer_to_pointer. }
  split; [exact Hacc|].
  unfold NormalizeType, bind. rewrite Hacc. simpl.
  unfold bind. rewrite Hinner. simpl.
  by destruct (Diags && SM).
Qed.

(** X12. The names of vectors tell them apart: two vectors of two to four
    supported scalars have the same name only if the scalars have the same
    C name and the element counts agree. *)
Theorem vector_names_tell_vectors_apart k k' dt dt' cname cname' n n'
    (ds ds1 ds2 : list Diagnostic) nm :
  SupportedBuiltin k = Some (dt, cname) →
  SupportedBuiltin k' = Some (dt', cname') →
  (2 ≤ n ≤ 4)%N → (2 ≤ n' ≤ 4)%N →
  GetTypeName' (ExtVectorTy (BuiltinTy k) n) ds = Done (nm, ds1) →
  GetTypeName' (ExtVectorTy (BuiltinTy k') n') ds = Done (nm, ds2) →
  cname = cname' ∧ n = n'.
Proof.
  intros Hk Hk' Hn Hn'. cbn [GetTypeName].
  rewrite (RSExportVectorType_GetTypeName_cases _ _ _ _ n ds Hk).
  rewrite (RSExportVectorType_GetTypeName_cases _ _ _ _ n' ds Hk').
  rewrite !bool_decide_eq_false_2 by lia.
  intros [= <- <-] [= H _].
  assert (Hc : ∀ m, (2 ≤ m ≤ 4)%N →
            ∃ c, pretty m = String c ""
                 ∧ (c = "2"%char ∧ m = 2%N ∨ c = "3"%char ∧ m = 3%N
                    ∨ c = "4"%char ∧ m = 4%N)).
  { intros m Hm. assert (m = 2 ∨ m = 3 ∨ m = 4)%N as [-> | [-> | ->]] by lia;
      eexists; (split; [reflexivity|]); auto. }
  destruct (Hc n Hn) as (c & Ec & Hcn). destruct (Hc n' Hn') as (c' & Ec' & Hcn').
  rewrite Ec, Ec' in H. apply append_last_inj in H as [-> ->].
  split; [done|].
  destruct Hcn as [[-> ->] | [[-> ->] | [-> ->]]];
    destruct Hcn' as [[? ->] | [[? ->] | [? ->]]]; done.
Qed.

(** *** The table of vector names is read within its bounds *)

Lemma TypeExportable_vector_range E n Diags SM VD (ds ds' : list Diagnostic) T' :
  TypeExportable' (ExtVectorTy E n) Diags SM VD ds = Done (Some T', ds') →
  (2 ≤ n ≤ 4)%N.
Proof.
  intros H. apply TypeExportable_Done in H as (st' & H & _).
  rewrite Helper_ExtVectorTy in H. unfold bind at 1 in H.
  unfold SPS_count in H. simpl in H.
  destruct ((n <? 2)%N || (4 <? n)%N) eqn:Hn; [discriminate|].
  apply orb_false_iff in Hn as [Hn2 Hn4]. apply N.ltb_ge in Hn2, Hn4. lia.
Qed.

Lemma GetTypeName_in_bounds T (ds : list Diagnostic) :
  (∀ E n, T = ExtVectorTy E n → (2 ≤ n ≤ 4)%N) →
  match GetTypeName' T ds with
  | Done _ | AssertFailed _ => True
  | _ => False
  end.
Proof.
  revert ds. induction T as [k|RD|P IHP|E IHE n|E IHE n|E IHE|nm|R IHR];
    intros ds HT; simpl; try done.
  - by destruct (SupportedBuiltin k) as [[dt c]|].
  - unfold bind at 1.
    pose proof (TypeExportable_contained SupportedBuiltin RSSpecificTypeMap
                  decls definitions P false false None ds) as Hc.
    destruct (TypeExportable' P false false None ds)
      as [[[P'|] ds1]| | | |] eqn:EP; try done.
    unfold bind.
    assert (HP : ∀ E n, P = ExtVectorTy E n → (2 ≤ n ≤ 4)%N).
    { intros E n ->. by eapply TypeExportable_vector_range. }
    specialize (IHP ds1 HP).
    destruct (GetTypeName' P ds1) as [[nm ds2]| | | |]; try done.
    by destruct (isEmptyName nm).
  - specialize (HT E n eq_refl).
    unfold RSExportVectorType_GetTypeName.
    destruct E as [k| | | | | | |]; try done.
    destruct (SupportedBuiltin k) as [[dt c]|] eqn:Hk.
    + pose proof (RSExportVectorType_GetTypeName_cases _ _ _ _ n ds Hk) as Hv.
      unfold RSExportVectorType_GetTypeName in Hv. rewrite Hk in Hv.
      rewrite Hv. rewrite !bool_decide_eq_false_2 by lia. done.
    + by destruct (_ || _)%bool.
Qed.

(** X13. [NormalizeType] never reads the table of vector names outside
    its bounds, and never runs on for ever: the check it makes first lets
    only vectors of two to four elements through to
    [RSExportVectorType::GetTypeName]. *)
Theorem NormalizeType_reads_names_within_bounds T Diags SM VD
    (ds : list Diagnostic) :
  match NormalizeType' T Diags SM VD ds with
  | Done _ | AssertFailed _ => True
  | _ => False
  end.
Proof.
  unfold NormalizeType, bind.
  pose proof (TypeExportable_contained SupportedBuiltin RSSpecificTypeMap
                decls definitions T Diags SM VD ds) as Hc.
  destruct (TypeExportable' T Diags SM VD ds)
    as [[[T'|] ds1]| | | |] eqn:ET; try done.
  assert (T' = T) as ->.
  { apply TypeExportable_Done in ET as (st' & ET & _).
    by eapply Helper_accepts_same. }
  assert (HT : ∀ E n, T = ExtVectorTy E n → (2 ≤ n ≤ 4)%N).
  { intros E n ->. by eapply TypeExportable_vector_range. }
  pose proof (GetTypeName_in_bounds T ds1 HT) as Hn.
  destruct (GetTypeName' T ds1) as [[nm ds2]| | | |]; try done.
  destruct (isEmptyName nm); [|done].
  unfold ret, modify. by destruct (Diags && SM).
Qed.

End NamesMore.

(** ** The factory and the objects it allocates *)

Section FactoryMore.

Variable SupportedBuiltin : BuiltinType.Kind → option (DataType * string).
Variable RSSpecificTypeMap : gmap string DataType.
Variable decls : nat → RecordDecl.
Variable definitions : gmap nat RecordDef.

Abbreviation TypeExportable' :=
  (TypeExportable SupportedBuiltin RSSpecificTypeMap decls definitions).
Abbreviation NormalizeType' :=
  (NormalizeType SupportedBuiltin RSSpecificTypeMap decls definitions).
Abbreviation GetTypeName' :=
  (GetTypeName SupportedBuiltin RSSpecificTypeMap decls definitions).
Abbreviation Create :=
  (RSExportType_Create SupportedBuiltin RSSpecificTypeMap decls definitions).

(** *** Creators without parts *)

Lemma onlyDiagnostics_refl ctx : onlyDiagnostics ctx ctx.
Proof. done. Qed.

Lemma onlyDiagnostics_trans c1 c2 c3 :
  onlyDiagnostics c1 c2 → onlyDiagnostics c2 c3 → onlyDiagnostics c1 c3.
Proof. intros (?&?&?) (?&?&?). repeat split; congruence. Qed.

Lemma withDiagnostics_only {A} (c : M (list Diagnostic) A) ctx a ctx' :
  withDiagnostics c ctx = Done (a, ctx') → onlyDiagnostics ctx ctx'.
Proof.
  unfold withDiagnostics. destruct (c (diagnostics ctx)) as [[a0 ds]| | | |];
    try discriminate. by intros [= <- <-].
Qed.

Lemma GetDataType_only T ctx :
  ∃ dt ctx', GetDataType SupportedBuiltin RSSpecificTypeMap decls T ctx
             = Done (dt, ctx')
             ∧ onlyDiagnostics ctx ctx'
             ∧ (dt ≠ DataTypeUnknown → ctx' = ctx).
Proof.
  destruct T as [k| | | | | | |]; simpl;
    try (do 2 eexists; split; [reflexivity|]; split; done).
  destruct (SupportedBuiltin k) as [[dt cname]|];
    do 2 eexists; (split; [reflexivity|]); split; done.
Qed.

Lemma new_RSExportType_objects Name m ctx :
  ∃ ctx', new_RSExportType Name m ctx = Done (nextAddress ctx, ctx')
          ∧ objects ctx'
            = <[nextAddress ctx := mkExportTypeObj false Name None m]>
                (objects ctx)
          ∧ nextAddress ctx' = S (nextAddress ctx)
          ∧ diagnostics ctx' = diagnostics ctx.
Proof.
  unfold new_RSExportType, bind, ret, insertExportType.
  destruct (String.prefix DUMMY_RS_TYPE_NAME_PREFIX Name); simpl.
  - eexists. repeat split; reflexivity.
  - destruct (export_types ctx !! Name); eexists; repeat split; reflexivity.
Qed.

Lemma new_RSExportType_Done Name m ctx this ctx' :
  new_RSExportType Name m ctx = Done (this, ctx') →
  this = nextAddress ctx
  ∧ objects ctx'
    = <[nextAddress ctx := mkExportTypeObj false Name None m]> (objects ctx)
  ∧ nextAddress ctx' = S (nextAddress ctx)
  ∧ diagnostics ctx' = diagnostics ctx
  ∧ export_types ctx'
    = if String.prefix DUMMY_RS_TYPE_NAME_PREFIX Name
      then export_types ctx
      else match export_types ctx !! Name with
           | Some _ => export_types ctx
           | None => <[Name := nextAddress ctx]> (export_types ctx)
           end.
Proof.
  destruct (new_RSExportType_objects Name m ctx) as (c & E & Ho & Hn & Hd).
  destruct (new_RSExportType_registry Name m ctx) as (c' & E' & Hr).
  rewrite E. intros [= <- <-]. rewrite E in E'. inversion E'; subst. done.
Qed.

Lemma Primitive_Create_cases T TypeName ctx r ctx' :
  RSExportPrimitiveType_Create SupportedBuiltin RSSpecificTypeMap decls
    T TypeName ctx = Done (r, ctx') →
  ∃ dt, createdOne TypeName (PrimitiveMembers dt DataKindUser false)
          ctx r ctx'
        ∧ (is_Some r → dt ≠ DataTypeUnknown ∧ TypeName ≠ "" ∧
             GetDataType SupportedBuiltin RSSpecificTypeMap decls T ctx
             = Done (dt, ctx)).
Proof.
  unfold RSExportPrimitiveType_Create. unfold bind at 1.
  destruct (GetDataType_only T ctx) as (dt & ctx1 & E & H1 & Hsame).
  rewrite E. intros HC. exists dt. revert HC.
  destruct (bool_decide (dt = DataTypeUnknown)) eqn:Hdt; cbn [orb].
  { intros [= <- <-]. split; [by left|]. by intros [? [=]]. }
  apply bool_decide_eq_false_1 in Hdt.
  destruct (isEmptyName TypeName) eqn:Hnm.
  { intros [= <- <-]. split; [by left|]. by intros [? [=]]. }
  apply bool_decide_eq_false_1 in Hnm.
  unfold bind, ret.
  destruct (new_RSExportType _ _ ctx1) as [[this c2]| | | |] eqn:E2;
    try discriminate.
  intros [= <- <-].
  pose proof (new_RSExportType_Done _ _ _ _ _ E2) as (-> & _).
  pose proof H1 as (_ & _ & Hn). rewrite Hn in *.
  split.
  - right. exists ctx1. by destruct H1 as (? & ? & _).
  - intros _. rewrite <- (Hsame Hdt). done.
Qed.

Lemma Vector_Create_cases E n TypeName ctx r ctx' :
  RSExportVectorType_Create SupportedBuiltin RSSpecificTypeMap decls
    E n TypeName ctx = Done (r, ctx') →
  ∃ dt, createdOne TypeName (VectorMembers dt DataKindUser false n) ctx r ctx'
        ∧ (is_Some r → dt ≠ DataTypeUnknown).
Proof.
  unfold RSExportVectorType_Create. unfold bind at 1.
  destruct (GetDataType_only E ctx) as (dt & ctx1 & HE & H1 & Hsame).
  rewrite HE. intros HC. exists dt. revert HC.
  destruct (bool_decide (dt = DataTypeUnknown)) eqn:Hdt; cbn [negb].
  { intros [= <- <-]. split; [by left|]. by intros [? [=]]. }
  apply bool_decide_eq_false_1 in Hdt.
  unfold bind, ret.
  destruct (new_RSExportType _ _ ctx1) as [[this c2]| | | |] eqn:E2;
    try discriminate.
  intros [= <- <-].
  pose proof (new_RSExportType_Done _ _ _ _ _ E2) as (-> & _).
  pose proof H1 as (_ & _ & Hn). rewrite Hn in *.
  split; [|done]. right. by exists ctx1.
Qed.

Lemma Matrix_Create_created RD TypeName Dim ctx r ctx' :
  RSExportMatrixType_Create decls definitions RD TypeName Dim ctx
  = Done (r, ctx') →
  createdOne TypeName (MatrixMembers Dim) ctx r ctx'.
Proof.
  unfold RSExportMatrixType_Create.
  assert (Hnew : ∀ r ctx',
            (this <-- new_RSExportType TypeName (MatrixMembers Dim) ;;
             ret (Some this)) ctx = Done (r, ctx') →
            createdOne TypeName (MatrixMembers Dim) ctx r ctx').
  { intros r0 c0. unfold bind, ret.
    destruct (new_RSExportType _ _ ctx) as [[this c2]| | | |] eqn:E2;
      try discriminate.
    intros [= <- <-].
    pose proof (new_RSExportType_Done _ _ _ _ _ E2) as (-> & _).
    right. by exists ctx. }
  assert (Hrep : ∀ d (r : option nat) ctx',
            (ReportCtx d ;;; ret None) ctx = Done (r, ctx') →
            createdOne TypeName (MatrixMembers Dim) ctx r ctx').
  { intros d r0 c0. intros [= <- <-]. by left. }
  destruct (negb _); [discriminate|].
  destruct (getDefinition definitions RD) as [Def|]; [|apply Hnew].
  destruct (fields Def) as [|FD more]; [apply Hrep|].
  destruct (writtenTypeClass (GetTypeOfDecl FD)); try apply Hrep.
  destruct (canonicalType (GetTypeOfDecl FD)); try apply Hrep.
  destruct (negb _); [apply Hrep|].
  destruct (negb _); [apply Hrep|].
  destruct more; [apply Hnew | apply Hrep].
Qed.

(** *** What was there before stays as it was *)

Lemma untouched_refl b ctx : untouched b ctx ctx.
Proof. by split. Qed.

Lemma untouched_trans b c1 c2 c3 :
  untouched b c1 c2 → untouched b c2 c3 → untouched b c1 c3.
Proof.
  intros [Hn1 H1] [Hn2 H2]. split; [lia|].
  intros a Ha. rewrite H2, H1 by done. done.
Qed.

Lemma untouched_only b ctx ctx' : onlyDiagnostics ctx ctx' → untouched b ctx ctx'.
Proof. intros (_ & Ho & Hn). split; [lia|]. intros a _. by rewrite Ho. Qed.

Lemma untouched_new b Name m ctx this ctx' :
  (b ≤ nextAddress ctx)%nat →
  new_RSExportType Name m ctx = Done (this, ctx') → untouched b ctx ctx'.
Proof.
  intros Hb E. apply new_RSExportType_Done in E as (_ & Ho & Hn & _).
  split; [lia|]. intros a Ha. rewrite Ho, lookup_insert_ne; [done|lia].
Qed.

Lemma untouched_createdOne b Name m ctx r ctx' :
  (b ≤ nextAddress ctx)%nat →
  createdOne Name m ctx r ctx' → untouched b ctx ctx'.
Proof.
  intros Hb [[_ H]|(c0 & _ & H0 & E)]; [by apply untouched_only|].
  apply (untouched_trans _ _ c0); [by apply untouched_only|].
  eapply untouched_new; [|exact E]. destruct H0 as (_ & _ & ->). done.
Qed.

Lemma untouched_delete b this ctx :
  (b ≤ this)%nat →
  untouched b ctx (mkRSContext (export_types ctx) (delete this (objects ctx))
                     (nextAddress ctx) (diagnostics ctx)).
Proof.
  intros Hb. split; [done|]. intros a Ha. simpl.
  rewrite lookup_delete_ne; [done|lia].
Qed.

Lemma createFields_untouched (Cr : Ty → M RSContext (option nat)) RD Def ERT
    FDs idx ctx ok ctx' b :
  (∀ T ctx r ctx', (b ≤ nextAddress ctx)%nat → Cr T ctx = Done (r, ctx') →
     untouched b ctx ctx') →
  (b ≤ ERT)%nat → (b ≤ nextAddress ctx)%nat →
  createFields decls Cr RD Def ERT FDs idx ctx = Done (ok, ctx') →
  untouched b ctx ctx'.
Proof.
  intros HCr HERT. revert idx ctx ok ctx'.
  induction FDs as [|FD FDs IH]; intros idx ctx ok ctx' Hb; simpl.
  - intros [= <- <-]. apply untouched_refl.
  - destruct (isBitField FD).
    { intros [= <- <-]. by apply untouched_delete. }
    unfold bind at 1. unfold RSExportElement_CreateFromDecl.
    destruct (Cr (GET_CANONICAL_TYPE (GetTypeOfDecl FD)) ctx)
      as [[[et|] ctx1]| | | |] eqn:E1; try discriminate.
    + pose proof (HCr _ _ _ _ Hb E1) as H1.
      destruct (layoutFieldOffsets Def !! idx); [|discriminate].
      unfold bind at 1. unfold push_back_field, modify.
      intros Hrest. apply (untouched_trans _ _ ctx1); [done|].
      eapply untouched_trans; [|eapply IH; [|exact Hrest]].
      * split; [done|]. intros a Ha. simpl.
        rewrite lookup_alter_ne; [done|lia].
      * simpl. destruct H1. lia.
    + intros [= <- <-]. pose proof (HCr _ _ _ _ Hb E1) as H1.
      apply (untouched_trans _ _ ctx1); [done|].
      eapply untouched_trans; [|by apply untouched_delete].
      by apply untouched_only.
Qed.

Lemma Create_untouched fuel T ctx r ctx' b :
  (b ≤ nextAddress ctx)%nat →
  Create fuel T ctx = Done (r, ctx') → untouched b ctx ctx'.
Proof.
  revert T ctx r ctx'.
  induction fuel as [fuel IHfuel] using lt_wf_ind.
  assert (Hrep : ∀ d ctx (r : option nat) ctx',
            (ReportCtx d ;;; ret None) ctx = Done (r, ctx') →
            untouched b ctx ctx').
  { intros d c r0 c0 [= <- <-]. by apply untouched_only. }
  intros T. induction T as [k|RD|P IHP|E IHE n|E IHE n|E IHE|nm'|R IHR];
    intros ctx r ctx' Hb; rewrite Create_unfold; unfold bind at 1;
    (destruct (withDiagnostics _ ctx)
       as [[[[T' TypeName]|] ctx0]| | | |] eqn:EN; try discriminate;
     [|intros [= <- <-]; apply untouched_only;
       by eapply withDiagnostics_only]);
    apply withDiagnostics_only in EN;
    assert (Hb0 : (b ≤ nextAddress ctx0)%nat)
      by (destruct EN as (_ & _ & ->); done);
    unfold RSExportType_CreateWithName; unfold bind at 1;
    unfold findExportType;
    (destruct (export_types ctx0 !! TypeName) as [ET|];
     [intros [= <- <-]; by apply untouched_only|]);
    intros HC; apply (untouched_trans _ _ ctx0);
    try (by apply untouched_only).
  - apply Primitive_Create_cases in HC as (dt & HC & _).
    by eapply untouched_createdOne.
  - destruct (GetRSSpecificTypeOfName RSSpecificTypeMap TypeName);
      try (apply Primitive_Create_cases in HC as (dt & HC & _);
           by eapply untouched_createdOne);
      try (apply Matrix_Create_created in HC; by eapply untouched_createdOne).
    destruct fuel as [|fuel']; [discriminate|].
    revert HC. unfold RSExportRecordType_Create.
    destruct (negb _); [discriminate|].
    destruct (getDefinition definitions RD) as [Def|]; [|discriminate].
    unfold bind at 1.
    destruct (new_RSExportType TypeName _ ctx0) as [[ERT ctx1]| | | |] eqn:E1;
      try discriminate.
    unfold bind at 1.
    destruct (createFields _ _ _ _ _ _ _ ctx1) as [[ok ctx2]| | | |] eqn:E2;
      try discriminate.
    intros Hr. assert (ctx' = ctx2) as -> by (destruct ok; by inversion Hr).
    pose proof (new_RSExportType_Done _ _ _ _ _ E1) as (-> & _ & Hn1 & _).
    apply (untouched_trans _ _ ctx1); [by eapply untouched_new|].
    eapply createFields_untouched; [| | |exact E2]; [|done|lia].
    intros T0 c0 r0 c0' Hb1. apply IHfuel; [lia | done].
  - revert HC. unfold RSExportPointerType_Create.
    set (pointee := if negb (bool_decide (getTypeClass P = TC_Pointer))
                    then Create fuel P
                    else RSExportPrimitiveType_CreateNormalized
                           SupportedBuiltin RSSpecificTypeMap decls
                           definitions (BuiltinTy BuiltinType.Int)).
    assert (Hpointee : ∀ pe ctx1,
              pointee ctx0 = Done (pe, ctx1) → untouched b ctx0 ctx1).
    { intros pe ctx1. unfold pointee. destruct (negb _); [by apply IHP|].
      unfold RSExportPrimitiveType_CreateNormalized. unfold bind at 1.
      destruct (withDiagnostics _ ctx0)
        as [[[[T1 nm1]|] c1]| | | |] eqn:EN1; try discriminate.
      - apply withDiagnostics_only in EN1.
        destruct (IsPrimitiveType T1).
        + intros HC1. apply (untouched_trans _ _ c1);
            [by apply untouched_only|].
          apply Primitive_Create_cases in HC1 as (dt & HC1 & _).
          eapply untouched_createdOne; [|exact HC1].
          destruct EN1 as (_ & _ & ->). done.
        + intros [= <- <-]. by apply untouched_only.
      - apply withDiagnostics_only in EN1.
        intros [= <- <-]. by apply untouched_only. }
    unfold bind at 1.
    destruct (pointee ctx0) as [[[p|] ctx1]| | | |]; try discriminate.
    + pose proof (Hpointee _ _ eq_refl) as EP. unfold bind, ret.
      destruct (new_RSExportType _ _ ctx1) as [[this ctx2]| | | |] eqn:E2;
        try discriminate.
      intros [= <- <-]. apply (untouched_trans _ _ ctx1); [done|].
      eapply untouched_new; [|exact E2]. destruct EP. lia.
    + intros [= <- <-]. by eapply Hpointee.
  - apply Vector_Create_cases in HC as (dt & HC & _).
    by eapply untouched_createdOne.
  - revert HC. unfold RSExportConstantArrayType_Create.
    destruct (negb _); [discriminate|]. destruct (negb _); [discriminate|].
    unfold bind at 1.
    destruct (Create fuel E ctx0) as [[[e|] ctx1]| | | |] eqn:EE;
      try discriminate.
    + unfold bind, ret.
      destruct (new_RSExportType _ _ ctx1) as [[this ctx2]| | | |] eqn:E2;
        try discriminate.
      pose proof (IHE _ _ _ Hb0 EE) as H1.
      intros [= <- <-]. apply (untouched_trans _ _ ctx1); [done|].
      eapply untouched_new; [|exact E2]. destruct H1. lia.
    + intros [= <- <-]. by eapply IHE.
  - by eapply Hrep.
  - by eapply Hrep.
  - by eapply Hrep.
Qed.

(** *** Every pointer leads to an object *)

Lemma wellFormed_only ctx ctx' :
  onlyDiagnostics ctx ctx' → wellFormed ctx → wellFormed ctx'.
Proof.
  intros (Hr & Ho & Hn) (H1 & H2 & H3). unfold wellFormed.
  rewrite Hr, Ho, Hn. done.
Qed.

Lemma wellFormed_new Name m ctx this ctx' :
  wellFormed ctx →
  (∀ c, c ∈ referenced (mkExportTypeObj false Name None m) →
     is_Some (objects ctx !! c)) →
  new_RSExportType Name m ctx = Done (this, ctx') →
  wellFormed ctx' ∧ is_Some (objects ctx' !! this).
Proof.
  intros (H1 & H2 & H3) Href E.
  apply new_RSExportType_Done in E as (-> & Ho & Hn & _ & Hr).
  assert (Hgrow : ∀ a, is_Some (objects ctx !! a) → is_Some (objects ctx' !! a)).
  { intros a Ha. rewrite Ho.
    destruct (decide (a = nextAddress ctx)) as [->|Hne].
    - rewrite lookup_insert_eq. by eexists.
    - by rewrite lookup_insert_ne. }
  split; [|rewrite Ho, lookup_insert_eq; by eexists].
  split; [|split].
  - intros a. rewrite Ho, Hn.
    destruct (decide (a = nextAddress ctx)) as [->|Hne]; [lia|].
    rewrite lookup_insert_ne by done. intros Ha. apply H1 in Ha. lia.
  - intros nm a. rewrite Hr.
    destruct (String.prefix DUMMY_RS_TYPE_NAME_PREFIX Name).
    { intros Ha. by eapply Hgrow, H2. }
    destruct (export_types ctx !! Name) eqn:EN.
    { intros Ha. by eapply Hgrow, H2. }
    destruct (decide (nm = Name)) as [->|Hne].
    + rewrite lookup_insert_eq. intros [= <-].
      rewrite Ho, lookup_insert_eq. by eexists.
    + rewrite lookup_insert_ne by done. intros Ha. by eapply Hgrow, H2.
  - intros a o c. rewrite Ho.
    destruct (decide (a = nextAddress ctx)) as [->|Hne].
    + rewrite lookup_insert_eq. intros [= <-] Hc.
      rewrite <- Ho. by apply Hgrow, Href.
    + rewrite lookup_insert_ne by done. intros Ha Hc.
      rewrite <- Ho. apply Hgrow. by eapply H3.
Qed.

Lemma wellFormed_createdOne Name m ctx this ctx' :
  referenced (mkExportTypeObj false Name None m) = [] →
  wellFormed ctx → createdOne Name m ctx (Some this) ctx' →
  wellFormed ctx' ∧ is_Some (objects ctx' !! this).
Proof.
  intros Href Hwf [[[=] _]|(c0 & [= ->] & H0 & E)].
  eapply wellFormed_new; [by eapply wellFormed_only| |exact E].
  intros c. rewrite Href. by intros ?%elem_of_nil.
Qed.

Lemma wellFormed_push_back ERT F ctx :
  wellFormed ctx → is_Some (objects ctx !! fType F) →
  wellFormed (mkRSContext (export_types ctx)
                (alter (λ o, match members o with
                             | RecordMembers p a sz fs =>
                                 mkExportTypeObj (mKeep o) (mName o) (mLLVMType o)
                                   (RecordMembers p a sz (fs ++ [F]))
                             | _ => o
                             end) ERT (objects ctx))
                (nextAddress ctx) (diagnostics ctx)).
Proof.
  intros (H1 & H2 & H3) HF.
  set (f := λ o, match members o with
                 | RecordMembers p a sz fs =>
                     mkExportTypeObj (mKeep o) (mName o) (mLLVMType o)
                       (RecordMembers p a sz (fs ++ [F]))
                 | _ => o
                 end).
  assert (Hdom : ∀ a, is_Some (alter f ERT (objects ctx) !! a)
                      ↔ is_Some (objects ctx !! a)).
  { intros a. destruct (decide (a = ERT)) as [->|Hne].
    - rewrite lookup_alter_eq. by rewrite fmap_is_Some.
    - by rewrite lookup_alter_ne. }
  split; [|split]; simpl.
  - intros a Ha. by apply H1, Hdom.
  - intros nm a Ha. by apply Hdom, (H2 nm).
  - intros a o c. destruct (decide (a = ERT)) as [->|Hne].
    + rewrite lookup_alter_eq.
      destruct (objects ctx !! ERT) as [o0|] eqn:E0; [|done].
      simpl. intros [= <-] Hc. apply Hdom.
      pose proof (H3 _ _ c E0) as H30.
      destruct o0 as [kp nm0 ll mem]. unfold f, referenced in Hc, H30.
      destruct mem; simpl in Hc, H30; try by apply H30.
      rewrite fmap_app in Hc. apply elem_of_app in Hc as [Hc|Hc].
      * by apply H30.
      * simpl in Hc. apply list_elem_of_singleton in Hc as ->. done.
    + rewrite lookup_alter_ne by done. intros Ha Hc.
      apply Hdom. by eapply H3.
Qed.

Lemma createFields_wellFormed (Cr : Ty → M RSContext (option nat)) RD Def ERT
    FDs idx ctx ctx' :
  (∀ T ctx this ctx', wellFormed ctx → Cr T ctx = Done (Some this, ctx') →
     wellFormed ctx' ∧ is_Some (objects ctx' !! this)) →
  (∀ T ctx r ctx', Cr T ctx = Done (r, ctx') →
     untouched (nextAddress ctx) ctx ctx') →
  wellFormed ctx → is_Some (objects ctx !! ERT) →
  createFields decls Cr RD Def ERT FDs idx ctx = Done (true, ctx') →
  wellFormed ctx' ∧ is_Some (objects ctx' !! ERT).
Proof.
  intros HCr Hun. revert idx ctx.
  induction FDs as [|FD FDs IH]; intros idx ctx Hwf HERT; simpl.
  - by intros [= <-].
  - destruct (isBitField FD); [discriminate|].
    unfold bind at 1. unfold RSExportElement_CreateFromDecl.
    destruct (Cr (GET_CANONICAL_TYPE (GetTypeOfDecl FD)) ctx)
      as [[[et|] ctx1]| | | |] eqn:E1; try discriminate.
    destruct (HCr _ _ _ _ Hwf E1) as [Hwf1 Het].
    destruct (Hun _ _ _ _ E1) as [_ Hsame].
    assert (HERT1 : is_Some (objects ctx1 !! ERT)).
    { rewrite Hsame; [done|]. destruct Hwf as (H1 & _). by apply H1. }
    destruct (layoutFieldOffsets Def !! idx) as [off|]; [|discriminate].
    unfold bind at 1. unfold push_back_field, modify.
    apply IH.
    + by apply wellFormed_push_back.
    + simpl. destruct (decide (ERT = ERT)); [|done].
      rewrite lookup_alter_eq. by rewrite fmap_is_Some.
Qed.

Lemma Create_wellFormed fuel T ctx this ctx' :
  wellFormed ctx → Create fuel T ctx = Done (Some this, ctx') →
  wellFormed ctx' ∧ is_Some (objects ctx' !! this).
Proof.
  revert T ctx this ctx'.
  induction fuel as [fuel IHfuel] using lt_wf_ind.
  intros T. induction T as [k|RD|P IHP|E IHE n|E IHE n|E IHE|nm'|R IHR];
    intros ctx this ctx' Hwf; rewrite Create_unfold; unfold bind at 1;
    (destruct (withDiagnostics _ ctx)
       as [[[[T' TypeName]|] ctx0]| | | |] eqn:EN; try discriminate);
    apply withDiagnostics_only in EN;
    pose proof (wellFormed_only _ _ EN Hwf) as Hwf0;
    unfold RSExportType_CreateWithName; unfold bind at 1;
    unfold findExportType;
    (destruct (export_types ctx0 !! TypeName) as [ET|] eqn:EReg;
     [intros [= <- <-]; split; [done|];
      destruct Hwf0 as (_ & H2 & _); by eapply H2|]);
    intros HC.
  - apply Primitive_Create_cases in HC as (dt & HC & _).
    (eapply wellFormed_createdOne; [|exact Hwf0|exact HC]; reflexivity).
  - destruct (GetRSSpecificTypeOfName RSSpecificTypeMap TypeName);
      try (apply Primitive_Create_cases in HC as (dt & HC & _);
           (eapply wellFormed_createdOne; [|exact Hwf0|exact HC]; reflexivity));
      try (apply Matrix_Create_created in HC; (eapply wellFormed_createdOne; [|exact Hwf0|exact HC]; reflexivity)).
    destruct fuel as [|fuel']; [discriminate|].
    revert HC. unfold RSExportRecordType_Create.
    destruct (negb _); [discriminate|].
    destruct (getDefinition definitions RD) as [Def|]; [|discriminate].
    unfold bind at 1.
    destruct (new_RSExportType TypeName _ ctx0) as [[ERT ctx1]| | | |] eqn:E1;
      try discriminate.
    unfold bind at 1.
    destruct (createFields _ _ _ _ _ _ _ ctx1) as [[[] ctx2]| | | |] eqn:E2;
      try discriminate.
    intros [= <- <-].
    eapply wellFormed_new in E1 as [Hwf1 HERT]; [|done|].
    2:{ intros c. by intros ?%elem_of_nil. }
    eapply createFields_wellFormed; [| | | |exact E2]; try done.
    + intros T0 c0 t0 c0'. apply IHfuel. lia.
    + intros T0 c0 r0 c0'. by apply Create_untouched.
  - revert HC. unfold RSExportPointerType_Create.
    set (pointee := if negb (bool_decide (getTypeClass P = TC_Pointer))
                    then Create fuel P
                    else RSExportPrimitiveType_CreateNormalized
                           SupportedBuiltin RSSpecificTypeMap decls
                           definitions (BuiltinTy BuiltinType.Int)).
    assert (Hpointee : ∀ pe ctx1,
              pointee ctx0 = Done (Some pe, ctx1) →
              wellFormed ctx1 ∧ is_Some (objects ctx1 !! pe)).
    { intros pe ctx1. unfold pointee. destruct (negb _); [by apply IHP|].
      unfold RSExportPrimitiveType_CreateNormalized. unfold bind at 1.
      destruct (withDiagnostics _ ctx0)
        as [[[[T1 nm1]|] c1]| | | |] eqn:EN1; try discriminate.
      apply withDiagnostics_only in EN1.
      destruct (IsPrimitiveType T1); [|discriminate].
      intros HC1.
      apply Primitive_Create_cases in HC1 as (dt & HC1 & _).
      eapply wellFormed_createdOne; [| |exact HC1]; [reflexivity|].
      by eapply wellFormed_only. }
    unfold bind at 1.
    destruct (pointee ctx0) as [[[p|] ctx1]| | | |]; try discriminate.
    destruct (Hpointee _ _ eq_refl) as [Hwf1 Hp]. unfold bind, ret.
    destruct (new_RSExportType _ _ ctx1) as [[this' ctx2]| | | |] eqn:E2;
      try discriminate.
    intros [= <- <-]. eapply wellFormed_new; [done| |exact E2].
    intros c Hc. unfold referenced in Hc. simpl in Hc.
    by apply list_elem_of_singleton in Hc as ->.
  - apply Vector_Create_cases in HC as (dt & HC & _).
    (eapply wellFormed_createdOne; [|exact Hwf0|exact HC]; reflexivity).
  - revert HC. unfold RSExportConstantArrayType_Create.
    destruct (negb _); [discriminate|]. destruct (negb _); [discriminate|].
    unfold bind at 1.
    destruct (Create fuel E ctx0) as [[[e|] ctx1]| | | |] eqn:EE;
      try discriminate.
    unfold bind, ret.
    destruct (new_RSExportType _ _ ctx1) as [[this' ctx2]| | | |] eqn:E2;
      try discriminate.
    destruct (IHE _ _ _ Hwf0 EE) as [Hwf1 He].
    intros [= <- <-]. eapply wellFormed_new; [done| |exact E2].
    intros c Hc. unfold referenced in Hc. simpl in Hc.
    by apply list_elem_of_singleton in Hc as ->.
  - discriminate.
  - discriminate.
  - discriminate.
Qed.

(** *** The fields of a record *)

Lemma createFields_fields (Cr : Ty → M RSContext (option nat)) RD Def ERT
    FDs idx ctx ctx' kp nm ll p a sz fs0 :
  (∀ T ctx r ctx', Cr T ctx = Done (r, ctx') →
     untouched (nextAddress ctx) ctx ctx') →
  (ERT < nextAddress ctx)%nat →
  objects ctx !! ERT
  = Some (mkExportTypeObj kp nm ll (RecordMembers p a sz fs0)) →
  createFields decls Cr RD Def ERT FDs idx ctx = Done (true, ctx') →
  ∃ fs, objects ctx' !! ERT
        = Some (mkExportTypeObj kp nm ll (RecordMembers p a sz (fs0 ++ fs)))
        ∧ fName <$> fs = fieldName <$> FDs
        ∧ (∀ FD, FD ∈ FDs → isBitField FD = false)
        ∧ ∀ i f, fs !! i = Some f →
            ∃ off, layoutFieldOffsets Def !! (idx + i)%nat = Some off
                   ∧ fOffsetInParent f = N.shiftr off 3.
Proof.
  intros HCr. revert idx ctx fs0.
  induction FDs as [|FD FDs IH]; intros idx ctx fs0 HERT Hobj; simpl.
  - intros [= <-]. exists []. rewrite app_nil_r.
    split; [done|]. split; [done|]. split; [by intros ? ?%elem_of_nil|].
    by intros i f.
  - destruct (isBitField FD) eqn:Hbit; [discriminate|].
    unfold bind at 1. unfold RSExportElement_CreateFromDecl.
    destruct (Cr (GET_CANONICAL_TYPE (GetTypeOfDecl FD)) ctx)
      as [[[et|] ctx1]| | | |] eqn:E1; try discriminate.
    destruct (HCr _ _ _ _ E1) as [Hn1 Hsame].
    destruct (layoutFieldOffsets Def !! idx) as [off|] eqn:Hoff;
      [|discriminate].
    unfold bind at 1. unfold push_back_field, modify.
    intros Hrest.
    apply (IH (S idx) _ (fs0 ++ [mkField et (fieldName FD) (N.shiftr off 3)])%list)
      in Hrest.
    + destruct Hrest as (fs & Hfs & Hnames & Hbits & Hoffs).
      exists (mkField et (fieldName FD) (N.shiftr off 3) :: fs).
      split; [rewrite Hfs, <- app_assoc; reflexivity|].
      split; [rewrite !fmap_cons, Hnames; reflexivity|].
      split.
      * intros FD' [->|HFD']%elem_of_cons; [done | by apply Hbits].
      * intros [|i] f; simpl.
        -- intros [= <-]. exists off. by rewrite Nat.add_0_r.
        -- intros Hf. destruct (Hoffs i f Hf) as (off' & Ho & Hf').
           exists off'. split; [|done].
           by replace (idx + S i)%nat with (S idx + i)%nat by lia.
    + simpl. lia.
    + simpl. rewrite lookup_alter_eq, (Hsame _ HERT), Hobj. done.
Qed.

(** X14. A record that [RSExportRecordType::Create] completes has one
    field for every field of the definition, in the order of the
    declaration and under the declared names, each at the byte offset (bit
    offset divided by eight) that the layout of clang gives for its index;
    its allocation size is the size of the layout in bytes, it is packed
    when the definition has the attribute, and no field of the definition
    is a bit field. *)
Theorem record_fields_follow_the_definition fuel RD TypeName ctx ERT ctx' :
  RSExportRecordType_Create decls definitions (Create fuel) RD TypeName ctx
  = Done (Some ERT, ctx') →
  ∃ Def fs,
    definitions !! RD = Some Def
    ∧ objects ctx' !! ERT
      = Some (mkExportTypeObj false TypeName None
                (RecordMembers (hasPackedAttr Def) false
                   (N.shiftr (layoutSize Def) 3) fs))
    ∧ fName <$> fs = fieldName <$> fields Def
    ∧ (∀ FD, FD ∈ fields Def → isBitField FD = false)
    ∧ ∀ i f, fs !! i = Some f →
        ∃ off, layoutFieldOffsets Def !! i = Some off
               ∧ fOffsetInParent f = N.shiftr off 3.
Proof.
  unfold RSExportRecordType_Create.
  destruct (negb _); [discriminate|].
  unfold getDefinition.
  destruct (definitions !! RD) as [Def|] eqn:HDef; [|discriminate].
  unfold bind at 1.
  destruct (new_RSExportType TypeName _ ctx) as [[E ctx1]| | | |] eqn:E1;
    try discriminate.
  unfold bind at 1.
  destruct (createFields _ _ _ _ _ _ _ ctx1) as [[[] ctx2]| | | |] eqn:E2;
    try discriminate.
  intros [= <- <-].
  apply new_RSExportType_Done in E1 as (-> & Ho & Hn & _).
  eapply (createFields_fields _ _ _ _ _ _ _ _ _ _ _ _ _ _ []) in E2.
  - destruct E2 as (fs & Hfs & Hnames & Hbits & Hoffs).
    exists Def, fs. split; [done|]. split; [exact Hfs|]. done.
  - intros T0 c0 r0 c0'. by apply Create_untouched.
  - lia.
  - rewrite Ho, lookup_insert_eq. done.
Qed.

(** *** Pointers to pointers *)

Lemma NormalizeType_int dt cname ctx :
  SupportedBuiltin BuiltinType.Int = Some (dt, cname) → cname ≠ "" →
  withDiagnostics (NormalizeType' (BuiltinTy BuiltinType.Int) false false None)
    ctx
  = Done (Some (BuiltinTy BuiltinType.Int, cname), ctx).
Proof.
  intros Hk Hne.
  assert (He : exportable SupportedBuiltin RSSpecificTypeMap decls definitions
                 false (BuiltinTy BuiltinType.Int)).
  { apply exportable_builtin. by rewrite Hk. }
  unfold withDiagnostics, NormalizeType, bind.
  rewrite (TypeExportable_complete _ _ _ _ _ _ _ _ _ He).
  simpl. rewrite Hk. simpl. unfold isEmptyName.
  rewrite bool_decide_eq_false_2 by done. simpl. by destruct ctx.
Qed.

(** X15. The export type of a pointer to a pointer is a pointer to an
    [int] of its own: whatever the inner pointer points to and whatever
    has been created before (an [int] too),
    [RSExportPointerType::Create] allocates a new primitive of the data
    type and name of [int] for the pointee, and the pointer right after
    it. *)
Theorem pointer_to_pointer_gets_an_int_of_its_own
    (Cr : Ty → M RSContext (option nat)) X TypeName ctx dt cname :
  SupportedBuiltin BuiltinType.Int = Some (dt, cname) →
  cname ≠ "" → dt ≠ DataTypeUnknown →
  ∃ ctx',
    RSExportPointerType_Create SupportedBuiltin RSSpecificTypeMap decls
      definitions Cr (PointerTy X) TypeName ctx
    = Done (Some (S (nextAddress ctx)), ctx')
    ∧ objects ctx'
      = <[S (nextAddress ctx) :=
            mkExportTypeObj false TypeName None
              (PointerMembers (nextAddress ctx))]>
          (<[nextAddress ctx :=
               mkExportTypeObj false cname None
                 (PrimitiveMembers dt DataKindUser false)]> (objects ctx))
    ∧ nextAddress ctx' = S (S (nextAddress ctx)).
Proof.
  intros Hk Hne Hdt.
  unfold RSExportPointerType_Create. cbn [getTypeClass].
  rewrite bool_decide_eq_true_2 by done. cbn [negb].
  unfold bind at 1. unfold RSExportPrimitiveType_CreateNormalized.
  unfold bind at 1. rewrite (NormalizeType_int dt cname ctx Hk Hne).
  unfold IsPrimitiveType. cbn [getTypeClass].
  rewrite bool_decide_eq_true_2 by done.
  unfold RSExportPrimitiveType_Create. unfold bind at 1.
  cbn [GetDataType]. rewrite Hk. unfold ret at 1.
  rewrite bool_decide_eq_false_2 by done. cbn [orb].
  unfold isEmptyName. rewrite bool_decide_eq_false_2 by done.
  unfold bind at 1.
  destruct (new_RSExportType_objects cname
              (PrimitiveMembers dt DataKindUser false) ctx)
    as (ctx1 & E1 & Ho1 & Hn1 & _).
  rewrite E1. unfold ret at 1. unfold bind at 1.
  destruct (new_RSExportType_objects TypeName
              (PointerMembers (nextAddress ctx)) ctx1)
    as (ctx2 & E2 & Ho2 & Hn2 & _).
  rewrite E2. unfold ret. exists ctx2. rewrite Hn1 in *.
  split; [done|]. split; [by rewrite Ho2, Ho1|]. by rewrite Hn2.
Qed.

(** *** Arrays without elements *)

(** X16. An array of no elements passes the check like any other array,
    and is then stopped by the assertion of
    [RSExportConstantArrayType::Create]. *)
Theorem array_without_elements_fails_the_assertion fuel E ctx :
  exportable SupportedBuiltin RSSpecificTypeMap decls definitions false
    (ConstantArrayTy E 0) →
  export_types ctx !! DUMMY_TYPE_NAME_FOR_RS_CONSTANT_ARRAY_TYPE = None →
  TypeExportable' (ConstantArrayTy E 0) false false None (diagnostics ctx)
  = Done (Some (ConstantArrayTy E 0), diagnostics ctx)
  ∧ Create fuel (ConstantArrayTy E 0) ctx
    = AssertFailed "Constant array should have size greater than 0".
Proof.
  intros He Hreg.
  pose proof (TypeExportable_complete _ _ _ _ _ false false None
                (diagnostics ctx) He) as HT.
  split; [exact HT|].
  rewrite Create_unfold. unfold bind at 1.
  unfold withDiagnostics, NormalizeType. unfold bind at 1. rewrite HT.
  cbn [GetTypeName]. unfold bind at 1. unfold ret at 1.
  change (isEmptyName DUMMY_TYPE_NAME_FOR_RS_CONSTANT_ARRAY_TYPE) with false.
  cbn iota. unfold ret at 1.
  unfold RSExportType_CreateWithName. unfold bind at 1. unfold findExportType.
  cbn [export_types]. rewrite Hreg. reflexivity.
Qed.

(** *** Creators without parts, once more *)

(** X17. A primitive, a vector and a matrix are created in one step: the
    call either fails, and then has touched nothing but the diagnostics,
    or it returns the next address, at which it has allocated the one
    object, of the name asked for and not kept, leaving every other
    object as it was. *)
Theorem creators_without_parts_fail_without_a_trace T E n RD Dim TypeName :
  inOneStep TypeName
    (RSExportPrimitiveType_Create SupportedBuiltin RSSpecificTypeMap decls
       T TypeName)
  ∧ inOneStep TypeName
      (RSExportVectorType_Create SupportedBuiltin RSSpecificTypeMap decls
         E n TypeName)
  ∧ inOneStep TypeName
      (RSExportMatrixType_Create decls definitions RD TypeName Dim).
Proof.
  assert (Hone : ∀ ctx r ctx',
            (∃ m, createdOne TypeName m ctx r ctx') →
            match r with
            | None => onlyDiagnostics ctx ctx'
            | Some this =>
                this = nextAddress ctx ∧ nextAddress ctx' = S this
                ∧ ∃ m, objects ctx'
                       = <[this := mkExportTypeObj false TypeName None m]>
                           (objects ctx)
            end).
  { intros ctx r ctx' (m & [[-> Ho]|(c0 & -> & H0 & E0)]); [done|].
    apply new_RSExportType_Done in E0 as (_ & Ho & Hn & _).
    destruct H0 as (_ & Ho0 & Hn0). rewrite Ho0, Hn0 in *.
    split; [done|]. split; [done|]. by exists m. }
  split; [|split]; intros ctx r ctx' HC; apply Hone.
  - apply Primitive_Create_cases in HC as (dt & HC & _). eauto.
  - apply Vector_Create_cases in HC as (dt & HC & _). eauto.
  - apply Matrix_Create_created in HC. eauto.
Qed.

(** *** The factory and the objects *)

(** X18. [RSExportType::Create] leaves alone what it finds: whether it
    succeeds or not, no address is given out twice, and every export type
    allocated before the call is afterwards what it was before (not
    deleted, not renamed, no member changed). *)
Theorem Create_leaves_existing_objects_alone fuel T ctx r ctx' :
  RSExportType_Create SupportedBuiltin RSSpecificTypeMap decls definitions
    fuel T ctx
  = Done (r, ctx') →
  (nextAddress ctx ≤ nextAddress ctx')%nat
  ∧ ∀ a, (a < nextAddress ctx)%nat → objects ctx' !! a = objects ctx !! a.
Proof. intros H. by eapply Create_untouched. Qed.

(** X19. A successful [RSExportType::Create] keeps every pointer valid:
    if before the call every entry of the registry and every reference
    held by an export type leads to an allocated object, then so it is
    after the call, and the export type returned is allocated. *)
Theorem Create_keeps_every_pointer_valid fuel T ctx this ctx' :
  wellFormed ctx → Create fuel T ctx = Done (Some this, ctx') →
  wellFormed ctx' ∧ is_Some (objects ctx' !! this).
Proof. apply Create_wellFormed. Qed.

(** X20. What the factory has created can be kept: on the export type
    returned by a successful [RSExportType::Create] in a context where
    every pointer is valid, [keep] returns, and the type is kept
    afterwards. *)
Theorem created_type_can_be_kept fuel T ctx this ctx' :
  wellFormed ctx → Create fuel T ctx = Done (Some this, ctx') →
  ∃ b h', keep (S (size (objects ctx'))) this (objects ctx') = Done (b, h')
          ∧ kept h' this.
Proof.
  intros Hwf HC.
  destruct (Create_wellFormed _ _ _ _ _ Hwf HC) as [(_ & _ & Hclosed) Hthis].
  destruct (keep_returns (S (size (objects ctx'))) this (objects ctx') Hclosed
              Hthis) as (b & h' & Hk).
  - apply Nat.lt_succ_r. unfold unkept. rewrite size_dom.
    apply map_size_filter.
  - exists b, h'. split; [done|]. by apply keep_marks in Hk as (_ & ? & _).
Qed.

(** X21. [RSExportType::Create] comes to an end on every type and in every
    context: a record is registered before its fields are looked at, so
    the construction enters no record twice. *)
Theorem Create_comes_to_an_end T ctx :
  (∀ RD, String.prefix DUMMY_RS_TYPE_NAME_PREFIX
           (GetRecordTypeName (decls RD)) = false) →
  Create (size definitions) T ctx ≠ OutOfFuel.
Proof. apply Create_returns. Qed.

End FactoryMore.

(** ** keep and equals on graphs of export types *)

Section KeepEqualsMore.

Implicit Types (h : gmap nat ExportTypeObj) (fs : list Field).

(** *** equals is transitive *)

Lemma equalsFields_trans (eq1 eq2 : nat → nat → Outcome bool) fs1 fs2 fs3 :
  (∀ a b c, eq1 a b = Done true → eq2 b c = Done true → eq1 a c = Done true) →
  length fs1 = length fs2 → length fs2 = length fs3 →
  equalsFields eq1 fs1 fs2 = Done true →
  equalsFields eq2 fs2 fs3 = Done true →
  equalsFields eq1 fs1 fs3 = Done true.
Proof.
  intros Htr. revert fs2 fs3.
  induction fs1 as [|f1 fs1 IH]; intros [|f2 fs2] [|f3 fs3] H12 H23;
    simpl in *; try discriminate; try done.
  destruct (eq1 (fType f1) (fType f2)) as [[]| | | |] eqn:E1; try discriminate.
  destruct (eq2 (fType f2) (fType f3)) as [[]| | | |] eqn:E2; try discriminate.
  rewrite (Htr _ _ _ E1 E2). apply IH; congruence.
Qed.

Lemma equals_trans n m h a b c :
  equals n h a b = Done true → equals m h b c = Done true →
  equals n h a c = Done true.
Proof.
  revert m a b c. induction n as [|n IH]; intros m a b c; [discriminate|].
  destruct m as [|m]; [discriminate|]. simpl.
  destruct (h !! a) as [o|], (h !! b) as [e|]; try discriminate.
  destruct (h !! c) as [g|]; [|discriminate].
  destruct (decide (getClass e = getClass o)) as [Hc1|Hc1].
  2:{ by rewrite (bool_decide_eq_false_2 _ Hc1). }
  destruct (decide (getClass g = getClass e)) as [Hc2|Hc2].
  2:{ rewrite (bool_decide_eq_false_2 _ Hc2). cbn [negb].
      by destruct (bool_decide _). }
  rewrite (bool_decide_eq_true_2 _ Hc1), (bool_decide_eq_true_2 _ Hc2).
  rewrite (bool_decide_eq_true_2 (getClass g = getClass o)) by congruence.
  cbn [negb]. unfold getClass in Hc1, Hc2.
  destruct (members o) as [t ? ?|p|t ? ? k|d|el sz|? ? ? fs],
           (members e) as [t' ? ?|p'|t' ? ? k'|d'|el' sz'|? ? ? fs'];
    try discriminate;
    destruct (members g) as [t'' ? ?|p''|t'' ? ? k''|d''|el'' sz''|? ? ? fs''];
    try discriminate.
  - intros [= H1] [= H2]. apply bool_decide_eq_true_1 in H1, H2.
    f_equal. apply bool_decide_eq_true_2. congruence.
  - intros H1 H2. apply equals_sym. apply equals_sym in H1, H2.
    by eapply IH.
  - destruct (decide (t' = t)) as [->|Ht];
      [|by rewrite (bool_decide_eq_false_2 _ Ht)].
    destruct (decide (t'' = t)) as [->|Ht'];
      [|by rewrite (bool_decide_eq_false_2 _ Ht')].
    rewrite !bool_decide_eq_true_2 by done. cbn [negb].
    intros [= H1] [= H2]. apply bool_decide_eq_true_1 in H1, H2.
    f_equal. apply bool_decide_eq_true_2. congruence.
  - intros [= H1] [= H2]. apply bool_decide_eq_true_1 in H1, H2.
    f_equal. apply bool_decide_eq_true_2. congruence.
  - destruct (decide (sz = sz')) as [->|Hs];
      [|by rewrite (bool_decide_eq_false_2 _ Hs)].
    destruct (decide (sz' = sz'')) as [->|Hs'];
      [|by rewrite (bool_decide_eq_false_2 _ Hs')].
    rewrite !bool_decide_eq_true_2 by done. apply IH.
  - destruct (decide (length fs' = length fs)) as [Hl|Hl];
      [|by rewrite (bool_decide_eq_false_2 _ Hl)].
    destruct (decide (length fs'' = length fs')) as [Hl'|Hl'];
      [|by rewrite (bool_decide_eq_false_2 _ Hl')].
    rewrite (bool_decide_eq_true_2 _ Hl), (bool_decide_eq_true_2 _ Hl').
    rewrite (bool_decide_eq_true_2 (length fs'' = length fs)) by congruence.
    cbn [negb]. apply equalsFields_trans; [|congruence|congruence].
    intros x y z. apply IH.
Qed.

(** X22. [equals] is transitive: if an export type equals a second and the
    second a third, the first equals the third. *)
Theorem equals_transitive n m h a b c :
  equals n h a b = Done true → equals m h b c = Done true →
  equals n h a c = Done true.
Proof. apply equals_trans. Qed.

(** *** What keep changes *)

Lemma onlyMarks_refl h : onlyMarks h h.
Proof. intros x. destruct (h !! x); [by left | done]. Qed.

Lemma onlyMarks_trans h1 h2 h3 :
  onlyMarks h1 h2 → onlyMarks h2 h3 → onlyMarks h1 h3.
Proof.
  intros H12 H23 x. specialize (H12 x). specialize (H23 x).
  destruct (h1 !! x) as [o1|], (h2 !! x) as [o2|], (h3 !! x) as [o3|];
    try done.
  destruct H12 as [->|[Hk ->]]; [done|].
  destruct H23 as [->|[Hk' _]]; [by right | done].
Qed.

Lemma RSExportType_keep_onlyMarks this h b h' :
  RSExportType_keep this h = Done (b, h') → onlyMarks h h'.
Proof.
  rewrite RSExportType_keep_eq. destruct (h !! this) as [o|] eqn:Ho; [|done].
  destruct (mKeep o) eqn:Hk; intros [= <- <-]; [apply onlyMarks_refl|].
  intros x. destruct (decide (x = this)) as [->|Hx].
  - rewrite Ho, lookup_insert_eq. by right.
  - rewrite lookup_insert_ne by done. destruct (h !! x); [by left | done].
Qed.

Lemma keepFields_preserves (R : relation (gmap nat ExportTypeObj))
    (k : nat → M (gmap nat ExportTypeObj) bool) fs h h' :
  (∀ h, R h h) → (∀ h1 h2 h3, R h1 h2 → R h2 h3 → R h1 h3) →
  (∀ a h b h', k a h = Done (b, h') → R h h') →
  keepFields k fs h = Done (tt, h') → R h h'.
Proof.
  intros Hrefl Htrans Hk. revert h. induction fs as [|f fs IH]; intros h; simpl.
  - by intros [= <-].
  - unfold bind. destruct (k (fType f) h) as [[b h1]| | | |] eqn:E;
      try discriminate.
    intros Hrest. eapply Htrans; [by eapply Hk | by apply IH].
Qed.

Lemma keep_preserves (R : relation (gmap nat ExportTypeObj)) fuel this h b h' :
  (∀ h, R h h) → (∀ h1 h2 h3, R h1 h2 → R h2 h3 → R h1 h3) →
  (∀ this h b h', RSExportType_keep this h = Done (b, h') → R h h') →
  keep fuel this h = Done (b, h') → R h h'.
Proof.
  intros Hrefl Htrans Hstep. revert this h b h'.
  induction fuel as [|fuel IH]; intros this h b h'; [discriminate|].
  simpl. unfold bind at 1.
  destruct (RSExportType_keep this h) as [[b1 h1]| | | |] eqn:E1;
    try discriminate.
  pose proof (Hstep _ _ _ _ E1) as H1.
  destruct b1; cbn [negb]; [|by intros [= <- <-]].
  unfold bind, get.
  destruct (members <$> h1 !! this) as [[t ? ?|p|t ? ? n|d|el sz|? ? ? fs]|].
  - by intros [= <- <-].
  - destruct (keep fuel p h1) as [[b2 h2]| | | |] eqn:E2; try discriminate.
    intros [= <- <-]. eapply Htrans; [done | by eapply IH].
  - by intros [= <- <-].
  - by intros [= <- <-].
  - destruct (keep fuel el h1) as [[b2 h2]| | | |] eqn:E2; try discriminate.
    intros [= <- <-]. eapply Htrans; [done | by eapply IH].
  - destruct (keepFields (keep fuel) fs h1) as [[[] h2]| | | |] eqn:E2;
      try discriminate.
    intros [= <- <-]. eapply Htrans; [done|].
    eapply keepFields_preserves; [done|done| |exact E2]. apply IH.
  - by intros [= <- <-].
Qed.

(** X23. [keep] changes nothing but marks and caches: when a call
    returns, the same export types are allocated as before, and each is
    either exactly as it was or was not kept before and is now kept with
    its cached LLVM type dropped; names and members never change, and an
    export type that was kept already keeps its cached LLVM type. *)
Theorem keep_changes_only_marks_and_caches fuel this h b h' :
  keep fuel this h = Done (b, h') →
  ∀ x, match h !! x, h' !! x with
       | Some o, Some o' => o' = o ∨ (mKeep o = false ∧ o' = marked o)
       | None, None => True
       | _, _ => False
       end.
Proof.
  intros Hk. change (onlyMarks h h').
  eapply keep_preserves; [apply onlyMarks_refl|apply onlyMarks_trans| |exact Hk].
  apply RSExportType_keep_onlyMarks.
Qed.

(** *** The kept types are closed under reference *)

Lemma onlyMarks_marks h h' : onlyMarks h h' → marks h h'.
Proof.
  intros H x. specialize (H x).
  destruct (h !! x) as [o|], (h' !! x) as [o'|]; try done.
  destruct H as [->|[Hk ->]]; [done|]. simpl. by rewrite Hk.
Qed.

Lemma keep_onlyMarks fuel this h b h' :
  keep fuel this h = Done (b, h') → onlyMarks h h'.
Proof.
  intros Hk.
  eapply keep_preserves; [apply onlyMarks_refl|apply onlyMarks_trans| |exact Hk].
  apply RSExportType_keep_onlyMarks.
Qed.

Lemma keptClosedExcept_marks P h h' :
  onlyMarks h h' →
  (∀ a o, h !! a = Some o → mKeep o = false → kept h' a → P a
          ∨ ∀ c, c ∈ referenced o → kept h' c) →
  keptClosedExcept P h → keptClosedExcept P h'.
Proof.
  intros Hm Hnew Hcl a o' c Ho' Hk' HP Hc.
  pose proof (Hm a) as Ha. rewrite Ho' in Ha.
  destruct (h !! a) as [o|] eqn:Ho; [|done].
  destruct Ha as [->|[Hk ->]].
  - eapply marks_kept; [by apply onlyMarks_marks|]. by eapply Hcl.
  - destruct (Hnew a o Ho Hk) as [HPa|Hall]; [by exists (marked o) | done|].
    by apply Hall.
Qed.

Lemma keepFields_keptClosed (k : nat → M (gmap nat ExportTypeObj) bool) P fs
    h h' :
  (∀ a h b h', k a h = Done (b, h') →
     onlyMarks h h' ∧ kept h' a
     ∧ (keptClosedExcept P h → keptClosedExcept P h')) →
  keepFields k fs h = Done (tt, h') →
  keptClosedExcept P h → keptClosedExcept P h'.
Proof.
  intros Hk. revert h. induction fs as [|f fs IH]; intros h; simpl.
  - by intros [= <-].
  - unfold bind. destruct (k (fType f) h) as [[b h1]| | | |] eqn:E;
      try discriminate.
    intros Hrest Hcl. destruct (Hk _ _ _ _ E) as (_ & _ & H1).
    apply (IH _ Hrest). by apply H1.
Qed.

Lemma keep_keptClosedExcept fuel this h b h' P :
  keep fuel this h = Done (b, h') →
  keptClosedExcept P h → keptClosedExcept P h'.
Proof.
  revert this h b h' P. induction fuel as [|fuel IH]; intros this h b h' P;
    [discriminate|].
  intros Hkeep Hcl.
  pose proof (keep_marks _ _ _ _ _ Hkeep) as (Hm & Hkept & Hchildren).
  revert Hkeep. simpl. unfold bind at 1.
  destruct (RSExportType_keep this h) as [[b1 h1]| | | |] eqn:E1;
    try discriminate.
  pose proof (RSExportType_keep_onlyMarks _ _ _ _ E1) as Hom1.
  revert E1. rewrite RSExportType_keep_eq.
  destruct (h !! this) as [o|] eqn:Ho; [|discriminate].
  destruct (mKeep o) eqn:Hko.
  { intros [= <- <-]. cbn [negb]. by intros [= <- <-]. }
  intros [= <- <-]. cbn [negb]. unfold bind at 1. unfold get.
  rewrite lookup_insert_eq. cbn [fmap option_fmap option_map members].
  set (h1 := <[this := mkExportTypeObj true (mName o) None (members o)]> h)
    in *.
  (* below the mark, [this] is pending *)
  assert (Hcl1 : keptClosedExcept (λ a, P a ∨ a = this) h1).
  { eapply keptClosedExcept_marks; [exact Hom1| |].
    - intros a o0 Ho0 Hk0 Hkept0. left. right.
      destruct (decide (a = this)) as [->|Hne]; [done|].
      destruct Hkept0 as (o1 & Ho1 & Hk1). unfold h1 in Ho1.
      rewrite lookup_insert_ne in Ho1 by done. congruence.
    - intros a o0 c Ho0 Hk0 HP Hc. eapply Hcl; [exact Ho0|done|tauto|done]. }
  assert (Hfin : ∀ hf, onlyMarks h1 hf →
            keptClosedExcept (λ a, P a ∨ a = this) hf →
            (∀ c, c ∈ referenced o → kept hf c) →
            keptClosedExcept P hf).
  { intros hf Hmf Hclf Hall a o' c Ho' Hk' HP Hc.
    destruct (decide (a = this)) as [->|Hne].
    - pose proof (Hmf this) as Hthis. unfold h1 in Hthis.
      rewrite lookup_insert_eq, Ho' in Hthis.
      destruct Hthis as [->|[[=] _]]. by apply Hall.
    - eapply Hclf; [exact Ho'|done| |done]. tauto. }
  destruct (members o) as [t ? ?|p|t ? ? n|d|el sz|? ? ? fs] eqn:Hmem;
    unfold bind.
  - intros [= <- <-]. apply Hfin; [apply onlyMarks_refl|done|].
    unfold referenced. rewrite Hmem. by intros c ?%elem_of_nil.
  - destruct (keep fuel p h1) as [[b2 h2]| | | |] eqn:E2; try discriminate.
    intros [= <- <-].
    apply Hfin; [by eapply keep_onlyMarks|by eapply IH|].
    intros c Hc. by apply (Hchildren eq_refl o eq_refl).
  - intros [= <- <-]. apply Hfin; [apply onlyMarks_refl|done|].
    unfold referenced. rewrite Hmem. by intros c ?%elem_of_nil.
  - intros [= <- <-]. apply Hfin; [apply onlyMarks_refl|done|].
    unfold referenced. rewrite Hmem. by intros c ?%elem_of_nil.
  - destruct (keep fuel el h1) as [[b2 h2]| | | |] eqn:E2; try discriminate.
    intros [= <- <-].
    apply Hfin; [by eapply keep_onlyMarks|by eapply IH|].
    intros c Hc. by apply (Hchildren eq_refl o eq_refl).
  - destruct (keepFields (keep fuel) fs h1) as [[[] h2]| | | |] eqn:E2;
      try discriminate.
    intros [= <- <-].
    apply Hfin.
    + eapply keepFields_preserves;
        [apply onlyMarks_refl|apply onlyMarks_trans| |exact E2].
      intros a0 h0 b0 h0'. apply keep_onlyMarks.
    + eapply keepFields_keptClosed; [|exact E2|exact Hcl1].
      intros a0 h0 b0 h0' E0. split; [by eapply keep_onlyMarks|].
      split; [by apply keep_marks in E0 as (_ & ? & _)|]. by eapply IH.
    + intros c Hc. by apply (Hchildren eq_refl o eq_refl).
Qed.

Lemma keptClosed_reachable h a c :
  keptClosed h → kept h a → reachable h a c → kept h c.
Proof.
  intros Hcl Ha Hr. induction Hr as [a|a o c d Ho Hc Hr IH]; [done|].
  apply IH. destruct Ha as (o' & Ho' & Hk').
  assert (o' = o) as -> by congruence.
  eapply Hcl; [exact Ho|done|tauto|done].
Qed.

(** X24. [keep] marks the whole closure: if the kept export types refer
    to kept export types only (as they do when nothing is kept yet), then
    after a call of [keep] that returns they still do, and everything
    reachable from the type the call was made on, through pointees,
    element types and field types, is kept. *)
Theorem keep_marks_everything_reachable fuel this h b h' :
  keptClosed h → keep fuel this h = Done (b, h') →
  keptClosed h' ∧ ∀ c, reachable h' this c → kept h' c.
Proof.
  intros Hcl Hkeep.
  pose proof (keep_keptClosedExcept _ _ _ _ _ _ Hkeep Hcl) as Hcl'.
  split; [exact Hcl'|]. intros c Hc.
  eapply keptClosed_reachable; [exact Hcl'| |exact Hc].
  by apply keep_marks in Hkeep as (_ & ? & _).
Qed.

(** *** keep and equals *)

Lemma equalsFields_ext (eq eq' : nat → nat → Outcome bool) fs fs' :
  (∀ a b, eq' a b = eq a b) →
  equalsFields eq' fs fs' = equalsFields eq fs fs'.
Proof.
  intros Hext. revert fs'. induction fs as [|f fs IH]; intros [|f' fs'];
    simpl; try done.
  rewrite Hext. destruct (eq (fType f) (fType f')) as [[]| | | |]; try done.
Qed.

Lemma equals_marks n h h' a b :
  marks h h' → equals n h' a b = equals n h a b.
Proof.
  intros Hm. revert a b. induction n as [|n IH]; intros a b; [done|].
  simpl. pose proof (Hm a) as Ha. pose proof (Hm b) as Hb.
  destruct (h !! a) as [o|], (h' !! a) as [o'|]; try done.
  destruct (h !! b) as [e|], (h' !! b) as [e'|]; try done.
  destruct Ha as (Hmo & _), Hb as (Hme & _).
  unfold getClass. rewrite Hmo, Hme.
  destruct (negb _); [done|].
  destruct (members o) as [t ? ?|p|t ? ? k|d|el sz|? ? ? fs],
           (members e) as [t' ? ?|p'|t' ? ? k'|d'|el' sz'|? ? ? fs'];
    try done.
  - destruct (bool_decide _); [apply IH | done].
  - destruct (negb _); [done|]. by apply equalsFields_ext.
Qed.

(** X25. [keep] does not change what [equals] says: after a call of
    [keep] that returns, any two export types compare as they did
    before. *)
Theorem keep_leaves_equals_as_it_is fuel this h b h' :
  keep fuel this h = Done (b, h') →
  ∀ n a c, equals n h' a c = equals n h a c.
Proof.
  intros Hkeep n a c. apply equals_marks.
  by apply keep_marks in Hkeep as (? & _).
Qed.

(** *** keep comes to an end *)

(** X26. [keep] comes to an end on every graph of export types in which
    each reference leads to an allocated export type, also on one where
    export types refer to each other in a cycle: the mark set on the way
    down stops the second visit. *)
Theorem keep_comes_to_an_end this h :
  closed h → is_Some (h !! this) →
  ∃ b h', keep (S (size h)) this h = Done (b, h').
Proof.
  intros Hcl Hthis. apply keep_returns; [done|done|].
  unfold unkept. rewrite size_dom.
  pose proof (map_size_filter (λ p : nat * ExportTypeObj, mKeep p.2 = false) h).
  lia.
Qed.

End KeepEqualsMore.

(** ** The search for RenderScript objects *)

Section ObjectSearchMore.

Variable RSSpecificTypeMap : gmap string DataType.
Variable decls : nat → RecordDecl.
Variable definitions : gmap nat RecordDef.

Abbreviation search :=
  (IsStructureTypeWithRSObject RSSpecificTypeMap decls definitions).
Abbreviation holds := (holdsRSObject RSSpecificTypeMap decls definitions).
Abbreviation specific := (GetRSSpecificType RSSpecificTypeMap decls).

(** *** Structures with objects *)

Lemma stripArrays_idemp T : stripArrays (stripArrays T) = stripArrays T.
Proof. induction T; simpl; done. Qed.

Lemma search_unfold fuel T :
  search fuel T
  = match stripArrays T with
    | RecordTy RD =>
        if negb (isStructureType decls (RecordTy RD)) then Done false
        else
          match getDefinition definitions RD with
          | None => DanglingPointer 0
          | Some Def =>
              match fuel with
              | O => OutOfFuel
              | S fuel' =>
                  fieldsWithRSObject RSSpecificTypeMap decls (search fuel')
                    (fields Def) false
              end
          end
    | _ => Done false
    end.
Proof. by destruct fuel. Qed.

(** What the loop over the fields returns, if it returns. *)
Lemma fieldsWithRSObject_Done (rec : Ty → Outcome bool) (H : Ty → Prop)
    FDs seen b :
  (∀ FT b0, rec FT = Done b0 → b0 = true ↔ H FT) →
  fieldsWithRSObject RSSpecificTypeMap decls rec FDs seen = Done b →
  b = true
  ↔ seen = true
    ∨ ∃ FD, FD ∈ FDs
            ∧ let FT := stripArrays (canonicalType (fieldQualType FD)) in
              objectOrMatrix (specific FT) = true
              ∨ (isStructureType decls FT = true ∧ H FT).
Proof.
  intros Hrec. revert seen. induction FDs as [|FD FDs IH]; intros seen; simpl.
  - intros [= <-]. split; [by left|]. intros [?|(FD & HFD & _)]; [done|].
    inversion HFD.
  - unfold GET_CANONICAL_TYPE, GetTypeOfDecl.
    set (FT := stripArrays (canonicalType (fieldQualType FD))).
    destruct (IsRSObjectType (specific FT)) eqn:Hobj.
    { intros HD. apply IH in HD. split; [|by intros _; apply HD; left].
      intros _. right. exists FD. split; [apply list_elem_of_here|].
      left. unfold objectOrMatrix. fold FT. by rewrite Hobj. }
    set (seen' := match specific FT with
                  | DataTypeRSMatrix2x2 | DataTypeRSMatrix3x3
                  | DataTypeRSMatrix4x4 => true
                  | _ => seen
                  end).
    assert (Hseen' : seen' = true
                     ↔ seen = true ∨ objectOrMatrix (specific FT) = true).
    { unfold seen', objectOrMatrix. rewrite Hobj. simpl.
      destruct (specific FT); simpl; split; auto; intros [?|?]; done. }
    destruct (isStructureType decls FT) eqn:Hstruct.
    + destruct (rec FT) as [b0| | | |] eqn:Hb0; try discriminate.
      pose proof (Hrec _ _ Hb0) as HH.
      intros HD. apply IH in HD. rewrite HD. rewrite orb_true_iff, Hseen'.
      split.
      * intros [[[Hs|Hm]|Hb]|(FD' & HFD' & HQ)].
        -- by left.
        -- right. exists FD. split; [apply list_elem_of_here|]. by left.
        -- right. exists FD. split; [apply list_elem_of_here|]. right.
           fold FT. split; [done|]. by apply HH.
        -- right. exists FD'. split; [by apply list_elem_of_further|done].
      * intros [Hs|(FD' & HFD' & HQ)]; [by left; left; left|].
        apply elem_of_cons in HFD' as [->|HFD'].
        -- fold FT in HQ. destruct HQ as [Hm|[_ Hr]].
           ++ by left; left; right.
           ++ left. right. by apply HH.
        -- right. by exists FD'.
    + intros HD. apply IH in HD. rewrite HD, Hseen'.
      split.
      * intros [[Hs|Hm]|(FD' & HFD' & HQ)].
        -- by left.
        -- right. exists FD. split; [apply list_elem_of_here|]. by left.
        -- right. exists FD'. split; [by apply list_elem_of_further|done].
      * intros [Hs|(FD' & HFD' & HQ)]; [by left; left|].
        apply elem_of_cons in HFD' as [->|HFD'].
        -- fold FT in HQ. destruct HQ as [Hm|[Hs _]]; [by left; right|].
           congruence.
        -- right. by exists FD'.
Qed.

Lemma holds_struct T :
  holds T →
  ∃ RD, stripArrays T = RecordTy RD ∧ tagKind (decls RD) = TTK_Struct.
Proof. intros H. inversion H; subst; eauto. Qed.

Lemma search_Done fuel T b :
  search fuel T = Done b → b = true ↔ holds T.
Proof.
  revert T b. induction fuel as [|fuel IH]; intros T b; rewrite search_unfold.
  - destruct (stripArrays T) as [k|RD|P|E n|E n|E|nm|R] eqn:HT;
      try (intros [= <-]; split; [done|];
           intros (RD' & HT' & _)%holds_struct; congruence).
    destruct (isStructureType decls (RecordTy RD)) eqn:Hs; cbn [negb].
    + by destruct (getDefinition definitions RD).
    + intros [= <-]. split; [done|].
      intros (RD' & HT' & Hs')%holds_struct.
      rewrite HT in HT'. inversion HT'; subst.
      simpl in Hs. by rewrite bool_decide_eq_true_2 in Hs.
  - destruct (stripArrays T) as [k|RD|P|E n|E n|E|nm|R] eqn:HT;
      try (intros [= <-]; split; [done|];
           intros (RD' & HT' & _)%holds_struct; congruence).
    destruct (isStructureType decls (RecordTy RD)) eqn:Hs; cbn [negb].
    2:{ intros [= <-]. split; [done|].
        intros (RD' & HT' & Hs')%holds_struct.
        rewrite HT in HT'. inversion HT'; subst.
        simpl in Hs. by rewrite bool_decide_eq_true_2 in Hs. }
    apply bool_decide_eq_true_1 in Hs.
    unfold getDefinition.
    destruct (definitions !! RD) as [Def|] eqn:HDef; [|discriminate].
    intros HD. apply (fieldsWithRSObject_Done _ holds) in HD; [|apply IH].
    rewrite HD. split.
    + intros [[=]|(FD & HFD & [Hm|[Hst Hh]])].
      * by eapply holdsRSObject_field.
      * by eapply holdsRSObject_below.
    + intros Hh. right.
      inversion Hh as [? RD' Def' FD HT' Hs' HDef' HFD Hm
                      |? RD' Def' FD HT' Hs' HDef' HFD Hbelow]; subst;
        rewrite HT in HT'; inversion HT'; subst;
        rewrite HDef in HDef'; inversion HDef'; subst;
        exists FD; (split; [done|]).
      * by left.
      * right. split; [|done].
        destruct (holds_struct _ Hbelow) as (RD1 & HT1 & Hs1).
        rewrite stripArrays_idemp in HT1. rewrite HT1. simpl.
        by apply bool_decide_eq_true_2.
Qed.

(** X27. What [IsStructureTypeWithRSObject] returns, when it returns, is
    whether the type holds an object or a matrix by value: it says yes
    exactly for a structure (or an array of structures) in whose
    definition some field is an object or a matrix, or an array of such,
    or a structure (or array of structures) of which the same is true. *)
Theorem IsStructureTypeWithRSObject_finds_the_objects fuel T b :
  IsStructureTypeWithRSObject RSSpecificTypeMap decls definitions fuel T
  = Done b →
  b = true ↔ holdsRSObject RSSpecificTypeMap decls definitions T.
Proof. apply search_Done. Qed.

(** *** The search returns *)

Section Returns.

Variable rank : nat → nat.
Hypothesis Hrank : nestsWithoutCycle definitions rank.
Hypothesis Hdefined : definedBelow decls definitions.

Lemma fieldsWithRSObject_returns (rec : Ty → Outcome bool) FDs seen :
  (∀ FD, FD ∈ FDs →
     let FT := stripArrays (canonicalType (fieldQualType FD)) in
     isStructureType decls FT = true → ∃ b, rec FT = Done b) →
  ∃ b, fieldsWithRSObject RSSpecificTypeMap decls rec FDs seen = Done b.
Proof.
  revert seen. induction FDs as [|FD FDs IH]; intros seen Hrec; simpl;
    [by eexists|].
  unfold GET_CANONICAL_TYPE, GetTypeOfDecl.
  assert (Hrest : ∀ s, ∃ b,
            fieldsWithRSObject RSSpecificTypeMap decls rec FDs s = Done b).
  { intros s. apply IH. intros FD' HFD'. apply Hrec.
    by apply list_elem_of_further. }
  destruct (IsRSObjectType _); [apply Hrest|].
  destruct (isStructureType decls _) eqn:Hs; [|apply Hrest].
  destruct (Hrec FD (list_elem_of_here _ _) Hs) as [b0 ->]. apply Hrest.
Qed.

Lemma search_returns fuel T RD :
  stripArrays T = RecordTy RD → is_Some (definitions !! RD) →
  rank RD < fuel → ∃ b, search fuel T = Done b.
Proof.
  revert T RD. induction fuel as [|fuel IH]; intros T RD HT [Def HDef] Hfuel;
    [lia|].
  rewrite search_unfold, HT.
  destruct (negb _); [by eexists|].
  unfold getDefinition. rewrite HDef.
  apply fieldsWithRSObject_returns. intros FD HFD FT Hs.
  destruct FT as [k|RD'|P|E n|E n|E|nm|R] eqn:HFT; try discriminate.
  assert (Hbv : byValueRecord (canonicalType (fieldQualType FD)) = Some RD').
  { unfold byValueRecord. fold FT. by rewrite HFT. }
  apply (IH _ RD').
  - reflexivity.
  - eapply Hdefined; try done. simpl in Hs. by apply bool_decide_eq_true_1 in Hs.
  - pose proof (Hrank _ _ _ _ HDef HFD Hbv). lia.
Qed.

End Returns.

(** X28. [IsStructureTypeWithRSObject] returns on every type that is not
    a structure held by value, and on a structure (or an array of
    structures) that has a definition, in a module where the structures
    held by value in a definition have their definitions (as C asks of
    complete types) and do not hold each other in a cycle. *)
Theorem IsStructureTypeWithRSObject_returns rank fuel T :
  nestsWithoutCycle definitions rank → definedBelow decls definitions →
  (∀ RD, byValueRecord T = Some RD →
     is_Some (definitions !! RD) ∧ rank RD < fuel) →
  ∃ b, search fuel T = Done b.
Proof.
  intros Hrank Hdefined HT. unfold byValueRecord in HT.
  destruct (stripArrays T) as [k|RD|P|E n|E n|E|nm|R] eqn:HTs;
    try (rewrite search_unfold, HTs; by eexists).
  destruct (HT RD eq_refl) as [Hdef Hfuel].
  by eapply search_returns.
Qed.

End ObjectSearchMore.

(** ** The pragma recorder *)

Section Pragmas.

Import PragmaRecorder.

(** *** The pragma recorder *)

(** X29. [HandlePragma] records a pragma exactly when its name is
    followed by an opening parenthesis, at most one value and a closing
    parenthesis: then it appends the pair of the name and the value (the
    empty string when there is none) to the pragmas recorded before; in
    every other case, also that of a name with no parentheses after it,
    the recorded pragmas stay as they are. *)
Theorem HandlePragma_records_name_and_value First st :
  (∃ name value, Recorded First (PP st) name value
     ∧ mPragmas (HandlePragma First st).2
       = (mPragmas st ++ [(name, value)])%list)
  ∨ ((∀ name value, ¬ Recorded First (PP st) name value)
     ∧ mPragmas (HandlePragma First st).2 = mPragmas st).
Proof.
  destruct st as [pp ps]. unfold HandlePragma, LookAhead0, Lex. simpl.
  destruct (GetPragmaNameFromToken First) as [name|] eqn:Hname.
  2:{ right. split; [|done]. intros n v H. inversion H; congruence. }
  destruct pp as [|t1 pp]; simpl.
  { right. split; [|done]. intros n v H. inversion H. }
  destruct (decide (t1 = l_paren)) as [->|Ht1].
  2:{ rewrite bool_decide_eq_false_2 by done. right. split; [|done].
      intros n v H. inversion H; congruence. }
  rewrite bool_decide_eq_true_2 by done. simpl.
  destruct pp as [|t2 pp]; simpl.
  { right. split; [|done]. intros n v H. inversion H. }
  destruct (decide (t2 = r_paren)) as [->|Ht2]; simpl.
  { left. exists name, "". split; [by constructor | done]. }
  destruct (GetPragmaValueFromToken t2) as [value|] eqn:Hvalue.
  2:{ right. split; [|done]. intros n v H. inversion H; subst; [done|].
      destruct t2; simpl in *; congruence. }
  assert (Hv : GetPragmaNameFromToken t2 = Some value)
    by (destruct t2; simpl in *; congruence).
  rewrite bool_decide_eq_false_2 by done. cbn [negb].
  destruct pp as [|t3 pp]; simpl.
  { right. split; [|done]. intros n v H. inversion H; congruence. }
  destruct (decide (t3 = r_paren)) as [->|Ht3].
  - rewrite bool_decide_eq_true_2 by done. simpl.
    left. exists name, value. split; [by constructor | done].
  - rewrite bool_decide_eq_false_2 by done. simpl.
    right. split; [|done]. intros n v H. inversion H; congruence.
Qed.

End Pragmas.

(** ** The further properties on the sample declarations *)

Lemma sample_nestsWithoutCycle : nestsWithoutCycle sampleDefinitions sampleRank.
Proof.
  intros RD Def FD RD' HDef HFD Hbv.
  apply elem_of_list_to_map_2 in HDef.
  repeat (apply elem_of_cons in HDef as [[= -> ->]|HDef]);
    try (by inversion HDef);
    cbn in HFD;
    repeat (apply elem_of_cons in HFD as [->|HFD]);
    try (by inversion HFD);
    vm_compute in Hbv; try discriminate;
    injection Hbv as <-; simpl; lia.
Qed.

Lemma sample_definedBelow : definedBelow sampleDecls sampleDefinitions.
Proof.
  intros RD Def FD RD' HDef HFD Hbv _.
  apply elem_of_list_to_map_2 in HDef.
  repeat (apply elem_of_cons in HDef as [[= -> ->]|HDef]);
    try (by inversion HDef);
    cbn in HFD;
    repeat (apply elem_of_cons in HFD as [->|HFD]);
    try (by inversion HFD);
    vm_compute in Hbv; try discriminate;
    injection Hbv as <-; eexists; vm_compute; reflexivity.
Qed.

Lemma sample_namedBuiltins : namedBuiltins sampleBuiltins.
Proof.
  intros k dt cname Hk.
  destruct k; simpl in Hk; inversion Hk; subst; discriminate.
Qed.

Lemma sample_no_class RD : tagKind (sampleDecls RD) ≠ TTK_Class.
Proof. do 8 (destruct RD as [|RD]; [discriminate|]). discriminate. Qed.

Lemma sample_no_dummy_names RD :
  String.prefix DUMMY_RS_TYPE_NAME_PREFIX (GetRecordTypeName (sampleDecls RD))
  = false.
Proof. do 8 (destruct RD as [|RD]; [reflexivity|]). reflexivity. Qed.

Lemma sample_exportable_int b definitions :
  exportable sampleBuiltins sampleRSTypes sampleDecls definitions b IntTy.
Proof. apply exportable_builtin. by eexists. Qed.

Lemma sample_exportable_P b :
  exportable sampleBuiltins sampleRSTypes sampleDecls sampleDefinitions b
    (RecordTy 4).
Proof.
  apply (exportable_struct _ _ _ _ b 4
           (mkRecordDef [mkFieldDecl "x" 51 (written FloatTy) false;
                         mkFieldDecl "y" 52 (written FloatTy) false]
              false false false 64 [0%N; 32%N]));
    try reflexivity; try discriminate.
  - intros FD HFD. cbn in HFD.
    repeat (apply elem_of_cons in HFD as [->|HFD]); try reflexivity.
    inversion HFD.
  - intros FD HFD. cbn in HFD.
    repeat (apply elem_of_cons in HFD as [->|HFD]);
      try (apply exportable_builtin; by eexists).
    inversion HFD.
Qed.

Lemma sample_wellFormed_empty : wellFormed emptyContext.
Proof.
  split; [|split].
  - intros a [o Ho]. cbn in Ho. by rewrite lookup_empty in Ho.
  - intros nm a Ho. cbn in Ho. by rewrite lookup_empty in Ho.
  - intros a o c Ho. cbn in Ho. by rewrite lookup_empty in Ho.
Qed.

Lemma sample_closed : closed sampleObjects.
Proof.
  intros a o c Ho Hc.
  apply elem_of_list_to_map_2 in Ho.
  repeat (apply elem_of_cons in Ho as [[= -> ->]|Ho]);
    try (by inversion Ho);
    cbn in Hc;
    repeat (apply elem_of_cons in Hc as [->|Hc]);
    try (by inversion Hc);
    eexists; vm_compute; reflexivity.
Qed.

Lemma sample_keptClosed : keptClosed sampleObjects.
Proof.
  intros a o c Ho Hk.
  apply elem_of_list_to_map_2 in Ho.
  repeat (apply elem_of_cons in Ho as [[= -> ->]|Ho]);
    try discriminate.
  inversion Ho.
Qed.

(** The check of [struct L], which holds a pointer, with a sink. *)
Lemma TypeExportable_reports_at_most_once_witness :
  sampleTypeExportable (RecordTy 3) true true None []
  = Done (None,
          [mkDiagnostic (Some 40)
             "structures containing pointers cannot be exported: '%0'" ["L"]])
  ∧ ([mkDiagnostic (Some 40)
        "structures containing pointers cannot be exported: '%0'" ["L"]]
     = []
     ∨ (@None Ty = None ∧ true && true = true
        ∧ ∃ d, [mkDiagnostic (Some 40)
                  "structures containing pointers cannot be exported: '%0'"
                  ["L"]]
               = ([] ++ [d])%list)).
Proof.
  assert (E : sampleTypeExportable (RecordTy 3) true true None []
              = Done (None,
                      [mkDiagnostic (Some 40)
                         "structures containing pointers cannot be exported: '%0'"
                         ["L"]]))
    by (vm_compute; reflexivity).
  split; [exact E|].
  exact (TypeExportable_reports_at_most_once sampleBuiltins sampleRSTypes
           sampleDecls sampleDefinitions (RecordTy 3) true true None [] _
           None E).
Defined.

(** [int], normalized for the variable [v] with a sink and then without. *)
Lemma NormalizeType_answer_without_sink_witness :
  NormalizeType sampleBuiltins sampleRSTypes sampleDecls sampleDefinitions
    IntTy true true (Some (mkVarDecl "v" 5 (written IntTy))) []
  = Done (Some (IntTy, "int"), [])
  ∧ NormalizeType sampleBuiltins sampleRSTypes sampleDecls sampleDefinitions
      IntTy false false None [] = Done (Some (IntTy, "int"), []).
Proof.
  assert (E : NormalizeType sampleBuiltins sampleRSTypes sampleDecls
                sampleDefinitions IntTy true true
                (Some (mkVarDecl "v" 5 (written IntTy))) []
              = Done (Some (IntTy, "int"), []))
    by (vm_compute; reflexivity).
  split; [exact E|].
  exact (NormalizeType_answer_without_sink sampleBuiltins sampleRSTypes
           sampleDecls sampleDefinitions IntTy true true
           (Some (mkVarDecl "v" 5 (written IntTy))) [] [] _ E None []).
Defined.

(** [struct P *] is accepted, hence derived by the rules. *)
Lemma TypeExportable_accepts_only_exportable_witness :
  nestsWithoutCycle sampleDefinitions sampleRank
  ∧ sampleTypeExportable (PointerTy (RecordTy 4)) true true None []
    = Done (Some (PointerTy (RecordTy 4)), [])
  ∧ exportable sampleBuiltins sampleRSTypes sampleDecls sampleDefinitions
      false (PointerTy (RecordTy 4)).
Proof.
  assert (E : sampleTypeExportable (PointerTy (RecordTy 4)) true true None []
              = Done (Some (PointerTy (RecordTy 4)), []))
    by (vm_compute; reflexivity).
  split; [exact sample_nestsWithoutCycle|]. split; [exact E|].
  exact (TypeExportable_accepts_only_exportable sampleBuiltins sampleRSTypes
           sampleDecls sampleDefinitions sampleRank (PointerTy (RecordTy 4))
           true true None [] [] _ sample_nestsWithoutCycle E).
Defined.

(** [struct P] is derived by the rules, hence accepted. *)
Lemma TypeExportable_accepts_every_exportable_witness :
  exportable sampleBuiltins sampleRSTypes sampleDecls sampleDefinitions
    false (RecordTy 4)
  ∧ sampleTypeExportable (RecordTy 4) true true None []
    = Done (Some (RecordTy 4), []).
Proof.
  split; [exact (sample_exportable_P false)|].
  exact (TypeExportable_accepts_every_exportable sampleBuiltins sampleRSTypes
           sampleDecls sampleDefinitions (RecordTy 4) true true None []
           (sample_exportable_P false)).
Defined.

(** The check of [struct L] for the variable [v], with a sink. *)
Lemma TypeExportable_returns_without_assertion_witness :
  (∀ RD, tagKind (sampleDecls RD) ≠ TTK_Class)
  ∧ ∃ r ds',
      sampleTypeExportable (RecordTy 3) true true
        (Some (mkVarDecl "v" 5 (written (RecordTy 3)))) []
      = Done (r, ds').
Proof.
  split; [exact sample_no_class|].
  exact (TypeExportable_returns_without_assertion sampleBuiltins sampleRSTypes
           sampleDecls sampleDefinitions (RecordTy 3) true true
           (Some (mkVarDecl "v" 5 (written (RecordTy 3)))) []
           sample_no_class
           (or_intror (ex_intro _ (mkVarDecl "v" 5 (written (RecordTy 3)))
                         eq_refl))).
Defined.

(** [union U], met below [struct L]: the diagnostic names the union. *)
Lemma record_rejected_before_its_fields_witness :
  (RecordTy 2 ∉ SPS (mkCheckState [] []))
  ∧ GetRSSpecificType sampleRSTypes sampleDecls (RecordTy 2) = DataTypeUnknown
  ∧ sampleHelper 0 true true None (Some 3) (RecordTy 2) (mkCheckState [] [])
    = Done (None,
            mkCheckState []
              [mkDiagnostic (Some 30) "unions cannot be exported: '%0'"
                 ["U"]]).
Proof.
  assert (H1 : RecordTy 2 ∉ SPS (mkCheckState [] []))
    by (intros H; inversion H).
  assert (H2 : GetRSSpecificType sampleRSTypes sampleDecls (RecordTy 2)
               = DataTypeUnknown) by (vm_compute; reflexivity).
  split; [exact H1|]. split; [exact H2|].
  exact (proj1 (record_rejected_before_its_fields sampleBuiltins sampleRSTypes
                  sampleDecls sampleDefinitions 0 true true None (Some 3) 2
                  (mkCheckState [] []) H1 H2) eq_refl).
Defined.

(** [struct S { int a; int flag : 3; int c; }]. *)
Lemma bit_field_is_reported_at_the_field_witness :
  sampleBitFields !! 0
  = Some (mkRecordDef [mkFieldDecl "a" 11 (written IntTy) false;
                       mkFieldDecl "flag" 12 (written IntTy) true;
                       mkFieldDecl "c" 13 (written IntTy) false]
            false false false 96 [0%N; 32%N; 35%N])
  ∧ TypeExportable sampleBuiltins sampleRSTypes sampleDecls sampleBitFields
      (RecordTy 0) true true None []
    = Done (None,
            [mkDiagnostic (Some 12)
               "bit fields are not able to be exported: '%0.%1'"
               ["S"; "flag"]]).
Proof.
  assert (HDef : sampleBitFields !! 0
                 = Some (mkRecordDef
                           [mkFieldDecl "a" 11 (written IntTy) false;
                            mkFieldDecl "flag" 12 (written IntTy) true;
                            mkFieldDecl "c" 13 (written IntTy) false]
                           false false false 96 [0%N; 32%N; 35%N]))
    by (vm_compute; reflexivity).
  assert (HRS : GetRSSpecificType sampleRSTypes sampleDecls (RecordTy 0)
                = DataTypeUnknown) by (vm_compute; reflexivity).
  assert (Hname : declName (sampleDecls 0) ≠ "") by discriminate.
  assert (Hpre : ∀ F, F ∈ [mkFieldDecl "a" 11 (written IntTy) false] →
                      isBitField F = false).
  { intros F HF. apply list_elem_of_singleton in HF as ->. reflexivity. }
  assert (Hexp : ∀ F,
            F ∈ ([mkFieldDecl "a" 11 (written IntTy) false]
                 ++ [mkFieldDecl "flag" 12 (written IntTy) true])%list →
            exportable sampleBuiltins sampleRSTypes sampleDecls
              sampleBitFields true (canonicalType (fieldQualType F))).
  { intros F HF. cbn in HF.
    repeat (apply elem_of_cons in HF as [->|HF]);
      try apply sample_exportable_int.
    inversion HF. }
  split; [exact HDef|].
  exact (bit_field_is_reported_at_the_field sampleBuiltins sampleRSTypes
           sampleDecls sampleBitFields 0 _
           [mkFieldDecl "a" 11 (written IntTy) false]
           (mkFieldDecl "flag" 12 (written IntTy) true)
           [mkFieldDecl "c" 13 (written IntTy) false]
           true true None [] HRS eq_refl HDef Hname eq_refl eq_refl eq_refl
           Hpre Hexp eq_refl).
Defined.

(** [long double] is no supported scalar: rejected, nothing reported. *)
Lemma scalars_and_vectors_are_rejected_in_silence_witness :
  sampleTypeExportable (BuiltinTy BuiltinType.LongDouble) true true
    (Some (mkVarDecl "v" 5 (written (BuiltinTy BuiltinType.LongDouble)))) []
  = Done (None, [])
  ∧ @nil Diagnostic = [].
Proof.
  assert (E : sampleTypeExportable (BuiltinTy BuiltinType.LongDouble) true
                true
                (Some (mkVarDecl "v" 5
                         (written (BuiltinTy BuiltinType.LongDouble)))) []
              = Done (None, [])) by (vm_compute; reflexivity).
  split; [exact E|].
  exact (scalars_and_vectors_are_rejected_in_silence sampleBuiltins
           sampleRSTypes sampleDecls sampleDefinitions
           (BuiltinTy BuiltinType.LongDouble) true true
           (Some (mkVarDecl "v" 5
                    (written (BuiltinTy BuiltinType.LongDouble)))) [] [] I E).
Defined.

(** [int *] has the name "*int". *)
Lemma NormalizeType_names_every_exportable_witness :
  namedBuiltins sampleBuiltins
  ∧ exportableAtEveryLevel sampleBuiltins sampleRSTypes sampleDecls
      sampleDefinitions (PointerTy IntTy)
  ∧ "*int" ≠ ""
  ∧ NormalizeType sampleBuiltins sampleRSTypes sampleDecls sampleDefinitions
      (PointerTy IntTy) true true None []
    = Done (Some (PointerTy IntTy, "*int"), []).
Proof.
  assert (H : exportableAtEveryLevel sampleBuiltins sampleRSTypes sampleDecls
                sampleDefinitions (PointerTy IntTy)).
  { split; [|split; [|exact I]].
    - apply exportable_pointer; [reflexivity|apply sample_exportable_int].
    - apply sample_exportable_int. }
  split; [exact sample_namedBuiltins|]. split; [exact H|].
  exact (NormalizeType_names_every_exportable sampleBuiltins sampleRSTypes
           sampleDecls sampleDefinitions (PointerTy IntTy) true true None []
           sample_namedBuiltins H).
Defined.

(** [union U **]: the check lets it through, the name fails. *)
Lemma pointer_to_unexportable_pointer_is_anonymous_witness :
  sampleTypeExportable (PointerTy (RecordTy 2)) false false None []
  = Done (None, [])
  ∧ sampleTypeExportable (PointerTy (PointerTy (RecordTy 2))) true true None
      []
    = Done (Some (PointerTy (PointerTy (RecordTy 2))), [])
  ∧ NormalizeType sampleBuiltins sampleRSTypes sampleDecls sampleDefinitions
      (PointerTy (PointerTy (RecordTy 2))) true true None []
    = Done (None,
            [mkDiagnostic None "anonymous types cannot be exported" []]).
Proof.
  assert (E : sampleTypeExportable (PointerTy (RecordTy 2)) false false None
                [] = Done (None, [])) by (vm_compute; reflexivity).
  split; [exact E|].
  exact (pointer_to_unexportable_pointer_is_anonymous sampleBuiltins
           sampleRSTypes sampleDecls sampleDefinitions (RecordTy 2) true true
           None [] E).
Defined.

(** Vectors of two [unsigned char] and of two [char] on a target where
    [char] is unsigned share the name "uchar2". *)
Lemma vector_names_tell_vectors_apart_witness :
  GetTypeName sampleBuiltins sampleRSTypes sampleDecls sampleDefinitions
    (ExtVectorTy (BuiltinTy BuiltinType.UChar) 2) [] = Done ("uchar2", [])
  ∧ GetTypeName sampleBuiltins sampleRSTypes sampleDecls sampleDefinitions
      (ExtVectorTy (BuiltinTy BuiltinType.Char_U) 2) [] = Done ("uchar2", [])
  ∧ "uchar" = "uchar" ∧ 2%N = 2%N.
Proof.
  assert (E1 : GetTypeName sampleBuiltins sampleRSTypes sampleDecls
                 sampleDefinitions
                 (ExtVectorTy (BuiltinTy BuiltinType.UChar) 2) []
               = Done ("uchar2", [])) by (vm_compute; reflexivity).
  assert (E2 : GetTypeName sampleBuiltins sampleRSTypes sampleDecls
                 sampleDefinitions
                 (ExtVectorTy (BuiltinTy BuiltinType.Char_U) 2) []
               = Done ("uchar2", [])) by (vm_compute; reflexivity).
  split; [exact E1|]. split; [exact E2|].
  exact (vector_names_tell_vectors_apart sampleBuiltins sampleRSTypes
           sampleDecls sampleDefinitions BuiltinType.UChar BuiltinType.Char_U
           DataTypeUnsigned8 DataTypeUnsigned8 "uchar" "uchar" 2 2 [] [] []
           "uchar2" eq_refl eq_refl ltac:(lia) ltac:(lia) E1 E2).
Defined.

(** [struct P { float x; float y; }]. *)
Lemma record_fields_follow_the_definition_witness :
  RSExportRecordType_Create sampleDecls sampleDefinitions (sampleCreate 0) 4
    "P" emptyContext
  = Done (Some 0, sampleRecordContext)
  ∧ ∃ Def fs,
      sampleDefinitions !! 4 = Some Def
      ∧ objects sampleRecordContext !! 0
        = Some (mkExportTypeObj false "P" None
                  (RecordMembers (hasPackedAttr Def) false
                     (N.shiftr (layoutSize Def) 3) fs))
      ∧ fName <$> fs = fieldName <$> fields Def
      ∧ (∀ FD, FD ∈ fields Def → isBitField FD = false)
      ∧ ∀ i f, fs !! i = Some f →
          ∃ off, layoutFieldOffsets Def !! i = Some off
                 ∧ fOffsetInParent f = N.shiftr off 3.
Proof.
  assert (E : RSExportRecordType_Create sampleDecls sampleDefinitions
                (sampleCreate 0) 4 "P" emptyContext
              = Done (Some 0, sampleRecordContext))
    by (vm_compute; reflexivity).
  split; [exact E|].
  exact (record_fields_follow_the_definition sampleBuiltins sampleRSTypes
           sampleDecls sampleDefinitions 0 4 "P" emptyContext 0
           sampleRecordContext E).
Defined.

(** [int **] in the sample context, in which addresses 0 to 2 are taken. *)
Lemma pointer_to_pointer_gets_an_int_of_its_own_witness :
  sampleBuiltins BuiltinType.Int = Some (DataTypeSigned32, "int")
  ∧ ∃ ctx',
      RSExportPointerType_Create sampleBuiltins sampleRSTypes sampleDecls
        sampleDefinitions (sampleCreate 0) (PointerTy IntTy) "**int"
        sampleContext
      = Done (Some (S (nextAddress sampleContext)), ctx')
      ∧ objects ctx'
        = <[S (nextAddress sampleContext) :=
              mkExportTypeObj false "**int" None
                (PointerMembers (nextAddress sampleContext))]>
            (<[nextAddress sampleContext :=
                 mkExportTypeObj false "int" None
                   (PrimitiveMembers DataTypeSigned32 DataKindUser false)]>
               (objects sampleContext))
      ∧ nextAddress ctx' = S (S (nextAddress sampleContext)).
Proof.
  split; [reflexivity|].
  exact (pointer_to_pointer_gets_an_int_of_its_own sampleBuiltins
           sampleRSTypes sampleDecls sampleDefinitions (sampleCreate 0) IntTy
           "**int" sampleContext DataTypeSigned32 "int" eq_refl
           ltac:(discriminate) ltac:(discriminate)).
Defined.

(** [int a[0]]. *)
Lemma array_without_elements_fails_the_assertion_witness :
  exportable sampleBuiltins sampleRSTypes sampleDecls sampleDefinitions false
    (ConstantArrayTy IntTy 0)
  ∧ export_types emptyContext !! DUMMY_TYPE_NAME_FOR_RS_CONSTANT_ARRAY_TYPE
    = None
  ∧ sampleTypeExportable (ConstantArrayTy IntTy 0) false false None []
    = Done (Some (ConstantArrayTy IntTy 0), [])
  ∧ sampleCreate 0 (ConstantArrayTy IntTy 0) emptyContext
    = AssertFailed "Constant array should have size greater than 0".
Proof.
  assert (H : exportable sampleBuiltins sampleRSTypes sampleDecls
                sampleDefinitions false (ConstantArrayTy IntTy 0)).
  { apply exportable_array; [reflexivity|discriminate|].
    apply sample_exportable_int. }
  split; [exact H|]. split; [reflexivity|].
  exact (array_without_elements_fails_the_assertion sampleBuiltins
           sampleRSTypes sampleDecls sampleDefinitions 0 IntTy emptyContext H
           eq_refl).
Defined.

(** [float2] created in the sample context. *)
Lemma Create_leaves_existing_objects_alone_witness :
  sampleCreate 0 (ExtVectorTy FloatTy 2) sampleContext
  = Done (Some 3, sampleContextWithVector)
  ∧ (nextAddress sampleContext ≤ nextAddress sampleContextWithVector)%nat
  ∧ ∀ a, (a < nextAddress sampleContext)%nat →
         objects sampleContextWithVector !! a = objects sampleContext !! a.
Proof.
  assert (E : sampleCreate 0 (ExtVectorTy FloatTy 2) sampleContext
              = Done (Some 3, sampleContextWithVector))
    by (vm_compute; reflexivity).
  split; [exact E|].
  exact (Create_leaves_existing_objects_alone sampleBuiltins sampleRSTypes
           sampleDecls sampleDefinitions 0 (ExtVectorTy FloatTy 2)
           sampleContext (Some 3) sampleContextWithVector E).
Defined.

(** [struct P *] created in the empty context. *)
Lemma Create_keeps_every_pointer_valid_witness :
  wellFormed emptyContext
  ∧ sampleCreate 1 (PointerTy (RecordTy 4)) emptyContext
    = Done (Some 2, sampleContext)
  ∧ wellFormed sampleContext ∧ is_Some (objects sampleContext !! 2).
Proof.
  assert (E : sampleCreate 1 (PointerTy (RecordTy 4)) emptyContext
              = Done (Some 2, sampleContext)) by (vm_compute; reflexivity).
  split; [exact sample_wellFormed_empty|]. split; [exact E|].
  exact (Create_keeps_every_pointer_valid sampleBuiltins sampleRSTypes
           sampleDecls sampleDefinitions 1 (PointerTy (RecordTy 4))
           emptyContext 2 sampleContext sample_wellFormed_empty E).
Defined.

(** [struct P *], created and then kept. *)
Lemma created_type_can_be_kept_witness :
  wellFormed emptyContext
  ∧ sampleCreate 1 (PointerTy (RecordTy 4)) emptyContext
    = Done (Some 2, sampleContext)
  ∧ ∃ b h',
      keep (S (size (objects sampleContext))) 2 (objects sampleContext)
      = Done (b, h')
      ∧ kept h' 2.
Proof.
  assert (E : sampleCreate 1 (PointerTy (RecordTy 4)) emptyContext
              = Done (Some 2, sampleContext)) by (vm_compute; reflexivity).
  split; [exact sample_wellFormed_empty|]. split; [exact E|].
  exact (created_type_can_be_kept sampleBuiltins sampleRSTypes sampleDecls
           sampleDefinitions 1 (PointerTy (RecordTy 4)) emptyContext 2
           sampleContext sample_wellFormed_empty E).
Defined.

(** [struct L], whose field points back to it. *)
Lemma Create_comes_to_an_end_witness :
  (∀ RD, String.prefix DUMMY_RS_TYPE_NAME_PREFIX
           (GetRecordTypeName (sampleDecls RD)) = false)
  ∧ sampleCreate (size sampleDefinitions) (RecordTy 3) emptyContext
    ≠ OutOfFuel.
Proof.
  split; [exact sample_no_dummy_names|].
  exact (Create_comes_to_an_end sampleBuiltins sampleRSTypes sampleDecls
           sampleDefinitions (RecordTy 3) emptyContext
           sample_no_dummy_names).
Defined.

(** The two sample records of two floats, and the first again. *)
Lemma equals_transitive_witness :
  equals 2 sampleObjects 1 2 = Done true
  ∧ equals 2 sampleObjects 2 1 = Done true
  ∧ equals 2 sampleObjects 1 1 = Done true.
Proof.
  assert (E1 : equals 2 sampleObjects 1 2 = Done true)
    by (vm_compute; reflexivity).
  assert (E2 : equals 2 sampleObjects 2 1 = Done true)
    by (vm_compute; reflexivity).
  split; [exact E1|]. split; [exact E2|].
  exact (equals_transitive 2 2 sampleObjects 1 2 1 E1 E2).
Defined.

(** [keep] on the sample pointer. *)
Lemma keep_changes_only_marks_and_caches_witness :
  keep 3 3 sampleObjects = Done (true, sampleObjectsKept)
  ∧ ∀ x, match sampleObjects !! x, sampleObjectsKept !! x with
         | Some o, Some o' => o' = o ∨ (mKeep o = false ∧ o' = marked o)
         | None, None => True
         | _, _ => False
         end.
Proof.
  assert (E : keep 3 3 sampleObjects = Done (true, sampleObjectsKept))
    by (vm_compute; reflexivity).
  split; [exact E|].
  exact (keep_changes_only_marks_and_caches 3 3 sampleObjects true
           sampleObjectsKept E).
Defined.

(** [keep] on the sample pointer, where nothing was kept before. *)
Lemma keep_marks_everything_reachable_witness :
  keptClosed sampleObjects
  ∧ keep 3 3 sampleObjects = Done (true, sampleObjectsKept)
  ∧ keptClosed sampleObjectsKept
  ∧ ∀ c, reachable sampleObjectsKept 3 c → kept sampleObjectsKept c.
Proof.
  assert (E : keep 3 3 sampleObjects = Done (true, sampleObjectsKept))
    by (vm_compute; reflexivity).
  split; [exact sample_keptClosed|]. split; [exact E|].
  exact (keep_marks_everything_reachable 3 3 sampleObjects true
           sampleObjectsKept sample_keptClosed E).
Defined.

(** The two sample records compare after [keep] as before. *)
Lemma keep_leaves_equals_as_it_is_witness :
  keep 3 3 sampleObjects = Done (true, sampleObjectsKept)
  ∧ equals 2 sampleObjectsKept 1 2 = equals 2 sampleObjects 1 2.
Proof.
  assert (E : keep 3 3 sampleObjects = Done (true, sampleObjectsKept))
    by (vm_compute; reflexivity).
  split; [exact E|].
  exact (keep_leaves_equals_as_it_is 3 3 sampleObjects true sampleObjectsKept
           E 2 1 2).
Defined.

(** [keep] on the sample pointer. *)
Lemma keep_comes_to_an_end_witness :
  closed sampleObjects ∧ is_Some (sampleObjects !! 3)
  ∧ ∃ b h', keep (S (size sampleObjects)) 3 sampleObjects = Done (b, h').
Proof.
  assert (H : is_Some (sampleObjects !! 3))
    by (eexists; vm_compute; reflexivity).
  split; [exact sample_closed|]. split; [exact H|].
  exact (keep_comes_to_an_end 3 sampleObjects sample_closed H).
Defined.

(** [struct S { rs_matrix2x2 m; }] holds a matrix. *)
Lemma IsStructureTypeWithRSObject_finds_the_objects_witness :
  IsStructureTypeWithRSObject sampleRSTypes sampleDecls sampleDefinitions 2
    (RecordTy 0) = Done true
  ∧ (true = true
     ↔ holdsRSObject sampleRSTypes sampleDecls sampleDefinitions (RecordTy 0)).
Proof.
  assert (E : IsStructureTypeWithRSObject sampleRSTypes sampleDecls
                sampleDefinitions 2 (RecordTy 0) = Done true)
    by (vm_compute; reflexivity).
  split; [exact E|].
  exact (IsStructureTypeWithRSObject_finds_the_objects sampleRSTypes
           sampleDecls sampleDefinitions 2 (RecordTy 0) true E).
Defined.

(** [struct S a[4]]. *)
Lemma IsStructureTypeWithRSObject_returns_witness :
  nestsWithoutCycle sampleDefinitions sampleRank
  ∧ definedBelow sampleDecls sampleDefinitions
  ∧ ∃ b, IsStructureTypeWithRSObject sampleRSTypes sampleDecls
           sampleDefinitions 2 (ConstantArrayTy (RecordTy 0) 4) = Done b.
Proof.
  assert (H : ∀ RD, byValueRecord (ConstantArrayTy (RecordTy 0) 4) = Some RD →
                    is_Some (sampleDefinitions !! RD) ∧ sampleRank RD < 2).
  { intros RD [= <-]. split; [eexists; vm_compute; reflexivity|].
    simpl. lia. }
  split; [exact sample_nestsWithoutCycle|].
  split; [exact sample_definedBelow|].
  exact (IsStructureTypeWithRSObject_returns sampleRSTypes sampleDecls
           sampleDefinitions sampleRank 2 (ConstantArrayTy (RecordTy 0) 4)
           sample_nestsWithoutCycle sample_definedBelow H).
Defined.

(** * Pointers, the registry, equals and keep in full *)

(** ** Pointers inside structures *)

Section PointerRules.

Variable SupportedBuiltin : BuiltinType.Kind → option (DataType * string).
Variable RSSpecificTypeMap : gmap string DataType.
Variable decls : nat → RecordDecl.
Variable definitions : gmap nat RecordDef.

Abbreviation Helper :=
  (TypeExportableHelper SupportedBuiltin RSSpecificTypeMap decls definitions).
Abbreviation Reject := (ReportTypeError decls).
Abbreviation TypeExportable' :=
  (TypeExportable SupportedBuiltin RSSpecificTypeMap decls definitions).
Abbreviation pointerless := (clearOfPointers RSSpecificTypeMap decls).
Abbreviation fieldsPointerless :=
  (fieldsClear RSSpecificTypeMap decls definitions).
Abbreviation holds := (holdsPointer RSSpecificTypeMap decls definitions).

Lemma clearOfPointers_mono inside (s s' : list Ty) T :
  (∀ x, x ∈ s → x ∈ s') → pointerless inside s T → pointerless inside s' T.
Proof.
  intros Hsub. revert inside.
  induction T as [k|RD|P IHP|E IHE n|E IHE n|E IHE|nm|R IHR]; intros inside;
    simpl; try done.
  - intros [?|?]; [by left | right; by apply Hsub].
  - intros [-> [?|?]]; (split; [done|]); [by left | right; by apply IHP].
  - apply IHE.
Qed.

Lemma fieldsClear_holdsPointer (s : list Ty) inside T :
  fieldsPointerless (λ _, False) s → holds inside T → ¬ pointerless inside s T.
Proof.
  intros Hcl Hh. induction Hh as [P|b E n Hh IH|b RD Def FD Hrs HDef HFD Hh IH
                                  |P HP Hh IH]; simpl.
  - by intros [? _].
  - done.
  - intros [Hn|Hin]; [by apply Hn|]. apply IH.
    apply (Hcl RD Def FD); [done|tauto|done|done].
  - intros [_ [Hp|Hp]]; [by apply HP|]. by apply IH.
Qed.

Lemma checkFields_clear (H : Ty → M CheckState (option Ty)) Diags SM RD FDs
    (st st' : CheckState) pending :
  (∀ T st r st', H T st = Done (r, st') → grows st st') →
  (∀ T st T' st', recordsOnly (SPS st) → fieldsPointerless pending (SPS st) →
     H T st = Done (Some T', st') →
     fieldsPointerless pending (SPS st') ∧ pointerless true (SPS st') T) →
  recordsOnly (SPS st) → fieldsPointerless pending (SPS st) →
  checkFields decls H Diags SM RD FDs st = Done (true, st') →
  fieldsPointerless pending (SPS st')
  ∧ ∀ FD, FD ∈ FDs → pointerless true (SPS st') (canonicalType (fieldQualType FD)).
Proof.
  intros Hg HH. revert st.
  induction FDs as [|FD FDs IH]; intros st Hr Hc; simpl.
  - intros [= <-]. split; [done|]. intros FD HFD. inversion HFD.
  - unfold bind at 1.
    destruct (H (GET_CANONICAL_TYPE (GetTypeOfDecl FD)) st)
      as [[[T'|] st1]| | | |] eqn:E; try discriminate.
    destruct (isBitField FD) eqn:Hbit.
    { unfold bind, ret, Report, modify. by destruct (Diags && SM). }
    intros Hrest.
    destruct (HH _ _ _ _ Hr Hc E) as [Hc1 Hfd].
    pose proof (grows_recordsOnly _ _ (Hg _ _ _ _ E) Hr) as Hr1.
    pose proof (checkFields_grows decls H Diags SM RD FDs st1 st' true Hg Hrest)
      as [Hsub _].
    destruct (IH st1 Hr1 Hc1 Hrest) as [Hc' Hall].
    split; [done|].
    intros FD' HFD'. apply elem_of_cons in HFD' as [->|HFD'];
      [|by apply Hall].
    by eapply clearOfPointers_mono.
Qed.

Lemma Helper_clear fuel Diags SM VD TLR T (st st' : CheckState) T' pending :
  Helper fuel Diags SM VD TLR T st = Done (Some T', st') →
  recordsOnly (SPS st) → fieldsPointerless pending (SPS st) →
  fieldsPointerless pending (SPS st') ∧ pointerless (inRecord TLR) (SPS st') T.
Proof.
  revert TLR T st st' T' pending.
  induction fuel as [fuel IHfuel] using lt_wf_ind.
  intros TLR T. induction T as [k|RD|P IHP|E IHE n|E IHE n|E IHE|nm|R IHR];
    intros st st' T' pending HH Hr Hc.
  - rewrite Helper_BuiltinTy in HH. unfold bind, SPS_count, ret in HH.
    rewrite recordsOnly_not_in in HH by done.
    destruct (SupportedBuiltin k) eqn:Hk; inversion HH; subst. done.
  - rewrite Helper_RecordTy in HH. unfold bind at 1 in HH.
    unfold SPS_count in HH.
    destruct (bool_decide (RecordTy RD ∈ SPS st)) eqn:Hseen.
    { inversion HH; subst. split; [done|]. right.
      by apply bool_decide_eq_true_1 in Hseen. }
    apply bool_decide_eq_false_1 in Hseen.
    destruct (bool_decide (_ = DataTypeUnknown)) eqn:Hrs; cbn [negb] in HH.
    2:{ inversion HH; subst. split; [done|]. left.
        by apply bool_decide_eq_false_1 in Hrs. }
    destruct (isUnionType decls (RecordTy RD));
      [by apply Reject_never_accepts in HH|].
    destruct (isStructureType decls (RecordTy RD)) eqn:Hstruct;
      cbn [negb] in HH; [|discriminate].
    destruct (getDefinition definitions RD) as [Def|] eqn:HDef;
      [|by apply Reject_never_accepts in HH].
    destruct (isEmptyName (declName (decls RD))) eqn:Hname;
      [by apply Reject_never_accepts in HH|].
    destruct (hasFlexibleArrayMember Def) eqn:Hflex; cbn [orb] in HH;
      [discriminate|].
    destruct (hasObjectMember Def) eqn:Hobj; [discriminate|].
    unfold bind at 1 in HH.
    destruct (SPS_insert_grows (RecordTy RD) st eq_refl)
      as (st1 & Hins & Hg1 & Hin1 & _).
    rewrite Hins in HH.
    assert (Hst1 : ∀ X, X ∈ SPS st1 → X = RecordTy RD ∨ X ∈ SPS st).
    { clear -Hins. unfold SPS_insert, modify in Hins. inversion Hins; subst.
      simpl. intros X. destruct (bool_decide _); [by right|].
      rewrite elem_of_cons. tauto. }
    destruct fuel as [|fuel']; [discriminate|].
    unfold bind at 1 in HH.
    destruct (checkFields _ _ _ _ _ _ st1) as [[[] st2]| | | |] eqn:E;
      try discriminate.
    inversion HH; subst. clear HH.
    pose proof (grows_recordsOnly _ _ Hg1 Hr) as Hr1.
    assert (Hg2 : grows st1 st').
    { eapply checkFields_grows; [|exact E].
      intros T0 st0 r0 st0'. apply Helper_grows. }
    apply (checkFields_clear _ _ _ _ _ _ _ (λ x, pending x ∨ x = RD)) in E.
    + destruct E as [Hc2 Hall]. split.
      * intros R Def0 FD HR Hpend HDef0 HFD.
        destruct (decide (R = RD)) as [->|Hne].
        -- unfold getDefinition in HDef.
           assert (Def0 = Def) as -> by congruence. by apply Hall.
        -- eapply Hc2; try done. tauto.
      * right. by apply Hg2.
    + intros T0 st0 r0 st0'. apply Helper_grows.
    + intros T0 st0 T0' st0' Hr0 Hc0 H0.
      assert (fuel' < S fuel') as Hlt by lia.
      pose proof (IHfuel fuel' Hlt
                    (match TLR with Some _ => TLR | None => Some RD end)
                    T0 st0 st0' T0' (λ x, pending x ∨ x = RD) H0 Hr0 Hc0)
        as IH0.
      by destruct TLR as [tlr|].
    + done.
    + intros R Def0 FD HR Hpend HDef0 HFD.
      destruct (Hst1 _ HR) as [[= ->]|Hin]; [tauto|].
      eapply clearOfPointers_mono; [apply Hg1|].
      eapply Hc; try done. tauto.
  - rewrite Helper_PointerTy in HH. unfold bind at 1 in HH.
    unfold SPS_count in HH. rewrite recordsOnly_not_in in HH by done.
    destruct TLR as [tlr|]; [by apply Reject_never_accepts in HH|].
    destruct (bool_decide (getTypeClass P = TC_Pointer)) eqn:Hpp.
    { inversion HH; subst. split; [done|]. split; [done|]. left.
      by apply bool_decide_eq_true_1 in Hpp. }
    destruct (isArrayType P) eqn:Harr; [discriminate|].
    unfold bind in HH.
    destruct (Helper fuel Diags SM VD None P st) as [[[P'|] st1]| | | |] eqn:E;
      try discriminate.
    inversion HH; subst.
    destruct (IHP _ _ _ _ E Hr Hc) as [Hc1 Hp].
    split; [done|]. split; [done|]. by right.
  - rewrite Helper_ExtVectorTy in HH. unfold bind at 1 in HH.
    unfold SPS_count in HH. rewrite recordsOnly_not_in in HH by done.
    destruct ((n <? 2)%N || (4 <? n)%N) eqn:Hn; [discriminate|].
    destruct E; simpl in HH; try discriminate.
    unfold bind in HH.
    destruct (Helper fuel Diags SM VD TLR (BuiltinTy k) st)
      as [[[T0|] st1]| | | |] eqn:E1; try discriminate.
    inversion HH; subst.
    rewrite Helper_BuiltinTy in E1. unfold bind, SPS_count, ret in E1.
    rewrite recordsOnly_not_in in E1 by done.
    destruct (SupportedBuiltin k) eqn:Hk; inversion E1; subst. done.
  - rewrite Helper_ConstantArrayTy in HH. unfold bind at 1 in HH.
    unfold SPS_count in HH. rewrite recordsOnly_not_in in HH by done.
    unfold ConstantArrayTypeExportableHelper in HH.
    destruct (isArrayType E) eqn:Harr;
      [by apply Reject_never_accepts in HH|].
    assert (Hrec : ∀ A : Ty,
              (r <-- Helper fuel Diags SM VD TLR E ;;
               match r with
               | None => ret None
               | Some _ => ret (Some A)
               end) st = Done (Some T', st') →
              fieldsPointerless pending (SPS st') ∧ pointerless (inRecord TLR) (SPS st') E).
    { intros A. unfold bind.
      destruct (Helper fuel Diags SM VD TLR E st)
        as [[[E'|] st1]| | | |] eqn:E1; try discriminate.
      intros [= <- <-]. by eapply IHE. }
    destruct E as [k|RD|P|B w|E0 n0|E0|nm|R]; try (by apply (Hrec _ HH)).
    destruct (bool_decide (getTypeClass B = TC_Builtin)) eqn:HB;
      unfold IsPrimitiveType in HH; rewrite HB in HH; cbn [negb] in HH;
      [|by apply Reject_never_accepts in HH].
    destruct (bool_decide (w = 3%N) && negb (bool_decide (n = 1%N))) eqn:H3;
      [by apply Reject_never_accepts in HH|].
    by apply (Hrec _ HH).
  - by rewrite Helper_other in HH.
  - by rewrite Helper_other in HH.
  - by rewrite Helper_other in HH.
Qed.

(** A type in which the check comes upon a pointer below a record is never
    accepted. *)
Lemma TypeExportable_holdsPointer T Diags SM VD (ds ds' : list Diagnostic) T' :
  holds false T → TypeExportable' T Diags SM VD ds ≠ Done (Some T', ds').
Proof.
  intros Hh HT. unfold TypeExportable in HT.
  destruct (Helper _ _ _ _ _ _ _) as [[r st']| | | |] eqn:E; try discriminate.
  injection HT as -> <-.
  eapply (Helper_clear _ _ _ _ _ _ _ _ _ (λ _, False)) in E as [Hc Ht].
  - by eapply fieldsClear_holdsPointer.
  - apply recordsOnly_nil.
  - intros RD Def FD HRD. inversion HRD.
Qed.

(** It is rejected, unless an assertion stops the check first. *)
Lemma TypeExportable_rejects_holdsPointer T Diags SM VD (ds : list Diagnostic) :
  holds false T →
  match TypeExportable' T Diags SM VD ds with
  | Done (None, _) | AssertFailed _ => True
  | _ => False
  end
  ∧ ((∀ RD, tagKind (decls RD) ≠ TTK_Class) →
     Diags && SM = false ∨ is_Some VD →
     ∃ ds', TypeExportable' T Diags SM VD ds = Done (None, ds')).
Proof.
  intros Hh.
  pose proof (TypeExportable_holdsPointer T Diags SM VD ds) as Hnever.
  pose proof (TypeExportable_returns SupportedBuiltin RSSpecificTypeMap decls
                definitions T Diags SM VD ds) as Hret.
  split.
  - pose proof (contained_Helper SupportedBuiltin RSSpecificTypeMap decls
                  definitions true (size definitions) Diags SM VD None T
                  (or_introl eq_refl) (or_introl eq_refl)
                  (mkCheckState [] ds)) as Hc.
    unfold TypeExportable in *.
    destruct (Helper _ _ _ _ _ _ _) as [[[T'|] st']| | | |]; try done.
    by destruct (Hnever (reported st') T' Hh).
  - intros Hclass Htarget.
    assert (Hna : contained false
                    (Helper (size definitions) Diags SM VD None T)).
    { apply contained_Helper; [by right|]. right. destruct Htarget; auto. }
    specialize (Hna (mkCheckState [] ds)).
    unfold TypeExportable in *.
    destruct (Helper _ _ _ _ _ _ _) as [[[T'|] st']| | | |]; try done.
    + by destruct (Hnever (reported st') T' Hh).
    + by eexists.
Qed.

(** C3, amended. With only records in the visited set: (1) a pointer met
    while a top-level record is set is rejected, and with a sink the one
    diagnostic reported names that record; (2) at top level a pointer to
    a pointer is accepted without the pointee being looked at; (3) at top
    level a pointer to an array is rejected; (4) at top level any other
    pointer is accepted exactly when the check accepts its pointee.
    (5) So [TypeExportable] rejects every type in which a pointer is met
    below a record: a pointer field of a structure, at any depth of
    structures and arrays, as long as no record on the way to it bears a
    RenderScript name (the fields of such a record are not looked at).
    Such a type is never accepted; the check returns NULL, unless it
    stops at one of its assertions before, which takes a C++ class or a
    diagnostic that has nothing to be reported against.
    (6) The record that the diagnostic names is the top-level one, the
    outermost structure under check: a structure whose first field is a
    pointer is rejected under the name of the top-level record it was met
    below, and under its own name when it is met at top level. *)
Theorem pointer_rules fuel Diags SM VD P (st : CheckState) :
  recordsOnly (SPS st) →
  (∀ TLR,
     Helper fuel Diags SM VD (Some TLR) (PointerTy P) st
     = Done (None,
             if Diags && SM then
               withReport st (declLocation (decls TLR))
                 "structures containing pointers cannot be exported: '%0'"
                 (declName (decls TLR))
             else st))
  ∧ (getTypeClass P = TC_Pointer →
     Helper fuel Diags SM VD None (PointerTy P) st
     = Done (Some (PointerTy P), st))
  ∧ (isArrayType P = true →
     Helper fuel Diags SM VD None (PointerTy P) st = Done (None, st))
  ∧ (getTypeClass P ≠ TC_Pointer → isArrayType P = false →
     Helper fuel Diags SM VD None (PointerTy P) st
     = match Helper fuel Diags SM VD None P st with
       | Done (Some _, st') => Done (Some (PointerTy P), st')
       | r => r
       end)
  ∧ (∀ T (ds : list Diagnostic),
       holdsPointer RSSpecificTypeMap decls definitions false T →
       match TypeExportable' T Diags SM VD ds with
       | Done (None, _) | AssertFailed _ => True
       | _ => False
       end
       ∧ ((∀ RD, tagKind (decls RD) ≠ TTK_Class) →
          Diags && SM = false ∨ is_Some VD →
          ∃ ds', TypeExportable' T Diags SM VD ds = Done (None, ds')))
  ∧ (∀ TLR RD Def FD rest P',
       RecordTy RD ∉ SPS st →
       GetRSSpecificType RSSpecificTypeMap decls (RecordTy RD)
       = DataTypeUnknown →
       tagKind (decls RD) = TTK_Struct → definitions !! RD = Some Def →
       declName (decls RD) ≠ "" →
       hasFlexibleArrayMember Def = false → hasObjectMember Def = false →
       fields Def = FD :: rest →
       canonicalType (fieldQualType FD) = PointerTy P' →
       Helper (S fuel) Diags SM VD TLR (RecordTy RD) st
       = Done (None,
               mkCheckState (RecordTy RD :: SPS st)
                 (reported st
                  ++ if Diags && SM then
                       [mkDiagnostic
                          (Some (declLocation (decls (default RD TLR))))
                          "structures containing pointers cannot be exported: '%0'"
                          [declName (decls (default RD TLR))]]
                     else [])%list)).
Proof.
  intros Hs.
  assert (Hn : bool_decide (PointerTy P ∈ SPS st) = false)
    by (by apply recordsOnly_not_in).
  split; [|split; [|split; [|split; [|split]]]].
  - intros TLR. by apply Helper_pointer_under_record.
  - intros HP. rewrite Helper_PointerTy. unfold bind, SPS_count. rewrite Hn.
    by rewrite (bool_decide_eq_true_2 _ HP).
  - intros HP. rewrite Helper_PointerTy. unfold bind, SPS_count. rewrite Hn.
    destruct P; simpl in HP; try discriminate; reflexivity.
  - intros HP HA. rewrite Helper_PointerTy. unfold bind, SPS_count. rewrite Hn.
    rewrite (bool_decide_eq_false_2 _ HP), HA.
    destruct (Helper fuel Diags SM VD None P st) as [[[T'|] st']| | | |];
      reflexivity.
  - intros T ds Hh. by apply TypeExportable_rejects_holdsPointer.
  - intros TLR RD Def FD rest P' Hnin Hrs Hstruct HDef Hname Hflex Hobj
      Hfields HFD.
    rewrite Helper_RecordTy. unfold bind at 1. unfold SPS_count.
    rewrite (bool_decide_eq_false_2 _ Hnin).
    rewrite (bool_decide_eq_true_2 _ Hrs). cbn [negb].
    unfold isUnionType, isStructureType. rewrite Hstruct.
    rewrite bool_decide_eq_false_2 by done.
    rewrite bool_decide_eq_true_2 by done. cbn [negb].
    unfold getDefinition. rewrite HDef. unfold isEmptyName.
    rewrite (bool_decide_eq_false_2 _ Hname). rewrite Hflex, Hobj. cbn [orb].
    unfold bind at 1. unfold SPS_insert, modify.
    rewrite (bool_decide_eq_false_2 _ Hnin).
    rewrite Hfields. cbn [checkFields]. unfold bind at 1. unfold bind at 1.
    unfold GET_CANONICAL_TYPE, GetTypeOfDecl. rewrite HFD.
    assert (Hs1 : recordsOnly
                    (SPS (mkCheckState (RecordTy RD :: SPS st) (reported st)))).
    { intros X HX. apply elem_of_cons in HX as [->|HX]; [done | by apply Hs]. }
    assert (Htop : match TLR with
                   | Some _ => TLR
                   | None => Some RD
                   end = Some (default RD TLR)) by (by destruct TLR).
    rewrite Htop. rewrite (Helper_pointer_under_record _ _ _ _ _ _ _ _ _ _ _ Hs1).
    unfold ret, withReport. simpl. destruct (Diags && SM); [done|].
    by rewrite app_nil_r.
Qed.

End PointerRules.

(** The pointer rules at [struct P *] with a sink, and at
    [struct L { struct L *next; int v; }]. *)
Lemma pointer_rules_witness :
  recordsOnly []
  ∧ TypeExportableHelper sampleBuiltins sampleRSTypes sampleDecls
      sampleDefinitions 1 true true None (Some 3) (PointerTy (RecordTy 4))
      (mkCheckState [] [])
    = Done (None,
            mkCheckState []
              [mkDiagnostic (Some 40)
                 "structures containing pointers cannot be exported: '%0'"
                 ["L"]])
  ∧ holdsPointer sampleRSTypes sampleDecls sampleDefinitions false
      (RecordTy 3)
  ∧ (∃ ds',
       TypeExportable sampleBuiltins sampleRSTypes sampleDecls
         sampleDefinitions (RecordTy 3) false true None []
       = Done (None, ds'))
  ∧ TypeExportableHelper sampleBuiltins sampleRSTypes sampleDecls
      sampleDefinitions 2 true true None (Some 0) (RecordTy 3)
      (mkCheckState [] [])
    = Done (None,
            mkCheckState [RecordTy 3]
              [mkDiagnostic (Some 10)
                 "structures containing pointers cannot be exported: '%0'"
                 ["S"]]).
Proof.
  assert (Hh : holdsPointer sampleRSTypes sampleDecls sampleDefinitions false
                 (RecordTy 3)).
  { apply (holdsPointer_field _ _ _ false 3
             (mkRecordDef
                [mkFieldDecl "next" 41 (written (PointerTy (RecordTy 3)))
                   false;
                 mkFieldDecl "v" 42 (written IntTy) false]
                false false false 64 [0%N; 32%N])
             (mkFieldDecl "next" 41 (written (PointerTy (RecordTy 3))) false));
      [vm_compute; reflexivity | vm_compute; reflexivity
      | apply list_elem_of_here | apply holdsPointer_here]. }
  split; [exact recordsOnly_nil|].
  split.
  - exact (proj1 (pointer_rules sampleBuiltins sampleRSTypes sampleDecls
                    sampleDefinitions 1 true true None (RecordTy 4)
                    (mkCheckState [] []) recordsOnly_nil) 3).
  - split; [exact Hh|]. split.
    + exact (proj2 (proj1 (proj2 (proj2 (proj2 (proj2
               (pointer_rules sampleBuiltins sampleRSTypes sampleDecls
                  sampleDefinitions 1 false true None (RecordTy 4)
                  (mkCheckState [] []) recordsOnly_nil)))))
               (RecordTy 3) [] Hh) sample_no_class (or_introl eq_refl)).
    + exact (proj2 (proj2 (proj2 (proj2 (proj2
               (pointer_rules sampleBuiltins sampleRSTypes sampleDecls
                  sampleDefinitions 1 true true None (RecordTy 4)
                  (mkCheckState [] []) recordsOnly_nil)))))
               (Some 0) 3
               (mkRecordDef
                  [mkFieldDecl "next" 41 (written (PointerTy (RecordTy 3)))
                     false;
                   mkFieldDecl "v" 42 (written IntTy) false]
                  false false false 64 [0%N; 32%N])
               (mkFieldDecl "next" 41 (written (PointerTy (RecordTy 3)))
                  false)
               [mkFieldDecl "v" 42 (written IntTy) false]
               (RecordTy 3)
               ltac:(intros H; inversion H) ltac:(vm_compute; reflexivity)
               eq_refl ltac:(vm_compute; reflexivity) ltac:(discriminate)
               eq_refl eq_refl eq_refl eq_refl).
Defined.

(** The claim C3 fails where a record bears a RenderScript name. In
    [struct S { rs_allocation a; }] with
    [typedef struct { int *p; } rs_allocation] a pointer field lies inside
    the exported structure; the check accepts [rs_allocation] by its name
    without looking at its field, and so accepts [struct S], and reports
    nothing. *)
Lemma pointer_inside_rs_named_record_accepted :
  (λ Def, fieldQualType <$> fields Def) <$> sampleHandles !! 0
  = Some [written (RecordTy 7)]
  ∧ (λ Def, fieldQualType <$> fields Def) <$> sampleHandles !! 7
    = Some [written (PointerTy IntTy)]
  ∧ TypeExportable sampleBuiltins sampleRSTypes sampleDecls sampleHandles
      (RecordTy 7) true true None []
    = Done (Some (RecordTy 7), [])
  ∧ TypeExportable sampleBuiltins sampleRSTypes sampleDecls sampleHandles
      (RecordTy 0) true true None []
    = Done (Some (RecordTy 0), []).
Proof. repeat split; vm_compute; reflexivity. Qed.

(** ** The registry over a compilation *)

Section Registry.

Variable SupportedBuiltin : BuiltinType.Kind → option (DataType * string).
Variable RSSpecificTypeMap : gmap string DataType.
Variable decls : nat → RecordDecl.
Variable definitions : gmap nat RecordDef.

Abbreviation Create :=
  (RSExportType_Create SupportedBuiltin RSSpecificTypeMap decls definitions).
Abbreviation later :=
  (afterCreates SupportedBuiltin RSSpecificTypeMap decls definitions).

Lemma afterCreates_keeps ctx ctx' : later ctx ctx' → registryKeeps ctx ctx'.
Proof.
  induction 1 as [ctx|fuel T ctx r ctx1 ctx2 HC _ IH];
    [apply registryKeeps_refl|].
  eapply registryKeeps_trans; [|exact IH]. by eapply Create_keeps.
Qed.

(** C1, amended. Let the names of builtins and records be identifiers
    (none begins with a star). If [T] is exportable with a canonical name
    that does not begin with the prefix of dummy names (so [T] is no
    constant array) and [RSExportType::Create] returns an export type for
    [T], then that object is registered under the canonical name, and
    every later call for [T], after any number of calls of
    [RSExportType::Create] on any types in between, finds it there and
    returns the same object, leaving the context as it is. *)
Theorem create_twice_returns_same_object fuel T TypeName ctx this ctx' :
  plainNames SupportedBuiltin decls →
  canonicalName SupportedBuiltin RSSpecificTypeMap decls definitions T
  = Some TypeName →
  String.prefix DUMMY_RS_TYPE_NAME_PREFIX TypeName = false →
  Create fuel T ctx = Done (Some this, ctx') →
  export_types ctx' !! TypeName = Some this
  ∧ ∀ ctx'', later ctx' ctx'' →
      export_types ctx'' !! TypeName = Some this
      ∧ ∀ fuel', Create fuel' T ctx'' = Done (Some this, ctx'').
Proof.
  intros Hplain Hname Hlt HC.
  pose proof (Create_registered _ _ _ _ _ _ _ _ _ _ Hplain Hname Hlt HC)
    as Hreg.
  split; [done|]. intros ctx'' Hlater.
  pose proof (afterCreates_keeps _ _ Hlater _ _ Hreg) as Hreg''.
  split; [done|]. intros fuel'.
  rewrite Create_unfold. unfold bind at 1.
  rewrite (canonicalName_Some _ _ _ _ _ _ ctx'' Hname).
  unfold RSExportType_CreateWithName. unfold bind, findExportType.
  by rewrite Hreg''.
Qed.

End Registry.

(** [struct P *], created; [float2] created after it; [struct P *]
    requested again. *)
Lemma create_twice_returns_same_object_witness :
  RSExportType_Create sampleBuiltins sampleRSTypes sampleDecls
    sampleDefinitions 1 (PointerTy (RecordTy 4)) emptyContext
  = Done (Some 2, sampleContext)
  ∧ export_types sampleContext !! "*P" = Some 2
  ∧ afterCreates sampleBuiltins sampleRSTypes sampleDecls sampleDefinitions
      sampleContext sampleContextWithVector
  ∧ RSExportType_Create sampleBuiltins sampleRSTypes sampleDecls
      sampleDefinitions 0 (PointerTy (RecordTy 4)) sampleContextWithVector
    = Done (Some 2, sampleContextWithVector).
Proof.
  assert (E : RSExportType_Create sampleBuiltins sampleRSTypes sampleDecls
                sampleDefinitions 1 (PointerTy (RecordTy 4)) emptyContext
              = Done (Some 2, sampleContext)) by (vm_compute; reflexivity).
  assert (Hn : canonicalName sampleBuiltins sampleRSTypes sampleDecls
                 sampleDefinitions (PointerTy (RecordTy 4)) = Some "*P")
    by (vm_compute; reflexivity).
  assert (Hl : afterCreates sampleBuiltins sampleRSTypes sampleDecls
                 sampleDefinitions sampleContext sampleContextWithVector).
  { apply (afterCreates_call _ _ _ _ 0 (ExtVectorTy FloatTy 2) sampleContext
             (Some 3) sampleContextWithVector);
      [vm_compute; reflexivity | apply afterCreates_now]. }
  destruct (create_twice_returns_same_object sampleBuiltins sampleRSTypes
              sampleDecls sampleDefinitions 1 (PointerTy (RecordTy 4)) "*P"
              emptyContext 2 sampleContext sample_plainNames Hn eq_refl E)
    as [Hreg Hagain].
  split; [exact E|]. split; [exact Hreg|]. split; [exact Hl|].
  exact (proj2 (Hagain sampleContextWithVector Hl) 0).
Defined.

(** ** equals, kind by kind *)

Section EqualsByKind.

Implicit Types (h : gmap nat ExportTypeObj).


End EqualsByKind.



(** ** keep, in full *)

Section KeepInFull.

Implicit Types (h : gmap nat ExportTypeObj).



End KeepInFull.

